(** * TournamentBracket: the bracket engine over the record store

    A shallow embedding of [BracketService] (bracket generation, seeding,
    score reporting, advancement, finalization, reset), of the parts of
    [ParticipantService] it calls, and of the [DB] record store they all
    go through, followed by the properties of the engine.

    Conventions of the embedding.
    - A collection of the store is the list of its records, in the order
      of the stored JSON array ([DB.insert] pushes at the end, [DB.update]
      replaces in place, [DB.deleteWhere] filters).
    - An id is a string; [null] is [None]; a value is "truthy" when it is
      neither [null] nor the empty string (resp. the number 0).
    - Number fields hold integers ([Z]).  The one division whose operands
      are not guarded, in [getFirstMatchNumberOfRound], is carried out in
      [Q], so that its result is the exact quotient as in the source.
    - An exception does not undo the writes made before it: an operation
      returns its outcome together with the store it leaves behind.
    - The record fields the engine never reads or writes (names, logos,
      schedule, venue, notes, timestamps, admin tokens) are left out. *)

From Stdlib Require Import ZArith QArith Qround List Ascii String Bool Lia.
From Stdlib Require Import Sorting.Sorted Permutation.
From Stdlib Require Import Decimal DecimalString DecimalZ DecimalPos.
Import ListNotations.
Open Scope string_scope.
Open Scope list_scope.
Open Scope Z_scope.

(** ** Records *)

Definition Id := string.

Record Tournament := mkTournament {
  t_id : Id;
  t_status : string;            (* draft | registration | ongoing | completed *)
  t_participantCount : Z;
  t_totalRounds : Z;
  t_currentRound : Z;
  t_endDate : option string
}.

Record Participant := mkParticipant {
  p_id : Id;
  p_tournamentId : Id;
  p_seed : option Z;
  p_status : string;            (* active | eliminated | withdrawn *)
  p_eliminatedAtRound : option Z
}.

Record Match := mkMatch {
  m_id : Id;
  m_tournamentId : Id;
  m_round : Z;
  m_matchNumber : Z;
  m_participant1Id : option Id;
  m_participant2Id : option Id;
  m_winnerId : option Id;
  m_score1 : option Z;
  m_score2 : option Z;
  m_status : string             (* pending | upcoming | live | completed *)
}.

Record Result := mkResult {
  r_id : Id;
  r_tournamentId : Id;
  r_championId : Id;
  r_runnerUpId : Id;
  r_thirdPlaceIds : list Id;
  r_totalMatches : Z;
  r_totalParticipants : Z
}.

(** The store: the four collections, and the number of ids handed out so
    far ([DB.generateId] is a clock-and-random string in the source; here
    the n-th id generated is [genId n], for an arbitrary [genId]). *)
Record DB := mkDB {
  TOURNAMENTS : list Tournament;
  PARTICIPANTS : list Participant;
  MATCHES : list Match;
  RESULTS : list Result;
  idSupply : nat
}.

(** What a [throw new Error(...)] of the engine is, named after the error
    kinds of the specification:
    - [NotFound]: 'Tournament tidak ditemukan', 'Match tidak ditemukan'
    - [AlreadyGenerated]: 'Bracket sudah di-generate'
    - [InvalidTopology]: 'Jumlah peserta harus kelipatan 2 (4, 8, 16, 32, 64)'
    - [IncompleteRoster]: 'Jumlah peserta tidak sesuai (..)'
    - [MatchNotReady]: 'Match belum siap dimainkan'
    - [IncompleteMatch]: 'Peserta belum lengkap'
    - [InvalidScore]: 'Skor tidak boleh negatif'
    - [DrawNotAllowed]: 'Skor tidak boleh sama (seri). Tentukan pemenang.'
    - [CannotResetCompleted]: 'Tidak dapat reset tournament yang sudah selesai'
    - [TypeError]: reading a property of [null] (a tournament that is gone)
    - [BracketCorruption]: named by the specification only; no statement
      of the source throws it. *)
Inductive Exn :=
| NotFound | AlreadyGenerated | InvalidTopology | IncompleteRoster
| MatchNotReady | IncompleteMatch | InvalidScore | DrawNotAllowed
| CannotResetCompleted | TypeError | BracketCorruption.

Inductive Outcome (A : Type) :=
| Returned (a : A)
| Thrown (e : Exn).
Arguments Returned {A} a.
Arguments Thrown {A} e.

(** ** The monad of store operations *)

Definition M (A : Type) : Type := DB -> Outcome A * DB.

Definition ret {A} (a : A) : M A := fun db => (Returned a, db).
Definition throw {A} (e : Exn) : M A := fun db => (Thrown e, db).
Definition bind {A B} (m : M A) (k : A -> M B) : M B :=
  fun db =>
    match m db with
    | (Returned a, db') => k a db'
    | (Thrown e, db') => (Thrown e, db')
    end.
Definition gets {A} (f : DB -> A) : M A := fun db => (Returned (f db), db).
Definition modify (f : DB -> DB) : M unit := fun db => (Returned tt, f db).

Declare Scope store_scope.
Delimit Scope store_scope with store.
Notation "x <- m ;; k" := (bind m (fun x => k))
  (at level 61, m at next level, right associativity) : store_scope.
Notation "m ;;; k" := (bind m (fun _ => k))
  (at level 61, right associativity) : store_scope.

(** ** JavaScript values *)

(** [!!id] for an id that is a string or [null]. *)
Definition truthyId (o : option Id) : option Id :=
  match o with
  | Some s => if String.eqb s "" then None else Some s
  | None => None
  end.

(** [!!n] for a number or [null]. *)
Definition truthyNum (o : option Z) : option Z :=
  match o with
  | Some n => if n =? 0 then None else Some n
  | None => None
  end.

(** ToInt32, the conversion the bitwise operators apply to their operands. *)
Definition toInt32 (n : Z) : Z := (n + 2 ^ 31) mod 2 ^ 32 - 2 ^ 31.

(** [a[k]] for an array [a] and an integer [k]: [undefined] out of range. *)
Definition arrayGet {A} (a : list A) (k : Z) : option A :=
  if k <? 0 then None else nth_error a (Z.to_nat k).

(** [Array.prototype.sort(cmp)]: the sort is stable, and for a comparator
    that is a total preorder its result is the stable sorted arrangement,
    which is what inserting from the right computes. *)
Fixpoint insertBy {A} (cmp : A -> A -> Z) (x : A) (l : list A) : list A :=
  match l with
  | [] => [x]
  | y :: r => if cmp x y <=? 0 then x :: y :: r else y :: insertBy cmp x r
  end.

Definition jsSort {A} (cmp : A -> A -> Z) (l : list A) : list A :=
  fold_right (insertBy cmp) [] l.

(** ** DB: the record store (database.js) *)

Section Store.
Context {A : Type} (ident : A -> Id).

(** [items.find(item => item.id === id) || null] *)
Definition getById (items : list A) (id : Id) : option A :=
  List.find (fun item => String.eqb (ident item) id) items.

(** [DB.update]: the first record with that id is merged with the
    partial update [upd]; without one the collection is left as it is. *)
Fixpoint update (items : list A) (id : Id) (upd : A -> A) : list A :=
  match items with
  | [] => []
  | x :: r => if String.eqb (ident x) id then upd x :: r
              else x :: update r id upd
  end.

(** [DB.insert]: push at the end. *)
Definition insert (items : list A) (item : A) : list A := items ++ [item].

(** [DB.deleteWhere]: keep the records that do not meet the criteria. *)
Definition deleteWhere (items : list A) (criteria : A -> bool) : list A :=
  filter (fun item => negb (criteria item)) items.
End Store.

Definition setTOURNAMENTS (f : list Tournament -> list Tournament) (db : DB) : DB :=
  mkDB (f (TOURNAMENTS db)) (PARTICIPANTS db) (MATCHES db) (RESULTS db) (idSupply db).
Definition setPARTICIPANTS (f : list Participant -> list Participant) (db : DB) : DB :=
  mkDB (TOURNAMENTS db) (f (PARTICIPANTS db)) (MATCHES db) (RESULTS db) (idSupply db).
Definition setMATCHES (f : list Match -> list Match) (db : DB) : DB :=
  mkDB (TOURNAMENTS db) (PARTICIPANTS db) (f (MATCHES db)) (RESULTS db) (idSupply db).
Definition setRESULTS (f : list Result -> list Result) (db : DB) : DB :=
  mkDB (TOURNAMENTS db) (PARTICIPANTS db) (MATCHES db) (f (RESULTS db)) (idSupply db).
Definition tickId (db : DB) : DB :=
  mkDB (TOURNAMENTS db) (PARTICIPANTS db) (MATCHES db) (RESULTS db) (S (idSupply db)).

(** [DB.find(DB.KEYS.MATCHES, { tournamentId })] and
    [DB.find(DB.KEYS.MATCHES, { tournamentId, round })]. *)
Definition inTournament (tournamentId : Id) (m : Match) : bool :=
  String.eqb (m_tournamentId m) tournamentId.
Definition inRound (tournamentId : Id) (round : Z) (m : Match) : bool :=
  String.eqb (m_tournamentId m) tournamentId && (m_round m =? round).

Definition findMatches (db : DB) (tournamentId : Id) : list Match :=
  filter (inTournament tournamentId) (MATCHES db).
Definition findRound (db : DB) (tournamentId : Id) (round : Z) : list Match :=
  filter (inRound tournamentId round) (MATCHES db).

(** [.sort((a, b) => a.matchNumber - b.matchNumber)] *)
Definition byMatchNumber (a b : Match) : Z := m_matchNumber a - m_matchNumber b.

(** Partial updates ([{ ...items[index], ...updates }]), one per shape of
    [updates] the engine passes to [DB.update]. *)
Definition setScore (score1 score2 : Z) (winnerId : Id) (m : Match) : Match :=
  mkMatch (m_id m) (m_tournamentId m) (m_round m) (m_matchNumber m)
          (m_participant1Id m) (m_participant2Id m)
          (Some winnerId) (Some score1) (Some score2) "completed".
Definition setPair (participant1Id participant2Id : Id) (m : Match) : Match :=
  mkMatch (m_id m) (m_tournamentId m) (m_round m) (m_matchNumber m)
          (Some participant1Id) (Some participant2Id)
          (m_winnerId m) (m_score1 m) (m_score2 m) "upcoming".
Definition setParticipant1 (winnerId : Id) (m : Match) : Match :=
  mkMatch (m_id m) (m_tournamentId m) (m_round m) (m_matchNumber m)
          (Some winnerId) (m_participant2Id m)
          (m_winnerId m) (m_score1 m) (m_score2 m) (m_status m).
Definition setParticipant2 (winnerId : Id) (m : Match) : Match :=
  mkMatch (m_id m) (m_tournamentId m) (m_round m) (m_matchNumber m)
          (m_participant1Id m) (Some winnerId)
          (m_winnerId m) (m_score1 m) (m_score2 m) (m_status m).
Definition setMatchStatus (status : string) (m : Match) : Match :=
  mkMatch (m_id m) (m_tournamentId m) (m_round m) (m_matchNumber m)
          (m_participant1Id m) (m_participant2Id m)
          (m_winnerId m) (m_score1 m) (m_score2 m) status.

Definition setEliminated (round : Z) (p : Participant) : Participant :=
  mkParticipant (p_id p) (p_tournamentId p) (p_seed p) "eliminated" (Some round).
Definition setActive (p : Participant) : Participant :=
  mkParticipant (p_id p) (p_tournamentId p) (p_seed p) "active" None.

Definition setRegistration (totalRounds : Z) (t : Tournament) : Tournament :=
  mkTournament (t_id t) "registration" (t_participantCount t) totalRounds
               (t_currentRound t) (t_endDate t).
Definition setCurrentRound (round : Z) (t : Tournament) : Tournament :=
  mkTournament (t_id t) (t_status t) (t_participantCount t) (t_totalRounds t)
               round (t_endDate t).
Definition setCompleted (currentRound : Z) (endDate : string) (t : Tournament) : Tournament :=
  mkTournament (t_id t) "completed" (t_participantCount t) (t_totalRounds t)
               currentRound (Some endDate).
(** [{ status }], the update of [TournamentService.start] and
    [TournamentService.updateStatus]. *)
Definition setStatus (status : string) (t : Tournament) : Tournament :=
  mkTournament (t_id t) status (t_participantCount t) (t_totalRounds t)
               (t_currentRound t) (t_endDate t).
Definition setDraft (t : Tournament) : Tournament :=
  mkTournament (t_id t) "draft" (t_participantCount t) (t_totalRounds t)
               1 (t_endDate t).

Definition updateMATCHES (id : Id) (upd : Match -> Match) : DB -> DB :=
  setMATCHES (fun items => update m_id items id upd).
Definition updatePARTICIPANTS (id : Id) (upd : Participant -> Participant) : DB -> DB :=
  setPARTICIPANTS (fun items => update p_id items id upd).
Definition updateTOURNAMENTS (id : Id) (upd : Tournament -> Tournament) : DB -> DB :=
  setTOURNAMENTS (fun items => update t_id items id upd).

Definition getTournament (db : DB) (id : Id) : option Tournament :=
  getById t_id (TOURNAMENTS db) id.
Definition getMatchById (db : DB) (id : Id) : option Match :=
  getById m_id (MATCHES db) id.
Definition getParticipant (db : DB) (id : Id) : option Participant :=
  getById p_id (PARTICIPANTS db) id.

(** ** ParticipantService (the two entry points the engine calls) *)

(** [a.seed || 999] *)
Definition seedOr999 (p : Participant) : Z :=
  match truthyNum (p_seed p) with Some s => s | None => 999 end.

Definition getByTournament (db : DB) (tournamentId : Id) : list Participant :=
  jsSort (fun a b => seedOr999 a - seedOr999 b)
         (filter (fun p => String.eqb (p_tournamentId p) tournamentId)
                 (PARTICIPANTS db)).

Definition eliminate (id : Id) (round : Z) : DB -> DB :=
  updatePARTICIPANTS id (setEliminated round).

(** ** BracketService *)

(** [n > 0 && (n & (n - 1)) === 0], for an integer [n] of magnitude up
    to [2^53], where the subtraction [n - 1] of the source (in double
    precision) is exact. *)
Definition isPowerOfTwo (n : Z) : bool :=
  (0 <? n) && (Z.land (toInt32 n) (toInt32 (n - 1)) =? 0).

(** The comparator of [assignParticipants]: seeded before unseeded, seeded
    ones by seed. *)
Definition bySeed (a b : Participant) : Z :=
  match truthyNum (p_seed a), truthyNum (p_seed b) with
  | Some sa, Some sb => sa - sb
  | Some _, None => -1
  | None, Some _ => 1
  | None, None => 0
  end.

(** [for (let i = 0; i < n / 2; i++) pairs.push([participants[i],
    participants[n - 1 - i]])]; [count] is the number of turns left. *)
Fixpoint pairLoop (participants : list Participant) (n : Z) (count : nat) (i : Z)
    (pairs : list (option Participant * option Participant))
    : list (option Participant * option Participant) :=
  match count with
  | O => pairs
  | S count' =>
      pairLoop participants n count' (i + 1)
               (pairs ++ [(arrayGet participants i, arrayGet participants (n - 1 - i))])
  end.

(** [i < n / 2] holds for the integers [0 <= i < (n + 1) / 2] (the
    quotient [n / 2] of the source is not rounded). *)
Definition createSeedPairings (participants : list Participant)
    : list (option Participant * option Participant) :=
  let n := Z.of_nat (List.length participants) in
  pairLoop participants n (Z.to_nat ((n + 1) / 2)) 0 [].

(** [1 + participantCount / 2 + ... + participantCount / 2^(round-1)], the
    loop [for (let r = 1; r < round; r++) matchNumber += participantCount /
    Math.pow(2, r)], with the quotients exact. *)
Fixpoint firstLoop (participantCount : Z) (count : nat) (r : Z) (matchNumber : Q) : Q :=
  match count with
  | O => matchNumber
  | S count' =>
      firstLoop participantCount count' (r + 1)
                (matchNumber + inject_Z participantCount / inject_Z (2 ^ r))%Q
  end.

Definition firstMatchNumber (participantCount round : Z) : Q :=
  firstLoop participantCount (Z.to_nat (round - 1)) 1 1%Q.

Definition getFirstMatchNumberOfRound (db : DB) (tournamentId : Id) (round : Z)
    : Outcome Q :=
  match getTournament db tournamentId with
  | None => Thrown TypeError
  | Some tournament => Returned (firstMatchNumber (t_participantCount tournament) round)
  end.

(** [x % 2 === 0] *)
Definition isEven (x : Q) : bool :=
  Qeq_bool x (inject_Z (2 * Qfloor (x / 2))).

Section Engine.
(** The n-th id [DB.generateId] hands out, and the day [new Date()] reads. *)
Variable genId : nat -> Id.
Variable today : string.

Definition insertMatch (item : Id -> Match) (db : DB) : Match * DB :=
  let newItem := item (genId (idSupply db)) in
  (newItem, tickId (setMATCHES (fun items => insert items newItem) db)).

Definition insertResult (item : Id -> Result) (db : DB) : Result * DB :=
  let newItem := item (genId (idSupply db)) in
  (newItem, tickId (setRESULTS (fun items => insert items newItem) db)).

Definition newMatch (tournamentId : Id) (round matchNumber : Z) (id : Id) : Match :=
  mkMatch id tournamentId round matchNumber None None None None None "pending".

(** The inner loop of [generate]; [count] is the number of turns left. *)
Fixpoint generateRound (tournamentId : Id) (round : Z) (count : nat)
    (st : DB * Z * list Match) : DB * Z * list Match :=
  match count with
  | O => st
  | S count' =>
      let '(db, matchNumber, matches) := st in
      let (mt, db') := insertMatch (newMatch tournamentId round matchNumber) db in
      generateRound tournamentId round count' (db', matchNumber + 1, matches ++ [mt])
  end.

(** The outer loop of [generate], from [round] on. *)
Fixpoint generateRounds (tournamentId : Id) (participantCount : Z) (count : nat)
    (round : Z) (st : DB * Z * list Match) : DB * Z * list Match :=
  match count with
  | O => st
  | S count' =>
      let matchesInRound := participantCount / 2 ^ round in
      generateRounds tournamentId participantCount count' (round + 1)
        (generateRound tournamentId round (Z.to_nat matchesInRound) st)
  end.

(** [generate]: past the power-of-two guard [Math.log2] and the
    quotients [participantCount / Math.pow(2, round)] are integers (for
    counts below [2^31], where the bitwise guard is exact). *)
Definition generate (tournamentId : Id) : M (list Match) :=
  fun db =>
    match getTournament db tournamentId with
    | None => (Thrown NotFound, db)
    | Some tournament =>
        if negb (String.eqb (t_status tournament) "draft")
        then (Thrown AlreadyGenerated, db)
        else
          let participantCount := t_participantCount tournament in
          if negb (isPowerOfTwo participantCount)
          then (Thrown InvalidTopology, db)
          else
            let totalRounds := Z.log2 participantCount in
            let '(db1, _, matches) :=
              generateRounds tournamentId participantCount
                             (Z.to_nat totalRounds) 1 (db, 1, []) in
            (Returned matches,
             updateTOURNAMENTS tournamentId (setRegistration totalRounds) db1)
    end.

(** The [forEach] of [assignParticipants], from position [index] on. *)
Fixpoint assignPairs (firstRoundMatches : list Match)
    (pairs : list (option Participant * option Participant)) (index : Z)
    : M unit :=
  match pairs with
  | [] => ret tt
  | pr :: rest =>
      match arrayGet firstRoundMatches index with
      | Some mt =>
          match pr with
          | (Some a, Some b) =>
              (modify (updateMATCHES (m_id mt) (setPair (p_id a) (p_id b))) ;;;
               assignPairs firstRoundMatches rest (index + 1))%store
          | _ => throw TypeError
          end
      | None => assignPairs firstRoundMatches rest (index + 1)
      end
  end.

Definition assignParticipants (tournamentId : Id) : M (list Match) :=
  fun db =>
    match getTournament db tournamentId with
    | None => (Thrown NotFound, db)
    | Some tournament =>
        let participants := getByTournament db tournamentId in
        if negb (Z.of_nat (List.length participants) =? t_participantCount tournament)
        then (Thrown IncompleteRoster, db)
        else
          let firstRoundMatches :=
            jsSort byMatchNumber (findRound db tournamentId 1) in
          let sortedParticipants := jsSort bySeed participants in
          let pairedParticipants := createSeedPairings sortedParticipants in
          (assignPairs firstRoundMatches pairedParticipants 0 ;;;
           gets (fun db' => findRound db' tournamentId 1))%store db
    end.

(** [nextMatches[nextMatchIndex]]: the match of the next round the
    winner goes to, if there is one; [index] is [matchIndexInRound]. *)
Definition nextMatchOf (db : DB) (mt : Match) (index : Q) : option Match :=
  let nextMatchIndex := Qfloor (index / 2) in
  let nextMatches :=
    jsSort byMatchNumber (findRound db (m_tournamentId mt) (m_round mt + 1)) in
  arrayGet nextMatches nextMatchIndex.

(** The update of the destination match: the slot by the parity of the
    position, and 'upcoming' once both slots of the merged record are
    truthy. *)
Definition advanceInto (index : Q) (winnerId : Id) (currentData : Match) : Match :=
  let updatedData :=
    if isEven index then setParticipant1 winnerId currentData
    else setParticipant2 winnerId currentData in
  match truthyId (m_participant1Id updatedData),
        truthyId (m_participant2Id updatedData) with
  | Some _, Some _ => setMatchStatus "upcoming" updatedData
  | _, _ => updatedData
  end.

(** [advanceWinner]. The unused locals [firstMatchOfRound] and
    [nextMatchNumber] of the source are reads without effect. *)
Definition advanceWinner (mt : Match) (winnerId : Id) : M unit :=
  fun db =>
    match getTournament db (m_tournamentId mt) with
    | None => (Thrown TypeError, db)
    | Some tournament =>
        let nextRound := m_round mt + 1 in
        if nextRound >? t_totalRounds tournament then (Returned tt, db)
        else
          match getFirstMatchNumberOfRound db (m_tournamentId mt) (m_round mt) with
          | Thrown e => (Thrown e, db)
          | Returned first =>
              let matchIndexInRound := (inject_Z (m_matchNumber mt) - first)%Q in
              match nextMatchOf db mt matchIndexInRound with
              | None => (Returned tt, db)     (* console.error; return *)
              | Some nextMatch =>
                  match getMatchById db (m_id nextMatch) with
                  | None => (Thrown TypeError, db)
                  | Some _ =>
                      (Returned tt,
                       updateMATCHES (m_id nextMatch)
                         (advanceInto matchIndexInRound winnerId) db)
                  end
              end
          end
    end.

(** [roundMatches.every(m => m.status === 'completed')] *)
Definition allCompleted (matches : list Match) (round : Z) : bool :=
  forallb (fun m => String.eqb (m_status m) "completed")
          (filter (fun m => m_round m =? round) matches).

(** The loop of [updateCurrentRound], from [round] on: the first round
    that is not all completed, if any of the [count] rounds left is. *)
Fixpoint firstIncompleteRound (matches : list Match) (count : nat) (round : Z)
    : option Z :=
  match count with
  | O => None
  | S count' =>
      if allCompleted matches round
      then firstIncompleteRound matches count' (round + 1)
      else Some round
  end.

Definition updateCurrentRound (tournamentId : Id) : M unit :=
  fun db =>
    match getTournament db tournamentId with
    | None => (Thrown TypeError, db)
    | Some tournament =>
        let matches := findMatches db tournamentId in
        match firstIncompleteRound matches (Z.to_nat (t_totalRounds tournament)) 1 with
        | Some round =>
            if negb (t_currentRound tournament =? round)
            then (Returned tt, updateTOURNAMENTS tournamentId (setCurrentRound round) db)
            else (Returned tt, db)
        | None => (Returned tt, db)
        end
    end.

(** The loser of a semifinal: [m.participant1Id === m.winnerId ?
    m.participant2Id : m.participant1Id], for both ids strings or null. *)
Definition sameId (a b : option Id) : bool :=
  match a, b with
  | Some x, Some y => String.eqb x y
  | None, None => true
  | _, _ => false
  end.

Definition loserOf (m : Match) : option Id :=
  if sameId (m_participant1Id m) (m_winnerId m)
  then m_participant2Id m else m_participant1Id m.

Fixpoint truthyIds (ids : list (option Id)) : list Id :=
  match ids with
  | [] => []
  | o :: r => match truthyId o with
              | Some id => id :: truthyIds r
              | None => truthyIds r
              end
  end.

Definition thirdPlaceOf (matches : list Match) (totalRounds : Z) : list Id :=
  let semiFinalMatches := filter (fun m => m_round m =? totalRounds - 1) matches in
  truthyIds
    (map loserOf
         (filter (fun m => match truthyId (m_winnerId m) with
                           | Some _ => true | None => false end)
                 semiFinalMatches)).

Definition finalizeTournament (tournamentId championId runnerUpId : Id) : M unit :=
  fun db =>
    match getTournament db tournamentId with
    | None => (Thrown TypeError, db)
    | Some tournament =>
        let matches := findMatches db tournamentId in
        let thirdPlaceIds := thirdPlaceOf matches (t_totalRounds tournament) in
        let (_, db1) :=
          insertResult
            (fun id => mkResult id tournamentId championId runnerUpId thirdPlaceIds
                                (Z.of_nat (List.length matches))
                                (t_participantCount tournament))
            db in
        (Returned tt,
         updateTOURNAMENTS tournamentId
           (setCompleted (t_totalRounds tournament) today) db1)
    end.

(** [updateScore]; what it returns is the stored match ([getMatch] joins
    it with its participants and tournament, without writing). *)
Definition updateScore (matchId : Id) (score1 score2 : Z) : M (option Match) :=
  fun db =>
    match getMatchById db matchId with
    | None => (Thrown NotFound, db)
    | Some mt =>
        if String.eqb (m_status mt) "pending" then (Thrown MatchNotReady, db)
        else
          match truthyId (m_participant1Id mt), truthyId (m_participant2Id mt) with
          | Some participant1Id, Some participant2Id =>
              if (score1 <? 0) || (score2 <? 0) then (Thrown InvalidScore, db)
              else if score1 =? score2 then (Thrown DrawNotAllowed, db)
              else
                let winnerId := if score1 >? score2 then participant1Id else participant2Id in
                let loserId := if score1 >? score2 then participant2Id else participant1Id in
                (modify (updateMATCHES matchId (setScore score1 score2 winnerId)) ;;;
                 tournament <- gets (fun db' => getTournament db' (m_tournamentId mt)) ;;
                 modify (eliminate loserId (m_round mt)) ;;;
                 advanceWinner mt winnerId ;;;
                 match tournament with
                 | None => throw TypeError
                 | Some tournament =>
                     if m_round mt =? t_totalRounds tournament
                     then finalizeTournament (m_tournamentId mt) winnerId loserId
                     else updateCurrentRound (m_tournamentId mt)
                 end ;;;
                 gets (fun db' => getMatchById db' matchId))%store db
          | _, _ => (Thrown IncompleteMatch, db)
          end
    end.

(** The [forEach] of [reset] over the participants of the tournament. *)
Fixpoint resetParticipants (participants : list Participant) (db : DB) : DB :=
  match participants with
  | [] => db
  | p :: rest => resetParticipants rest (updatePARTICIPANTS (p_id p) setActive db)
  end.

Definition reset (tournamentId : Id) : M unit :=
  fun db =>
    match getTournament db tournamentId with
    | None => (Thrown NotFound, db)
    | Some tournament =>
        if String.eqb (t_status tournament) "completed"
        then (Thrown CannotResetCompleted, db)
        else
          let db1 := setMATCHES (fun items => deleteWhere items (inTournament tournamentId)) db in
          let db2 :=
            setRESULTS (fun items =>
              deleteWhere items (fun r => String.eqb (r_tournamentId r) tournamentId)) db1 in
          let participants := getByTournament db2 tournamentId in
          let db3 := resetParticipants participants db2 in
          (Returned tt, updateTOURNAMENTS tournamentId setDraft db3)
    end.
End Engine.

(** ** DB: deleting, and what the operations return (database.js) *)

Section StoreReturns.
Context {A : Type} (ident : A -> Id).

(** What [DB.update] returns: the merged record, [null] without one. *)
Definition updated (items : list A) (id : Id) (upd : A -> A) : option A :=
  option_map upd (getById ident items id).

(** [DB.delete]: every record with that id is filtered out; when none had
    it, nothing is saved and the answer is [false]. *)
Definition delete (items : list A) (id : Id) : bool * list A :=
  let filteredItems :=
    filter (fun item => negb (String.eqb (ident item) id)) items in
  if Nat.eqb (List.length filteredItems) (List.length items)
  then (false, items)
  else (true, filteredItems).

(** What [DB.deleteWhere] returns: how many records it deleted. *)
Definition deletedCount (items : list A) (criteria : A -> bool) : Z :=
  Z.of_nat (List.length items)
  - Z.of_nat (List.length (deleteWhere items criteria)).
End StoreReturns.

(** ** The services around the engine *)

(** The reasons [TournamentService.canStart] gives:
    - [TournamentMissing]: 'Tournament tidak ditemukan'
    - [BracketNotGenerated]: 'Bracket belum di-generate'
    - [RosterIncomplete have want]: 'Peserta belum lengkap (have/want)'. *)
Inductive Reason :=
| TournamentMissing
| BracketNotGenerated
| RosterIncomplete (have want : Z).

(** [{ canStart: true }], or [{ canStart: false, reason }]. *)
Inductive StartCheck :=
| Ready
| NotReady (reason : Reason).

(** What the services throw: what escapes the engine or a read of [null]
    ([Raised]), or an error of their own:
    - [ParticipantNotFound]: 'Peserta tidak ditemukan'
    - [TournamentRunning]: 'Tidak dapat menghapus peserta saat turnamen
      berlangsung'
    - [StartRefused reason]: [new Error(check.reason)]
    - [InvalidStatus]: 'Status tidak valid'. *)
Inductive Failure :=
| Raised (e : Exn)
| ParticipantNotFound
| TournamentRunning
| StartRefused (reason : Reason)
| InvalidStatus.

Inductive Answer (A : Type) :=
| Done (a : A)
| Failed (f : Failure).
Arguments Done {A} a.
Arguments Failed {A} f.

(** [{ ...m, participant1Id: null }] and/or [participant2Id: null]. *)
Definition clearSlots (clear1 clear2 : bool) (m : Match) : Match :=
  mkMatch (m_id m) (m_tournamentId m) (m_round m) (m_matchNumber m)
          (if clear1 then None else m_participant1Id m)
          (if clear2 then None else m_participant2Id m)
          (m_winnerId m) (m_score1 m) (m_score2 m) (m_status m).

Definition setWithdrawn (p : Participant) : Participant :=
  mkParticipant (p_id p) (p_tournamentId p) (p_seed p) "withdrawn"
                (p_eliminatedAtRound p).

Definition setSeed (seed : Z) (p : Participant) : Participant :=
  mkParticipant (p_id p) (p_tournamentId p) (Some seed) (p_status p)
                (p_eliminatedAtRound p).

Module ParticipantService.

(** The [forEach] of [delete] over the matches read before it: the slots
    of [mt] that hold [id] are set to [null] in the stored match with the
    id of [mt]; a match without such a slot is not written. *)
Fixpoint removeFromMatches (id : Id) (matches : list Match) (db : DB) : DB :=
  match matches with
  | [] => db
  | mt :: rest =>
      let clear1 := sameId (m_participant1Id mt) (Some id) in
      let clear2 := sameId (m_participant2Id mt) (Some id) in
      removeFromMatches id rest
        (if clear1 || clear2
         then updateMATCHES (m_id mt) (clearSlots clear1 clear2) db
         else db)
  end.

(** [ParticipantService.delete] *)
Definition delete (id : Id) : DB -> Answer bool * DB :=
  fun db =>
    match getParticipant db id with
    | None => (Failed ParticipantNotFound, db)
    | Some participant =>
        match getTournament db (p_tournamentId participant) with
        | None => (Failed (Raised TypeError), db)
        | Some tournament =>
            if String.eqb (t_status tournament) "ongoing"
               || String.eqb (t_status tournament) "completed"
            then (Failed TournamentRunning, db)
            else
              let matches := findMatches db (p_tournamentId participant) in
              let db1 := removeFromMatches id matches db in
              let (deleted, items) := delete p_id (PARTICIPANTS db1) id in
              (Done deleted, setPARTICIPANTS (fun _ => items) db1)
        end
    end.

(** [ParticipantService.withdraw] *)
Definition withdraw (id : Id) : DB -> option Participant * DB :=
  fun db =>
    (updated p_id (PARTICIPANTS db) id setWithdrawn,
     updatePARTICIPANTS id setWithdrawn db).

(** The [forEach] of [autoSeed]: the participant at position [index] of
    the arrangement gets the seed [index + 1]. *)
Fixpoint seedEach (orderedParticipants : list Participant) (index : Z) (db : DB)
    : DB :=
  match orderedParticipants with
  | [] => db
  | p :: rest =>
      seedEach rest (index + 1)
               (updatePARTICIPANTS (p_id p) (setSeed (index + 1)) db)
  end.

(** [ParticipantService.autoSeed]. The arrangement is [shuffleArray] (a
    Fisher-Yates shuffle over [Math.random]) for the method 'random' and
    the sort by name otherwise; names are not in the records, and either
    way it is some rearrangement [arrange] of the list it is given. *)
Definition autoSeed (arrange : list Participant -> list Participant)
    (tournamentId : Id) : DB -> list Participant * DB :=
  fun db =>
    let participants := getByTournament db tournamentId in
    let orderedParticipants := arrange participants in
    let db' := seedEach orderedParticipants 0 db in
    (getByTournament db' tournamentId, db').

End ParticipantService.

(** [TournamentService.getById]: the tournament with its participants,
    its matches by round and match number, and its first result. *)
Record TournamentData := mkTournamentData {
  td_tournament : Tournament;
  td_participants : list Participant;
  td_matches : list Match;
  td_result : option Result
}.

(** [(a, b) => a.round !== b.round ? a.round - b.round
                                   : a.matchNumber - b.matchNumber] *)
Definition byRoundThenNumber (a b : Match) : Z :=
  if negb (m_round a =? m_round b) then m_round a - m_round b
  else m_matchNumber a - m_matchNumber b.

Module TournamentService.

Definition getById (db : DB) (id : Id) : option TournamentData :=
  match getTournament db id with
  | None => None
  | Some tournament =>
      Some (mkTournamentData
              tournament
              (filter (fun p => String.eqb (p_tournamentId p) id) (PARTICIPANTS db))
              (jsSort byRoundThenNumber (findMatches db id))
              (hd_error (filter (fun r => String.eqb (r_tournamentId r) id)
                                (RESULTS db))))
  end.

(** [TournamentService.delete]: the records of the tournament in the three
    other collections first, then the tournament. *)
Definition delete (id : Id) : DB -> bool * DB :=
  fun db =>
    let db1 :=
      setPARTICIPANTS (fun items =>
        deleteWhere items (fun p => String.eqb (p_tournamentId p) id)) db in
    let db2 := setMATCHES (fun items => deleteWhere items (inTournament id)) db1 in
    let db3 :=
      setRESULTS (fun items =>
        deleteWhere items (fun r => String.eqb (r_tournamentId r) id)) db2 in
    let (deleted, items) := delete t_id (TOURNAMENTS db3) id in
    (deleted, setTOURNAMENTS (fun _ => items) db3).

(** [TournamentService.updateStatus]. [this.STATUSES[status]] is truthy
    for the four statuses of the table and for the property names the
    table inherits from its prototype, which [inherited] tells. *)
Definition updateStatus (inherited : string -> bool) (id : Id) (status : string)
    : DB -> Answer (option Tournament) * DB :=
  fun db =>
    if negb (String.eqb status "draft" || String.eqb status "registration"
             || String.eqb status "ongoing" || String.eqb status "completed"
             || inherited status)
    then (Failed InvalidStatus, db)
    else (Done (updated t_id (TOURNAMENTS db) id (setStatus status)),
          updateTOURNAMENTS id (setStatus status) db).

Definition canStart (db : DB) (id : Id) : StartCheck :=
  match getById db id with
  | None => NotReady TournamentMissing
  | Some tournament =>
      if negb (String.eqb (t_status (td_tournament tournament)) "registration")
      then NotReady BracketNotGenerated
      else
        let participantCount := Z.of_nat (List.length (td_participants tournament)) in
        if participantCount <? t_participantCount (td_tournament tournament)
        then NotReady (RosterIncomplete
                         participantCount
                         (t_participantCount (td_tournament tournament)))
        else Ready
  end.

(** [TournamentService.start]; the [startDate] it also writes is not a
    field of the records here (no service reads it back). *)
Definition start (id : Id) : DB -> Answer (option Tournament) * DB :=
  fun db =>
    match canStart db id with
    | NotReady reason => (Failed (StartRefused reason), db)
    | Ready =>
        match assignParticipants id db with
        | (Thrown e, db1) => (Failed (Raised e), db1)
        | (Returned _, db1) =>
            (Done (updated t_id (TOURNAMENTS db1) id (setStatus "ongoing")),
             updateTOURNAMENTS id (setStatus "ongoing") db1)
        end
    end.

End TournamentService.

(** ** TournamentService: statistics *)

(** What [getStats] returns; its [progress], a percentage rounded from a
    floating-point quotient, is not a field here. *)
Record Stats := mkStats {
  st_totalParticipants : Z;
  st_totalMatches : Z;
  st_completedMatches : Z;
  st_pendingMatches : Z;
  st_currentRound : Z;
  st_totalRounds : Z;
  st_totalGoals : Z;
  st_highestScoreMatch : option Match
}.

(** [score || 0] *)
Definition scoreOr0 (score : option Z) : Z :=
  match score with Some s => s | None => 0 end.

(** One turn of the [forEach] of [getStats]; the state is [totalGoals]
    and [highestScore] (its match and its total). *)
Definition tally (state : Z * (option Match * Z)) (mt : Match)
    : Z * (option Match * Z) :=
  let total := scoreOr0 (m_score1 mt) + scoreOr0 (m_score2 mt) in
  (fst state + total,
   if total >? snd (snd state) then (Some mt, total) else snd state).

Definition getStats (db : DB) (id : Id) : option Stats :=
  match TournamentService.getById db id with
  | None => None
  | Some tournament =>
      let matches := td_matches tournament in
      let completedMatches :=
        filter (fun m => String.eqb (m_status m) "completed") matches in
      let (totalGoals, highestScore) :=
        fold_left tally completedMatches (0, (None, 0)) in
      Some (mkStats
              (Z.of_nat (List.length (td_participants tournament)))
              (Z.of_nat (List.length matches))
              (Z.of_nat (List.length completedMatches))
              (Z.of_nat (List.length matches)
               - Z.of_nat (List.length completedMatches))
              (t_currentRound (td_tournament tournament))
              (t_totalRounds (td_tournament tournament))
              totalGoals
              (fst highestScore))
  end.

(** ** BracketService: reading the bracket *)

(** [String(n)] for an integer [n] (below [10^21] in absolute value, where
    the digits are written out in full). *)
Definition numberToString (n : Z) : string :=
  NilZero.string_of_int (Z.to_int n).

Definition getRoundName (round totalRounds : Z) : string :=
  let roundsFromEnd := totalRounds - round in
  if roundsFromEnd =? 0 then "Final"
  else if roundsFromEnd =? 1 then "Semi Final"
  else if roundsFromEnd =? 2 then "Quarter Final"
  else if roundsFromEnd =? 3 then "Round of 16"
  else if roundsFromEnd =? 4 then "Round of 32"
  else if roundsFromEnd =? 5 then "Round of 64"
  else String.append "Round " (numberToString round).

(** A match with the records of its participants and of its winner. *)
Record MatchData := mkMatchData {
  md_match : Match;
  md_participant1 : option Participant;
  md_participant2 : option Participant;
  md_winner : option Participant
}.

Record RoundData := mkRoundData {
  rd_round : Z;
  rd_name : string;
  rd_matches : list MatchData
}.

Record Bracket := mkBracket {
  b_tournament : Tournament;
  b_rounds : list RoundData;
  b_totalRounds : Z;
  b_champion : option Participant
}.

(** [id ? ParticipantService.getById(id) : null] *)
Definition participantOf (db : DB) (id : option Id) : option Participant :=
  match truthyId id with
  | Some i => getParticipant db i
  | None => None
  end.

Definition matchData (db : DB) (m : Match) : MatchData :=
  mkMatchData m (participantOf db (m_participant1Id m))
              (participantOf db (m_participant2Id m))
              (participantOf db (m_winnerId m)).

(** One turn of the [forEach] of [getBracket] on the object [rounds],
    whose entries are listed in the order they were created in: the entry
    of the round is created at its first match, and the match pushed. *)
Fixpoint pushInto (round : Z) (name : string) (data : MatchData)
    (rounds : list RoundData) : list RoundData :=
  match rounds with
  | [] => [mkRoundData round name [data]]
  | rd :: rest =>
      if rd_round rd =? round
      then mkRoundData (rd_round rd) (rd_name rd) (rd_matches rd ++ [data]) :: rest
      else rd :: pushInto round name data rest
  end.

(** [Object.values(rounds)]: the entries whose key is an array index (an
    integer from 0 to 2^32 - 2) come first, by ascending key, and the
    others after them in the order of their creation. *)
Definition isArrayIndex (k : Z) : bool := (0 <=? k) && (k <=? 2 ^ 32 - 2).

Definition objectValues (rounds : list RoundData) : list RoundData :=
  jsSort (fun a b => rd_round a - rd_round b)
         (filter (fun rd => isArrayIndex (rd_round rd)) rounds)
  ++ filter (fun rd => negb (isArrayIndex (rd_round rd))) rounds.

Definition getBracket (db : DB) (tournamentId : Id) : option Bracket :=
  match getTournament db tournamentId with
  | None => None
  | Some tournament =>
      let matches := jsSort byRoundThenNumber (findMatches db tournamentId) in
      let rounds :=
        fold_left
          (fun rounds m =>
             pushInto (m_round m)
                      (getRoundName (m_round m) (t_totalRounds tournament))
                      (matchData db m) rounds)
          matches [] in
      let champion :=
        if String.eqb (t_status tournament) "completed"
        then match filter (fun r => String.eqb (r_tournamentId r) tournamentId)
                          (RESULTS db) with
             | result :: _ => getParticipant db (r_championId result)
             | [] => None
             end
        else None in
      Some (mkBracket tournament (objectValues rounds)
                      (t_totalRounds tournament) champion)
  end.

(** [getMatch]: the match with its round name, participants, winner and
    tournament; reading [totalRounds] of a tournament that is gone is a
    TypeError. *)
Record MatchView := mkMatchView {
  mv_data : MatchData;
  mv_roundName : string;
  mv_tournament : Tournament
}.

Definition getMatch (db : DB) (matchId : Id) : Outcome (option MatchView) :=
  match getMatchById db matchId with
  | None => Returned None
  | Some m =>
      match getTournament db (m_tournamentId m) with
      | None => Thrown TypeError
      | Some tournament =>
          Returned (Some (mkMatchView
                            (matchData db m)
                            (getRoundName (m_round m) (t_totalRounds tournament))
                            tournament))
      end
  end.

(** [updateMatch]: of the four fields it may write ([schedule], [venue],
    [notes], [status]) the records here have the status; [None] is a
    [data.status] that is [undefined]. *)
Definition updateMatch (matchId : Id) (status : option string) : M (option Match) :=
  fun db =>
    match getMatchById db matchId with
    | None => (Thrown NotFound, db)
    | Some _ =>
        let updates :=
          match status with
          | Some s => setMatchStatus s
          | None => fun m => m
          end in
        (Returned (updated m_id (MATCHES db) matchId updates),
         updateMATCHES matchId updates db)
    end.

(** ** A tournament of four, for the worked instances

    The store after [TournamentService.create] of a tournament of four
    and four [ParticipantService.add], then the bracket generated, the
    participants assigned, and the three matches scored.
    ([assignParticipants] is called as it is; [TournamentService.start]
    calls it and then sets the status 'ongoing', which nothing below
    reads.) *)

Definition demoId (n : nat) : Id :=
  String.append "m" (string_of_list_ascii (repeat "x"%char n)).

Definition demoParticipant (id : Id) (seed : Z) : Participant :=
  mkParticipant id "t1" (Some seed) "active" None.

Definition demo0 : DB :=
  mkDB [mkTournament "t1" "draft" 4 2 1 None]
       [demoParticipant "a" 1; demoParticipant "b" 2;
        demoParticipant "c" 3; demoParticipant "d" 4]
       [] [] 0.

Definition demoGenerated : DB := Eval vm_compute in snd (generate demoId "t1" demo0).
Definition demoAssigned : DB := Eval vm_compute in snd (assignParticipants "t1" demoGenerated).
Definition demoSemi1 : DB :=
  Eval vm_compute in snd (updateScore demoId "2024-01-01" "m" 3 1 demoAssigned).
Definition demoSemi2 : DB :=
  Eval vm_compute in snd (updateScore demoId "2024-01-01" "mx" 0 2 demoSemi1).
Definition demoFinal : DB :=
  Eval vm_compute in snd (updateScore demoId "2024-01-01" "mxx" 2 1 demoSemi2).
Definition demoRescored : DB :=
  Eval vm_compute in snd (updateScore demoId "2024-01-01" "mxx" 1 2 demoFinal).

(** The same tournament after the first round is seeded, with its final
    deleted from the store ([DB.delete] on the match). *)
Definition demoCorrupt : DB :=
  Eval vm_compute in
    setMATCHES (filter (fun m => negb (String.eqb (m_id m) "mxx"))) demoAssigned.

(** The tournament of four once its record is gone from the tournaments
    collection (after [DB.delete] on the tournament alone), a draft
    tournament for six, and the tournament of four started by
    [TournamentService.start]. *)
Definition demoOrphan : DB :=
  Eval vm_compute in setTOURNAMENTS (fun _ => []) demoAssigned.
Definition demoSix : DB :=
  mkDB [mkTournament "t6" "draft" 6 0 1 None] [] [] [] 0.
Definition demoStarted : DB :=
  Eval vm_compute in snd (TournamentService.start "t1" demoGenerated).

(** The started tournament of four with its first semifinal scored. *)
Definition demoOngoing : DB :=
  Eval vm_compute in snd (updateScore demoId "2024-01-01" "m" 3 1 demoStarted).

(** ** Notions the properties are stated with *)

(** A partial update that leaves the id of the record alone (every update
    of the engine: none of them writes [id]). *)
Definition keepsId {A} (ident : A -> Id) (upd : A -> A) : Prop :=
  forall x, ident (upd x) = ident x.

(** What never changes about a match once it is inserted: its tournament,
    round and match number. *)
Definition shape (m : Match) : Id * Z * Z :=
  (m_tournamentId m, m_round m, m_matchNumber m).

(** [round] is the lowest round of the tournament with a match that is not
    completed, as read off the matches collection: some stored match of
    the tournament in that round is not completed, and every stored match
    of the tournament in a lower round is. *)
Definition lowestIncompleteRound (db : DB) (tournamentId : Id) (round : Z) : Prop :=
  (exists m, In m (MATCHES db) /\ m_tournamentId m = tournamentId /\
             m_round m = round /\ m_status m <> "completed") /\
  (forall m, In m (MATCHES db) -> m_tournamentId m = tournamentId ->
             m_round m < round -> m_status m = "completed").

(** The rounds of the stored matches of a tournament are
    [1 .. totalRounds]. *)
Definition roundsInRange (db : DB) (tournamentId : Id) (totalRounds : Z) : Prop :=
  forall m, In m (MATCHES db) -> m_tournamentId m = tournamentId ->
            1 <= m_round m <= totalRounds.

(** The matches one turn of the outer loop of [generate] inserts: [count]
    placeholders of round [round], numbered from [firstNumber], with the
    ids generated from the [firstId]-th on. *)
Definition newRound (genId : nat -> Id) (tournamentId : Id) (round : Z)
    (firstId : nat) (firstNumber : Z) (count : nat) : list Match :=
  map (fun i => newMatch tournamentId round (firstNumber + Z.of_nat i)
                         (genId (firstId + i)%nat))
      (seq 0 count).

(** The matches the outer loop inserts in its [count] turns from [round]. *)
Fixpoint newRounds (genId : nat -> Id) (tournamentId : Id) (participantCount : Z)
    (count : nat) (round : Z) (firstId : nat) (firstNumber : Z) : list Match :=
  match count with
  | O => []
  | S count' =>
      let n := Z.to_nat (participantCount / 2 ^ round) in
      newRound genId tournamentId round firstId firstNumber n
      ++ newRounds genId tournamentId participantCount count' (round + 1)
                   (firstId + n)%nat (firstNumber + Z.of_nat n)
  end.

(** A freshly inserted placeholder. *)
Definition placeholder (tournamentId : Id) (m : Match) : Prop :=
  m_tournamentId m = tournamentId /\
  m_participant1Id m = None /\ m_participant2Id m = None /\
  m_winnerId m = None /\ m_score1 m = None /\ m_score2 m = None /\
  m_status m = "pending".

(** The first match number of a round as the specification writes it:
    [1 + sum for k = 1 .. round-1 of participantCount / 2^k]. *)
Definition sumQ (l : list Q) : Q := fold_right Qplus 0%Q l.

Definition firstNumberOfRound (participantCount round : Z) : Q :=
  (1 + sumQ (map (fun k => inject_Z participantCount / inject_Z (2 ^ Z.of_nat k))
                 (seq 1 (Z.to_nat (round - 1)))))%Q.

(** Both participant slots of a match hold an id. *)
Definition bothFilled (m : Match) : bool :=
  match truthyId (m_participant1Id m), truthyId (m_participant2Id m) with
  | Some _, Some _ => true
  | _, _ => false
  end.

(** A participant with a seed ([!!p.seed]). *)
Definition seeded (p : Participant) : bool :=
  match truthyNum (p_seed p) with Some _ => true | None => false end.

(** The participants of a tournament as stored, before any sorting. *)
Definition storedParticipants (db : DB) (tournamentId : Id) : list Participant :=
  filter (fun p => String.eqb (p_tournamentId p) tournamentId) (PARTICIPANTS db).

(** [a] and [b] both have a seed, and [a]'s is not the greater one. *)
Definition seedLe (a b : Participant) : Prop :=
  match truthyNum (p_seed a), truthyNum (p_seed b) with
  | Some sa, Some sb => sa <= sb
  | _, _ => False
  end.

(** What never changes about a tournament while its bracket is played:
    its id, participant count and number of rounds. *)
Definition tshape (t : Tournament) : Id * Z * Z :=
  (t_id t, t_participantCount t, t_totalRounds t).

(** The first match number of round [r] in a bracket of [2^k]. *)
Definition firstZ (k r : Z) : Z := 1 + 2 ^ k - 2 ^ (k - r + 1).

(** The shape of the bracket [generate] builds for [2^k] participants. *)
Definition bracketShape (tournamentId : Id) (k : Z) : list (Id * Z * Z) :=
  map shape (newRounds (fun _ => "") tournamentId (2 ^ k) (Z.to_nat k) 1 0 1).

(** The matches of the tournament are a bracket as [generate] builds it,
    for the participant count and the number of rounds of its record. *)
Definition wellBuilt (db : DB) (tournamentId : Id) : Prop :=
  exists tournament k,
    getTournament db tournamentId = Some tournament /\ 0 <= k /\
    t_participantCount tournament = 2 ^ k /\ t_totalRounds tournament = k /\
    map shape (findMatches db tournamentId) = bracketShape tournamentId k.

(** The stores with a bracket built by [generate] for the tournament (of a
    power of two, without matches before), and then used: through
    [assignParticipants] and [updateScore], whatever their arguments and
    outcomes; through a write of the status of a tournament (as
    [TournamentService.start] and [TournamentService.updateStatus] do);
    through [updateMatch]; and through [generate] for another
    tournament. *)
Inductive built (genId : nat -> Id) (today : string) (tournamentId : Id) : DB -> Prop :=
| built_generate db tournament k created db' :
    getTournament db tournamentId = Some tournament ->
    0 <= k -> t_participantCount tournament = 2 ^ k ->
    findMatches db tournamentId = [] ->
    generate genId tournamentId db = (Returned created, db') ->
    built genId today tournamentId db'
| built_assign db anyId r db' :
    built genId today tournamentId db ->
    assignParticipants anyId db = (r, db') ->
    built genId today tournamentId db'
| built_score db matchId score1 score2 r db' :
    built genId today tournamentId db ->
    updateScore genId today matchId score1 score2 db = (r, db') ->
    built genId today tournamentId db'
| built_status db anyId status :
    built genId today tournamentId db ->
    built genId today tournamentId (updateTOURNAMENTS anyId (setStatus status) db)
| built_mark db matchId status r db' :
    built genId today tournamentId db ->
    updateMatch matchId status db = (r, db') ->
    built genId today tournamentId db'
| built_other db other r db' :
    built genId today tournamentId db ->
    other <> tournamentId ->
    generate genId other db = (r, db') ->
    built genId today tournamentId db'.

(** The id in the first ([true]) or second ([false]) participant slot. *)
Definition slotId (first : bool) (m : Match) : option Id :=
  truthyId (if first then m_participant1Id m else m_participant2Id m).

Definition isCompleted (m : Match) : bool := String.eqb (m_status m) "completed".
Definition isEliminated (p : Participant) : bool := String.eqb (p_status p) "eliminated".

(** The position of a match within its round, in a bracket of [2^k]. *)
Definition indexOf (k : Z) (m : Match) : Z := m_matchNumber m - firstZ k (m_round m).

(** [d] is the match of the next round the winner of [m] goes to. *)
Definition feeds (k : Z) (m d : Match) : Prop :=
  m_round d = m_round m + 1 /\ indexOf k d = indexOf k m / 2.

(** The state of a bracket of [2^k] while every match is scored at most
    once: the ids are distinct; no participant sits in two slots of
    matches still to be played, and none of them is eliminated; a match
    still to be played has left its slot in its destination empty, and the
    destination is still to be played; as many participants are
    eliminated as matches are completed; and a recorded champion is not
    eliminated and has no match left to play. *)
Record sound (db : DB) (tournamentId : Id) (k : Z) : Prop := mkSound {
  sound_rounds : 0 <= k;
  sound_built :
    exists tournament,
      getTournament db tournamentId = Some tournament /\
      t_participantCount tournament = 2 ^ k /\ t_totalRounds tournament = k;
  sound_shape : map shape (findMatches db tournamentId) = bracketShape tournamentId k;
  sound_match_ids : NoDup (map m_id (MATCHES db));
  sound_participant_ids : NoDup (map p_id (PARTICIPANTS db));
  sound_slots :
    forall m1 m2 s1 s2 x,
      In m1 (findMatches db tournamentId) -> In m2 (findMatches db tournamentId) ->
      isCompleted m1 = false -> isCompleted m2 = false ->
      slotId s1 m1 = Some x -> slotId s2 m2 = Some x -> m1 = m2 /\ s1 = s2;
  sound_alive :
    forall m s x,
      In m (findMatches db tournamentId) -> isCompleted m = false ->
      slotId s m = Some x ->
      exists p, getParticipant db x = Some p /\ p_tournamentId p = tournamentId /\
                isEliminated p = false;
  sound_feeders :
    forall m d,
      In m (findMatches db tournamentId) -> In d (findMatches db tournamentId) ->
      feeds k m d -> isCompleted m = false ->
      isCompleted d = false /\ slotId (Z.even (indexOf k m)) d = None;
  sound_count :
    List.length (filter isEliminated (storedParticipants db tournamentId))
    = List.length (filter isCompleted (findMatches db tournamentId));
  sound_champions :
    forall res,
      In res (RESULTS db) -> r_tournamentId res = tournamentId ->
      (exists p, getParticipant db (r_championId res) = Some p /\
                 isEliminated p = false) /\
      (forall m s, In m (findMatches db tournamentId) -> isCompleted m = false ->
                   slotId s m <> Some (r_championId res))
}.

(** The stores reached by playing a tournament once through: the bracket
    of a draft tournament of [2^k >= 2] participants is generated and its
    full roster (distinct non-empty ids, nobody eliminated, no result yet)
    assigned, and then matches that are not completed are scored; the
    status of the tournament may be set in between (as
    [TournamentService.start] sets it to 'ongoing'). *)
Inductive played (genId : nat -> Id) (today : string) (tournamentId : Id) (k : Z)
    : DB -> Prop :=
| played_start db tournament created db1 r db2 :
    getTournament db tournamentId = Some tournament ->
    1 <= k -> t_participantCount tournament = 2 ^ k ->
    findMatches db tournamentId = [] ->
    (forall res, In res (RESULTS db) -> r_tournamentId res <> tournamentId) ->
    NoDup (map p_id (PARTICIPANTS db)) ->
    (forall p, In p (storedParticipants db tournamentId) ->
               p_id p <> "" /\ isEliminated p = false) ->
    generate genId tournamentId db = (Returned created, db1) ->
    NoDup (map m_id (MATCHES db1)) ->
    assignParticipants tournamentId db1 = (Returned r, db2) ->
    played genId today tournamentId k db2
| played_status db status :
    played genId today tournamentId k db ->
    played genId today tournamentId k
           (updateTOURNAMENTS tournamentId (setStatus status) db)
| played_score db matchId score1 score2 mt r db' :
    played genId today tournamentId k db ->
    getMatchById db matchId = Some mt ->
    m_tournamentId mt = tournamentId ->
    isCompleted mt = false ->
    updateScore genId today matchId score1 score2 db = (Returned r, db') ->
    played genId today tournamentId k db'.

(** What [reset] makes of a participant record, for the participants [ps]
    it goes through. *)
Definition restored (ps : list Participant) (p : Participant) : Participant :=
  if existsb (fun q => String.eqb (p_id p) (p_id q)) ps then setActive p else p.

(** What the [forEach] of [ParticipantService.delete] makes of a stored
    match, for the matches [matches] it goes through. *)
Definition cleared (id : Id) (matches : list Match) (m : Match) : Match :=
  match getById m_id matches (m_id m) with
  | Some mt =>
      clearSlots (sameId (m_participant1Id mt) (Some id))
                 (sameId (m_participant2Id mt) (Some id)) m
  | None => m
  end.

(** Two stores with the same tournaments, matches and results (and id
    supply): they differ in their participants at most. *)
Definition sameBracket (db db' : DB) : Prop :=
  TOURNAMENTS db = TOURNAMENTS db' /\ MATCHES db = MATCHES db' /\
  RESULTS db = RESULTS db' /\ idSupply db = idSupply db'.

(** An operation that does not read the participants: on two stores
    with the same bracket it ends alike and leaves the same bracket. *)
Definition blind {A} (m : M A) : Prop :=
  forall db db', sameBracket db db' ->
    fst (m db) = fst (m db') /\ sameBracket (snd (m db)) (snd (m db')).


(** The [forEach] of [getBracket] over [matches], from the entries
    [rounds] on. *)
Definition groupInto (db : DB) (totalRounds : Z) (matches : list Match)
    (rounds : list RoundData) : list RoundData :=
  fold_left
    (fun rounds m =>
       pushInto (m_round m) (getRoundName (m_round m) totalRounds)
                (matchData db m) rounds)
    matches rounds.

(** The entries [rounds] are the groups of the matches [seen]: one entry
    for each round that has a match, under the name of the round, with
    the matches of the round in the order of [seen]. *)
Definition groupsOf (db : DB) (totalRounds : Z) (seen : list Match)
    (rounds : list RoundData) : Prop :=
  NoDup (map rd_round rounds) /\
  (forall m, In m seen -> In (m_round m) (map rd_round rounds)) /\
  (forall rd, In rd rounds ->
     rd_name rd = getRoundName (rd_round rd) totalRounds /\
     rd_matches rd <> [] /\
     rd_matches rd
     = map (matchData db) (filter (fun m => m_round m =? rd_round rd) seen)).

(** The seed [autoSeed] gives the participant with the id [id], if it is
    among [orderedParticipants], whose first gets the seed [index + 1]. *)
Fixpoint seedOf (orderedParticipants : list Participant) (index : Z) (id : Id)
    : option Z :=
  match orderedParticipants with
  | [] => None
  | p :: rest =>
      if String.eqb (p_id p) id then Some (index + 1)
      else seedOf rest (index + 1) id
  end.

(** The participants [orderedParticipants] with the seeds [index + 1],
    [index + 2], ... in this order. *)
Fixpoint numbered (orderedParticipants : list Participant) (index : Z)
    : list Participant :=
  match orderedParticipants with
  | [] => []
  | p :: rest => setSeed (index + 1) p :: numbered rest (index + 1)
  end.

(** What [autoSeed] makes of a participant record. *)
Definition reseeded (orderedParticipants : list Participant) (index : Z)
    (p : Participant) : Participant :=
  match seedOf orderedParticipants index (p_id p) with
  | Some s => setSeed s p
  | None => p
  end.


(** A completed match as a score leaves it: its two participants, one of
    them recorded as the winner, the other eliminated. *)
Definition scoredWell (db : DB) (m : Match) : Prop :=
  exists w l,
    ((m_participant1Id m = Some w /\ m_participant2Id m = Some l) \/
     (m_participant1Id m = Some l /\ m_participant2Id m = Some w)) /\
    m_winnerId m = Some w /\ w <> l /\ w <> "" /\ l <> "" /\
    exists p, getParticipant db l = Some p /\ isEliminated p = true.

(** What is recorded while a bracket of [2^k] is played once through:
    every completed match is scored well, and a result of the tournament
    is there only once its final is completed. *)
Record settled (db : DB) (tournamentId : Id) (k : Z) : Prop := mkSettled {
  settled_matches :
    forall m, In m (findMatches db tournamentId) -> isCompleted m = true ->
              scoredWell db m;
  settled_results :
    forall res, In res (RESULTS db) -> r_tournamentId res = tournamentId ->
      exists m, In m (findMatches db tournamentId) /\ m_round m = k /\
                isCompleted m = true
}.

(** Two participant records that agree on what the bracket reads of
    them: the id, the tournament and the seed. *)
Definition sameSeat (p q : Participant) : Prop :=
  p_id p = p_id q /\ p_tournamentId p = p_tournamentId q /\ p_seed p = p_seed q.

(** The ids of a pair of [createSeedPairings]. *)
Definition pairIds (pr : option Participant * option Participant)
    : option Id * option Id :=
  (option_map p_id (fst pr), option_map p_id (snd pr)).

(** The goals of a match: its two scores, a missing one counting 0. *)
Definition matchTotal (m : Match) : Z :=
  scoreOr0 (m_score1 m) + scoreOr0 (m_score2 m).

(** * Properties *)

(** ** The record store *)

Section StoreFacts.
Context {A : Type} (ident : A -> Id).
Implicit Types (items : list A) (id : Id) (upd : A -> A).

Lemma getById_In items id x :
  getById ident items id = Some x -> In x items /\ ident x = id.
Proof.
  unfold getById. intros H. apply find_some in H.
  destruct H as [Hin Heq]. apply String.eqb_eq in Heq. auto.
Qed.

Lemma getById_update_same items id upd :
  keepsId ident upd ->
  getById ident (update ident items id upd) id
  = option_map upd (getById ident items id).
Proof.
  intros Hk. induction items as [|x r IH]; simpl; [reflexivity|].
  destruct (String.eqb (ident x) id) eqn:E; simpl.
  - rewrite Hk, E. reflexivity.
  - rewrite E. exact IH.
Qed.

Lemma getById_update_other items id id' upd :
  keepsId ident upd -> id <> id' ->
  getById ident (update ident items id upd) id' = getById ident items id'.
Proof.
  intros Hk Hne. induction items as [|x r IH]; simpl; [reflexivity|].
  destruct (String.eqb (ident x) id) eqn:E; simpl.
  - rewrite Hk. apply String.eqb_eq in E. subst id.
    apply String.eqb_neq in Hne. rewrite Hne. reflexivity.
  - rewrite IH. reflexivity.
Qed.

Lemma map_update {B} (g : A -> B) items id upd :
  (forall x, g (upd x) = g x) ->
  map g (update ident items id upd) = map g items.
Proof.
  intros Hg. induction items as [|x r IH]; simpl; [reflexivity|].
  destruct (String.eqb (ident x) id); simpl; congruence.
Qed.

Lemma filter_update_out (f : A -> bool) items id upd x :
  getById ident items id = Some x ->
  f x = false -> f (upd x) = false ->
  filter f (update ident items id upd) = filter f items.
Proof.
  induction items as [|y r IH]; simpl; intros Hget Hx Hx'; [reflexivity|].
  unfold getById in Hget. simpl in Hget.
  destruct (String.eqb (ident y) id) eqn:E; simpl.
  - injection Hget as ->. rewrite Hx, Hx'. reflexivity.
  - rewrite (IH Hget Hx Hx'). reflexivity.
Qed.

Lemma filter_update_length (f : A -> bool) items id upd :
  (forall x, f (upd x) = f x) ->
  List.length (filter f (update ident items id upd)) = List.length (filter f items).
Proof.
  intros Hf. induction items as [|y r IH]; simpl; [reflexivity|].
  destruct (String.eqb (ident y) id); simpl.
  - rewrite Hf. destruct (f y); reflexivity.
  - destruct (f y); simpl; congruence.
Qed.

Lemma getById_present items x :
  In x items -> exists y, getById ident items (ident x) = Some y.
Proof.
  intros Hin. destruct (getById ident items (ident x)) as [y|] eqn:E; [eauto|].
  exfalso. unfold getById in E.
  pose proof (find_none _ _ E _ Hin) as H. simpl in H.
  rewrite String.eqb_refl in H. discriminate.
Qed.

Lemma getById_NoDup items x :
  NoDup (map ident items) -> In x items ->
  getById ident items (ident x) = Some x.
Proof.
  induction items as [|y r IH]; simpl; intros Hnd Hin; [contradiction|].
  unfold getById. simpl. inversion Hnd; subst.
  destruct Hin as [->|Hin].
  - rewrite String.eqb_refl. reflexivity.
  - destruct (String.eqb_spec (ident y) (ident x)) as [E|E].
    + exfalso. apply H1. rewrite E. apply in_map. exact Hin.
    + apply IH; assumption.
Qed.
End StoreFacts.

(** ** updateScore: the rejections *)

Section Rejections.
Variable genId : nat -> Id.
Variable today : string.

Lemma updateScore_pending db matchId score1 score2 mt :
  getMatchById db matchId = Some mt ->
  m_status mt = "pending" ->
  updateScore genId today matchId score1 score2 db = (Thrown MatchNotReady, db).
Proof.
  intros Hm Hs. unfold updateScore. rewrite Hm, Hs. reflexivity.
Qed.

Lemma updateScore_incomplete db matchId score1 score2 mt :
  getMatchById db matchId = Some mt ->
  m_status mt <> "pending" ->
  truthyId (m_participant1Id mt) = None \/ truthyId (m_participant2Id mt) = None ->
  updateScore genId today matchId score1 score2 db = (Thrown IncompleteMatch, db).
Proof.
  intros Hm Hs Hp. unfold updateScore. rewrite Hm.
  apply String.eqb_neq in Hs. rewrite Hs.
  destruct Hp as [Hp|Hp]; rewrite Hp; [reflexivity|].
  destruct (truthyId (m_participant1Id mt)); reflexivity.
Qed.

Lemma updateScore_negative db matchId score1 score2 mt p1 p2 :
  getMatchById db matchId = Some mt ->
  m_status mt <> "pending" ->
  truthyId (m_participant1Id mt) = Some p1 ->
  truthyId (m_participant2Id mt) = Some p2 ->
  score1 < 0 \/ score2 < 0 ->
  updateScore genId today matchId score1 score2 db = (Thrown InvalidScore, db).
Proof.
  intros Hm Hs H1 H2 Hneg. unfold updateScore. rewrite Hm.
  apply String.eqb_neq in Hs. rewrite Hs, H1, H2.
  replace ((score1 <? 0) || (score2 <? 0))%bool with true; [reflexivity|].
  symmetry. apply orb_true_iff. rewrite !Z.ltb_lt. exact Hneg.
Qed.

Lemma updateScore_draw db matchId score1 score2 mt p1 p2 :
  getMatchById db matchId = Some mt ->
  m_status mt <> "pending" ->
  truthyId (m_participant1Id mt) = Some p1 ->
  truthyId (m_participant2Id mt) = Some p2 ->
  0 <= score1 -> 0 <= score2 -> score1 = score2 ->
  updateScore genId today matchId score1 score2 db = (Thrown DrawNotAllowed, db).
Proof.
  intros Hm Hs H1 H2 Hs1 Hs2 Heq. unfold updateScore. rewrite Hm.
  apply String.eqb_neq in Hs. rewrite Hs, H1, H2.
  replace ((score1 <? 0) || (score2 <? 0))%bool with false.
  - apply Z.eqb_eq in Heq. rewrite Heq. reflexivity.
  - symmetry. apply orb_false_iff. rewrite !Z.ltb_ge. auto.
Qed.

(** C4. [updateScore] on a stored match is refused, before any write,
    with [MatchNotReady] when the match is pending, with
    [IncompleteMatch] when a participant slot is empty, with
    [InvalidScore] when a score is negative and with [DrawNotAllowed]
    when the scores are equal, the checks being made in this order;
    whichever of the four conditions holds, the call fails with one of
    these four errors and the store is the one it was given. *)
Theorem updateScore_rejections db matchId score1 score2 mt :
  getMatchById db matchId = Some mt ->
  let call := updateScore genId today matchId score1 score2 db in
  let slotEmpty :=
    truthyId (m_participant1Id mt) = None \/ truthyId (m_participant2Id mt) = None in
  (m_status mt = "pending" -> call = (Thrown MatchNotReady, db)) /\
  (m_status mt <> "pending" -> slotEmpty -> call = (Thrown IncompleteMatch, db)) /\
  (m_status mt <> "pending" -> ~ slotEmpty -> score1 < 0 \/ score2 < 0 ->
     call = (Thrown InvalidScore, db)) /\
  (m_status mt <> "pending" -> ~ slotEmpty -> 0 <= score1 -> 0 <= score2 ->
     score1 = score2 -> call = (Thrown DrawNotAllowed, db)) /\
  (m_status mt = "pending" \/ slotEmpty \/ (score1 < 0 \/ score2 < 0) \/ score1 = score2 ->
     exists e, In e [MatchNotReady; IncompleteMatch; InvalidScore; DrawNotAllowed] /\
               call = (Thrown e, db)).
Proof.
  intros Hm call slotEmpty. subst call slotEmpty.
  assert (Hfull : ~ (truthyId (m_participant1Id mt) = None \/
                     truthyId (m_participant2Id mt) = None) ->
                  exists p1 p2, truthyId (m_participant1Id mt) = Some p1 /\
                                truthyId (m_participant2Id mt) = Some p2).
  { intros Hn. destruct (truthyId (m_participant1Id mt)) as [p1|];
      [|exfalso; auto].
    destruct (truthyId (m_participant2Id mt)) as [p2|]; [|exfalso; auto].
    eauto. }
  split; [|split; [|split; [|split]]].
  - intros Hs. eapply updateScore_pending; eauto.
  - intros Hs He. eapply updateScore_incomplete; eauto.
  - intros Hs Hn Hneg. destruct (Hfull Hn) as (p1 & p2 & H1 & H2).
    eapply updateScore_negative; eauto.
  - intros Hs Hn Hs1 Hs2 Heq. destruct (Hfull Hn) as (p1 & p2 & H1 & H2).
    eapply updateScore_draw; eauto.
  - intros Hany.
    destruct (string_dec (m_status mt) "pending") as [Hs|Hs].
    { exists MatchNotReady. split; [simpl; auto|].
      eapply updateScore_pending; eauto. }
    destruct (truthyId (m_participant1Id mt)) as [p1|] eqn:H1.
    2:{ exists IncompleteMatch. split; [simpl; auto|].
        eapply updateScore_incomplete; eauto. }
    destruct (truthyId (m_participant2Id mt)) as [p2|] eqn:H2.
    2:{ exists IncompleteMatch. split; [simpl; auto|].
        eapply updateScore_incomplete; eauto. }
    destruct (Z_lt_dec score1 0) as [L1|L1].
    { exists InvalidScore. split; [simpl; auto|].
      eapply updateScore_negative; eauto. }
    destruct (Z_lt_dec score2 0) as [L2|L2].
    { exists InvalidScore. split; [simpl; auto|].
      eapply updateScore_negative; eauto. }
    exists DrawNotAllowed. split; [simpl; auto|].
    eapply updateScore_draw; eauto; try lia.
    destruct Hany as [Hp|[[He|He]|[[Hn|Hn]|Heq]]];
      try contradiction; try discriminate; try lia.
Qed.
End Rejections.

(** The pending final of the tournament of four, offered the score 1-1. *)
Lemma updateScore_rejections_witness :
  updateScore demoId "2024-01-01" "mxx" 1 1 demoAssigned
  = (Thrown MatchNotReady, demoAssigned).
Proof.
  refine (proj1 (updateScore_rejections demoId "2024-01-01" demoAssigned "mxx" 1 1
                   (mkMatch "mxx" "t1" 2 3 None None None None None "pending") _) _);
    reflexivity.
Defined.

(** ** Sorting *)

Section Sorting.
Context {A : Type} (cmp : A -> A -> Z).

Lemma insertBy_perm x l : Permutation (insertBy cmp x l) (x :: l).
Proof.
  induction l as [|y r IH]; simpl; [reflexivity|].
  destruct (cmp x y <=? 0); [reflexivity|].
  rewrite IH. apply perm_swap.
Qed.

Lemma jsSort_perm l : Permutation (jsSort cmp l) l.
Proof.
  induction l as [|x r IH]; simpl; [reflexivity|].
  rewrite insertBy_perm. apply perm_skip. exact IH.
Qed.

Lemma jsSort_In l x : In x (jsSort cmp l) <-> In x l.
Proof.
  split; apply Permutation_in; [|symmetry]; apply jsSort_perm.
Qed.

Lemma jsSort_length l : List.length (jsSort cmp l) = List.length l.
Proof. apply Permutation_length, jsSort_perm. Qed.
End Sorting.

(** ** reset *)

Lemma update_as_map {A} (ident : A -> Id) items id upd :
  NoDup (map ident items) ->
  update ident items id upd
  = map (fun x => if String.eqb (ident x) id then upd x else x) items.
Proof.
  induction items as [|x r IH]; simpl; intros Hnd; [reflexivity|].
  inversion Hnd as [|? ? Hx Hr]; subst.
  destruct (String.eqb_spec (ident x) id) as [E|E].
  - f_equal. rewrite <- (map_id r) at 1. apply map_ext_in.
    intros y Hy. destruct (String.eqb_spec (ident y) id) as [E'|E']; [|reflexivity].
    exfalso. apply Hx. rewrite E, <- E'. apply in_map. exact Hy.
  - f_equal. apply IH. exact Hr.
Qed.

Lemma resetParticipants_spec ps db :
  NoDup (map p_id (PARTICIPANTS db)) ->
  resetParticipants ps db
  = mkDB (TOURNAMENTS db) (map (restored ps) (PARTICIPANTS db))
         (MATCHES db) (RESULTS db) (idSupply db).
Proof.
  revert db. induction ps as [|q ps IH]; intros db Hnd; simpl.
  - unfold restored. simpl. rewrite map_id. destruct db; reflexivity.
  - rewrite IH.
    + simpl. f_equal. rewrite (update_as_map p_id _ _ _ Hnd), map_map.
      apply map_ext. intros p. unfold restored. simpl.
      destruct (String.eqb (p_id p) (p_id q)) eqn:E; simpl.
      * destruct (existsb _ ps); reflexivity.
      * reflexivity.
    + simpl. rewrite (update_as_map p_id _ _ _ Hnd), map_map.
      erewrite map_ext; [exact Hnd|].
      intros p. simpl. destruct (String.eqb (p_id p) (p_id q)); reflexivity.
Qed.

Lemma restored_byTournament db tournamentId p :
  NoDup (map p_id (PARTICIPANTS db)) ->
  In p (PARTICIPANTS db) ->
  restored (getByTournament db tournamentId) p
  = if String.eqb (p_tournamentId p) tournamentId then setActive p else p.
Proof.
  intros Hnd Hin. unfold restored.
  destruct (String.eqb (p_tournamentId p) tournamentId) eqn:E.
  - replace (existsb _ _) with true; [reflexivity|]. symmetry.
    apply existsb_exists. exists p. split; [|apply String.eqb_refl].
    unfold getByTournament. apply jsSort_In, filter_In. auto.
  - replace (existsb _ _) with false; [reflexivity|]. symmetry.
    apply not_true_is_false. intros Hex. apply existsb_exists in Hex.
    destruct Hex as (q & Hq & Heq). apply String.eqb_eq in Heq.
    unfold getByTournament in Hq. apply jsSort_In, filter_In in Hq.
    destruct Hq as [Hq Hqt].
    assert (q = p).
    { pose proof (getById_NoDup p_id _ _ Hnd Hin) as G1.
      pose proof (getById_NoDup p_id _ _ Hnd Hq) as G2.
      rewrite <- Heq in G2. congruence. }
    subst q. congruence.
Qed.

(** C10. [reset] on a tournament that is not completed leaves no match
    and no result of that tournament in the store (those of the other
    tournaments stay), puts every participant of the tournament back to
    'active' with no elimination round, and the tournament to 'draft' at
    round 1; on a completed tournament it throws [CannotResetCompleted]
    and the store is untouched. *)
Theorem reset_spec db tournamentId tournament :
  getTournament db tournamentId = Some tournament ->
  NoDup (map p_id (PARTICIPANTS db)) ->
  (t_status tournament = "completed" ->
   reset tournamentId db = (Thrown CannotResetCompleted, db)) /\
  (t_status tournament <> "completed" ->
   exists db',
     reset tournamentId db = (Returned tt, db') /\
     MATCHES db' = filter (fun m => negb (inTournament tournamentId m)) (MATCHES db) /\
     findMatches db' tournamentId = [] /\
     RESULTS db'
     = filter (fun r => negb (String.eqb (r_tournamentId r) tournamentId)) (RESULTS db) /\
     (forall r, In r (RESULTS db') -> r_tournamentId r <> tournamentId) /\
     PARTICIPANTS db'
     = map (fun p => if String.eqb (p_tournamentId p) tournamentId
                     then setActive p else p) (PARTICIPANTS db) /\
     (forall p, In p (PARTICIPANTS db') -> p_tournamentId p = tournamentId ->
                p_status p = "active" /\ p_eliminatedAtRound p = None) /\
     getTournament db' tournamentId = Some (setDraft tournament) /\
     t_status (setDraft tournament) = "draft" /\
     t_currentRound (setDraft tournament) = 1).
Proof.
  intros Ht Hnd. unfold reset. rewrite Ht. split.
  - intros Hs. rewrite Hs. reflexivity.
  - intros Hs. apply String.eqb_neq in Hs. rewrite Hs.
    eexists. split; [reflexivity|].
    rewrite resetParticipants_spec by exact Hnd.
    assert (Hps : map (restored (getByTournament
                         (setRESULTS (fun items => deleteWhere items
                            (fun r => String.eqb (r_tournamentId r) tournamentId))
                            (setMATCHES (fun items => deleteWhere items
                               (inTournament tournamentId)) db)) tournamentId))
                      (PARTICIPANTS db)
                  = map (fun p => if String.eqb (p_tournamentId p) tournamentId
                                  then setActive p else p) (PARTICIPANTS db)).
    { apply map_ext_in. intros p Hp.
      apply (restored_byTournament
               (setRESULTS _ (setMATCHES _ db)) tournamentId p); assumption. }
    simpl. rewrite Hps. clear Hps.
    repeat split.
    + unfold findMatches. simpl. unfold deleteWhere.
      induction (MATCHES db) as [|m r IH]; simpl; [reflexivity|].
      destruct (inTournament tournamentId m) eqn:E; simpl; [exact IH|].
      rewrite E. exact IH.
    + intros r Hr. unfold deleteWhere in Hr. apply filter_In in Hr.
      destruct Hr as [_ Hr]. apply negb_true_iff, String.eqb_neq in Hr. exact Hr.
    + apply in_map_iff in H. destruct H as (q & Hq & _).
      destruct (String.eqb (p_tournamentId q) tournamentId) eqn:E; subst p.
      * reflexivity.
      * apply String.eqb_neq in E. contradiction.
    + apply in_map_iff in H. destruct H as (q & Hq & _).
      destruct (String.eqb (p_tournamentId q) tournamentId) eqn:E; subst p.
      * reflexivity.
      * apply String.eqb_neq in E. contradiction.
    + unfold getTournament, updateTOURNAMENTS. simpl.
      rewrite getById_update_same by (intros x; reflexivity).
      unfold getTournament in Ht. rewrite Ht. reflexivity.
Qed.

(** ** updateScore: the accepted call, step by step *)

Section Scoring.
Variable genId : nat -> Id.
Variable today : string.

Lemma nextMatchOf_In db mt index nextMatch :
  nextMatchOf db mt index = Some nextMatch ->
  In nextMatch (MATCHES db) /\
  m_tournamentId nextMatch = m_tournamentId mt /\
  m_round nextMatch = m_round mt + 1.
Proof.
  unfold nextMatchOf, arrayGet. intros H.
  destruct (Qfloor (index / 2) <? 0); [discriminate|].
  apply nth_error_In, jsSort_In in H. unfold findRound in H.
  apply filter_In in H. destruct H as [Hin Hr]. unfold inRound in Hr.
  apply andb_true_iff in Hr. destruct Hr as [Ht Hr].
  apply String.eqb_eq in Ht. apply Z.eqb_eq in Hr. auto.
Qed.

(** With its tournament in the store, [advanceWinner] returns: it writes
    nothing for the final or when there is no destination, and otherwise
    rewrites the destination match alone. *)
Lemma advanceWinner_run db mt winnerId tournament :
  getTournament db (m_tournamentId mt) = Some tournament ->
  let index := (inject_Z (m_matchNumber mt)
                - firstMatchNumber (t_participantCount tournament) (m_round mt))%Q in
  advanceWinner mt winnerId db
  = (Returned tt,
     if m_round mt + 1 >? t_totalRounds tournament then db
     else match nextMatchOf db mt index with
          | None => db
          | Some nextMatch =>
              updateMATCHES (m_id nextMatch) (advanceInto index winnerId) db
          end).
Proof.
  intros Ht index. unfold advanceWinner, getFirstMatchNumberOfRound. rewrite Ht.
  destruct (m_round mt + 1 >? t_totalRounds tournament); [reflexivity|].
  fold index. destruct (nextMatchOf db mt index) as [nextMatch|] eqn:Hn; [|reflexivity].
  apply nextMatchOf_In in Hn. destruct Hn as [Hin _].
  destruct (getById_present m_id _ _ Hin) as [y Hy].
  unfold getMatchById. rewrite Hy. reflexivity.
Qed.

Lemma finalizeTournament_run db tournamentId championId runnerUpId tournament :
  getTournament db tournamentId = Some tournament ->
  finalizeTournament genId today tournamentId championId runnerUpId db
  = (Returned tt,
     mkDB (update t_id (TOURNAMENTS db) tournamentId
                  (setCompleted (t_totalRounds tournament) today))
          (PARTICIPANTS db) (MATCHES db)
          (RESULTS db ++
           [mkResult (genId (idSupply db)) tournamentId championId runnerUpId
                     (thirdPlaceOf (findMatches db tournamentId) (t_totalRounds tournament))
                     (Z.of_nat (List.length (findMatches db tournamentId)))
                     (t_participantCount tournament)])
          (S (idSupply db))).
Proof.
  intros Ht. unfold finalizeTournament. rewrite Ht. reflexivity.
Qed.

Lemma updateCurrentRound_run db tournamentId tournament :
  getTournament db tournamentId = Some tournament ->
  updateCurrentRound tournamentId db
  = (Returned tt,
     match firstIncompleteRound (findMatches db tournamentId)
                                (Z.to_nat (t_totalRounds tournament)) 1 with
     | Some round =>
         if t_currentRound tournament =? round then db
         else updateTOURNAMENTS tournamentId (setCurrentRound round) db
     | None => db
     end).
Proof.
  intros Ht. unfold updateCurrentRound. rewrite Ht.
  destruct (firstIncompleteRound _ _ _) as [round|]; [|reflexivity].
  destruct (t_currentRound tournament =? round); reflexivity.
Qed.

(** The accepted call: the match is completed, the loser eliminated, the
    winner advanced, and then the tournament finalized (final) or its
    current round recomputed. *)
Lemma updateScore_run db matchId score1 score2 mt tournament p1 p2 :
  getMatchById db matchId = Some mt ->
  m_status mt <> "pending" ->
  truthyId (m_participant1Id mt) = Some p1 ->
  truthyId (m_participant2Id mt) = Some p2 ->
  0 <= score1 -> 0 <= score2 -> score1 <> score2 ->
  getTournament db (m_tournamentId mt) = Some tournament ->
  let winnerId := if score1 >? score2 then p1 else p2 in
  let loserId := if score1 >? score2 then p2 else p1 in
  let db2 := eliminate loserId (m_round mt)
               (updateMATCHES matchId (setScore score1 score2 winnerId) db) in
  let db3 := snd (advanceWinner mt winnerId db2) in
  let db4 := if m_round mt =? t_totalRounds tournament
             then snd (finalizeTournament genId today (m_tournamentId mt) winnerId loserId db3)
             else snd (updateCurrentRound (m_tournamentId mt) db3) in
  updateScore genId today matchId score1 score2 db
  = (Returned (getMatchById db4 matchId), db4).
Proof.
  intros Hm Hs H1 H2 Hs1 Hs2 Hne Ht winnerId loserId db2 db3 db4.
  unfold updateScore. rewrite Hm.
  apply String.eqb_neq in Hs. rewrite Hs, H1, H2.
  replace ((score1 <? 0) || (score2 <? 0))%bool with false
    by (symmetry; apply orb_false_iff; rewrite !Z.ltb_ge; auto).
  apply Z.eqb_neq in Hne. rewrite Hne.
  fold winnerId loserId.
  unfold bind at 1. unfold modify at 1.
  unfold bind at 1. unfold gets at 1.
  assert (Ht1 : getTournament (updateMATCHES matchId (setScore score1 score2 winnerId) db)
                              (m_tournamentId mt) = Some tournament) by exact Ht.
  rewrite Ht1.
  unfold bind at 1. unfold modify at 1. fold db2.
  assert (Ht2 : getTournament db2 (m_tournamentId mt) = Some tournament) by exact Ht.
  unfold bind at 1.
  pose proof (advanceWinner_run db2 mt winnerId tournament Ht2) as Ha.
  cbv zeta in Ha.
  assert (Hdb3 : advanceWinner mt winnerId db2 = (Returned tt, db3)).
  { subst db3. rewrite Ha. reflexivity. }
  rewrite Hdb3.
  assert (Ht3 : getTournament db3 (m_tournamentId mt) = Some tournament).
  { subst db3. rewrite Ha. simpl.
    destruct (m_round mt + 1 >? t_totalRounds tournament); [exact Ht2|].
    destruct (nextMatchOf db2 mt _); exact Ht2. }
  unfold bind at 1. subst db4.
  destruct (m_round mt =? t_totalRounds tournament).
  - rewrite (finalizeTournament_run _ _ _ _ _ Ht3). reflexivity.
  - rewrite (updateCurrentRound_run _ _ _ Ht3). reflexivity.
Qed.
End Scoring.

(** ** Finalization *)

Lemma filter_twice {A} (f g : A -> bool) (l : list A) :
  filter f (filter g l) = filter (fun x => g x && f x)%bool l.
Proof.
  induction l as [|x r IH]; simpl; [reflexivity|].
  destruct (g x); simpl; [|exact IH].
  destruct (f x); simpl; congruence.
Qed.

Section Finalization.
Variable genId : nat -> Id.
Variable today : string.

(** Scoring the final does not touch the semifinals. *)
Lemma semiFinals_scored db matchId mt upd totalRounds :
  getMatchById db matchId = Some mt ->
  m_round mt = totalRounds ->
  (forall m, m_round (upd m) = m_round m) ->
  filter (fun m => m_round m =? totalRounds - 1)
         (findMatches (updateMATCHES matchId upd db) (m_tournamentId mt))
  = filter (fun m => m_round m =? totalRounds - 1)
           (findMatches db (m_tournamentId mt)).
Proof.
  intros Hm Hr Hupd. unfold findMatches, updateMATCHES. simpl.
  rewrite !filter_twice.
  apply (filter_update_out m_id _ _ _ _ mt Hm).
  - replace (m_round mt =? totalRounds - 1) with false; [apply andb_false_r|].
    symmetry. apply Z.eqb_neq. lia.
  - rewrite Hupd.
    replace (m_round mt =? totalRounds - 1) with false; [apply andb_false_r|].
    symmetry. apply Z.eqb_neq. lia.
Qed.

(** The store scoring the final leaves behind, in full. *)
Lemma updateScore_final_store db matchId score1 score2 mt tournament p1 p2 :
  getMatchById db matchId = Some mt ->
  m_status mt <> "pending" ->
  truthyId (m_participant1Id mt) = Some p1 ->
  truthyId (m_participant2Id mt) = Some p2 ->
  0 <= score1 -> 0 <= score2 -> score1 <> score2 ->
  getTournament db (m_tournamentId mt) = Some tournament ->
  m_round mt = t_totalRounds tournament ->
  let tournamentId := m_tournamentId mt in
  let winnerId := if score1 >? score2 then p1 else p2 in
  let loserId := if score1 >? score2 then p2 else p1 in
  let db' :=
    mkDB (update t_id (TOURNAMENTS db) tournamentId
                 (setCompleted (t_totalRounds tournament) today))
         (update p_id (PARTICIPANTS db) loserId (setEliminated (m_round mt)))
         (update m_id (MATCHES db) matchId (setScore score1 score2 winnerId))
         (RESULTS db ++
          [mkResult (genId (idSupply db)) tournamentId winnerId loserId
                    (thirdPlaceOf (findMatches db tournamentId) (t_totalRounds tournament))
                    (Z.of_nat (List.length (findMatches db tournamentId)))
                    (t_participantCount tournament)])
         (S (idSupply db)) in
  updateScore genId today matchId score1 score2 db
  = (Returned (getMatchById db' matchId), db').
Proof.
  intros Hm Hs H1 H2 Hs1 Hs2 Hne Ht Hr tournamentId winnerId loserId.
  pose proof (updateScore_run genId today db matchId score1 score2 mt tournament
                p1 p2 Hm Hs H1 H2 Hs1 Hs2 Hne Ht) as Hrun.
  cbv zeta in Hrun. fold winnerId loserId tournamentId in Hrun.
  cbv zeta. rewrite Hrun. clear Hrun.
  set (db2 := eliminate loserId (m_round mt)
                (updateMATCHES matchId (setScore score1 score2 winnerId) db)).
  assert (Ht2 : getTournament db2 tournamentId = Some tournament) by exact Ht.
  rewrite (advanceWinner_run db2 mt winnerId tournament Ht2).
  replace (m_round mt =? t_totalRounds tournament) with true
    by (symmetry; apply Z.eqb_eq; exact Hr).
  replace (m_round mt + 1 >? t_totalRounds tournament) with true
    by (symmetry; apply Z.gtb_lt; lia).
  cbv [snd]. fold tournamentId.
  rewrite (finalizeTournament_run genId today db2 tournamentId winnerId loserId
             tournament Ht2).
  cbv [snd].
  assert (Hlen : List.length (findMatches db2 tournamentId)
                 = List.length (findMatches db tournamentId)).
  { unfold findMatches, db2. simpl. apply filter_update_length.
    intros x. reflexivity. }
  assert (Hthird : thirdPlaceOf (findMatches db2 tournamentId) (t_totalRounds tournament)
                   = thirdPlaceOf (findMatches db tournamentId) (t_totalRounds tournament)).
  { unfold thirdPlaceOf.
    replace (filter (fun m => m_round m =? t_totalRounds tournament - 1)
                    (findMatches db2 tournamentId))
      with (filter (fun m => m_round m =? t_totalRounds tournament - 1)
                   (findMatches db tournamentId)); [reflexivity|].
    symmetry. apply (semiFinals_scored db matchId mt); auto. }
  rewrite Hlen, Hthird. reflexivity.
Qed.

(** C5. Scoring the final (the match whose round is [totalRounds])
    finalizes the tournament: one Result record is appended, with the
    winner of the final as champion, its loser as runner-up, the losers
    of the semifinals that have a recorded winner (unset ids dropped) as
    third places, the number of matches of the tournament and its
    participant count; and the tournament becomes 'completed', at round
    [totalRounds], with the day as end date. *)
Theorem updateScore_final db matchId score1 score2 mt tournament p1 p2 :
  getMatchById db matchId = Some mt ->
  m_status mt <> "pending" ->
  truthyId (m_participant1Id mt) = Some p1 ->
  truthyId (m_participant2Id mt) = Some p2 ->
  0 <= score1 -> 0 <= score2 -> score1 <> score2 ->
  getTournament db (m_tournamentId mt) = Some tournament ->
  m_round mt = t_totalRounds tournament ->
  let tournamentId := m_tournamentId mt in
  let winnerId := if score1 >? score2 then p1 else p2 in
  let loserId := if score1 >? score2 then p2 else p1 in
  let semiFinalMatches :=
    filter (fun m => m_round m =? t_totalRounds tournament - 1)
           (findMatches db tournamentId) in
  let thirdPlaceIds :=
    truthyIds (map (fun m => if sameId (m_participant1Id m) (m_winnerId m)
                             then m_participant2Id m else m_participant1Id m)
                   (filter (fun m => match truthyId (m_winnerId m) with
                                     | Some _ => true | None => false end)
                           semiFinalMatches)) in
  exists r db',
    updateScore genId today matchId score1 score2 db = (Returned r, db') /\
    RESULTS db'
    = RESULTS db ++
      [mkResult (genId (idSupply db)) tournamentId winnerId loserId thirdPlaceIds
                (Z.of_nat (List.length (findMatches db tournamentId)))
                (t_participantCount tournament)] /\
    getTournament db' tournamentId
    = Some (mkTournament (t_id tournament) "completed"
                         (t_participantCount tournament) (t_totalRounds tournament)
                         (t_totalRounds tournament) (Some today)).
Proof.
  intros Hm Hs H1 H2 Hs1 Hs2 Hne Ht Hr tournamentId winnerId loserId
         semiFinalMatches thirdPlaceIds.
  pose proof (updateScore_final_store db matchId score1 score2 mt tournament p1 p2
                Hm Hs H1 H2 Hs1 Hs2 Hne Ht Hr) as Hrun.
  cbv zeta in Hrun. fold winnerId loserId tournamentId in Hrun.
  rewrite Hrun. eexists. eexists. split; [reflexivity|]. split.
  - reflexivity.
  - unfold getTournament. cbn [TOURNAMENTS].
    rewrite getById_update_same by (intros x; reflexivity).
    unfold getTournament in Ht. unfold tournamentId. rewrite Ht. reflexivity.
Qed.

(** C7. A completed match is not refused by [updateScore]: scored again,
    with both slots filled and a decisive score, the call returns. So the
    final scored twice leaves two Result records of the tournament, one
    appended by each call. *)
Theorem updateScore_final_twice db matchId score1 score2 score1' score2'
    mt tournament p1 p2 :
  getMatchById db matchId = Some mt ->
  m_status mt <> "pending" ->
  truthyId (m_participant1Id mt) = Some p1 ->
  truthyId (m_participant2Id mt) = Some p2 ->
  0 <= score1 -> 0 <= score2 -> score1 <> score2 ->
  0 <= score1' -> 0 <= score2' -> score1' <> score2' ->
  getTournament db (m_tournamentId mt) = Some tournament ->
  m_round mt = t_totalRounds tournament ->
  exists r1 db1 mt1 r2 db2 result1 result2,
    updateScore genId today matchId score1 score2 db = (Returned r1, db1) /\
    getMatchById db1 matchId = Some mt1 /\
    m_status mt1 = "completed" /\
    updateScore genId today matchId score1' score2' db1 = (Returned r2, db2) /\
    RESULTS db2 = RESULTS db ++ [result1; result2] /\
    r_tournamentId result1 = m_tournamentId mt /\
    r_tournamentId result2 = m_tournamentId mt /\
    r_championId result1 = (if score1 >? score2 then p1 else p2) /\
    r_championId result2 = (if score1' >? score2' then p1 else p2).
Proof.
  intros Hm Hs H1 H2 Hs1 Hs2 Hne Hs1' Hs2' Hne' Ht Hr.
  pose proof (updateScore_final_store db matchId score1 score2 mt tournament p1 p2
                Hm Hs H1 H2 Hs1 Hs2 Hne Ht Hr) as Hrun1.
  cbv zeta in Hrun1.
  set (winnerId := if score1 >? score2 then p1 else p2) in *.
  set (loserId := if score1 >? score2 then p2 else p1) in *.
  set (db1 := mkDB _ _ _ _ _) in Hrun1.
  set (mt1 := setScore score1 score2 winnerId mt).
  assert (Hm1 : getMatchById db1 matchId = Some mt1).
  { unfold getMatchById, db1. cbn [MATCHES].
    rewrite getById_update_same by (intros x; reflexivity).
    unfold getMatchById in Hm. rewrite Hm. reflexivity. }
  assert (Ht1 : getTournament db1 (m_tournamentId mt1)
                = Some (setCompleted (t_totalRounds tournament) today tournament)).
  { unfold getTournament, db1. cbn [TOURNAMENTS]. change (m_tournamentId mt1)
      with (m_tournamentId mt).
    rewrite getById_update_same by (intros x; reflexivity).
    unfold getTournament in Ht. rewrite Ht. reflexivity. }
  pose proof (updateScore_final_store db1 matchId score1' score2' mt1 _ p1 p2
                Hm1 ltac:(discriminate) H1 H2 Hs1' Hs2' Hne' Ht1 Hr) as Hrun2.
  cbv zeta in Hrun2.
  set (db2 := mkDB _ _ _ _ _) in Hrun2.
  exists (getMatchById db1 matchId), db1, mt1, (getMatchById db2 matchId), db2.
  eexists. eexists.
  split; [exact Hrun1|]. split; [exact Hm1|]. split; [reflexivity|].
  split; [exact Hrun2|]. split.
  - unfold db2, db1. cbn [RESULTS]. rewrite <- app_assoc. reflexivity.
  - repeat split.
Qed.
End Finalization.

(** The final of the tournament of four, scored 2-1. *)
Lemma updateScore_final_witness :
  exists r db',
    updateScore demoId "2024-01-01" "mxx" 2 1 demoSemi2 = (Returned r, db') /\
    RESULTS db' = [mkResult "mxxx" "t1" "a" "c" ["d"; "b"] 3 4] /\
    getTournament db' "t1" = Some (mkTournament "t1" "completed" 4 2 2 (Some "2024-01-01")).
Proof.
  exact (updateScore_final demoId "2024-01-01" demoSemi2 "mxx" 2 1
           (mkMatch "mxx" "t1" 2 3 (Some "a") (Some "c") None None None "upcoming")
           (mkTournament "t1" "registration" 4 2 2 None) "a" "c"
           eq_refl ltac:(discriminate) eq_refl eq_refl
           ltac:(lia) ltac:(lia) ltac:(lia) eq_refl eq_refl).
Defined.

(** The final of the tournament of four, scored 2-1 and then 1-2. *)
Lemma updateScore_final_twice_witness :
  exists r1 db1 mt1 r2 db2 result1 result2,
    updateScore demoId "2024-01-01" "mxx" 2 1 demoSemi2 = (Returned r1, db1) /\
    getMatchById db1 "mxx" = Some mt1 /\
    m_status mt1 = "completed" /\
    updateScore demoId "2024-01-01" "mxx" 1 2 db1 = (Returned r2, db2) /\
    RESULTS db2 = [result1; result2] /\
    r_tournamentId result1 = "t1" /\
    r_tournamentId result2 = "t1" /\
    r_championId result1 = "a" /\
    r_championId result2 = "c".
Proof.
  exact (updateScore_final_twice demoId "2024-01-01" demoSemi2 "mxx" 2 1 1 2
           (mkMatch "mxx" "t1" 2 3 (Some "a") (Some "c") None None None "upcoming")
           (mkTournament "t1" "registration" 4 2 2 None) "a" "c"
           eq_refl ltac:(discriminate) eq_refl eq_refl
           ltac:(lia) ltac:(lia) ltac:(lia) ltac:(lia) ltac:(lia) ltac:(lia)
           eq_refl eq_refl).
Defined.

(** ** The shape of the bracket is never rewritten *)

Lemma shape_update items id upd :
  (forall m, shape (upd m) = shape m) ->
  map shape (update m_id items id upd) = map shape items.
Proof. intros H. apply map_update. exact H. Qed.

Lemma shape_advanceInto index winnerId m :
  shape (advanceInto index winnerId m) = shape m.
Proof.
  unfold advanceInto. destruct (isEven index); simpl;
    repeat match goal with
           | |- context [truthyId ?x] => destruct (truthyId x)
           | |- context [if ?c then _ else _] => destruct c
           end;
    reflexivity.
Qed.

Lemma id_advanceInto index winnerId : keepsId m_id (advanceInto index winnerId).
Proof.
  intros m. unfold advanceInto. destruct (isEven index); simpl;
    repeat match goal with
           | |- context [truthyId ?x] => destruct (truthyId x)
           | |- context [if ?c then _ else _] => destruct c
           end;
    reflexivity.
Qed.

Lemma advanceWinner_shape mt winnerId db :
  map shape (MATCHES (snd (advanceWinner mt winnerId db))) = map shape (MATCHES db).
Proof.
  unfold advanceWinner.
  destruct (getTournament db (m_tournamentId mt)) as [t|]; [|reflexivity].
  destruct (m_round mt + 1 >? t_totalRounds t); [reflexivity|].
  destruct (getFirstMatchNumberOfRound db (m_tournamentId mt) (m_round mt)) as [first|];
    [|reflexivity].
  destruct (nextMatchOf db mt _) as [nextMatch|]; [|reflexivity].
  destruct (getMatchById db (m_id nextMatch)); [|reflexivity].
  simpl. apply shape_update. intros x. apply shape_advanceInto.
Qed.

Lemma finalizeTournament_MATCHES genId today tournamentId championId runnerUpId db :
  MATCHES (snd (finalizeTournament genId today tournamentId championId runnerUpId db))
  = MATCHES db.
Proof.
  unfold finalizeTournament.
  destruct (getTournament db tournamentId); reflexivity.
Qed.

Lemma updateCurrentRound_MATCHES tournamentId db :
  MATCHES (snd (updateCurrentRound tournamentId db)) = MATCHES db.
Proof.
  unfold updateCurrentRound.
  destruct (getTournament db tournamentId) as [t|]; [|reflexivity].
  destruct (firstIncompleteRound _ _ _) as [round|]; [|reflexivity].
  destruct (negb _); reflexivity.
Qed.

Lemma bind_keeps {A B X} (F : DB -> X) (m : M A) (k : A -> M B) db :
  (forall db0, F (snd (m db0)) = F db0) ->
  (forall a db0, F (snd (k a db0)) = F db0) ->
  F (snd (bind m k db)) = F db.
Proof.
  intros Hm Hk. unfold bind. specialize (Hm db).
  destruct (m db) as [[a|e] db1]; simpl in *.
  - rewrite Hk. exact Hm.
  - exact Hm.
Qed.

Lemma updateScore_shape genId today matchId score1 score2 db :
  map shape (MATCHES (snd (updateScore genId today matchId score1 score2 db)))
  = map shape (MATCHES db).
Proof.
  unfold updateScore.
  destruct (getMatchById db matchId) as [mt|]; [|reflexivity].
  destruct (String.eqb (m_status mt) "pending"); [reflexivity|].
  destruct (truthyId (m_participant1Id mt)) as [p1|]; [|reflexivity].
  destruct (truthyId (m_participant2Id mt)) as [p2|]; [|reflexivity].
  destruct ((score1 <? 0) || (score2 <? 0))%bool; [reflexivity|].
  destruct (score1 =? score2); [reflexivity|].
  apply (bind_keeps (fun d => map shape (MATCHES d))).
  { intros db0. simpl. apply shape_update. intros m. reflexivity. }
  intros _ db0. apply (bind_keeps (fun d => map shape (MATCHES d))); [reflexivity|].
  intros tournament db1.
  apply (bind_keeps (fun d => map shape (MATCHES d))); [reflexivity|].
  intros _ db2.
  apply (bind_keeps (fun d => map shape (MATCHES d))); [apply advanceWinner_shape|].
  intros _ db3. apply (bind_keeps (fun d => map shape (MATCHES d))); [|reflexivity].
  intros db4. destruct tournament as [t|]; [|reflexivity].
  destruct (m_round mt =? t_totalRounds t).
  - rewrite finalizeTournament_MATCHES. reflexivity.
  - rewrite updateCurrentRound_MATCHES. reflexivity.
Qed.

Lemma shape_In (l l' : list Match) m :
  map shape l = map shape l' -> In m l -> exists m', In m' l' /\ shape m' = shape m.
Proof.
  intros Hmap Hin. apply (in_map shape) in Hin. rewrite Hmap in Hin.
  apply in_map_iff in Hin. destruct Hin as (m' & Hs & Hin'). eauto.
Qed.

Lemma roundsInRange_shape db db' tournamentId totalRounds :
  map shape (MATCHES db') = map shape (MATCHES db) ->
  roundsInRange db tournamentId totalRounds ->
  roundsInRange db' tournamentId totalRounds.
Proof.
  intros Hmap Hr m Hin Ht.
  destruct (shape_In _ _ m Hmap Hin) as (m' & Hin' & Hs).
  unfold shape in Hs. injection Hs as Htid Hround _.
  rewrite <- Hround. apply Hr; [exact Hin'|]. rewrite Htid. exact Ht.
Qed.

Lemma In_findMatches db tournamentId m :
  In m (findMatches db tournamentId) <->
  In m (MATCHES db) /\ m_tournamentId m = tournamentId.
Proof.
  unfold findMatches, inTournament. rewrite filter_In, String.eqb_eq. reflexivity.
Qed.

(** ** Current-round tracking *)

Lemma allCompleted_true matches round :
  allCompleted matches round = true <->
  (forall m, In m matches -> m_round m = round -> m_status m = "completed").
Proof.
  unfold allCompleted. rewrite forallb_forall. split.
  - intros H m Hin Hr. apply String.eqb_eq. apply H. apply filter_In.
    split; [exact Hin|]. apply Z.eqb_eq. exact Hr.
  - intros H m Hin. apply filter_In in Hin. destruct Hin as [Hin Hr].
    apply String.eqb_eq. apply H; [exact Hin|]. apply Z.eqb_eq. exact Hr.
Qed.

Lemma allCompleted_false matches round m :
  In m matches -> m_round m = round -> m_status m <> "completed" ->
  allCompleted matches round = false.
Proof.
  intros Hin Hr Hs. apply not_true_is_false. intros H.
  apply Hs. apply (proj1 (allCompleted_true matches round) H m Hin Hr).
Qed.

Lemma firstIncompleteRound_lowest matches count start round :
  start <= round < start + Z.of_nat count ->
  allCompleted matches round = false ->
  (forall r, start <= r < round -> allCompleted matches r = true) ->
  firstIncompleteRound matches count start = Some round.
Proof.
  revert start. induction count as [|count IH]; intros start Hrange Hround Hbelow.
  - lia.
  - simpl. destruct (Z.eq_dec start round) as [->|Hne].
    + rewrite Hround. reflexivity.
    + rewrite Hbelow by lia. apply IH; [lia|exact Hround|].
      intros r Hr. apply Hbelow. lia.
Qed.

Lemma firstIncompleteRound_Some matches count start round :
  firstIncompleteRound matches count start = Some round ->
  start <= round < start + Z.of_nat count /\
  allCompleted matches round = false /\
  (forall r, start <= r < round -> allCompleted matches r = true).
Proof.
  revert start. induction count as [|count IH]; intros start H; [discriminate|].
  cbn [firstIncompleteRound] in H.
  destruct (allCompleted matches start) eqn:E.
  - destruct (IH _ H) as (Hr & Hround & Hbelow).
    split; [lia|]. split; [exact Hround|].
    intros r Hr'. destruct (Z.eq_dec r start) as [->|Hne]; [exact E|].
    apply Hbelow. lia.
  - injection H as <-. split; [lia|]. split; [exact E|]. intros r Hr. lia.
Qed.

Lemma firstIncompleteRound_None matches count start :
  firstIncompleteRound matches count start = None ->
  forall r, start <= r < start + Z.of_nat count -> allCompleted matches r = true.
Proof.
  revert start. induction count as [|count IH]; intros start H r Hr; [lia|].
  cbn [firstIncompleteRound] in H.
  destruct (allCompleted matches start) eqn:E; [|discriminate].
  destruct (Z.eq_dec r start) as [->|Hne]; [exact E|].
  apply (IH _ H). lia.
Qed.

Lemma allCompleted_open matches round :
  allCompleted matches round = false ->
  exists m, In m matches /\ m_round m = round /\ m_status m <> "completed".
Proof.
  unfold allCompleted. induction matches as [|x r IH]; cbn [filter forallb];
    [discriminate|].
  destruct (m_round x =? round) eqn:Er.
  - cbn [forallb]. destruct (String.eqb (m_status x) "completed") eqn:Es.
    + cbn [andb]. intros H. destruct (IH H) as (m & Hin & Hm).
      exists m. split; [right; exact Hin|exact Hm].
    + intros _. exists x. split; [left; reflexivity|].
      split; [apply Z.eqb_eq; exact Er|]. apply String.eqb_neq. exact Es.
  - intros H. destruct (IH H) as (m & Hin & Hm).
    exists m. split; [right; exact Hin|exact Hm].
Qed.

Section CurrentRound.
Variable genId : nat -> Id.
Variable today : string.

(** C6. After an accepted [updateScore] on a match that is not the
    final, the current round of the tournament is the lowest round with
    a stored match that is not completed (the tournament record being
    rewritten only when that differs from the round it had): there is
    such a round as soon as some match of the tournament is not
    completed, and the current round is that round; when every match of
    the tournament is completed, the current round stays as it was. After
    an accepted [updateScore] on the final, the current round is
    [totalRounds]. *)
Theorem updateScore_currentRound db matchId score1 score2 mt tournament p1 p2 :
  getMatchById db matchId = Some mt ->
  m_status mt <> "pending" ->
  truthyId (m_participant1Id mt) = Some p1 ->
  truthyId (m_participant2Id mt) = Some p2 ->
  0 <= score1 -> 0 <= score2 -> score1 <> score2 ->
  getTournament db (m_tournamentId mt) = Some tournament ->
  roundsInRange db (m_tournamentId mt) (t_totalRounds tournament) ->
  exists r db' tournament',
    updateScore genId today matchId score1 score2 db = (Returned r, db') /\
    getTournament db' (m_tournamentId mt) = Some tournament' /\
    (m_round mt <> t_totalRounds tournament ->
     (forall round,
        lowestIncompleteRound db' (m_tournamentId mt) round ->
        t_currentRound tournament' = round /\
        (t_currentRound tournament = round -> TOURNAMENTS db' = TOURNAMENTS db)) /\
     ((exists m, In m (MATCHES db') /\ m_tournamentId m = m_tournamentId mt /\
                 m_status m <> "completed") ->
      exists round,
        lowestIncompleteRound db' (m_tournamentId mt) round /\
        t_currentRound tournament' = round) /\
     ((forall m, In m (MATCHES db') -> m_tournamentId m = m_tournamentId mt ->
                 m_status m = "completed") ->
      t_currentRound tournament' = t_currentRound tournament /\
      TOURNAMENTS db' = TOURNAMENTS db)) /\
    (m_round mt = t_totalRounds tournament ->
     t_currentRound tournament' = t_totalRounds tournament).
Proof.
  intros Hm Hs H1 H2 Hs1 Hs2 Hne Ht Hrange.
  destruct (Z.eq_dec (m_round mt) (t_totalRounds tournament)) as [Hfinal|Hnonfinal].
  - (* the final *)
    destruct (updateScore_final genId today db matchId score1 score2 mt tournament
                p1 p2 Hm Hs H1 H2 Hs1 Hs2 Hne Ht Hfinal)
      as (r & db' & Hrun & _ & Ht').
    exists r, db'. eexists. split; [exact Hrun|]. split; [exact Ht'|].
    split; [intros; contradiction|]. intros _. reflexivity.
  - (* any other match *)
    pose proof (updateScore_shape genId today matchId score1 score2 db) as Hshape.
    pose proof (updateScore_run genId today db matchId score1 score2 mt tournament
                  p1 p2 Hm Hs H1 H2 Hs1 Hs2 Hne Ht) as Hrun.
    cbv zeta in Hrun.
    set (winnerId := if score1 >? score2 then p1 else p2) in *.
    set (loserId := if score1 >? score2 then p2 else p1) in *.
    set (db2 := eliminate loserId (m_round mt)
                  (updateMATCHES matchId (setScore score1 score2 winnerId) db)) in *.
    set (db3 := snd (advanceWinner mt winnerId db2)) in *.
    replace (m_round mt =? t_totalRounds tournament) with false in Hrun
      by (symmetry; apply Z.eqb_neq; exact Hnonfinal).
    assert (HT3 : TOURNAMENTS db3 = TOURNAMENTS db).
    { unfold db3.
      rewrite (advanceWinner_run db2 mt winnerId tournament Ht). simpl.
      destruct (m_round mt + 1 >? t_totalRounds tournament); [reflexivity|].
      destruct (nextMatchOf db2 mt _); reflexivity. }
    assert (Ht3 : getTournament db3 (m_tournamentId mt) = Some tournament).
    { unfold getTournament. rewrite HT3. exact Ht. }
    rewrite (updateCurrentRound_run _ _ _ Ht3) in Hrun. cbv [snd] in Hrun.
    rewrite Hrun in Hshape. cbv [snd] in Hshape.
    set (db4 := match firstIncompleteRound _ _ _ with Some _ => _ | None => _ end) in *.
    assert (Hrange4 : roundsInRange db4 (m_tournamentId mt) (t_totalRounds tournament)).
    { apply (roundsInRange_shape db); assumption. }
    assert (Hm4 : MATCHES db4 = MATCHES db3).
    { unfold db4. destruct (firstIncompleteRound _ _ _) as [round|]; [|reflexivity].
      destruct (t_currentRound tournament =? round); reflexivity. }
    assert (Hin4 : forall m, In m (findMatches db3 (m_tournamentId mt)) <->
                             In m (MATCHES db4) /\ m_tournamentId m = m_tournamentId mt).
    { intros m. rewrite Hm4. apply In_findMatches. }
    assert (Hlow : forall round,
               lowestIncompleteRound db4 (m_tournamentId mt) round ->
               firstIncompleteRound (findMatches db3 (m_tournamentId mt))
                                    (Z.to_nat (t_totalRounds tournament)) 1 = Some round).
    { intros round [(m & Hin & Htid & Hr & Hst) Hbelow].
      pose proof (Hrange4 m Hin Htid) as Hmr.
      apply firstIncompleteRound_lowest.
      - lia.
      - apply (allCompleted_false _ _ m); [apply Hin4; split; assumption|exact Hr|exact Hst].
      - intros r Hr'. apply allCompleted_true. intros m' Hin' Hr''.
        apply Hin4 in Hin'. destruct Hin' as [Hin' Htid'].
        apply Hbelow; [exact Hin'|exact Htid'|lia]. }
    destruct (firstIncompleteRound (findMatches db3 (m_tournamentId mt))
                (Z.to_nat (t_totalRounds tournament)) 1) as [round0|] eqn:Hfirst.
    + (* some round is not completed *)
      assert (Hlow0 : lowestIncompleteRound db4 (m_tournamentId mt) round0).
      { destruct (firstIncompleteRound_Some _ _ _ _ Hfirst) as (Hr0 & Hopen & Hbelow).
        destruct (allCompleted_open _ _ Hopen) as (m & Hin & Hr & Hst).
        apply Hin4 in Hin. destruct Hin as [Hin Htid].
        split; [exists m; auto|].
        intros m' Hin' Htid' Hlt.
        pose proof (Hrange4 m' Hin' Htid') as Hmr.
        apply (proj1 (allCompleted_true (findMatches db3 (m_tournamentId mt))
                                        (m_round m'))).
        - apply Hbelow. lia.
        - apply Hin4. split; assumption.
        - reflexivity. }
      destruct (t_currentRound tournament =? round0) eqn:Hcur.
      * exists (getMatchById db4 matchId), db4, tournament.
        split; [exact Hrun|]. split; [exact Ht3|]. split; [|intros; contradiction].
        intros _. apply Z.eqb_eq in Hcur. split; [|split].
        -- intros round Hl. specialize (Hlow round Hl). injection Hlow as <-.
           split; [exact Hcur|]. intros _. exact HT3.
        -- intros _. exists round0. split; [exact Hlow0|exact Hcur].
        -- intros Hall. split; [reflexivity|exact HT3].
      * exists (getMatchById db4 matchId), db4, (setCurrentRound round0 tournament).
        split; [exact Hrun|]. split.
        { unfold db4.
          unfold getTournament, updateTOURNAMENTS. cbn [TOURNAMENTS setTOURNAMENTS].
          rewrite getById_update_same by (intros x; reflexivity).
          unfold getTournament in Ht3. rewrite Ht3. reflexivity. }
        split; [|intros; contradiction].
        intros _. split; [|split].
        -- intros round Hl. specialize (Hlow round Hl). injection Hlow as <-.
           split; [reflexivity|]. intros Heq. apply Z.eqb_neq in Hcur. contradiction.
        -- intros _. exists round0. split; [exact Hlow0|reflexivity].
        -- intros Hall. destruct Hlow0 as [(m & Hin & Htid & _ & Hst) _].
           exfalso. apply Hst. apply Hall; assumption.
    + (* every round is completed *)
      exists (getMatchById db4 matchId), db4, tournament.
      split; [exact Hrun|]. split; [exact Ht3|]. split; [|intros; contradiction].
      intros _. split; [|split].
      * intros round Hl. specialize (Hlow round Hl). discriminate.
      * intros (m & Hin & Htid & Hst). exfalso. apply Hst.
        pose proof (Hrange4 m Hin Htid) as Hmr.
        apply (proj1 (allCompleted_true (findMatches db3 (m_tournamentId mt))
                                        (m_round m))).
        -- apply (firstIncompleteRound_None _ _ _ Hfirst). lia.
        -- apply Hin4. split; assumption.
        -- reflexivity.
      * intros _. split; [reflexivity|exact HT3].
Qed.
End CurrentRound.

(** The second semifinal of the tournament of four, scored 0-2: round 2
    is then the lowest round with a match that is not completed, and the
    current round, which was 1, is 2. *)
Lemma updateScore_currentRound_witness :
  exists r db' tournament',
    updateScore demoId "2024-01-01" "mx" 0 2 demoSemi1 = (Returned r, db') /\
    getTournament demoSemi1 "t1" = Some (mkTournament "t1" "registration" 4 2 1 None) /\
    getTournament db' "t1" = Some tournament' /\
    lowestIncompleteRound db' "t1" 2 /\
    t_currentRound tournament' = 2.
Proof.
  destruct (updateScore_currentRound demoId "2024-01-01" demoSemi1 "mx" 0 2
              (mkMatch "mx" "t1" 1 2 (Some "b") (Some "c") None None None "upcoming")
              (mkTournament "t1" "registration" 4 2 1 None) "b" "c")
    as (r & db' & tournament' & Hrun & Ht' & Hround & _);
    try reflexivity; try lia; try discriminate.
  { intros m Hin _. vm_compute in Hin.
    destruct Hin as [<-|[<-|[<-|[]]]]; simpl; lia. }
  exists r, db', tournament'.
  split; [exact Hrun|]. split; [reflexivity|]. split; [exact Ht'|].
  destruct (Hround ltac:(simpl; lia)) as (Hlowest & _).
  assert (Hdb : db' = demoSemi2).
  { vm_compute in Hrun. injection Hrun as _ <-. reflexivity. }
  assert (Hlow : lowestIncompleteRound db' "t1" 2).
  { rewrite Hdb. split.
    - exists (mkMatch "mxx" "t1" 2 3 (Some "a") (Some "c") None None None "upcoming").
      split; [vm_compute; auto|]. split; [reflexivity|]. split; [reflexivity|discriminate].
    - intros m Hin _ Hlt. vm_compute in Hin.
      destruct Hin as [<-|[<-|[<-|[]]]]; [reflexivity|reflexivity|simpl in Hlt; lia]. }
  split; [exact Hlow|]. apply (Hlowest 2 Hlow).
Defined.

(** The tournament of four reset after its first semifinal. *)
Lemma reset_spec_witness :
  fst (reset "t1" demoSemi1) = Returned tt /\
  MATCHES (snd (reset "t1" demoSemi1)) = [] /\
  map p_status (PARTICIPANTS (snd (reset "t1" demoSemi1)))
  = ["active"; "active"; "active"; "active"].
Proof.
  destruct (reset_spec demoSemi1 "t1" (mkTournament "t1" "registration" 4 2 1 None))
    as [_ H].
  - reflexivity.
  - vm_compute. repeat (constructor; [simpl; intuition discriminate|]). constructor.
  - destruct H as (db' & Hrun & Hm & _ & _ & _ & Hp & _); [discriminate|].
    rewrite Hrun. cbn [fst snd]. rewrite Hm, Hp. repeat split.
Defined.

(** ** generate *)

Lemma toInt32_small n : - 2 ^ 31 <= n < 2 ^ 31 -> toInt32 n = n.
Proof.
  intros H. unfold toInt32. rewrite Z.mod_small; lia.
Qed.

Lemma isPowerOfTwo_pow2 k : 0 <= k -> isPowerOfTwo (2 ^ k) = true.
Proof.
  intros Hk. unfold isPowerOfTwo.
  assert (Hpos : 0 < 2 ^ k) by (apply Z.pow_pos_nonneg; lia).
  apply andb_true_iff. split; [apply Z.ltb_lt; exact Hpos|]. apply Z.eqb_eq.
  destruct (Z_lt_dec k 31) as [Hlt|Hge].
  - assert (2 ^ k < 2 ^ 31) by (apply Z.pow_lt_mono_r; lia).
    rewrite !toInt32_small by lia.
    replace (2 ^ k - 1) with (Z.ones k) by (rewrite Z.ones_equiv; lia).
    rewrite Z.land_ones by lia. apply Z.mod_same. lia.
  - destruct (Z.eq_dec k 31) as [->|Hne]; [reflexivity|].
    replace (toInt32 (2 ^ k)) with 0; [reflexivity|].
    unfold toInt32. replace k with (32 + (k - 32)) by lia.
    rewrite Z.pow_add_r by lia.
    rewrite Z.add_comm, Z.mul_comm, Z.mod_add by lia. reflexivity.
Qed.

Section Generate.
Variable genId : nat -> Id.

Lemma generateRound_spec tournamentId round count db matchNumber matches :
  generateRound genId tournamentId round count (db, matchNumber, matches)
  = (mkDB (TOURNAMENTS db) (PARTICIPANTS db)
          (MATCHES db
           ++ newRound genId tournamentId round (idSupply db) matchNumber count)
          (RESULTS db) (idSupply db + count)%nat,
     matchNumber + Z.of_nat count,
     matches ++ newRound genId tournamentId round (idSupply db) matchNumber count).
Proof.
  revert db matchNumber matches.
  induction count as [|count IH]; intros db matchNumber matches.
  - unfold newRound. simpl. rewrite !app_nil_r, Nat.add_0_r, Z.add_0_r.
    destruct db; reflexivity.
  - cbn [generateRound]. unfold insertMatch. rewrite IH.
    unfold newRound, insert. cbn [MATCHES TOURNAMENTS PARTICIPANTS RESULTS idSupply
      tickId setMATCHES seq map].
    rewrite <- !app_assoc. cbn [app].
    rewrite <- seq_shift, map_map.
    rewrite Nat.add_0_r, Z.add_0_r.
    replace (S (idSupply db) + count)%nat with (idSupply db + S count)%nat by lia.
    replace (matchNumber + 1 + Z.of_nat count) with (matchNumber + Z.of_nat (S count))
      by lia.
    assert (E : map (fun i => newMatch tournamentId round (matchNumber + 1 + Z.of_nat i)
                                       (genId (S (idSupply db) + i)%nat)) (seq 0 count)
              = map (fun i => newMatch tournamentId round (matchNumber + Z.of_nat (S i))
                                       (genId (idSupply db + S i)%nat)) (seq 0 count)).
    { apply map_ext. intros i. f_equal; [lia|f_equal; lia]. }
    rewrite E. reflexivity.
Qed.

Lemma newRound_length tournamentId round firstId firstNumber count :
  List.length (newRound genId tournamentId round firstId firstNumber count) = count.
Proof. unfold newRound. rewrite length_map, length_seq. reflexivity. Qed.

Lemma generateRounds_spec tournamentId participantCount count round db matchNumber matches :
  let created := newRounds genId tournamentId participantCount count round
                           (idSupply db) matchNumber in
  generateRounds genId tournamentId participantCount count round
                 (db, matchNumber, matches)
  = (mkDB (TOURNAMENTS db) (PARTICIPANTS db) (MATCHES db ++ created)
          (RESULTS db) (idSupply db + List.length created)%nat,
     matchNumber + Z.of_nat (List.length created),
     matches ++ created).
Proof.
  revert round db matchNumber matches.
  induction count as [|count IH]; intros round db matchNumber matches; cbv zeta.
  - simpl. rewrite !app_nil_r, Nat.add_0_r, Z.add_0_r. destruct db; reflexivity.
  - cbn [generateRounds newRounds]. rewrite generateRound_spec.
    specialize (IH (round + 1)). cbv zeta in IH. rewrite IH.
    cbn [MATCHES TOURNAMENTS PARTICIPANTS RESULTS idSupply].
    rewrite !length_app, newRound_length, <- !app_assoc.
    apply f_equal2; [apply f_equal2; [f_equal; lia | lia] | reflexivity].
Qed.
End Generate.

Lemma seq_from n len : seq n len = map (fun i => (n + i)%nat) (seq 0 len).
Proof.
  revert n. induction len as [|len IH]; intros n; simpl; [reflexivity|].
  f_equal; [lia|]. rewrite (IH (S n)), <- (seq_shift len 0), map_map.
  apply map_ext. intros i. lia.
Qed.

Section Topology.
Variable genId : nat -> Id.
Variable tournamentId : Id.

Lemma newRound_In round firstId firstNumber count m :
  In m (newRound genId tournamentId round firstId firstNumber count) ->
  m_round m = round /\ placeholder tournamentId m /\
  firstNumber <= m_matchNumber m < firstNumber + Z.of_nat count.
Proof.
  unfold newRound. intros H. apply in_map_iff in H.
  destruct H as (i & <- & Hi). apply in_seq in Hi.
  simpl. unfold placeholder. simpl. repeat split; lia.
Qed.

Lemma newRounds_In participantCount count round firstId firstNumber m :
  In m (newRounds genId tournamentId participantCount count round firstId firstNumber) ->
  round <= m_round m < round + Z.of_nat count /\ placeholder tournamentId m.
Proof.
  revert round firstId firstNumber.
  induction count as [|count IH]; intros round firstId firstNumber H; [contradiction|].
  cbn [newRounds] in H. apply in_app_or in H. destruct H as [H|H].
  - apply newRound_In in H. destruct H as (Hr & Hp & _). split; [lia|exact Hp].
  - apply IH in H. destruct H as [Hr Hp]. split; [lia|exact Hp].
Qed.

Lemma newRound_filter round r firstId firstNumber count :
  filter (fun m => m_round m =? r)
         (newRound genId tournamentId round firstId firstNumber count)
  = if round =? r then newRound genId tournamentId round firstId firstNumber count
    else [].
Proof.
  unfold newRound. induction (seq 0 count) as [|i l IH]; simpl.
  - destruct (round =? r); reflexivity.
  - rewrite IH. destruct (round =? r); reflexivity.
Qed.

Lemma newRounds_filter_above participantCount count round r firstId firstNumber :
  r < round ->
  filter (fun m => m_round m =? r)
         (newRounds genId tournamentId participantCount count round firstId firstNumber)
  = [].
Proof.
  intros Hr.
  assert (H : forall m,
             In m (newRounds genId tournamentId participantCount count round
                             firstId firstNumber) ->
             (m_round m =? r) = false).
  { intros m Hm. apply newRounds_In in Hm. apply Z.eqb_neq. lia. }
  induction (newRounds _ _ _ _ _ _ _) as [|m l IH]; simpl; [reflexivity|].
  rewrite (H m) by (left; reflexivity). apply IH. intros x Hx. apply H. right. exact Hx.
Qed.

(** Round [r] of the bracket has [participantCount / 2^r] matches. *)
Lemma newRounds_count participantCount count round r firstId firstNumber :
  round <= r < round + Z.of_nat count ->
  List.length
    (filter (fun m => m_round m =? r)
            (newRounds genId tournamentId participantCount count round
                       firstId firstNumber))
  = Z.to_nat (participantCount / 2 ^ r).
Proof.
  revert round firstId firstNumber.
  induction count as [|count IH]; intros round firstId firstNumber Hr; [lia|].
  cbn [newRounds]. rewrite filter_app, length_app, newRound_filter.
  destruct (Z.eq_dec round r) as [->|Hne].
  - rewrite Z.eqb_refl, newRound_length, newRounds_filter_above by lia.
    simpl. lia.
  - replace (round =? r) with false by (symmetry; apply Z.eqb_neq; exact Hne).
    simpl. apply IH. lia.
Qed.

(** The match numbers run on from [firstNumber], one by one. *)
Lemma newRounds_numbers participantCount count round firstId firstNumber :
  let created := newRounds genId tournamentId participantCount count round
                           firstId firstNumber in
  map m_matchNumber created
  = map (fun i => firstNumber + Z.of_nat i) (seq 0 (List.length created)).
Proof.
  revert round firstId firstNumber.
  induction count as [|count IH]; intros round firstId firstNumber; cbv zeta;
    [reflexivity|].
  cbn [newRounds]. rewrite map_app, length_app, seq_app, map_app.
  rewrite newRound_length. f_equal.
  - unfold newRound. rewrite map_map. reflexivity.
  - specialize (IH (round + 1)). cbv zeta in IH. rewrite IH.
    rewrite (seq_from (0 + _)), map_map. apply map_ext. intros i. lia.
Qed.

Lemma StronglySorted_app {A} (R : A -> A -> Prop) (l1 l2 : list A) :
  StronglySorted R l1 -> StronglySorted R l2 ->
  (forall a b, In a l1 -> In b l2 -> R a b) ->
  StronglySorted R (l1 ++ l2).
Proof.
  induction l1 as [|x l1 IH]; simpl; intros H1 H2 H12; [exact H2|].
  inversion H1 as [|? ? Hs Hf]; subst. constructor.
  - apply IH; auto.
  - apply Forall_app. split; [exact Hf|].
    apply Forall_forall. intros b Hb. apply H12; auto.
Qed.

(** Round-major order: along the created list the rounds never decrease. *)
Lemma newRounds_sorted participantCount count round firstId firstNumber :
  StronglySorted (fun a b => m_round a <= m_round b)
    (newRounds genId tournamentId participantCount count round firstId firstNumber).
Proof.
  revert round firstId firstNumber.
  induction count as [|count IH]; intros round firstId firstNumber; [constructor|].
  cbn [newRounds]. apply StronglySorted_app.
  - assert (H : forall m, In m (newRound genId tournamentId round firstId firstNumber
                                        (Z.to_nat (participantCount / 2 ^ round))) ->
                          m_round m = round).
    { intros m Hm. apply newRound_In in Hm. tauto. }
    induction (newRound _ _ _ _ _ _) as [|m l IHl]; constructor.
    + apply IHl. intros x Hx. apply H. right. exact Hx.
    + apply Forall_forall. intros x Hx.
      rewrite (H m), (H x); [lia|right; exact Hx|left; reflexivity].
  - apply IH.
  - intros a b Ha Hb. apply newRound_In in Ha. apply newRounds_In in Hb. lia.
Qed.

(** The bracket of [2^k] participants has [2^k - 1] matches. *)
Lemma newRounds_total k count round firstId firstNumber :
  1 <= round -> round + Z.of_nat count = k + 1 ->
  Z.of_nat (List.length (newRounds genId tournamentId (2 ^ k) count round
                                   firstId firstNumber))
  = 2 ^ Z.of_nat count - 1.
Proof.
  revert round firstId firstNumber.
  induction count as [|count IH]; intros round firstId firstNumber Hr Hk;
    [reflexivity|].
  cbn [newRounds]. rewrite length_app, newRound_length, Nat2Z.inj_add.
  rewrite (IH (round + 1)) by lia.
  rewrite <- Z.pow_sub_r by lia.
  rewrite Z2Nat.id by (apply Z.pow_nonneg; lia).
  replace (k - round) with (Z.of_nat count) by lia.
  rewrite Nat2Z.inj_succ, Z.pow_succ_r by lia. lia.
Qed.
End Topology.

(** C2. [generate] on a draft tournament of [2^k] participants inserts
    [2^k - 1] matches, [2^k / 2^r] of them in each round [r = 1 .. k]
    (half the participants in round 1, one match in the last round), all
    of them placeholders (no participant, winner or score, 'pending'),
    numbered 1, 2, 3, ... round after round, and sets the tournament to
    'registration'; on a tournament that is not a draft it throws
    [AlreadyGenerated]. *)
Theorem generate_spec genId db tournamentId tournament :
  getTournament db tournamentId = Some tournament ->
  (t_status tournament <> "draft" ->
   generate genId tournamentId db = (Thrown AlreadyGenerated, db)) /\
  (t_status tournament = "draft" ->
   forall k, 0 <= k -> t_participantCount tournament = 2 ^ k ->
   exists created db',
     generate genId tournamentId db = (Returned created, db') /\
     MATCHES db' = MATCHES db ++ created /\
     Z.of_nat (List.length created) = 2 ^ k - 1 /\
     (forall r, 1 <= r <= k ->
        Z.of_nat (List.length (filter (fun m => m_round m =? r) created))
        = 2 ^ k / 2 ^ r) /\
     (1 <= k ->
        Z.of_nat (List.length (filter (fun m => m_round m =? 1) created)) = 2 ^ k / 2 /\
        List.length (filter (fun m => m_round m =? k) created) = 1%nat) /\
     (forall m, In m created -> 1 <= m_round m <= k /\ placeholder tournamentId m) /\
     map m_matchNumber created = map Z.of_nat (seq 1 (List.length created)) /\
     StronglySorted (fun a b => m_round a <= m_round b) created /\
     getTournament db' tournamentId
     = Some (mkTournament (t_id tournament) "registration"
                          (t_participantCount tournament) k
                          (t_currentRound tournament) (t_endDate tournament))).
Proof.
  intros Ht. unfold generate. rewrite Ht. split.
  - intros Hs. apply String.eqb_neq in Hs. rewrite Hs. reflexivity.
  - intros Hs k Hk Hpc. rewrite Hs, Hpc. cbn [String.eqb negb].
    replace (String.eqb "draft" "draft") with true by reflexivity. cbn [negb].
    rewrite isPowerOfTwo_pow2 by exact Hk. cbn [negb].
    rewrite Z.log2_pow2 by exact Hk.
    pose proof (generateRounds_spec genId tournamentId (2 ^ k) (Z.to_nat k) 1 db 1 [])
      as Hgen.
    cbv zeta in Hgen. rewrite Hgen. clear Hgen.
    set (created := newRounds genId tournamentId (2 ^ k) (Z.to_nat k) 1 (idSupply db) 1).
    assert (Hcount : forall r, 1 <= r <= k ->
              Z.of_nat (List.length (filter (fun m => m_round m =? r) created))
              = 2 ^ k / 2 ^ r).
    { intros r Hr. unfold created. rewrite newRounds_count by lia.
      apply Z2Nat.id. apply Z.div_pos; [apply Z.pow_nonneg; lia|].
      apply Z.pow_pos_nonneg; lia. }
    exists created. eexists. split; [reflexivity|]. cbn [app].
    split; [reflexivity|]. split.
    { unfold created. rewrite (newRounds_total genId tournamentId k) by lia.
      rewrite Z2Nat.id by lia. reflexivity. }
    split; [exact Hcount|]. split.
    { intros Hk1. split.
      - rewrite Hcount by lia. rewrite Z.pow_1_r. reflexivity.
      - apply Nat2Z.inj. rewrite Hcount by lia.
        apply Z.div_same. apply Z.pow_nonzero; lia. }
    split.
    { intros m Hm. unfold created in Hm. apply newRounds_In in Hm.
      destruct Hm as [Hr Hp]. split; [lia|exact Hp]. }
    split.
    { unfold created.
      pose proof (newRounds_numbers genId tournamentId (2 ^ k) (Z.to_nat k) 1
                    (idSupply db) 1) as Hn.
      cbv zeta in Hn. rewrite Hn. rewrite (seq_from 1), map_map.
      apply map_ext. intros i. lia. }
    split; [apply newRounds_sorted|].
    unfold getTournament, updateTOURNAMENTS. cbn [TOURNAMENTS setTOURNAMENTS].
    rewrite getById_update_same by (intros x; reflexivity).
    unfold getTournament in Ht. rewrite Ht. cbn [option_map]. unfold setRegistration.
    rewrite Hpc. reflexivity.
Qed.

(** The bracket of the tournament of four. *)
Lemma generate_spec_witness :
  exists created db',
    generate demoId "t1" demo0 = (Returned created, db') /\
    MATCHES db' = created /\
    Z.of_nat (List.length created) = 3 /\
    List.length (filter (fun m => m_round m =? 2) created) = 1%nat /\
    map m_matchNumber created = map Z.of_nat (seq 1 (List.length created)) /\
    getTournament db' "t1" = Some (mkTournament "t1" "registration" 4 2 1 None).
Proof.
  destruct (generate_spec demoId demo0 "t1" (mkTournament "t1" "draft" 4 2 1 None)
              eq_refl) as [_ H].
  destruct (H eq_refl 2 ltac:(lia) eq_refl)
    as (created & db' & Hrun & Hm & Hlen & _ & Hends & _ & Hnum & _ & Ht).
  exists created, db'. repeat split; try assumption.
  apply Hends. lia.
Defined.

(** ** Positions within a round *)

Lemma firstLoop_sum participantCount count r acc :
  (firstLoop participantCount count r acc
   == acc + sumQ (map (fun k => inject_Z participantCount
                                / inject_Z (2 ^ (r + Z.of_nat k)))
                      (seq 0 count)))%Q.
Proof.
  revert r acc. induction count as [|count IH]; intros r acc.
  - simpl. ring.
  - cbn [firstLoop]. rewrite IH. cbn [seq map sumQ fold_right].
    rewrite <- seq_shift, map_map. rewrite Z.add_0_r.
    assert (E : map (fun k => (inject_Z participantCount
                               / inject_Z (2 ^ (r + 1 + Z.of_nat k)))%Q) (seq 0 count)
              = map (fun k => (inject_Z participantCount
                               / inject_Z (2 ^ (r + Z.of_nat (S k))))%Q) (seq 0 count)).
    { apply map_ext. intros k. do 3 f_equal. lia. }
    rewrite E. fold (sumQ (map (fun k => (inject_Z participantCount
                               / inject_Z (2 ^ (r + Z.of_nat (S k))))%Q) (seq 0 count))).
    ring.
Qed.

(** The loop of [getFirstMatchNumberOfRound] computes the formula of the
    specification. *)
Lemma firstMatchNumber_formula participantCount round :
  (firstMatchNumber participantCount round
   == firstNumberOfRound participantCount round)%Q.
Proof.
  unfold firstMatchNumber, firstNumberOfRound. rewrite firstLoop_sum.
  rewrite <- seq_shift, map_map.
  assert (E : map (fun k => (inject_Z participantCount
                             / inject_Z (2 ^ (1 + Z.of_nat k)))%Q)
                  (seq 0 (Z.to_nat (round - 1)))
            = map (fun k => (inject_Z participantCount
                             / inject_Z (2 ^ Z.of_nat (S k)))%Q)
                  (seq 0 (Z.to_nat (round - 1)))).
  { apply map_ext. intros k. do 3 f_equal. lia. }
  rewrite E. reflexivity.
Qed.

Lemma half_even n : (inject_Z (2 * n) / 2 == inject_Z n)%Q.
Proof. rewrite inject_Z_mult. field. Qed.

Lemma isEven_even x n : (x == inject_Z (2 * n))%Q -> isEven x = true.
Proof.
  intros H. unfold isEven. apply Qeq_bool_iff.
  rewrite H at 2. rewrite half_even, Qfloor_Z. exact H.
Qed.

Lemma floor_half_odd n : Qfloor (inject_Z (2 * n + 1) / 2) = n.
Proof.
  unfold Qfloor, Qdiv, Qmult, Qinv, inject_Z. cbn -[Z.mul Z.add Z.div].
  rewrite Z.mul_1_r. Z.div_mod_to_equations. lia.
Qed.

Lemma isEven_odd x n : (x == inject_Z (2 * n + 1))%Q -> isEven x = false.
Proof.
  intros H. unfold isEven. apply not_true_is_false. intros E.
  apply Qeq_bool_iff in E. rewrite H in E. rewrite floor_half_odd in E.
  apply (proj1 (inject_Z_injective _ _)) in E. lia.
Qed.

Lemma truthyId_Some o s :
  truthyId o = Some s -> o = Some s /\ truthyId (Some s) = Some s.
Proof.
  destruct o as [x|]; simpl; [|discriminate].
  destruct (String.eqb x "") eqn:E; [discriminate|].
  intros H. injection H as <-. rewrite E. auto.
Qed.

(** ** Sorting by a key *)

Section SortedBy.
Context {A : Type} (cmp : A -> A -> Z).
Hypothesis cmp_total : forall a b, cmp a b <= 0 \/ cmp b a <= 0.

Lemma insertBy_HdRel x y l :
  cmp y x <= 0 -> HdRel (fun a b => cmp a b <= 0) y l ->
  HdRel (fun a b => cmp a b <= 0) y (insertBy cmp x l).
Proof.
  intros Hyx Hl. destruct l as [|z l]; simpl.
  - constructor. exact Hyx.
  - destruct (cmp x z <=? 0); constructor; [exact Hyx|].
    inversion Hl; assumption.
Qed.

Lemma insertBy_sorted x l :
  Sorted (fun a b => cmp a b <= 0) l ->
  Sorted (fun a b => cmp a b <= 0) (insertBy cmp x l).
Proof.
  induction l as [|y l IH]; simpl; intros Hs.
  - constructor; constructor.
  - inversion Hs as [|? ? Hl Hhd]; subst.
    destruct (cmp x y <=? 0) eqn:E.
    + constructor; [exact Hs|]. constructor. apply Z.leb_le. exact E.
    + constructor; [apply IH; exact Hl|].
      apply insertBy_HdRel; [|exact Hhd].
      apply Z.leb_gt in E. destruct (cmp_total y x); [assumption|lia].
Qed.

Lemma jsSort_sorted l : Sorted (fun a b => cmp a b <= 0) (jsSort cmp l).
Proof.
  induction l as [|x l IH]; simpl; [constructor|].
  apply insertBy_sorted. exact IH.
Qed.
End SortedBy.

Lemma byMatchNumber_sorted l :
  Sorted (fun a b => m_matchNumber a <= m_matchNumber b) (jsSort byMatchNumber l).
Proof.
  assert (H : Sorted (fun a b => byMatchNumber a b <= 0) (jsSort byMatchNumber l)).
  { apply jsSort_sorted. intros a b. unfold byMatchNumber. lia. }
  induction H as [|x r Hr IH Hhd]; constructor; [exact IH|].
  destruct Hhd; constructor. unfold byMatchNumber in *. lia.
Qed.

(** ** Advancement *)

Section Advancement.
Variable genId : nat -> Id.
Variable today : string.

(** Completing a match does not change which matches the next round has. *)
Lemma findRound_scored db matchId mt upd :
  getMatchById db matchId = Some mt ->
  (forall m, shape (upd m) = shape m) ->
  findRound (updateMATCHES matchId upd db) (m_tournamentId mt) (m_round mt + 1)
  = findRound db (m_tournamentId mt) (m_round mt + 1).
Proof.
  intros Hm Hupd. unfold findRound, updateMATCHES. simpl.
  assert (Hout : forall m, m_round m = m_round mt ->
                           inRound (m_tournamentId mt) (m_round mt + 1) m = false).
  { intros m Hr. unfold inRound. rewrite Hr.
    replace (m_round mt =? m_round mt + 1) with false; [apply andb_false_r|].
    symmetry. apply Z.eqb_neq. lia. }
  apply (filter_update_out m_id _ _ _ _ mt Hm).
  - apply Hout. reflexivity.
  - apply Hout. specialize (Hupd mt). unfold shape in Hupd. congruence.
Qed.

(** The store an accepted call on a match before the final leaves behind,
    as far as the matches go. *)
Lemma updateScore_advance_MATCHES db matchId score1 score2 mt tournament p1 p2 :
  getMatchById db matchId = Some mt ->
  m_status mt <> "pending" ->
  truthyId (m_participant1Id mt) = Some p1 ->
  truthyId (m_participant2Id mt) = Some p2 ->
  0 <= score1 -> 0 <= score2 -> score1 <> score2 ->
  getTournament db (m_tournamentId mt) = Some tournament ->
  m_round mt < t_totalRounds tournament ->
  let winnerId := if score1 >? score2 then p1 else p2 in
  let index := (inject_Z (m_matchNumber mt)
                - firstMatchNumber (t_participantCount tournament) (m_round mt))%Q in
  let scored := update m_id (MATCHES db) matchId (setScore score1 score2 winnerId) in
  exists r db',
    updateScore genId today matchId score1 score2 db = (Returned r, db') /\
    PARTICIPANTS db'
    = update p_id (PARTICIPANTS db) (if score1 >? score2 then p2 else p1)
             (setEliminated (m_round mt)) /\
    RESULTS db' = RESULTS db /\
    MATCHES db'
    = match nextMatchOf db mt index with
      | Some nextMatch => update m_id scored (m_id nextMatch) (advanceInto index winnerId)
      | None => scored
      end.
Proof.
  intros Hm Hs H1 H2 Hs1 Hs2 Hne Ht Hr winnerId index scored.
  pose proof (updateScore_run genId today db matchId score1 score2 mt tournament
                p1 p2 Hm Hs H1 H2 Hs1 Hs2 Hne Ht) as Hrun.
  cbv zeta in Hrun. fold winnerId in Hrun.
  set (loserId := if score1 >? score2 then p2 else p1) in *.
  set (db2 := eliminate loserId (m_round mt)
                (updateMATCHES matchId (setScore score1 score2 winnerId) db)) in *.
  replace (m_round mt =? t_totalRounds tournament) with false in Hrun
    by (symmetry; apply Z.eqb_neq; lia).
  rewrite Hrun. eexists. eexists. split; [reflexivity|].
  assert (Ht2 : getTournament db2 (m_tournamentId mt) = Some tournament) by exact Ht.
  pose proof (advanceWinner_run db2 mt winnerId tournament Ht2) as Ha.
  cbv zeta in Ha. fold index in Ha.
  replace (m_round mt + 1 >? t_totalRounds tournament) with false in Ha
    by (symmetry; rewrite Z.gtb_ltb; apply Z.ltb_ge; lia).
  assert (Hnext : nextMatchOf db2 mt index = nextMatchOf db mt index).
  { unfold nextMatchOf.
    assert (E : findRound db2 (m_tournamentId mt) (m_round mt + 1)
                = findRound db (m_tournamentId mt) (m_round mt + 1)).
    { apply (findRound_scored db matchId mt); [exact Hm|]. intros m. reflexivity. }
    rewrite E. reflexivity. }
  rewrite Hnext in Ha.
  set (db3 := snd (advanceWinner mt winnerId db2)).
  assert (H3 : PARTICIPANTS db3 = PARTICIPANTS db2 /\ RESULTS db3 = RESULTS db /\
               MATCHES db3 = match nextMatchOf db mt index with
                             | Some nextMatch =>
                                 update m_id scored (m_id nextMatch)
                                        (advanceInto index winnerId)
                             | None => scored
                             end /\
               TOURNAMENTS db3 = TOURNAMENTS db).
  { unfold db3. rewrite Ha. cbv [snd].
    destruct (nextMatchOf db mt index); repeat split. }
  destruct H3 as (Hp3 & Hr3 & Hm3 & Ht3).
  rewrite updateCurrentRound_MATCHES. fold db3. rewrite Hm3.
  assert (Hkeep : forall db0,
             PARTICIPANTS (snd (updateCurrentRound (m_tournamentId mt) db0))
             = PARTICIPANTS db0 /\
             RESULTS (snd (updateCurrentRound (m_tournamentId mt) db0)) = RESULTS db0).
  { intros db0. unfold updateCurrentRound.
    destruct (getTournament db0 (m_tournamentId mt)) as [t|]; [|split; reflexivity].
    destruct (firstIncompleteRound _ _ _) as [round|]; [|split; reflexivity].
    destruct (negb _); split; reflexivity. }
  destruct (Hkeep db3) as [Hkp Hkr]. rewrite Hkp, Hkr, Hp3, Hr3.
  repeat split.
Qed.

(** C1. An accepted [updateScore] on a match of a round before the last
    puts the winner into the match at position [floor(indexInRound / 2)]
    of the next round, taken by ascending match number, where
    [indexInRound] is the match number minus the first number of the
    round, [1 + sum for k = 1 .. round-1 of participantCount / 2^k]: into
    [participant1] for an even position and [participant2] for an odd
    one, the other slot staying as it was; and the destination becomes
    'upcoming' when both its slots are then filled, keeping its status
    otherwise. *)
Theorem updateScore_advances db matchId score1 score2 mt tournament p1 p2 :
  getMatchById db matchId = Some mt ->
  m_status mt <> "pending" ->
  truthyId (m_participant1Id mt) = Some p1 ->
  truthyId (m_participant2Id mt) = Some p2 ->
  0 <= score1 -> 0 <= score2 -> score1 <> score2 ->
  getTournament db (m_tournamentId mt) = Some tournament ->
  m_round mt < t_totalRounds tournament ->
  NoDup (map m_id (MATCHES db)) ->
  let winnerId := if score1 >? score2 then p1 else p2 in
  let first := firstMatchNumber (t_participantCount tournament) (m_round mt) in
  let indexInRound := (inject_Z (m_matchNumber mt) - first)%Q in
  let nextIndex := Qfloor (indexInRound / 2) in
  let nextMatches :=
    jsSort byMatchNumber (findRound db (m_tournamentId mt) (m_round mt + 1)) in
  (first == firstNumberOfRound (t_participantCount tournament) (m_round mt))%Q /\
  Sorted (fun a b => m_matchNumber a <= m_matchNumber b) nextMatches /\
  Permutation nextMatches (findRound db (m_tournamentId mt) (m_round mt + 1)) /\
  forall dest,
    arrayGet nextMatches nextIndex = Some dest ->
    exists r db' dest',
      updateScore genId today matchId score1 score2 db = (Returned r, db') /\
      getMatchById db' (m_id dest) = Some dest' /\
      (forall n, (indexInRound == inject_Z (2 * n))%Q ->
         m_participant1Id dest' = Some winnerId /\
         m_participant2Id dest' = m_participant2Id dest) /\
      (forall n, (indexInRound == inject_Z (2 * n + 1))%Q ->
         m_participant2Id dest' = Some winnerId /\
         m_participant1Id dest' = m_participant1Id dest) /\
      m_status dest' = (if bothFilled dest' then "upcoming" else m_status dest) /\
      shape dest' = shape dest.
Proof.
  intros Hm Hs H1 H2 Hs1 Hs2 Hne Ht Hr Hnd winnerId first indexInRound nextIndex
         nextMatches.
  split; [apply firstMatchNumber_formula|].
  split; [apply byMatchNumber_sorted|].
  split; [apply jsSort_perm|].
  intros dest Hdest.
  destruct (updateScore_advance_MATCHES db matchId score1 score2 mt tournament p1 p2
              Hm Hs H1 H2 Hs1 Hs2 Hne Ht Hr) as (r & db' & Hrun & _ & _ & Hms).
  fold winnerId first indexInRound in Hms.
  assert (Hnext : nextMatchOf db mt indexInRound = Some dest) by exact Hdest.
  rewrite Hnext in Hms.
  destruct (nextMatchOf_In _ _ _ _ Hnext) as (Hin & _ & Hround).
  assert (Hid : matchId <> m_id dest).
  { intros E. pose proof (getById_NoDup m_id _ _ Hnd Hin) as G.
    unfold getMatchById in Hm. rewrite <- E in G. rewrite Hm in G.
    injection G as ->. lia. }
  exists r, db', (advanceInto indexInRound winnerId dest).
  split; [exact Hrun|]. split.
  { unfold getMatchById. rewrite Hms.
    rewrite getById_update_same by apply id_advanceInto.
    rewrite getById_update_other by (auto; intros x; reflexivity).
    rewrite (getById_NoDup m_id _ _ Hnd Hin). reflexivity. }
  assert (Hw : truthyId (Some winnerId) = Some winnerId).
  { unfold winnerId. destruct (score1 >? score2);
      [apply (truthyId_Some _ _ H1) | apply (truthyId_Some _ _ H2)]. }
  split; [|split; [|split]].
  - intros n Hn. unfold advanceInto. rewrite (isEven_even _ _ Hn).
    cbn [setParticipant1 m_participant1Id m_participant2Id].
    rewrite Hw. destruct (truthyId (m_participant2Id dest)); split; reflexivity.
  - intros n Hn. unfold advanceInto. rewrite (isEven_odd _ _ Hn).
    cbn [setParticipant2 m_participant1Id m_participant2Id].
    rewrite Hw. destruct (truthyId (m_participant1Id dest)); split; reflexivity.
  - unfold advanceInto, bothFilled.
    destruct (isEven indexInRound);
      cbn [setParticipant1 setParticipant2 m_participant1Id m_participant2Id];
      rewrite Hw.
    + destruct (truthyId (m_participant2Id dest)) eqn:E2;
        cbn [setMatchStatus setParticipant1 m_participant1Id m_participant2Id m_status];
        rewrite ?Hw, ?E2; reflexivity.
    + destruct (truthyId (m_participant1Id dest)) eqn:E1;
        cbn [setMatchStatus setParticipant2 m_participant1Id m_participant2Id m_status];
        rewrite ?Hw, ?E1; reflexivity.
  - apply shape_advanceInto.
Qed.
End Advancement.

(** The first semifinal of the tournament of four, scored 3-1: seed 1
    goes into the first slot of the final, which stays pending. *)
Lemma updateScore_advances_witness :
  exists r db' dest',
    updateScore demoId "2024-01-01" "m" 3 1 demoAssigned = (Returned r, db') /\
    getMatchById db' "mxx" = Some dest' /\
    m_participant1Id dest' = Some "a" /\
    m_participant2Id dest' = None /\
    m_status dest' = "pending".
Proof.
  destruct (updateScore_advances demoId "2024-01-01" demoAssigned "m" 3 1
              (mkMatch "m" "t1" 1 1 (Some "a") (Some "d") None None None "upcoming")
              (mkTournament "t1" "registration" 4 2 1 None) "a" "d")
    as (_ & _ & _ & H);
    try reflexivity; try discriminate; try lia.
  - vm_compute. repeat (constructor; [simpl; intuition discriminate|]). constructor.
  - destruct (H (mkMatch "mxx" "t1" 2 3 None None None None None "pending") eq_refl)
      as (r & db' & dest' & Hrun & Hget & Heven & _ & Hst & _).
    destruct (Heven 0 ltac:(reflexivity)) as [E1 E2].
    exists r, db', dest'. repeat split; try assumption.
    rewrite Hst. unfold bothFilled. rewrite E1, E2. reflexivity.
Defined.

(** ** Seeding *)

Section InsertApp.
Context {A : Type} (cmp : A -> A -> Z).

Lemma insertBy_before x l u :
  (forall y, In y u -> cmp x y <= 0) ->
  insertBy cmp x (l ++ u) = insertBy cmp x l ++ u.
Proof.
  intros Hu. induction l as [|y l IH]; simpl.
  - destruct u as [|y u]; [reflexivity|]. simpl.
    replace (cmp x y <=? 0) with true; [reflexivity|].
    symmetry. apply Z.leb_le. apply Hu. left. reflexivity.
  - destruct (cmp x y <=? 0); [reflexivity|]. simpl. rewrite IH. reflexivity.
Qed.

Lemma insertBy_between x l u :
  (forall y, In y l -> 0 < cmp x y) ->
  (forall y, In y u -> cmp x y <= 0) ->
  insertBy cmp x (l ++ u) = l ++ x :: u.
Proof.
  intros Hl Hu. induction l as [|y l IH]; simpl.
  - destruct u as [|y u]; [reflexivity|]. simpl.
    replace (cmp x y <=? 0) with true; [reflexivity|].
    symmetry. apply Z.leb_le. apply Hu. left. reflexivity.
  - replace (cmp x y <=? 0) with false.
    + rewrite IH; [reflexivity|]. intros z Hz. apply Hl. right. exact Hz.
    + symmetry. apply Z.leb_gt. apply Hl. left. reflexivity.
Qed.

(** A stable sort keeps the order of the records it cannot tell apart. *)
Lemma jsSort_filter_tied (P : A -> bool) l :
  (forall x y, P x = true -> P y = true -> cmp x y = 0) ->
  filter P (jsSort cmp l) = filter P l.
Proof.
  intros Htie.
  assert (Hins : forall x s, filter P (insertBy cmp x s)
                             = if P x then x :: filter P s else filter P s).
  { intros x s. induction s as [|y s IH]; simpl.
    - destruct (P x); reflexivity.
    - destruct (cmp x y <=? 0) eqn:E; simpl.
      + destruct (P x); reflexivity.
      + rewrite IH. destruct (P y) eqn:Py; [|reflexivity].
        destruct (P x) eqn:Px; [|reflexivity].
        apply Z.leb_gt in E. rewrite (Htie x y Px Py) in E. lia. }
  induction l as [|x l IH]; simpl; [reflexivity|].
  rewrite Hins, IH. reflexivity.
Qed.
End InsertApp.

Lemma bySeed_seeded a b :
  seeded a = true -> seeded b = false -> bySeed a b = -1 /\ bySeed b a = 1.
Proof.
  unfold seeded, bySeed.
  destruct (truthyNum (p_seed a)); [|discriminate].
  destruct (truthyNum (p_seed b)); [discriminate|]. auto.
Qed.

Lemma bySeed_unseeded a b :
  seeded a = false -> seeded b = false -> bySeed a b = 0.
Proof.
  unfold seeded, bySeed.
  destruct (truthyNum (p_seed a)); [discriminate|].
  destruct (truthyNum (p_seed b)); [discriminate|]. auto.
Qed.

Lemma jsSort_bySeed_In_seeded l x :
  In x (jsSort bySeed (filter seeded l)) -> seeded x = true.
Proof.
  intros H. apply jsSort_In, filter_In in H. tauto.
Qed.

(** Seeded participants first, in seed order; the others after them, in
    the order they had. *)
Lemma jsSort_bySeed_split l :
  jsSort bySeed l
  = jsSort bySeed (filter seeded l) ++ filter (fun p => negb (seeded p)) l.
Proof.
  induction l as [|x l IH]; simpl; [reflexivity|].
  rewrite IH. destruct (seeded x) eqn:Sx; simpl.
  - apply insertBy_before. intros y Hy. apply filter_In in Hy.
    destruct Hy as [_ Hy]. apply negb_true_iff in Hy.
    destruct (bySeed_seeded x y Sx Hy) as [E _]. lia.
  - apply insertBy_between.
    + intros y Hy. apply jsSort_bySeed_In_seeded in Hy.
      destruct (bySeed_seeded y x Hy Sx) as [_ E]. lia.
    + intros y Hy. apply filter_In in Hy. destruct Hy as [_ Hy].
      apply negb_true_iff in Hy. rewrite (bySeed_unseeded x y Sx Hy). lia.
Qed.

Lemma bySeed_total a b : bySeed a b <= 0 \/ bySeed b a <= 0.
Proof.
  unfold bySeed.
  destruct (truthyNum (p_seed a)), (truthyNum (p_seed b)); lia.
Qed.

Lemma jsSort_bySeed_sorted l :
  Sorted seedLe (jsSort bySeed (filter seeded l)).
Proof.
  assert (Hs : Sorted (fun a b => bySeed a b <= 0) (jsSort bySeed (filter seeded l)))
    by (apply jsSort_sorted, bySeed_total).
  assert (Hall : Forall (fun p => seeded p = true) (jsSort bySeed (filter seeded l))).
  { apply Forall_forall. intros x. apply jsSort_bySeed_In_seeded. }
  induction Hs as [|x r Hr IH Hhd]; constructor.
  - apply IH. inversion Hall; assumption.
  - destruct Hhd as [|y r Hxy]; constructor.
    inversion Hall as [|? ? Hx Hrest]; subst. inversion Hrest as [|? ? Hy _]; subst.
    unfold seedLe, seeded, bySeed in *.
    destruct (truthyNum (p_seed x)); [|discriminate].
    destruct (truthyNum (p_seed y)); [|discriminate]. lia.
Qed.

Lemma arrayGet_nat {A} (l : list A) (i : nat) : arrayGet l (Z.of_nat i) = nth_error l i.
Proof.
  unfold arrayGet. replace (Z.of_nat i <? 0) with false by (symmetry; apply Z.ltb_ge; lia).
  rewrite Nat2Z.id. reflexivity.
Qed.

Lemma pairLoop_spec participants n count i pairs :
  pairLoop participants n count i pairs
  = pairs ++ map (fun j => (arrayGet participants (i + Z.of_nat j),
                            arrayGet participants (n - 1 - (i + Z.of_nat j))))
                 (seq 0 count).
Proof.
  revert i pairs. induction count as [|count IH]; intros i pairs; simpl.
  - rewrite app_nil_r. reflexivity.
  - rewrite IH, <- app_assoc. simpl. rewrite Z.add_0_r.
    rewrite <- seq_shift, map_map. do 2 f_equal.
    apply map_ext. intros j. do 2 f_equal; lia.
Qed.

(** Pair [j] is [(p[j], p[n-1-j])], for the [j] below [n / 2]. *)
Lemma createSeedPairings_spec participants :
  let n := List.length participants in
  createSeedPairings participants
  = map (fun j => (nth_error participants j, nth_error participants (n - 1 - j)))
        (seq 0 (Z.to_nat ((Z.of_nat n + 1) / 2))).
Proof.
  cbv zeta. unfold createSeedPairings. rewrite pairLoop_spec. cbn [app].
  apply map_ext_in. intros j Hj. apply in_seq in Hj.
  assert (Hb : (2 * j + 1 <= List.length participants)%nat).
  { destruct Hj as [_ Hj]. simpl in Hj.
    assert (Z.of_nat j < (Z.of_nat (List.length participants) + 1) / 2) by lia.
    Z.div_mod_to_equations. lia. }
  rewrite Z.add_0_l, arrayGet_nat.
  replace (Z.of_nat (List.length participants) - 1 - Z.of_nat j)
    with (Z.of_nat (List.length participants - 1 - j)) by lia.
  rewrite arrayGet_nat. reflexivity.
Qed.

Lemma NoDup_ids_position {A} (ident : A -> Id) (l : list A) i j x y :
  NoDup (map ident l) ->
  nth_error l i = Some x -> nth_error l j = Some y -> ident x = ident y -> i = j.
Proof.
  intros Hnd Hi Hj E.
  apply (proj1 (NoDup_nth_error (map ident l)) Hnd).
  - rewrite length_map. apply nth_error_Some. congruence.
  - rewrite !nth_error_map, Hi, Hj. simpl. congruence.
Qed.

Section AssignPairs.
Variable firstRoundMatches : list Match.
Hypothesis ids_distinct : NoDup (map m_id firstRoundMatches).

(** The [forEach] of [assignParticipants] writes pair [j] into the match
    at position [index + j], and nothing else. *)
Lemma assignPairs_spec pairs :
  forall (index : nat) db,
  (forall pr, In pr pairs -> exists a b, pr = (Some a, Some b)) ->
  exists db',
    assignPairs firstRoundMatches pairs (Z.of_nat index) db = (Returned tt, db') /\
    TOURNAMENTS db' = TOURNAMENTS db /\
    PARTICIPANTS db' = PARTICIPANTS db /\
    RESULTS db' = RESULTS db /\
    map shape (MATCHES db') = map shape (MATCHES db) /\
    map m_id (MATCHES db') = map m_id (MATCHES db) /\
    (forall j m a b,
       nth_error pairs j = Some (Some a, Some b) ->
       nth_error firstRoundMatches (index + j) = Some m ->
       getMatchById db' (m_id m)
       = option_map (setPair (p_id a) (p_id b)) (getMatchById db (m_id m))) /\
    (forall id,
       (forall j m, (j < List.length pairs)%nat ->
                    nth_error firstRoundMatches (index + j) = Some m -> m_id m <> id) ->
       getMatchById db' id = getMatchById db id).
Proof.
  induction pairs as [|pr rest IH]; intros index db Hsome.
  - exists db. simpl. repeat split; try reflexivity.
    intros j m a b Hj. destruct j; discriminate.
  - destruct (Hsome pr (or_introl eq_refl)) as (a & b & ->).
    assert (Hrest : forall pr, In pr rest -> exists a b, pr = (Some a, Some b)).
    { intros pr Hpr. apply Hsome. right. exact Hpr. }
    cbn [assignPairs]. rewrite arrayGet_nat.
    replace (Z.of_nat index + 1) with (Z.of_nat (S index)) by lia.
    destruct (nth_error firstRoundMatches index) as [m0|] eqn:Hm0.
    + unfold bind, modify.
      destruct (IH (S index) (updateMATCHES (m_id m0) (setPair (p_id a) (p_id b)) db)
                   Hrest)
        as (db' & Hrun & Ht & Hp & Hr & Hsh & Hids & Hget & Hother).
      exists db'. rewrite Hrun. split; [reflexivity|].
      split; [exact Ht|]. split; [exact Hp|]. split; [exact Hr|].
      split.
      { rewrite Hsh. simpl. apply shape_update. intros x. reflexivity. }
      split.
      { rewrite Hids. simpl. apply map_update. intros x. reflexivity. }
      split.
      * intros j m a' b' Hj Hm. destruct j as [|j].
        -- simpl in Hj. injection Hj as <- <-.
           rewrite Nat.add_0_r in Hm. rewrite Hm in Hm0. injection Hm0 as <-.
           rewrite Hother.
           ++ unfold getMatchById. simpl.
              apply getById_update_same. intros x. reflexivity.
           ++ intros j m' _ Hm' E.
              pose proof (NoDup_ids_position m_id _ _ _ _ _ ids_distinct Hm' Hm E).
              lia.
        -- simpl in Hj. rewrite (Hget j m a' b' Hj).
           2:{ rewrite <- Hm. f_equal. lia. }
           f_equal. unfold getMatchById. simpl.
           apply getById_update_other; [intros x; reflexivity|].
           intros E.
           pose proof (NoDup_ids_position m_id _ _ _ _ _ ids_distinct Hm0 Hm E).
           lia.
      * intros id Hid. rewrite Hother.
        -- unfold getMatchById. simpl.
           apply getById_update_other; [intros x; reflexivity|].
           apply (Hid 0%nat m0); [simpl; lia|].
           rewrite Nat.add_0_r. exact Hm0.
        -- intros j m Hj Hm. apply (Hid (S j) m); [simpl; lia|].
           rewrite <- Hm. f_equal. lia.
    + destruct (IH (S index) db Hrest)
        as (db' & Hrun & Ht & Hp & Hr & Hsh & Hids & Hget & Hother).
      exists db'. split; [exact Hrun|].
      split; [exact Ht|]. split; [exact Hp|]. split; [exact Hr|].
      split; [exact Hsh|]. split; [exact Hids|]. split.
      * intros j m a' b' Hj Hm. destruct j as [|j].
        -- rewrite Nat.add_0_r in Hm. congruence.
        -- simpl in Hj. apply (Hget j m a' b' Hj). rewrite <- Hm. f_equal. lia.
      * intros id Hid. apply Hother. intros j m Hj Hm.
        apply (Hid (S j) m); [simpl; lia|]. rewrite <- Hm. f_equal. lia.
Qed.
End AssignPairs.

Lemma NoDup_map_filter {A B} (f : A -> B) (P : A -> bool) (l : list A) :
  NoDup (map f l) -> NoDup (map f (filter P l)).
Proof.
  induction l as [|x l IH]; simpl; intros H; [constructor|].
  inversion H as [|? ? Hx Hl]; subst.
  destruct (P x); simpl; [|apply IH; exact Hl].
  constructor; [|apply IH; exact Hl].
  intros Hin. apply Hx. apply in_map_iff in Hin. destruct Hin as (y & E & Hy).
  apply filter_In in Hy. rewrite <- E. apply in_map. tauto.
Qed.

Lemma NoDup_ids_sorted {A} (f : A -> Id) (cmp : A -> A -> Z) (P : A -> bool) l :
  NoDup (map f l) -> NoDup (map f (jsSort cmp (filter P l))).
Proof.
  intros H. apply (Permutation_NoDup (l := map f (filter P l))).
  - apply Permutation_map. symmetry. apply jsSort_perm.
  - apply NoDup_map_filter. exact H.
Qed.

Lemma nth_error_map_seq {A} (f : nat -> A) count i :
  (i < count)%nat -> nth_error (map f (seq 0 count)) i = Some (f i).
Proof.
  intros Hi. rewrite nth_error_map, nth_error_seq.
  replace (i <? count)%nat with true by (symmetry; apply Nat.ltb_lt; exact Hi).
  reflexivity.
Qed.

Lemma sorted_perm_eq (l1 l2 : list Z) :
  StronglySorted Z.le l1 -> StronglySorted Z.le l2 -> Permutation l1 l2 -> l1 = l2.
Proof.
  revert l2. induction l1 as [|x l1 IH]; intros l2 H1 H2 Hp.
  - apply Permutation_nil in Hp. congruence.
  - destruct l2 as [|y l2]; [apply Permutation_sym, Permutation_nil in Hp; discriminate|].
    inversion H1 as [|? ? H1' Hx]; subst. inversion H2 as [|? ? H2' Hy]; subst.
    assert (x = y).
    { assert (Hxin : In x (y :: l2)) by (apply (Permutation_in _ Hp); left; reflexivity).
      assert (Hyin : In y (x :: l1))
        by (apply (Permutation_in _ (Permutation_sym Hp)); left; reflexivity).
      destruct Hxin as [E|Hxin]; [congruence|].
      destruct Hyin as [E|Hyin]; [congruence|].
      pose proof (proj1 (Forall_forall _ _) Hx _ Hyin).
      pose proof (proj1 (Forall_forall _ _) Hy _ Hxin). lia. }
    subst y. f_equal. apply IH; [assumption|assumption|].
    apply Permutation_cons_inv in Hp. exact Hp.
Qed.

Lemma seq_sorted a n : StronglySorted Z.le (map Z.of_nat (seq a n)).
Proof.
  revert a. induction n as [|n IH]; intros a; simpl; constructor; [apply IH|].
  apply Forall_forall. intros z Hz. apply in_map_iff in Hz.
  destruct Hz as (i & <- & Hi). apply in_seq in Hi. lia.
Qed.

Lemma ranked_keys_sorted (l : list Participant) :
  (forall x, In x l -> exists s, p_seed x = Some s /\ 1 <= s) ->
  Sorted (fun a b => bySeed a b <= 0) l ->
  Sorted Z.le (map (fun x => match p_seed x with Some s => s | None => 0 end) l).
Proof.
  intros Hseeds Hs. induction Hs as [|x r Hr IH Hhd]; simpl; constructor.
  - apply IH. intros y Hy. apply Hseeds. right. exact Hy.
  - destruct Hhd as [|y r Hxy]; simpl; constructor.
    destruct (Hseeds x (or_introl eq_refl)) as (sx & Ex & Hx).
    destruct (Hseeds y (or_intror (or_introl eq_refl))) as (sy & Ey & Hy).
    unfold bySeed, truthyNum in Hxy. rewrite Ex, Ey in *.
    replace (sx =? 0) with false in Hxy by (symmetry; apply Z.eqb_neq; lia).
    replace (sy =? 0) with false in Hxy by (symmetry; apply Z.eqb_neq; lia).
    lia.
Qed.

(** Participants seeded 1 .. n come out of the sort in seed order. *)
Lemma jsSort_bySeed_ranked participants :
  let n := List.length participants in
  Permutation (map p_seed participants) (map (fun i => Some (Z.of_nat i)) (seq 1 n)) ->
  forall i a, nth_error (jsSort bySeed participants) i = Some a ->
              p_seed a = Some (Z.of_nat i + 1).
Proof.
  intros n Hperm i a Hi.
  set (key := fun o : option Z => match o with Some s => s | None => 0 end).
  set (p := jsSort bySeed participants) in *.
  assert (Hseeds : forall x, In x p -> exists s, p_seed x = Some s /\ 1 <= s).
  { intros x Hx. apply jsSort_In in Hx. apply (in_map p_seed) in Hx.
    apply (Permutation_in _ Hperm) in Hx. apply in_map_iff in Hx.
    destruct Hx as (j & E & Hj). apply in_seq in Hj. exists (Z.of_nat j).
    split; [congruence|lia]. }
  assert (Hsorted : StronglySorted Z.le (map (fun x => key (p_seed x)) p)).
  { apply Sorted_StronglySorted; [intros x y z; apply Z.le_trans|].
    apply ranked_keys_sorted; [exact Hseeds|].
    apply jsSort_sorted, bySeed_total. }
  assert (Hkeys : map (fun x => key (p_seed x)) p = map Z.of_nat (seq 1 n)).
  { apply sorted_perm_eq; [exact Hsorted|apply seq_sorted|].
    rewrite <- (map_map p_seed key).
    replace (map Z.of_nat (seq 1 n))
      with (map key (map (fun i => Some (Z.of_nat i)) (seq 1 n)))
      by (rewrite map_map; reflexivity).
    apply Permutation_map. rewrite <- Hperm. apply Permutation_map.
    apply jsSort_perm. }
  assert (Hk : nth_error (map (fun x => key (p_seed x)) p) i = Some (key (p_seed a)))
    by (rewrite nth_error_map, Hi; reflexivity).
  rewrite Hkeys, nth_error_map, nth_error_seq in Hk.
  destruct (i <? n)%nat; [|discriminate]. simpl in Hk.
  destruct (Hseeds a (nth_error_In _ _ Hi)) as (s & Es & _).
  rewrite Es in *. simpl in Hk. injection Hk as Hk. f_equal. lia.
Qed.

(** C3. For a tournament with as many participants as its count says,
    [assignParticipants] sorts them, the seeded ones first by ascending
    seed and the others after them in the order they are stored, pairs
    position [i] of the sorted list with position [n-1-i] for
    [i = 0 .. n/2 - 1], and writes pair [i] into the [i]-th match of
    round 1 by ascending match number, as participant 1 and participant
    2, the match becoming 'upcoming'; with the seeds 1 .. n, pair [i] is
    seed [i+1] against seed [n-i]. *)
Theorem assignParticipants_spec db tournamentId tournament :
  getTournament db tournamentId = Some tournament ->
  let participants := getByTournament db tournamentId in
  Z.of_nat (List.length participants) = t_participantCount tournament ->
  NoDup (map m_id (MATCHES db)) ->
  let p := jsSort bySeed participants in
  let n := List.length p in
  let firstRoundMatches := jsSort byMatchNumber (findRound db tournamentId 1) in
  (p = jsSort bySeed (filter seeded participants)
       ++ filter (fun x => negb (seeded x)) (storedParticipants db tournamentId) /\
   Sorted seedLe (jsSort bySeed (filter seeded participants)) /\
   Permutation p (storedParticipants db tournamentId)) /\
  (Sorted (fun a b => m_matchNumber a <= m_matchNumber b) firstRoundMatches /\
   Permutation firstRoundMatches (findRound db tournamentId 1)) /\
  (exists r db',
     assignParticipants tournamentId db = (Returned r, db') /\
     forall i a b m,
       (2 * i + 2 <= n)%nat ->
       nth_error p i = Some a -> nth_error p (n - 1 - i) = Some b ->
       nth_error firstRoundMatches i = Some m ->
       getMatchById db' (m_id m)
       = Some (mkMatch (m_id m) (m_tournamentId m) (m_round m) (m_matchNumber m)
                       (Some (p_id a)) (Some (p_id b))
                       (m_winnerId m) (m_score1 m) (m_score2 m) "upcoming")) /\
  (Permutation (map p_seed participants) (map (fun i => Some (Z.of_nat i)) (seq 1 n)) ->
   forall i a b,
     (2 * i + 2 <= n)%nat ->
     nth_error p i = Some a -> nth_error p (n - 1 - i) = Some b ->
     p_seed a = Some (Z.of_nat i + 1) /\ p_seed b = Some (Z.of_nat n - Z.of_nat i)).
Proof.
  intros Ht participants Hlen Hnd p n firstRoundMatches.
  assert (Hn : n = List.length participants) by (apply jsSort_length).
  split; [|split; [|split]].
  - split; [|split].
    + unfold p. rewrite jsSort_bySeed_split. f_equal.
      unfold participants, getByTournament, storedParticipants.
      apply jsSort_filter_tied. intros x y Hx Hy.
      apply negb_true_iff in Hx, Hy. unfold seeded in Hx, Hy. unfold seedOr999.
      destruct (truthyNum (p_seed x)); [discriminate|].
      destruct (truthyNum (p_seed y)); [discriminate|]. reflexivity.
    + apply jsSort_bySeed_sorted.
    + unfold p, participants, getByTournament, storedParticipants.
      rewrite !jsSort_perm. reflexivity.
  - split; [apply byMatchNumber_sorted|apply jsSort_perm].
  - unfold assignParticipants. rewrite Ht. fold participants.
    replace (Z.of_nat (List.length participants) =? t_participantCount tournament)
      with true by (symmetry; apply Z.eqb_eq; exact Hlen).
    cbn [negb]. fold p firstRoundMatches.
    pose proof (createSeedPairings_spec p) as Hpairs. cbv zeta in Hpairs.
    fold n in Hpairs.
    set (count := Z.to_nat ((Z.of_nat n + 1) / 2)) in *.
    assert (Hcount : forall j, (j < count)%nat -> (2 * j + 1 <= n)%nat).
    { intros j Hj. unfold count in Hj.
      assert (Z.of_nat j < (Z.of_nat n + 1) / 2) by lia.
      Z.div_mod_to_equations. lia. }
    assert (Hsome : forall pr, In pr (createSeedPairings p) ->
                               exists a b, pr = (Some a, Some b)).
    { intros pr Hpr. rewrite Hpairs in Hpr. apply in_map_iff in Hpr.
      destruct Hpr as (j & <- & Hj). apply in_seq in Hj.
      specialize (Hcount j ltac:(lia)).
      destruct (nth_error p j) as [a|] eqn:Ea;
        [|apply nth_error_None in Ea; fold n in Ea; lia].
      destruct (nth_error p (n - 1 - j)) as [b|] eqn:Eb;
        [|apply nth_error_None in Eb; fold n in Eb; lia].
      eauto. }
    assert (Hids : NoDup (map m_id firstRoundMatches)).
    { unfold firstRoundMatches, findRound. apply NoDup_ids_sorted. exact Hnd. }
    destruct (assignPairs_spec firstRoundMatches Hids (createSeedPairings p) 0%nat db Hsome)
      as (db' & Hrun & _ & _ & _ & _ & _ & Hget & _).
    change (Z.of_nat 0) with 0 in Hrun.
    unfold bind. rewrite Hrun. unfold gets.
    eexists. exists db'. split; [reflexivity|].
    intros i a b m Hi Ha Hb Hm.
    assert (Hic : (i < count)%nat).
    { unfold count. apply Nat2Z.inj_lt. rewrite Z2Nat.id.
      - Z.div_mod_to_equations. lia.
      - apply Z.div_pos; lia. }
    rewrite (Hget i m a b).
    + assert (Hin : In m (MATCHES db)).
      { apply nth_error_In in Hm. apply jsSort_In in Hm. unfold findRound in Hm.
        apply filter_In in Hm. tauto. }
      unfold getMatchById. rewrite (getById_NoDup m_id _ _ Hnd Hin). reflexivity.
    + rewrite Hpairs, nth_error_map_seq by exact Hic. rewrite Ha, Hb. reflexivity.
    + exact Hm.
  - intros Hperm i a b Hi Ha Hb. rewrite Hn in Hperm.
    pose proof (jsSort_bySeed_ranked participants Hperm) as Hrank.
    split.
    + apply (Hrank i a Ha).
    + rewrite (Hrank _ b Hb). f_equal. lia.
Qed.

(** The four participants of the tournament of four, seeded 1 to 4. *)
Lemma assignParticipants_spec_witness :
  exists r db' m1 m2,
    assignParticipants "t1" demoGenerated = (Returned r, db') /\
    getMatchById db' "m" = Some m1 /\
    m_participant1Id m1 = Some "a" /\ m_participant2Id m1 = Some "d" /\
    m_status m1 = "upcoming" /\
    getMatchById db' "mx" = Some m2 /\
    m_participant1Id m2 = Some "b" /\ m_participant2Id m2 = Some "c" /\
    m_status m2 = "upcoming".
Proof.
  destruct (assignParticipants_spec demoGenerated "t1"
              (mkTournament "t1" "registration" 4 2 1 None))
    as (_ & _ & (r & db' & Hrun & Hget) & _).
  - reflexivity.
  - reflexivity.
  - vm_compute. repeat (constructor; [simpl; intuition discriminate|]). constructor.
  - exists r, db'. eexists. eexists. split; [exact Hrun|].
    split; [apply (Hget 0%nat (demoParticipant "a" 1) (demoParticipant "d" 4)
                     (mkMatch "m" "t1" 1 1 None None None None None "pending"));
            try reflexivity; vm_compute; lia|].
    split; [reflexivity|]. split; [reflexivity|]. split; [reflexivity|].
    split; [apply (Hget 1%nat (demoParticipant "b" 2) (demoParticipant "c" 3)
                     (mkMatch "mx" "t1" 1 2 None None None None None "pending"));
            try reflexivity; vm_compute; lia|].
    repeat split.
Defined.

(** ** Brackets built by generate *)

Lemma tshape_update items id upd :
  (forall t, tshape (upd t) = tshape t) ->
  map tshape (update t_id items id upd) = map tshape items.
Proof. intros H. apply map_update. exact H. Qed.

Lemma advanceWinner_TOURNAMENTS mt winnerId db :
  TOURNAMENTS (snd (advanceWinner mt winnerId db)) = TOURNAMENTS db.
Proof.
  unfold advanceWinner.
  destruct (getTournament db (m_tournamentId mt)) as [t|]; [|reflexivity].
  destruct (m_round mt + 1 >? t_totalRounds t); [reflexivity|].
  destruct (getFirstMatchNumberOfRound db (m_tournamentId mt) (m_round mt)) as [first|];
    [|reflexivity].
  destruct (nextMatchOf db mt _) as [nextMatch|]; [|reflexivity].
  destruct (getMatchById db (m_id nextMatch)); reflexivity.
Qed.

Lemma updateScore_tshape genId today matchId score1 score2 db :
  map tshape (TOURNAMENTS (snd (updateScore genId today matchId score1 score2 db)))
  = map tshape (TOURNAMENTS db).
Proof.
  unfold updateScore.
  destruct (getMatchById db matchId) as [mt|]; [|reflexivity].
  destruct (String.eqb (m_status mt) "pending"); [reflexivity|].
  destruct (truthyId (m_participant1Id mt)) as [p1|]; [|reflexivity].
  destruct (truthyId (m_participant2Id mt)) as [p2|]; [|reflexivity].
  destruct ((score1 <? 0) || (score2 <? 0))%bool; [reflexivity|].
  destruct (score1 =? score2); [reflexivity|].
  apply (bind_keeps (fun d => map tshape (TOURNAMENTS d))); [reflexivity|].
  intros _ db0. apply (bind_keeps (fun d => map tshape (TOURNAMENTS d))); [reflexivity|].
  intros tournament db1.
  apply (bind_keeps (fun d => map tshape (TOURNAMENTS d))); [reflexivity|].
  intros _ db2. apply (bind_keeps (fun d => map tshape (TOURNAMENTS d))).
  { intros db3. rewrite advanceWinner_TOURNAMENTS. reflexivity. }
  intros _ db3. apply (bind_keeps (fun d => map tshape (TOURNAMENTS d))); [|reflexivity].
  intros db4. destruct tournament as [t|]; [|reflexivity].
  destruct (m_round mt =? t_totalRounds t).
  - unfold finalizeTournament.
    destruct (getTournament db4 (m_tournamentId mt)); [|reflexivity].
    simpl. apply tshape_update. intros x. reflexivity.
  - unfold updateCurrentRound.
    destruct (getTournament db4 (m_tournamentId mt)) as [t'|]; [|reflexivity].
    destruct (firstIncompleteRound _ _ _) as [round|]; [|reflexivity].
    destruct (negb _); [|reflexivity].
    simpl. apply tshape_update. intros x. reflexivity.
Qed.

Lemma assignPairs_keeps firstRoundMatches pairs index db :
  map shape (MATCHES (snd (assignPairs firstRoundMatches pairs index db)))
  = map shape (MATCHES db) /\
  TOURNAMENTS (snd (assignPairs firstRoundMatches pairs index db)) = TOURNAMENTS db.
Proof.
  revert index db. induction pairs as [|pr rest IH]; intros index db; [split; reflexivity|].
  cbn [assignPairs].
  destruct (arrayGet firstRoundMatches index) as [mt|]; [|apply IH].
  destruct pr as [[a|] [b|]]; try (split; reflexivity).
  unfold bind, modify.
  destruct (IH (index + 1) (updateMATCHES (m_id mt) (setPair (p_id a) (p_id b)) db))
    as [Hs Ht].
  destruct (assignPairs firstRoundMatches rest (index + 1) _) as [[u|e] db1];
    simpl in *; (split; [rewrite Hs; apply shape_update; intros x; reflexivity|exact Ht]).
Qed.

Lemma assignParticipants_keeps tournamentId db :
  map shape (MATCHES (snd (assignParticipants tournamentId db))) = map shape (MATCHES db) /\
  TOURNAMENTS (snd (assignParticipants tournamentId db)) = TOURNAMENTS db.
Proof.
  unfold assignParticipants.
  destruct (getTournament db tournamentId) as [t|]; [|split; reflexivity].
  destruct (negb _); [split; reflexivity|].
  unfold bind, gets.
  pose proof (assignPairs_keeps
                (jsSort byMatchNumber (findRound db tournamentId 1))
                (createSeedPairings (jsSort bySeed (getByTournament db tournamentId)))
                0 db) as H.
  destruct (assignPairs _ _ 0 db) as [[u|e] db1]; exact H.
Qed.

Lemma getById_tshape (l l' : list Tournament) id t :
  map tshape l' = map tshape l ->
  getById t_id l id = Some t ->
  exists t', getById t_id l' id = Some t' /\ tshape t' = tshape t.
Proof.
  revert l'. induction l as [|x l IH]; intros l' Hmap Hget; [discriminate|].
  destruct l' as [|x' l']; [discriminate|].
  simpl in Hmap.
  assert (Hx : tshape x' = tshape x) by congruence.
  assert (Hl : map tshape l' = map tshape l) by congruence.
  assert (Eid : t_id x' = t_id x) by (unfold tshape in Hx; congruence).
  unfold getById in *. cbn [find] in *.
  rewrite Eid. destruct (String.eqb (t_id x) id).
  - injection Hget as <-. exists x'. split; [reflexivity|exact Hx].
  - apply IH; assumption.
Qed.

Lemma findMatches_shape db db' tournamentId :
  map shape (MATCHES db') = map shape (MATCHES db) ->
  map shape (findMatches db' tournamentId) = map shape (findMatches db tournamentId).
Proof.
  unfold findMatches. generalize (MATCHES db) (MATCHES db').
  intros l. induction l as [|x l IH]; intros l' Hmap;
    destruct l' as [|x' l']; try discriminate; [reflexivity|].
  simpl in Hmap.
  assert (Hx : shape x' = shape x) by congruence.
  assert (Hl : map shape l' = map shape l) by congruence. simpl.
  assert (E : inTournament tournamentId x' = inTournament tournamentId x).
  { unfold inTournament. unfold shape in Hx. congruence. }
  rewrite E. destruct (inTournament tournamentId x); simpl.
  - rewrite Hx. f_equal. apply IH. exact Hl.
  - apply IH. exact Hl.
Qed.

Lemma wellBuilt_keeps db db' tournamentId :
  map shape (MATCHES db') = map shape (MATCHES db) ->
  map tshape (TOURNAMENTS db') = map tshape (TOURNAMENTS db) ->
  wellBuilt db tournamentId -> wellBuilt db' tournamentId.
Proof.
  intros Hs Ht (t & k & Hget & Hk & Hpc & Hrounds & Hshape).
  destruct (getById_tshape _ _ _ _ Ht Hget) as (t' & Hget' & E).
  exists t', k. unfold tshape in E. injection E as _ Epc Er.
  split; [exact Hget'|]. split; [exact Hk|]. split; [congruence|].
  split; [congruence|]. rewrite (findMatches_shape db db' tournamentId Hs). exact Hshape.
Qed.

Lemma newRounds_shape genId genId' tournamentId participantCount count :
  forall round firstId firstId' firstNumber,
  map shape (newRounds genId tournamentId participantCount count round firstId firstNumber)
  = map shape (newRounds genId' tournamentId participantCount count round firstId'
                         firstNumber).
Proof.
  induction count as [|count IH]; intros round firstId firstId' firstNumber;
    [reflexivity|].
  cbn [newRounds]. rewrite !map_app. f_equal; [|apply IH].
  unfold newRound. rewrite !map_map. reflexivity.
Qed.

Lemma filter_all {A} (f : A -> bool) (l : list A) :
  (forall x, In x l -> f x = true) -> filter f l = l.
Proof.
  induction l as [|x l IH]; simpl; intros H; [reflexivity|].
  rewrite (H x) by (left; reflexivity). f_equal. apply IH.
  intros y Hy. apply H. right. exact Hy.
Qed.

Lemma generate_shape genId db tournamentId tournament k created db' :
  getTournament db tournamentId = Some tournament ->
  0 <= k -> t_participantCount tournament = 2 ^ k ->
  findMatches db tournamentId = [] ->
  generate genId tournamentId db = (Returned created, db') ->
  getTournament db' tournamentId = Some (setRegistration k tournament) /\
  findMatches db' tournamentId = created /\
  map shape created = bracketShape tournamentId k.
Proof.
  intros Ht Hk Hpc Hnone Hgen.
  unfold generate in Hgen. rewrite Ht in Hgen.
  destruct (negb (String.eqb (t_status tournament) "draft")); [discriminate|].
  rewrite Hpc, isPowerOfTwo_pow2 in Hgen by exact Hk. cbn [negb] in Hgen.
  rewrite Z.log2_pow2 in Hgen by exact Hk.
  pose proof (generateRounds_spec genId tournamentId (2 ^ k) (Z.to_nat k) 1 db 1 [])
    as Hrounds.
  cbv zeta in Hrounds. rewrite Hrounds in Hgen. clear Hrounds.
  injection Hgen as <- <-. cbn [app].
  split.
  { unfold getTournament, updateTOURNAMENTS. cbn [TOURNAMENTS setTOURNAMENTS].
    rewrite getById_update_same by (intros x; reflexivity).
    unfold getTournament in Ht. rewrite Ht. reflexivity. }
  split.
  - unfold findMatches. cbn [MATCHES updateTOURNAMENTS setTOURNAMENTS].
    rewrite filter_app. unfold findMatches in Hnone. rewrite Hnone. cbn [app].
    apply filter_all.
    intros m Hm. apply newRounds_In in Hm. destruct Hm as [_ [Htid _]].
    unfold inTournament. rewrite Htid. apply String.eqb_refl.
  - apply newRounds_shape.
Qed.

Lemma generate_wellBuilt genId db tournamentId tournament k created db' :
  getTournament db tournamentId = Some tournament ->
  0 <= k -> t_participantCount tournament = 2 ^ k ->
  findMatches db tournamentId = [] ->
  generate genId tournamentId db = (Returned created, db') ->
  wellBuilt db' tournamentId.
Proof.
  intros Ht Hk Hpc Hnone Hgen.
  destruct (generate_shape _ _ _ _ _ _ _ Ht Hk Hpc Hnone Hgen) as (Ht' & Hms & Hshape).
  exists (setRegistration k tournament), k.
  split; [exact Ht'|]. split; [exact Hk|]. split; [exact Hpc|]. split; [reflexivity|].
  rewrite Hms. exact Hshape.
Qed.

Lemma updateMatch_keeps matchId status db :
  map shape (MATCHES (snd (updateMatch matchId status db))) = map shape (MATCHES db) /\
  TOURNAMENTS (snd (updateMatch matchId status db)) = TOURNAMENTS db.
Proof.
  unfold updateMatch. destruct (getMatchById db matchId) as [found|];
    [|split; reflexivity].
  cbn [snd updateMATCHES setMATCHES MATCHES TOURNAMENTS]. split; [|reflexivity].
  apply map_update. intros x. destruct status; reflexivity.
Qed.

(** [generate] for a tournament leaves the record and the matches of
    every other tournament alone, whatever its outcome. *)
Lemma generate_elsewhere genId other tournamentId db :
  other <> tournamentId ->
  getTournament (snd (generate genId other db)) tournamentId
  = getTournament db tournamentId /\
  findMatches (snd (generate genId other db)) tournamentId
  = findMatches db tournamentId.
Proof.
  intros Hother. unfold generate.
  destruct (getTournament db other) as [tournament|]; [|split; reflexivity].
  destruct (negb (String.eqb (t_status tournament) "draft")); [split; reflexivity|].
  destruct (negb (isPowerOfTwo (t_participantCount tournament)));
    [split; reflexivity|].
  pose proof (generateRounds_spec genId other (t_participantCount tournament)
                (Z.to_nat (Z.log2 (t_participantCount tournament))) 1 db 1 [])
    as Hrounds.
  cbv zeta in Hrounds. rewrite Hrounds. clear Hrounds. cbn [snd]. split.
  - unfold getTournament, updateTOURNAMENTS. cbn [TOURNAMENTS setTOURNAMENTS].
    apply getById_update_other; [intros x; reflexivity|exact Hother].
  - unfold findMatches. cbn [MATCHES updateTOURNAMENTS setTOURNAMENTS].
    rewrite filter_app.
    set (created := newRounds genId other _ _ _ _ _).
    assert (Hnone : filter (inTournament tournamentId) created = []).
    { assert (H : forall m, In m created -> inTournament tournamentId m = false).
      { intros m Hm. apply newRounds_In in Hm. destruct Hm as [_ [Htid _]].
        unfold inTournament. rewrite Htid. apply String.eqb_neq. exact Hother. }
      clearbody created.
      induction created as [|x l IH]; [reflexivity|]. cbn [filter].
      rewrite (H x) by (left; reflexivity). apply IH.
      intros y Hy. apply H. right. exact Hy. }
    rewrite Hnone. apply app_nil_r.
Qed.

Lemma built_wellBuilt genId today tournamentId db :
  built genId today tournamentId db -> wellBuilt db tournamentId.
Proof.
  induction 1 as [db t k created db' Ht Hk Hpc Hnone Hgen
                 |db anyId r db' _ IH Hrun
                 |db matchId score1 score2 r db' _ IH Hrun
                 |db anyId status _ IH
                 |db matchId status r db' _ IH Hrun
                 |db other r db' _ IH Hother Hrun].
  - eapply generate_wellBuilt; eassumption.
  - destruct (assignParticipants_keeps anyId db) as [Hs Ht].
    rewrite Hrun in Hs, Ht. simpl in Hs, Ht.
    apply (wellBuilt_keeps db); [exact Hs|rewrite Ht; reflexivity|exact IH].
  - pose proof (updateScore_shape genId today matchId score1 score2 db) as Hs.
    pose proof (updateScore_tshape genId today matchId score1 score2 db) as Ht.
    rewrite Hrun in Hs, Ht. simpl in Hs, Ht.
    apply (wellBuilt_keeps db); [exact Hs|exact Ht|exact IH].
  - apply (wellBuilt_keeps db); [reflexivity| |exact IH].
    unfold updateTOURNAMENTS. cbn [TOURNAMENTS setTOURNAMENTS].
    apply tshape_update. intros t. reflexivity.
  - destruct (updateMatch_keeps matchId status db) as [Hs Ht].
    rewrite Hrun in Hs, Ht. cbn [snd] in Hs, Ht.
    apply (wellBuilt_keeps db); [exact Hs|rewrite Ht; reflexivity|exact IH].
  - destruct (generate_elsewhere genId other tournamentId db Hother) as [Ht Hms].
    rewrite Hrun in Ht, Hms. cbn [snd] in Ht, Hms.
    destruct IH as (t & k & Hget & Hk & Hpc & Hrounds & Hshape).
    exists t, k. rewrite Ht, Hms. auto.
Qed.

(** *** The numbers of a bracket of [2^k] *)

Lemma pow2_split a b : 0 <= b <= a -> 2 ^ a = 2 ^ (a - b) * 2 ^ b.
Proof.
  intros H. rewrite <- Z.pow_add_r by lia. f_equal. lia.
Qed.

Lemma pow2_double a : 0 <= a -> 2 ^ (a + 1) = 2 * 2 ^ a.
Proof. intros H. rewrite Z.pow_add_r by lia. lia. Qed.

Lemma quotient_pow2 a b :
  0 <= b <= a -> (inject_Z (2 ^ a) / inject_Z (2 ^ b) == inject_Z (2 ^ (a - b)))%Q.
Proof.
  intros H. rewrite (pow2_split a b H), inject_Z_mult.
  assert (Hnz : ~ (inject_Z (2 ^ b) == 0)%Q).
  { intros E. change 0%Q with (inject_Z 0) in E.
    apply (proj1 (inject_Z_injective _ _)) in E.
    pose proof (Z.pow_pos_nonneg 2 b). lia. }
  field. exact Hnz.
Qed.

Lemma sum_pow2 k count :
  forall r0, 1 <= r0 -> r0 + Z.of_nat count <= k + 1 ->
  (sumQ (map (fun j => inject_Z (2 ^ k) / inject_Z (2 ^ (r0 + Z.of_nat j)))
             (seq 0 count))
   == inject_Z (2 ^ (k - r0 + 1) - 2 ^ (k - r0 - Z.of_nat count + 1)))%Q.
Proof.
  induction count as [|count IH]; intros r0 Hr0 Hk.
  - simpl. replace (k - r0 - 0 + 1) with (k - r0 + 1) by lia.
    rewrite Z.sub_diag. reflexivity.
  - cbn [seq map sumQ fold_right]. rewrite <- seq_shift, map_map.
    assert (E : map (fun j => (inject_Z (2 ^ k) / inject_Z (2 ^ (r0 + Z.of_nat (S j))))%Q)
                    (seq 0 count)
              = map (fun j => (inject_Z (2 ^ k)
                               / inject_Z (2 ^ (r0 + 1 + Z.of_nat j)))%Q)
                    (seq 0 count)).
    { apply map_ext. intros j. do 3 f_equal. lia. }
    rewrite E. clear E.
    fold (sumQ (map (fun j => (inject_Z (2 ^ k)
                               / inject_Z (2 ^ (r0 + 1 + Z.of_nat j)))%Q) (seq 0 count))).
    rewrite (IH (r0 + 1)) by lia.
    rewrite Z.add_0_r, quotient_pow2 by lia.
    rewrite <- inject_Z_plus. apply inject_Z_injective.
    replace (k - (r0 + 1) + 1) with (k - r0) by lia.
    replace (k - (r0 + 1) - Z.of_nat count + 1) with (k - r0 - Z.of_nat (S count) + 1)
      by lia.
    rewrite (pow2_double (k - r0)) by lia. lia.
Qed.

(** In a bracket of [2^k] the first match number of round [r] is
    [1 + 2^k - 2^(k-r+1)]. *)
Lemma firstMatchNumber_pow2 k r :
  1 <= r <= k + 1 ->
  (firstMatchNumber (2 ^ k) r == inject_Z (firstZ k r))%Q.
Proof.
  intros Hr. unfold firstMatchNumber. rewrite firstLoop_sum.
  rewrite (sum_pow2 k (Z.to_nat (r - 1)) 1) by lia.
  change 1%Q with (inject_Z 1). rewrite <- inject_Z_plus.
  apply inject_Z_injective. unfold firstZ.
  replace (k - 1 + 1) with k by lia.
  replace (k - 1 - Z.of_nat (Z.to_nat (r - 1)) + 1) with (k - r + 1) by lia. lia.
Qed.

Lemma floor_half a : Qfloor (inject_Z a / 2) = a / 2.
Proof.
  unfold Qfloor, Qdiv, Qmult, Qinv, inject_Z. cbn -[Z.mul Z.add Z.div].
  rewrite Z.mul_1_r. reflexivity.
Qed.

Lemma newRounds_range genId tournamentId k count :
  forall round firstId firstNumber m,
  1 <= round -> round + Z.of_nat count <= k + 1 ->
  In m (newRounds genId tournamentId (2 ^ k) count round firstId firstNumber) ->
  let offset := 2 ^ (k - round + 1) - 2 ^ (k - m_round m + 1) in
  firstNumber + offset <= m_matchNumber m
  < firstNumber + offset + 2 ^ (k - m_round m).
Proof.
  induction count as [|count IH]; intros round firstId firstNumber m Hr Hk Hin;
    [contradiction|].
  cbn [newRounds] in Hin. apply in_app_or in Hin.
  assert (Hn : Z.of_nat (Z.to_nat (2 ^ k / 2 ^ round)) = 2 ^ (k - round)).
  { rewrite <- Z.pow_sub_r by lia. apply Z2Nat.id. apply Z.pow_nonneg. lia. }
  destruct Hin as [Hin|Hin].
  - apply newRound_In in Hin. destruct Hin as (-> & _ & Hnum).
    cbv zeta. rewrite Hn in Hnum. lia.
  - pose proof (newRounds_In _ _ _ _ _ _ _ _ Hin) as [Hround _].
    specialize (IH (round + 1) _ _ m ltac:(lia) ltac:(lia) Hin).
    cbv zeta in *. rewrite Hn in IH.
    replace (k - (round + 1) + 1) with (k - round) in IH by lia.
    rewrite (pow2_double (k - round)) by lia. lia.
Qed.

Lemma filter_round_shape (l l' : list Match) r :
  map shape l = map shape l' ->
  List.length (filter (fun m => m_round m =? r) l)
  = List.length (filter (fun m => m_round m =? r) l').
Proof.
  revert l'. induction l as [|x l IH]; intros l' Hmap;
    destruct l' as [|x' l']; try discriminate; [reflexivity|].
  simpl in Hmap.
  assert (Hx : shape x = shape x') by congruence.
  assert (Hl : map shape l = map shape l') by congruence. simpl.
  assert (E : m_round x = m_round x') by (unfold shape in Hx; congruence).
  rewrite E. destruct (m_round x' =? r); simpl; rewrite (IH l' Hl); reflexivity.
Qed.

Lemma findRound_findMatches db tournamentId round :
  findRound db tournamentId round
  = filter (fun m => m_round m =? round) (findMatches db tournamentId).
Proof. unfold findRound, findMatches. rewrite filter_twice. reflexivity. Qed.

Section WellBuilt.
Variables (db : DB) (tournamentId : Id) (tournament : Tournament) (k : Z).
Hypothesis Hk : 0 <= k.
Hypothesis Hcount : t_participantCount tournament = 2 ^ k.
Hypothesis Hshape : map shape (findMatches db tournamentId) = bracketShape tournamentId k.

Lemma wellBuilt_match mt :
  In mt (findMatches db tournamentId) ->
  m_tournamentId mt = tournamentId /\
  1 <= m_round mt <= k /\
  firstZ k (m_round mt) <= m_matchNumber mt < firstZ k (m_round mt) + 2 ^ (k - m_round mt).
Proof.
  intros Hin.
  destruct (shape_In _ (newRounds (fun _ => "") tournamentId (2 ^ k) (Z.to_nat k) 1 0 1)
              mt Hshape Hin) as (m' & Hin' & Hs).
  unfold shape in Hs.
  assert (Et : m_tournamentId m' = m_tournamentId mt) by congruence.
  assert (Er : m_round m' = m_round mt) by congruence.
  assert (En : m_matchNumber m' = m_matchNumber mt) by congruence.
  pose proof (newRounds_In _ _ _ _ _ _ _ _ Hin') as [Hround [Htid _]].
  assert (Hfit : 1 + Z.of_nat (Z.to_nat k) <= k + 1) by lia.
  pose proof (newRounds_range _ _ k (Z.to_nat k) 1 _ _ m' ltac:(lia) Hfit Hin') as Hnum.
  cbv zeta in Hnum. replace (k - 1 + 1) with k in Hnum by lia.
  rewrite Er, En in *. unfold firstZ. repeat split; try lia. congruence.
Qed.

Lemma wellBuilt_round_size r :
  1 <= r <= k ->
  Z.of_nat (List.length (findRound db tournamentId r)) = 2 ^ (k - r).
Proof.
  intros Hr. rewrite findRound_findMatches.
  rewrite (filter_round_shape _ (newRounds (fun _ => "") tournamentId (2 ^ k)
                                           (Z.to_nat k) 1 0 1) r Hshape).
  rewrite newRounds_count by lia. rewrite <- Z.pow_sub_r by lia.
  apply Z2Nat.id. apply Z.pow_nonneg. lia.
Qed.

Lemma wellBuilt_index mt :
  In mt (findMatches db tournamentId) ->
  (inject_Z (m_matchNumber mt)
   - firstMatchNumber (t_participantCount tournament) (m_round mt)
   == inject_Z (m_matchNumber mt - firstZ k (m_round mt)))%Q.
Proof.
  intros Hin. destruct (wellBuilt_match mt Hin) as (_ & Hr & _).
  rewrite Hcount, firstMatchNumber_pow2 by lia.
  unfold Qminus. rewrite <- inject_Z_opp, <- inject_Z_plus. reflexivity.
Qed.

(** In a bracket as [generate] builds it, every match before the final
    has its destination. *)
Lemma wellBuilt_destination mt :
  In mt (findMatches db tournamentId) ->
  m_round mt < k ->
  exists dest,
    nextMatchOf db mt
      (inject_Z (m_matchNumber mt)
       - firstMatchNumber (t_participantCount tournament) (m_round mt))%Q
    = Some dest.
Proof.
  intros Hin Hlt.
  destruct (wellBuilt_match mt Hin) as (Htid & Hr & Hnum).
  assert (Efloor : Qfloor ((inject_Z (m_matchNumber mt)
                            - firstMatchNumber (t_participantCount tournament)
                                               (m_round mt)) / 2)
                   = (m_matchNumber mt - firstZ k (m_round mt)) / 2).
  { rewrite (wellBuilt_index mt Hin). apply floor_half. }
  unfold nextMatchOf. rewrite Efloor, Htid.
  set (nextMatches := jsSort byMatchNumber (findRound db tournamentId (m_round mt + 1))).
  assert (Hlen : Z.of_nat (List.length nextMatches) = 2 ^ (k - (m_round mt + 1))).
  { unfold nextMatches. rewrite jsSort_length. apply wellBuilt_round_size. lia. }
  assert (Hhalf : 2 ^ (k - m_round mt) = 2 * 2 ^ (k - (m_round mt + 1))).
  { rewrite <- pow2_double by lia. f_equal. lia. }
  assert (Hidx : 0 <= (m_matchNumber mt - firstZ k (m_round mt)) / 2
                 < Z.of_nat (List.length nextMatches)).
  { rewrite Hlen. Z.div_mod_to_equations. lia. }
  unfold arrayGet.
  replace ((m_matchNumber mt - firstZ k (m_round mt)) / 2 <? 0) with false
    by (symmetry; apply Z.ltb_ge; lia).
  destruct (nth_error nextMatches
              (Z.to_nat ((m_matchNumber mt - firstZ k (m_round mt)) / 2))) as [dest|] eqn:E;
    [eauto|].
  apply nth_error_None in E. lia.
Qed.
End WellBuilt.

(** ** A destination that is missing *)

(** With the final gone from the store, scoring a semifinal finds no
    destination, and the call returns: nothing is thrown. *)
Lemma missing_destination_returns :
  let mt := mkMatch "m" "t1" 1 1 (Some "a") (Some "d") None None None "upcoming" in
  getMatchById demoCorrupt "m" = Some mt /\
  nextMatchOf demoCorrupt mt (inject_Z 1 - firstMatchNumber 4 1)%Q = None /\
  (exists r, fst (updateScore demoId "2024-01-01" "m" 3 1 demoCorrupt) = Returned r) /\
  fst (updateScore demoId "2024-01-01" "m" 3 1 demoCorrupt) <> Thrown BracketCorruption.
Proof.
  cbv zeta. split; [reflexivity|]. split; [reflexivity|]. split.
  - eexists. vm_compute. reflexivity.
  - vm_compute. discriminate.
Qed.

Section Destination.
Variable genId : nat -> Id.
Variable today : string.

(** C9, as the code has it. When the destination of the winner is not in
    the store, an accepted [updateScore] throws nothing: the match is
    completed, the loser eliminated, no match of the next round is
    written, and the call returns. Where the matches of the tournament are
    a bracket as [generate] builds it for the participant count of the
    tournament ([wellBuilt]: whatever the status of the tournament, the
    slots, scores and statuses of its matches and the rest of the store),
    the destination of every match before the final is there; and every
    store reached from [generate] through [assignParticipants],
    [updateScore], [updateMatch], the status writes of
    [TournamentService.start] and [updateStatus], and the generation of
    other brackets has such a bracket. *)
Theorem updateScore_destination :
  (forall db matchId score1 score2 mt tournament p1 p2,
     getMatchById db matchId = Some mt ->
     m_status mt <> "pending" ->
     truthyId (m_participant1Id mt) = Some p1 ->
     truthyId (m_participant2Id mt) = Some p2 ->
     0 <= score1 -> 0 <= score2 -> score1 <> score2 ->
     getTournament db (m_tournamentId mt) = Some tournament ->
     m_round mt < t_totalRounds tournament ->
     nextMatchOf db mt
       (inject_Z (m_matchNumber mt)
        - firstMatchNumber (t_participantCount tournament) (m_round mt))%Q = None ->
     exists r db',
       updateScore genId today matchId score1 score2 db = (Returned r, db') /\
       MATCHES db'
       = update m_id (MATCHES db) matchId
                (setScore score1 score2 (if score1 >? score2 then p1 else p2)) /\
       PARTICIPANTS db'
       = update p_id (PARTICIPANTS db) (if score1 >? score2 then p2 else p1)
                (setEliminated (m_round mt))) /\
  (forall tournamentId db tournament mt,
     wellBuilt db tournamentId ->
     getTournament db tournamentId = Some tournament ->
     In mt (MATCHES db) -> m_tournamentId mt = tournamentId ->
     m_round mt < t_totalRounds tournament ->
     exists dest,
       nextMatchOf db mt
         (inject_Z (m_matchNumber mt)
          - firstMatchNumber (t_participantCount tournament) (m_round mt))%Q
       = Some dest /\
       In dest (MATCHES db) /\ m_tournamentId dest = tournamentId /\
       m_round dest = m_round mt + 1) /\
  (forall tournamentId db,
     built genId today tournamentId db -> wellBuilt db tournamentId).
Proof.
  split.
  - intros db matchId score1 score2 mt tournament p1 p2
           Hm Hs H1 H2 Hs1 Hs2 Hne Ht Hr Hnone.
    destruct (updateScore_advance_MATCHES genId today db matchId score1 score2 mt
                tournament p1 p2 Hm Hs H1 H2 Hs1 Hs2 Hne Ht Hr)
      as (r & db' & Hrun & Hp & _ & Hms).
    rewrite Hnone in Hms. exists r, db'. auto.
  - split; [|intros tournamentId db; apply built_wellBuilt].
    intros tournamentId db tournament mt Hbuilt Ht Hin Htid Hr.
    destruct Hbuilt as (t & k & Ht' & Hk & Hpc & Hrounds & Hshape).
    rewrite Ht in Ht'. injection Ht' as <-.
    assert (Hin' : In mt (findMatches db tournamentId))
      by (apply In_findMatches; split; assumption).
    destruct (wellBuilt_destination db tournamentId tournament k Hk Hpc Hshape mt Hin')
      as (dest & Hdest); [lia|].
    exists dest. split; [exact Hdest|].
    destruct (nextMatchOf_In _ _ _ _ Hdest) as (Hd & Hdt & Hdr).
    split; [exact Hd|]. split; [rewrite Hdt; exact Htid|exact Hdr].
Qed.
End Destination.

(** The tournament of four, started by [TournamentService.start], is
    among the stores reached from [generate]. *)
Lemma demo_started_built : built demoId "2024-01-01" "t1" demoStarted.
Proof.
  change demoStarted with (updateTOURNAMENTS "t1" (setStatus "ongoing") demoAssigned).
  apply built_status.
  apply (built_assign _ _ _ demoGenerated "t1"
           (fst (assignParticipants "t1" demoGenerated))); [|reflexivity].
  apply (built_generate _ _ _ demo0 (mkTournament "t1" "draft" 4 2 1 None) 2
           (MATCHES demoGenerated)); try reflexivity. lia.
Defined.

(** The semifinal of the store without its final, and the semifinal of
    the tournament of four once started ('ongoing'): its destination is
    the final. *)
Lemma updateScore_destination_witness :
  (exists r db',
     updateScore demoId "2024-01-01" "m" 3 1 demoCorrupt = (Returned r, db') /\
     map m_status (MATCHES db') = ["completed"; "upcoming"]) /\
  getTournament demoStarted "t1" = Some (mkTournament "t1" "ongoing" 4 2 1 None) /\
  wellBuilt demoStarted "t1" /\
  (exists dest,
     nextMatchOf demoStarted
       (mkMatch "m" "t1" 1 1 (Some "a") (Some "d") None None None "upcoming")
       (inject_Z 1 - firstMatchNumber 4 1)%Q = Some dest /\
     m_id dest = "mxx").
Proof.
  destruct (updateScore_destination demoId "2024-01-01") as (Hmissing & Hthere & Hbuilt).
  split.
  - destruct (Hmissing demoCorrupt "m" 3 1
                (mkMatch "m" "t1" 1 1 (Some "a") (Some "d") None None None "upcoming")
                (mkTournament "t1" "registration" 4 2 1 None) "a" "d")
      as (r & db' & Hrun & Hms & _);
      try reflexivity; try discriminate; try lia.
    exists r, db'. split; [exact Hrun|]. rewrite Hms. reflexivity.
  - split; [reflexivity|].
    pose proof (Hbuilt "t1" demoStarted demo_started_built) as Hwell.
    split; [exact Hwell|].
    destruct (Hthere "t1" demoStarted (mkTournament "t1" "ongoing" 4 2 1 None)
                (mkMatch "m" "t1" 1 1 (Some "a") (Some "d") None None None "upcoming")
                Hwell)
      as (dest & Hdest & _);
      [reflexivity|vm_compute; auto|reflexivity|simpl; lia|].
    exists dest. split; [exact Hdest|].
    vm_compute in Hdest. injection Hdest as <-. reflexivity.
Defined.

(** ** Playing a tournament once through *)

Section UpdateFacts.
Context {A : Type} (ident : A -> Id).

Lemma In_update items id upd x y :
  NoDup (map ident items) ->
  getById ident items id = Some x ->
  In y (update ident items id upd) ->
  y = upd x \/ (In y items /\ ident y <> id).
Proof.
  intros Hnd Hget Hin. rewrite (update_as_map ident _ _ _ Hnd) in Hin.
  apply in_map_iff in Hin. destruct Hin as (z & <- & Hz).
  destruct (String.eqb_spec (ident z) id) as [E|E].
  - left. f_equal. pose proof (getById_NoDup ident _ _ Hnd Hz) as G.
    rewrite E in G. congruence.
  - right. auto.
Qed.

Lemma count_update_gain (P : A -> bool) items id upd x :
  getById ident items id = Some x ->
  P x = false -> P (upd x) = true ->
  List.length (filter P (update ident items id upd)) = S (List.length (filter P items)).
Proof.
  induction items as [|y r IH]; simpl; intros Hget Hx Hx'; [discriminate|].
  unfold getById in Hget. simpl in Hget.
  destruct (String.eqb (ident y) id); simpl.
  - injection Hget as ->. rewrite Hx, Hx'. reflexivity.
  - destruct (P y); simpl; rewrite (IH Hget Hx Hx'); reflexivity.
Qed.

Lemma count_update_same (P : A -> bool) items id upd x :
  getById ident items id = Some x ->
  P (upd x) = P x ->
  List.length (filter P (update ident items id upd)) = List.length (filter P items).
Proof.
  induction items as [|y r IH]; simpl; intros Hget Hx; [discriminate|].
  unfold getById in Hget. simpl in Hget.
  destruct (String.eqb (ident y) id); simpl.
  - injection Hget as ->. rewrite Hx. destruct (P x); reflexivity.
  - destruct (P y); simpl; rewrite (IH Hget Hx); reflexivity.
Qed.

End UpdateFacts.

Lemma NoDup_position {A B} (f : A -> B) (l : list A) x y :
  NoDup (map f l) -> In x l -> In y l -> f x = f y -> x = y.
Proof.
  intros Hnd Hx Hy E.
  apply In_nth_error in Hx, Hy. destruct Hx as [i Hi]. destruct Hy as [j Hj].
  assert (i = j).
  { apply (proj1 (NoDup_nth_error (map f l)) Hnd).
    - rewrite length_map. apply nth_error_Some. congruence.
    - rewrite !nth_error_map, Hi, Hj. simpl. congruence. }
  subst j. congruence.
Qed.

(** What an accepted [updateScore] says about its match and scores. *)
Lemma updateScore_accepted genId today db matchId score1 score2 mt r db' :
  getMatchById db matchId = Some mt ->
  updateScore genId today matchId score1 score2 db = (Returned r, db') ->
  m_status mt <> "pending" /\
  (exists p1 p2, truthyId (m_participant1Id mt) = Some p1 /\
                 truthyId (m_participant2Id mt) = Some p2) /\
  0 <= score1 /\ 0 <= score2 /\ score1 <> score2.
Proof.
  intros Hm Hrun. unfold updateScore in Hrun. rewrite Hm in Hrun.
  destruct (String.eqb_spec (m_status mt) "pending") as [E|E]; [discriminate|].
  destruct (truthyId (m_participant1Id mt)) as [p1|]; [|discriminate].
  destruct (truthyId (m_participant2Id mt)) as [p2|]; [|discriminate].
  destruct (score1 <? 0) eqn:E1; [discriminate|].
  destruct (score2 <? 0) eqn:E2; [discriminate|].
  destruct (score1 =? score2) eqn:E3; [discriminate|].
  apply Z.ltb_ge in E1, E2. apply Z.eqb_neq in E3.
  split; [exact E|]. split; [eauto|]. auto.
Qed.

Lemma newRounds_round_numbers genId tournamentId k r count :
  forall round firstId firstNumber,
  1 <= round -> round + Z.of_nat count <= k + 1 ->
  round <= r < round + Z.of_nat count ->
  map m_matchNumber
      (filter (fun m => m_round m =? r)
              (newRounds genId tournamentId (2 ^ k) count round firstId firstNumber))
  = map (fun i => firstNumber + (2 ^ (k - round + 1) - 2 ^ (k - r + 1)) + Z.of_nat i)
        (seq 0 (Z.to_nat (2 ^ (k - r)))).
Proof.
  induction count as [|count IH]; intros round firstId firstNumber Hr Hk Hin; [lia|].
  cbn [newRounds]. rewrite filter_app, map_app, newRound_filter.
  assert (Hn : Z.of_nat (Z.to_nat (2 ^ k / 2 ^ round)) = 2 ^ (k - round)).
  { rewrite <- Z.pow_sub_r by lia. apply Z2Nat.id. apply Z.pow_nonneg. lia. }
  destruct (Z.eq_dec round r) as [->|Hne].
  - rewrite Z.eqb_refl, newRounds_filter_above by lia. cbn [map]. rewrite app_nil_r.
    unfold newRound. rewrite map_map. cbn [m_matchNumber newMatch].
    rewrite <- Z.pow_sub_r by lia. apply map_ext. intros i. lia.
  - replace (round =? r) with false by (symmetry; apply Z.eqb_neq; exact Hne).
    cbn [map app]. rewrite (IH (round + 1)) by lia.
    apply map_ext. intros i. rewrite Hn.
    replace (k - (round + 1) + 1) with (k - round) by lia.
    rewrite (pow2_double (k - round)) by lia. lia.
Qed.

Lemma filter_shape (l l' : list Match) r :
  map shape l = map shape l' ->
  map shape (filter (fun m => m_round m =? r) l)
  = map shape (filter (fun m => m_round m =? r) l').
Proof.
  revert l'. induction l as [|x l IH]; intros l' Hmap;
    destruct l' as [|x' l']; try discriminate; [reflexivity|].
  simpl in Hmap.
  assert (Hx : shape x = shape x') by congruence.
  assert (Hl : map shape l = map shape l') by congruence. simpl.
  assert (E : m_round x = m_round x') by (unfold shape in Hx; congruence).
  rewrite E. destruct (m_round x' =? r); simpl; rewrite (IH l' Hl); congruence.
Qed.

Lemma numbers_of_shape (l l' : list Match) :
  map shape l = map shape l' -> map m_matchNumber l = map m_matchNumber l'.
Proof.
  intros H. apply (f_equal (map (fun s : Id * Z * Z => snd s))) in H.
  rewrite !map_map in H. exact H.
Qed.

Lemma Sorted_map_key {A} (f : A -> Z) (l : list A) :
  Sorted (fun a b => f a <= f b) l -> Sorted Z.le (map f l).
Proof.
  induction 1 as [|x r Hr IH Hhd]; simpl; constructor; [exact IH|].
  destruct Hhd; simpl; constructor. assumption.
Qed.

Lemma run_sorted c n : StronglySorted Z.le (map (fun i => c + Z.of_nat i) (seq 0 n)).
Proof.
  generalize 0%nat. induction n as [|n IH]; intros a; simpl; constructor; [apply IH|].
  apply Forall_forall. intros z Hz. apply in_map_iff in Hz.
  destruct Hz as (i & <- & Hi). apply in_seq in Hi. lia.
Qed.

Lemma run_NoDup c n : NoDup (map (fun i => c + Z.of_nat i) (seq 0 n)).
Proof.
  generalize 0%nat. induction n as [|n IH]; intros a; simpl; constructor; [|apply IH].
  intros Hin. apply in_map_iff in Hin. destruct Hin as (i & E & Hi).
  apply in_seq in Hi. lia.
Qed.

Section Numbering.
Variables (db : DB) (tournamentId : Id) (tournament : Tournament) (k : Z).
Hypothesis Hk : 0 <= k.
Hypothesis Hcount : t_participantCount tournament = 2 ^ k.
Hypothesis Hshape : map shape (findMatches db tournamentId) = bracketShape tournamentId k.

Lemma bracket_numbers_NoDup : NoDup (map m_matchNumber (findMatches db tournamentId)).
Proof.
  rewrite (numbers_of_shape _ _ Hshape).
  pose proof (newRounds_numbers (fun _ => "") tournamentId (2 ^ k) (Z.to_nat k) 1 0 1) as H.
  cbv zeta in H. rewrite H.
  apply run_NoDup.
Qed.

(** Two matches of the bracket with the same number are the same match. *)
Lemma bracket_number_inj m1 m2 :
  In m1 (findMatches db tournamentId) -> In m2 (findMatches db tournamentId) ->
  m_matchNumber m1 = m_matchNumber m2 -> m1 = m2.
Proof. apply NoDup_position. apply bracket_numbers_NoDup. Qed.

Lemma round_numbers r :
  1 <= r <= k ->
  map m_matchNumber (jsSort byMatchNumber (findRound db tournamentId r))
  = map (fun i => firstZ k r + Z.of_nat i) (seq 0 (Z.to_nat (2 ^ (k - r)))).
Proof.
  intros Hr.
  assert (Hstored : map m_matchNumber (findRound db tournamentId r)
                    = map (fun i => firstZ k r + Z.of_nat i)
                          (seq 0 (Z.to_nat (2 ^ (k - r))))).
  { rewrite findRound_findMatches.
    rewrite (numbers_of_shape _ _ (filter_shape _ _ r Hshape)).
    rewrite (newRounds_round_numbers _ _ k r (Z.to_nat k) 1) by lia.
    apply map_ext. intros i. unfold firstZ. replace (k - 1 + 1) with k by lia. lia. }
  apply sorted_perm_eq.
  - apply Sorted_StronglySorted; [intros x y z; apply Z.le_trans|].
    apply Sorted_map_key, byMatchNumber_sorted.
  - apply run_sorted.
  - rewrite <- Hstored. apply Permutation_map, jsSort_perm.
Qed.

(** The destination [advanceWinner] looks up is the match the bracket
    arithmetic names. *)
Lemma nextMatchOf_feeds mt dest :
  In mt (findMatches db tournamentId) ->
  m_round mt < k ->
  nextMatchOf db mt
    (inject_Z (m_matchNumber mt)
     - firstMatchNumber (t_participantCount tournament) (m_round mt))%Q
  = Some dest ->
  In dest (findMatches db tournamentId) /\ feeds k mt dest.
Proof.
  intros Hin Hlt Hnext.
  destruct (wellBuilt_match db tournamentId k Hk Hshape mt Hin) as (Htid & Hr & Hnum).
  destruct (nextMatchOf_In _ _ _ _ Hnext) as (Hdin & Hdt & Hdr).
  assert (Hd : In dest (findMatches db tournamentId)).
  { unfold findMatches. apply filter_In. split; [exact Hdin|].
    unfold inTournament. rewrite Hdt, Htid. apply String.eqb_refl. }
  split; [exact Hd|]. split; [exact Hdr|].
  assert (Efloor : Qfloor ((inject_Z (m_matchNumber mt)
                            - firstMatchNumber (t_participantCount tournament)
                                               (m_round mt)) / 2)
                   = (m_matchNumber mt - firstZ k (m_round mt)) / 2).
  { rewrite (wellBuilt_index db tournamentId tournament k Hk Hcount Hshape mt Hin).
    apply floor_half. }
  unfold nextMatchOf in Hnext. rewrite Efloor, Htid in Hnext. unfold arrayGet in Hnext.
  destruct ((m_matchNumber mt - firstZ k (m_round mt)) / 2 <? 0) eqn:Eneg;
    [discriminate|].
  apply Z.ltb_ge in Eneg.
  pose proof (f_equal (fun l => nth_error l
                (Z.to_nat ((m_matchNumber mt - firstZ k (m_round mt)) / 2)))
              (round_numbers (m_round mt + 1) ltac:(lia))) as Hnth.
  cbv beta in Hnth. rewrite nth_error_map, Hnext in Hnth. cbn [option_map] in Hnth.
  rewrite nth_error_map, nth_error_seq in Hnth.
  destruct (_ <? _)%nat; [|discriminate]. cbn [option_map] in Hnth.
  injection Hnth as Hnth. unfold indexOf. rewrite Hdr, Hnth. simpl. lia.
Qed.
End Numbering.

Lemma isEven_index x a : (x == inject_Z a)%Q -> isEven x = Z.even a.
Proof.
  intros H. destruct (Z.even a) eqn:E.
  - apply Z.even_spec in E. destruct E as [n ->]. apply (isEven_even x n H).
  - assert (O : Z.odd a = true) by (rewrite <- Z.negb_even, E; reflexivity).
    apply Z.odd_spec in O. destruct O as [n ->]. apply (isEven_odd x n H).
Qed.

Lemma slotId_advanceInto s index winnerId d :
  truthyId (Some winnerId) = Some winnerId ->
  slotId s (advanceInto index winnerId d)
  = if Bool.eqb s (isEven index) then Some winnerId else slotId s d.
Proof.
  intros Hw. unfold advanceInto, slotId.
  destruct (isEven index), s;
    cbn [setParticipant1 setParticipant2 m_participant1Id m_participant2Id Bool.eqb];
    rewrite ?Hw;
    repeat match goal with
           | |- context [match truthyId ?x with _ => _ end] => destruct (truthyId x) eqn:?
           end;
    cbn [setMatchStatus setParticipant1 setParticipant2 m_participant1Id
         m_participant2Id];
    rewrite ?Hw; congruence.
Qed.

Lemma isCompleted_advanceInto index winnerId d :
  isCompleted d = false -> isCompleted (advanceInto index winnerId d) = false.
Proof.
  intros H. unfold advanceInto, isCompleted in *.
  destruct (isEven index);
    repeat match goal with
           | |- context [match truthyId ?x with _ => _ end] => destruct (truthyId x)
           end;
    cbn [setMatchStatus setParticipant1 setParticipant2 m_status]; auto.
Qed.

(** *** One accepted score keeps the bracket sound *)

Section Step.
Variables (db db' : DB) (tournamentId : Id) (k : Z).
Variables (matchId : Id) (mt : Match) (p1 p2 winnerId loserId : Id).
Variables (score1 score2 : Z) (index : Q) (dest : option Match).

Hypothesis Hsound : sound db tournamentId k.
Hypothesis Hm : getMatchById db matchId = Some mt.
Hypothesis Htid : m_tournamentId mt = tournamentId.
Hypothesis Hlive : isCompleted mt = false.
Hypothesis H1 : truthyId (m_participant1Id mt) = Some p1.
Hypothesis H2 : truthyId (m_participant2Id mt) = Some p2.
Hypothesis Hwl : (winnerId = p1 /\ loserId = p2) \/ (winnerId = p2 /\ loserId = p1).
Hypothesis Hpar : isEven index = Z.even (indexOf k mt).
Hypothesis Hdest :
  forall d, dest = Some d -> In d (findMatches db tournamentId) /\ feeds k mt d.
Hypothesis Hmatches :
  MATCHES db'
  = match dest with
    | Some d => update m_id (update m_id (MATCHES db) matchId
                                    (setScore score1 score2 winnerId))
                       (m_id d) (advanceInto index winnerId)
    | None => update m_id (MATCHES db) matchId (setScore score1 score2 winnerId)
    end.
Hypothesis Hparticipants :
  PARTICIPANTS db' = update p_id (PARTICIPANTS db) loserId (setEliminated (m_round mt)).
Hypothesis Hresults :
  forall res, In res (RESULTS db') ->
              In res (RESULTS db) \/
              (r_tournamentId res = tournamentId /\ r_championId res = winnerId /\
               dest = None).
Hypothesis Htournaments : map tshape (TOURNAMENTS db') = map tshape (TOURNAMENTS db).

Let scored := setScore score1 score2 winnerId mt.

Lemma step_mt_in : In mt (findMatches db tournamentId).
Proof.
  unfold findMatches. apply filter_In. destruct (getById_In m_id _ _ _ Hm) as [Hin _].
  split; [exact Hin|]. unfold inTournament. rewrite Htid. apply String.eqb_refl.
Qed.

Lemma step_mt_id : m_id mt = matchId.
Proof. apply (getById_In m_id _ _ _ Hm). Qed.

Lemma step_winner_truthy : truthyId (Some winnerId) = Some winnerId.
Proof.
  destruct Hwl as [[-> _]|[-> _]];
    [apply (truthyId_Some _ _ H1)|apply (truthyId_Some _ _ H2)].
Qed.

Lemma step_winner_slot : exists s, slotId s mt = Some winnerId.
Proof.
  destruct Hwl as [[-> _]|[-> _]]; [exists true|exists false]; assumption.
Qed.

Lemma step_loser_slot : exists s, slotId s mt = Some loserId.
Proof.
  destruct Hwl as [[_ ->]|[_ ->]]; [exists false|exists true]; assumption.
Qed.

Lemma step_distinct : winnerId <> loserId.
Proof.
  intros E.
  assert (Hp : p1 = p2) by (destruct Hwl as [[? ?]|[? ?]]; congruence).
  destruct (sound_slots _ _ _ Hsound mt mt true false p1 step_mt_in step_mt_in
              Hlive Hlive H1) as [_ Hs]; [|discriminate].
  unfold slotId. rewrite Hp. exact H2.
Qed.

(** Who sits in a slot of another match still to be played is neither
    the winner nor the loser. *)
Lemma step_elsewhere m s x :
  In m (findMatches db tournamentId) -> isCompleted m = false ->
  slotId s m = Some x -> m <> mt -> x <> winnerId /\ x <> loserId.
Proof.
  intros Hin Hc Hs Hne. split; intros ->.
  - destruct step_winner_slot as [s' Hs'].
    destruct (sound_slots _ _ _ Hsound m mt s s' winnerId Hin step_mt_in Hc Hlive Hs Hs').
    contradiction.
  - destruct step_loser_slot as [s' Hs'].
    destruct (sound_slots _ _ _ Hsound m mt s s' loserId Hin step_mt_in Hc Hlive Hs Hs').
    contradiction.
Qed.

Lemma step_dest_facts d :
  dest = Some d ->
  In d (findMatches db tournamentId) /\ feeds k mt d /\ d <> mt /\ m_id d <> matchId /\
  isCompleted d = false /\ slotId (isEven index) d = None /\
  getById m_id (update m_id (MATCHES db) matchId (setScore score1 score2 winnerId))
          (m_id d) = Some d.
Proof.
  intros Hd. destruct (Hdest d Hd) as [Hin Hfeeds].
  assert (Hne : d <> mt) by (intros ->; destruct Hfeeds as [Hr _]; lia).
  assert (Hdin : In d (MATCHES db)).
  { unfold findMatches in Hin. apply filter_In in Hin. tauto. }
  assert (Hid : m_id d <> matchId).
  { intros E. apply Hne. pose proof (getById_NoDup m_id _ _ (sound_match_ids _ _ _ Hsound) Hdin) as G.
    rewrite E in G. unfold getMatchById in Hm. congruence. }
  destruct (sound_feeders _ _ _ Hsound mt d step_mt_in Hin Hfeeds Hlive) as [Hc Hs].
  rewrite <- Hpar in Hs.
  repeat split; try assumption; try apply Hfeeds.
  rewrite getById_update_other by (auto; intros x; reflexivity).
  apply getById_NoDup; [apply (sound_match_ids _ _ _ Hsound)|exact Hdin].
Qed.

(** The matches of the tournament after the call. *)
Lemma step_matches y :
  In y (findMatches db' tournamentId) ->
  y = scored \/
  (exists d, dest = Some d /\ y = advanceInto index winnerId d) \/
  (In y (findMatches db tournamentId) /\ y <> mt /\ dest <> Some y).
Proof.
  intros Hy. unfold findMatches in Hy. apply filter_In in Hy. destruct Hy as [Hy Ht].
  rewrite Hmatches in Hy.
  assert (Hnd : NoDup (map m_id (MATCHES db))) by apply (sound_match_ids _ _ _ Hsound).
  assert (Hold : forall z, In z (MATCHES db) -> m_id z <> matchId ->
                           inTournament tournamentId z = true ->
                           In z (findMatches db tournamentId) /\ z <> mt).
  { intros z Hz Hid Hzt. split; [apply filter_In; auto|].
    intros ->. apply Hid. apply step_mt_id. }
  assert (Hcase : dest = None \/ exists d, dest = Some d)
    by (destruct dest; eauto).
  destruct Hcase as [Ed|[d Ed]]; rewrite Ed in Hy.
  - apply (In_update m_id _ _ _ mt) in Hy; [|exact Hnd|exact Hm].
    destruct Hy as [->|[Hy Hyid']]; [left; reflexivity|].
    right. right. destruct (Hold y Hy Hyid' Ht) as [Hin Hne].
    split; [exact Hin|]. split; [exact Hne|]. rewrite Ed. discriminate.
  - destruct (step_dest_facts d Ed) as (Hdin & _ & Hdne & Hdid & _ & _ & Hget).
    apply (In_update m_id _ _ _ d) in Hy; [|rewrite map_update by reflexivity; exact Hnd
                                           |exact Hget].
    destruct Hy as [->|[Hy Hyid]]; [right; left; eauto|].
    apply (In_update m_id _ _ _ mt) in Hy; [|exact Hnd|exact Hm].
    destruct Hy as [->|[Hy Hyid']]; [left; reflexivity|].
    right. right. destruct (Hold y Hy Hyid' Ht) as [Hin Hne].
    split; [exact Hin|]. split; [exact Hne|]. rewrite Ed. intros E. injection E as ->.
    contradiction.
Qed.

(** A slot of a match still to be played after the call was one before
    it, or is the slot the winner moved into. *)
Lemma step_slot_origin y s x :
  In y (findMatches db' tournamentId) -> isCompleted y = false ->
  slotId s y = Some x ->
  (x = winnerId /\ exists d, dest = Some d /\ y = advanceInto index winnerId d /\
                             s = isEven index) \/
  (exists y0, In y0 (findMatches db tournamentId) /\ isCompleted y0 = false /\
              y0 <> mt /\ slotId s y0 = Some x /\
              ((y = y0 /\ dest <> Some y0) \/
               (dest = Some y0 /\ y = advanceInto index winnerId y0 /\
                s <> isEven index))).
Proof.
  intros Hy Hc Hs. destruct (step_matches y Hy) as [->|[(d & Hd & ->)|(Hin & Hne & Hnd)]].
  - discriminate.
  - destruct (step_dest_facts d Hd) as (Hdin & _ & Hdne & _ & Hdc & _ & _).
    rewrite slotId_advanceInto in Hs by apply step_winner_truthy.
    destruct (Bool.eqb s (isEven index)) eqn:E.
    + left. injection Hs as <-. apply Bool.eqb_prop in E. eauto.
    + right. exists d. repeat split; try assumption. right.
      repeat split; try assumption. intros ->. rewrite Bool.eqb_reflx in E. discriminate.
  - right. exists y. repeat split; try assumption. left. auto.
Qed.

Lemma step_slots m1 m2 s1 s2 x :
  In m1 (findMatches db' tournamentId) -> In m2 (findMatches db' tournamentId) ->
  isCompleted m1 = false -> isCompleted m2 = false ->
  slotId s1 m1 = Some x -> slotId s2 m2 = Some x -> m1 = m2 /\ s1 = s2.
Proof.
  intros Hin1 Hin2 Hc1 Hc2 Hs1 Hs2.
  destruct (step_slot_origin m1 s1 x Hin1 Hc1 Hs1)
    as [(Ex1 & d1 & Hd1 & -> & ->)|(y1 & Hy1 & Hyc1 & Hne1 & Hys1 & Hrel1)];
  destruct (step_slot_origin m2 s2 x Hin2 Hc2 Hs2)
    as [(Ex2 & d2 & Hd2 & -> & ->)|(y2 & Hy2 & Hyc2 & Hne2 & Hys2 & Hrel2)].
  - split; [|reflexivity]. congruence.
  - destruct (step_elsewhere y2 s2 x Hy2 Hyc2 Hys2 Hne2) as [Hw _]. contradiction.
  - destruct (step_elsewhere y1 s1 x Hy1 Hyc1 Hys1 Hne1) as [Hw _]. contradiction.
  - destruct (sound_slots _ _ _ Hsound y1 y2 s1 s2 x Hy1 Hy2 Hyc1 Hyc2 Hys1 Hys2)
      as [<- <-].
    split; [|reflexivity].
    destruct Hrel1 as [[-> Hn1]|(Hd1 & -> & _)];
      destruct Hrel2 as [[-> Hn2]|(Hd2 & -> & _)];
      try reflexivity; contradiction.
Qed.

Lemma step_participant x :
  x <> loserId -> getParticipant db' x = getParticipant db x.
Proof.
  intros Hne. unfold getParticipant. rewrite Hparticipants.
  apply getById_update_other; [intros p; reflexivity|auto].
Qed.

Lemma step_alive m s x :
  In m (findMatches db' tournamentId) -> isCompleted m = false ->
  slotId s m = Some x ->
  exists p, getParticipant db' x = Some p /\ p_tournamentId p = tournamentId /\
            isEliminated p = false.
Proof.
  intros Hin Hc Hs.
  destruct (step_slot_origin m s x Hin Hc Hs)
    as [(-> & _)|(y0 & Hy0 & Hyc & Hne & Hys & _)].
  - destruct step_winner_slot as [s' Hs'].
    rewrite step_participant by apply step_distinct.
    apply (sound_alive _ _ _ Hsound mt s' winnerId step_mt_in Hlive Hs').
  - destruct (step_elsewhere y0 s x Hy0 Hyc Hys Hne) as [_ Hl].
    rewrite step_participant by exact Hl.
    apply (sound_alive _ _ _ Hsound y0 s x Hy0 Hyc Hys).
Qed.

Lemma halves_and_parity a b : a / 2 = b / 2 -> Z.even a = Z.even b -> a = b.
Proof.
  intros Hh He.
  rewrite (Z.div_mod a 2), (Z.div_mod b 2), Hh by lia. f_equal.
  rewrite !Zmod_even, He. reflexivity.
Qed.

Lemma step_mt_full s : slotId s mt <> None.
Proof. destruct s; unfold slotId; congruence. Qed.

Lemma step_feeders m d :
  In m (findMatches db' tournamentId) -> In d (findMatches db' tournamentId) ->
  feeds k m d -> isCompleted m = false ->
  isCompleted d = false /\ slotId (Z.even (indexOf k m)) d = None.
Proof.
  intros Hm' Hd' Hfeeds Hc.
  (* the match [m] was still to be played before the call, with the same shape *)
  assert (Hm0 : exists m0, In m0 (findMatches db tournamentId) /\
                           isCompleted m0 = false /\ m0 <> mt /\ shape m = shape m0).
  { destruct (step_matches m Hm') as [->|[(d0 & Hd0 & ->)|(Hin & Hne & _)]].
    - discriminate.
    - destruct (step_dest_facts d0 Hd0) as (Hdin & _ & Hdne & _ & Hdc & _ & _).
      exists d0. repeat split; try assumption. apply shape_advanceInto.
    - exists m. auto. }
  destruct Hm0 as (m0 & Hin0 & Hc0 & Hne0 & Hshape0).
  assert (Eround : m_round m = m_round m0) by (unfold shape in Hshape0; congruence).
  assert (Eindex : indexOf k m = indexOf k m0)
    by (unfold indexOf, shape in *; congruence).
  rewrite Eindex.
  assert (Hfeeds0 : forall d0, shape d = shape d0 -> feeds k m0 d0).
  { intros d0 Hs. unfold feeds, indexOf, shape in *.
    destruct Hfeeds as [Hr Hi]. split; congruence. }
  destruct (step_matches d Hd') as [->|[(d0 & Hd0 & ->)|(Hin & Hne & Hnd)]].
  - exfalso.
    destruct (sound_feeders _ _ _ Hsound m0 mt Hin0 step_mt_in
                (Hfeeds0 mt eq_refl) Hc0) as [_ Hnone].
    apply (step_mt_full _ Hnone).
  - destruct (step_dest_facts d0 Hd0) as (Hdin & Hmtd & _ & _ & Hdc & _ & _).
    pose proof (Hfeeds0 d0 (shape_advanceInto _ _ _)) as Hf0.
    destruct (sound_feeders _ _ _ Hsound m0 d0 Hin0 Hdin Hf0 Hc0) as [_ Hnone].
    split; [apply isCompleted_advanceInto; exact Hdc|].
    rewrite slotId_advanceInto by apply step_winner_truthy.
    destruct (Bool.eqb (Z.even (indexOf k m0)) (isEven index)) eqn:E; [|exact Hnone].
    exfalso. apply Bool.eqb_prop in E. rewrite Hpar in E.
    apply Hne0.
    destruct (sound_built _ _ _ Hsound) as (t & _ & Hpc & _).
    apply (bracket_number_inj db tournamentId k (sound_shape _ _ _ Hsound)
             m0 mt Hin0 step_mt_in).
    destruct Hf0 as [Hr0 Hi0]. destruct Hmtd as [Hr1 Hi1].
    assert (Er : m_round m0 = m_round mt) by lia.
    assert (Ei : indexOf k m0 = indexOf k mt)
      by (apply halves_and_parity; congruence).
    unfold indexOf in Ei. rewrite Er in Ei. lia.
  - apply (sound_feeders _ _ _ Hsound m0 d Hin0 Hin (Hfeeds0 d eq_refl) Hc0).
Qed.

Lemma step_count :
  List.length (filter isEliminated (storedParticipants db' tournamentId))
  = List.length (filter isCompleted (findMatches db' tournamentId)).
Proof.
  unfold storedParticipants, findMatches. rewrite !filter_twice.
  destruct step_loser_slot as [s Hs].
  destruct (sound_alive _ _ _ Hsound mt s loserId step_mt_in Hlive Hs)
    as (pl & Hpl & Hpt & Hpe).
  rewrite Hparticipants.
  rewrite (count_update_gain p_id _ _ _ _ pl Hpl).
  2:{ rewrite Hpe. apply andb_false_r. }
  2:{ cbn [setEliminated p_tournamentId isEliminated p_status]. rewrite Hpt.
      rewrite String.eqb_refl. reflexivity. }
  pose proof (sound_count _ _ _ Hsound) as Hold.
  unfold storedParticipants, findMatches in Hold. rewrite !filter_twice in Hold.
  rewrite Hold. clear Hold.
  assert (Hscored :
            List.length (filter (fun m => inTournament tournamentId m && isCompleted m)%bool
                                (update m_id (MATCHES db) matchId
                                        (setScore score1 score2 winnerId)))
            = S (List.length (filter (fun m => inTournament tournamentId m
                                               && isCompleted m)%bool (MATCHES db)))).
  { apply (count_update_gain m_id _ _ _ _ mt Hm).
    - rewrite Hlive. apply andb_false_r.
    - unfold inTournament. cbn [setScore m_tournamentId isCompleted m_status].
      rewrite Htid, String.eqb_refl. reflexivity. }
  rewrite Hmatches.
  assert (Hcase : dest = None \/ exists d, dest = Some d) by (destruct dest; eauto).
  destruct Hcase as [Ed|[d Ed]]; rewrite Ed.
  - symmetry. exact Hscored.
  - destruct (step_dest_facts d Ed) as (_ & _ & _ & _ & Hdc & _ & Hget).
    rewrite (count_update_same m_id _ _ _ _ d Hget); [symmetry; exact Hscored|].
    rewrite (isCompleted_advanceInto _ _ _ Hdc), Hdc.
    unfold inTournament.
    pose proof (shape_advanceInto index winnerId d) as Hs'. unfold shape in Hs'.
    replace (m_tournamentId (advanceInto index winnerId d)) with (m_tournamentId d)
      by congruence.
    reflexivity.
Qed.

Lemma step_champions res :
  In res (RESULTS db') -> r_tournamentId res = tournamentId ->
  (exists p, getParticipant db' (r_championId res) = Some p /\ isEliminated p = false) /\
  (forall m s, In m (findMatches db' tournamentId) -> isCompleted m = false ->
               slotId s m <> Some (r_championId res)).
Proof.
  intros Hres Hrt.
  destruct step_winner_slot as [sw Hsw]. destruct step_loser_slot as [sl Hsl].
  destruct (Hresults res Hres) as [Hold|(_ & Hchamp & Hnone)].
  - destruct (sound_champions _ _ _ Hsound res Hold Hrt) as [(p & Hp & He) Hfree].
    split.
    + exists p. split; [|exact He]. rewrite step_participant; [exact Hp|].
      intros E. apply (Hfree mt sl step_mt_in Hlive). rewrite E. exact Hsl.
    + intros m s Hin Hc Hs.
      destruct (step_slot_origin m s _ Hin Hc Hs)
        as [(E & _)|(y0 & Hy0 & Hyc & _ & Hys & _)].
      * apply (Hfree mt sw step_mt_in Hlive). rewrite E. exact Hsw.
      * apply (Hfree y0 s Hy0 Hyc Hys).
  - rewrite Hchamp. split.
    + destruct (sound_alive _ _ _ Hsound mt sw winnerId step_mt_in Hlive Hsw)
        as (p & Hp & _ & He).
      exists p. split; [|exact He]. rewrite step_participant; [exact Hp|].
      apply step_distinct.
    + intros m s Hin Hc Hs.
      destruct (step_slot_origin m s _ Hin Hc Hs)
        as [(_ & d & Hd & _)|(y0 & Hy0 & Hyc & Hne & Hys & _)].
      * congruence.
      * destruct (step_elsewhere y0 s winnerId Hy0 Hyc Hys Hne) as [Hw _].
        apply Hw. reflexivity.
Qed.

Lemma step_shape : map shape (MATCHES db') = map shape (MATCHES db).
Proof.
  rewrite Hmatches.
  assert (Hcase : dest = None \/ exists d, dest = Some d) by (destruct dest; eauto).
  destruct Hcase as [Ed|[d Ed]]; rewrite Ed.
  - apply shape_update. intros x. reflexivity.
  - rewrite shape_update by (intros x; apply shape_advanceInto).
    apply shape_update. intros x. reflexivity.
Qed.

Lemma step_ids : map m_id (MATCHES db') = map m_id (MATCHES db).
Proof.
  rewrite Hmatches.
  assert (Hcase : dest = None \/ exists d, dest = Some d) by (destruct dest; eauto).
  destruct Hcase as [Ed|[d Ed]]; rewrite Ed.
  - apply map_update. intros x. reflexivity.
  - rewrite map_update by (intros x; apply id_advanceInto).
    apply map_update. intros x. reflexivity.
Qed.

Lemma sound_step : sound db' tournamentId k.
Proof.
  constructor.
  - apply (sound_rounds _ _ _ Hsound).
  - destruct (sound_built _ _ _ Hsound) as (t & Ht & Hpc & Hr).
    destruct (getById_tshape _ _ _ _ Htournaments Ht) as (t' & Ht' & E).
    exists t'. unfold tshape in E. split; [exact Ht'|]. split; congruence.
  - rewrite (findMatches_shape db db' tournamentId step_shape).
    apply (sound_shape _ _ _ Hsound).
  - rewrite step_ids. apply (sound_match_ids _ _ _ Hsound).
  - rewrite Hparticipants, map_update by (intros x; reflexivity).
    apply (sound_participant_ids _ _ _ Hsound).
  - apply step_slots.
  - apply step_alive.
  - apply step_feeders.
  - apply step_count.
  - apply step_champions.
Qed.
End Step.

Section PlayedScore.
Variable genId : nat -> Id.
Variable today : string.

(** An accepted score of a match still to be played keeps the bracket
    sound. *)
Lemma sound_score db tournamentId k matchId score1 score2 mt r db' :
  sound db tournamentId k ->
  getMatchById db matchId = Some mt ->
  m_tournamentId mt = tournamentId ->
  isCompleted mt = false ->
  updateScore genId today matchId score1 score2 db = (Returned r, db') ->
  sound db' tournamentId k.
Proof.
  intros Hsound Hm Htid Hlive Hrun.
  destruct (updateScore_accepted _ _ _ _ _ _ _ _ _ Hm Hrun)
    as (Hs & (p1 & p2 & H1 & H2) & Hs1 & Hs2 & Hne).
  destruct (sound_built _ _ _ Hsound) as (t & Ht & Hpc & Hr).
  pose proof (sound_rounds _ _ _ Hsound) as Hk.
  pose proof (sound_shape _ _ _ Hsound) as Hshape.
  assert (Hin : In mt (findMatches db tournamentId)).
  { unfold findMatches. apply filter_In. destruct (getById_In m_id _ _ _ Hm) as [Hin _].
    split; [exact Hin|]. unfold inTournament. rewrite Htid. apply String.eqb_refl. }
  destruct (wellBuilt_match db tournamentId k Hk Hshape mt Hin) as (_ & Hround & _).
  assert (Ht' : getTournament db (m_tournamentId mt) = Some t) by (rewrite Htid; exact Ht).
  pose proof (updateScore_tshape genId today matchId score1 score2 db) as Htshape.
  rewrite Hrun in Htshape. cbn [snd] in Htshape.
  set (winnerId := if score1 >? score2 then p1 else p2).
  set (loserId := if score1 >? score2 then p2 else p1).
  assert (Hwl : (winnerId = p1 /\ loserId = p2) \/ (winnerId = p2 /\ loserId = p1)).
  { unfold winnerId, loserId. destruct (score1 >? score2); auto. }
  pose proof (wellBuilt_index db tournamentId t k Hk Hpc Hshape mt Hin) as Hindex.
  set (index := (inject_Z (m_matchNumber mt)
                 - firstMatchNumber (t_participantCount t) (m_round mt))%Q) in *.
  assert (Hpar : isEven index = Z.even (indexOf k mt)) by (apply isEven_index, Hindex).
  destruct (Z.eq_dec (m_round mt) k) as [Hfinal|Hbefore].
  - (* the final *)
    pose proof (updateScore_final_store genId today db matchId score1 score2 mt t p1 p2
                  Hm Hs H1 H2 Hs1 Hs2 Hne Ht' ltac:(congruence)) as Hstore.
    cbv zeta in Hstore. rewrite Hrun in Hstore. injection Hstore as _ ->.
    apply (sound_step db _ tournamentId k matchId mt p1 p2 winnerId loserId
             score1 score2 index None Hsound Hm Htid Hlive H1 H2 Hwl Hpar).
    + discriminate.
    + reflexivity.
    + reflexivity.
    + cbn [RESULTS]. intros res Hres. apply in_app_or in Hres.
      destruct Hres as [Hres|[<-|[]]]; [left; exact Hres|right].
      cbn [r_tournamentId r_championId]. auto.
    + exact Htshape.
  - (* a match before the final *)
    assert (Hlt : m_round mt < t_totalRounds t) by lia.
    destruct (updateScore_advance_MATCHES genId today db matchId score1 score2 mt t
                p1 p2 Hm Hs H1 H2 Hs1 Hs2 Hne Ht' Hlt)
      as (r0 & db0 & Hrun0 & Hparts & Hres & Hms).
    rewrite Hrun in Hrun0. injection Hrun0 as _ <-.
    fold winnerId index in Hms. fold loserId in Hparts.
    destruct (wellBuilt_destination db tournamentId t k Hk Hpc Hshape mt Hin ltac:(lia))
      as [d Hd].
    fold index in Hd. rewrite Hd in Hms.
    destruct (nextMatchOf_feeds db tournamentId t k Hk Hpc Hshape mt d Hin ltac:(lia) Hd)
      as [Hdin Hfeeds].
    apply (sound_step db db' tournamentId k matchId mt p1 p2 winnerId loserId
             score1 score2 index (Some d) Hsound Hm Htid Hlive H1 H2 Hwl Hpar).
    + intros d' E. injection E as <-. auto.
    + exact Hms.
    + exact Hparts.
    + intros res Hin'. left. rewrite <- Hres. exact Hin'.
    + exact Htshape.
Qed.
End PlayedScore.

(** *** The bracket is sound once generated and seeded *)

Lemma generate_frame genId db tournamentId tournament k created db1 :
  getTournament db tournamentId = Some tournament ->
  0 <= k -> t_participantCount tournament = 2 ^ k ->
  generate genId tournamentId db = (Returned created, db1) ->
  PARTICIPANTS db1 = PARTICIPANTS db /\ RESULTS db1 = RESULTS db /\
  MATCHES db1 = MATCHES db ++ created /\
  (forall m, In m created -> placeholder tournamentId m /\ 1 <= m_round m <= k).
Proof.
  intros Ht Hk Hpc Hgen.
  unfold generate in Hgen. rewrite Ht in Hgen.
  destruct (negb (String.eqb (t_status tournament) "draft")); [discriminate|].
  rewrite Hpc, isPowerOfTwo_pow2 in Hgen by exact Hk. cbn [negb] in Hgen.
  rewrite Z.log2_pow2 in Hgen by exact Hk.
  pose proof (generateRounds_spec genId tournamentId (2 ^ k) (Z.to_nat k) 1 db 1 [])
    as Hrounds.
  cbv zeta in Hrounds. rewrite Hrounds in Hgen. clear Hrounds.
  injection Hgen as <- <-. cbn [app].
  split; [reflexivity|]. split; [reflexivity|]. split; [reflexivity|].
  intros m Hm. apply newRounds_In in Hm. destruct Hm as [Hr Hp].
  split; [exact Hp|lia].
Qed.

Lemma assignParticipants_returned tournamentId db1 r db2 :
  NoDup (map m_id (MATCHES db1)) ->
  assignParticipants tournamentId db1 = (Returned r, db2) ->
  let p := jsSort bySeed (getByTournament db1 tournamentId) in
  let n := List.length p in
  let firstRoundMatches := jsSort byMatchNumber (findRound db1 tournamentId 1) in
  (exists tournament,
     getTournament db1 tournamentId = Some tournament /\
     Z.of_nat n = t_participantCount tournament) /\
  TOURNAMENTS db2 = TOURNAMENTS db1 /\
  PARTICIPANTS db2 = PARTICIPANTS db1 /\
  RESULTS db2 = RESULTS db1 /\
  map shape (MATCHES db2) = map shape (MATCHES db1) /\
  map m_id (MATCHES db2) = map m_id (MATCHES db1) /\
  (forall y, In y (MATCHES db2) ->
     (exists j y0 a b,
        (2 * j + 1 <= n)%nat /\
        nth_error firstRoundMatches j = Some y0 /\
        nth_error p j = Some a /\ nth_error p (n - 1 - j) = Some b /\
        y = setPair (p_id a) (p_id b) y0) \/
     (In y (MATCHES db1) /\
      forall j, (j < Z.to_nat ((Z.of_nat n + 1) / 2))%nat ->
                nth_error firstRoundMatches j <> Some y)).
Proof.
  intros Hnd Hrun p n firstRoundMatches.
  unfold assignParticipants in Hrun.
  destruct (getTournament db1 tournamentId) as [t|] eqn:Ht; [|discriminate].
  destruct (Z.of_nat (List.length (getByTournament db1 tournamentId))
            =? t_participantCount t) eqn:Hlen; [|discriminate].
  cbn [negb] in Hrun. fold p firstRoundMatches in Hrun.
  apply Z.eqb_eq in Hlen.
  assert (Hn : n = List.length (getByTournament db1 tournamentId))
    by apply jsSort_length.
  pose proof (createSeedPairings_spec p) as Hpairs. cbv zeta in Hpairs.
  fold n in Hpairs.
  set (count := Z.to_nat ((Z.of_nat n + 1) / 2)) in *.
  assert (Hcount : forall j, (j < count)%nat -> (2 * j + 1 <= n)%nat).
  { intros j Hj. unfold count in Hj.
    assert (Z.of_nat j < (Z.of_nat n + 1) / 2) by lia.
    Z.div_mod_to_equations. lia. }
  assert (Hpair : forall j, (j < count)%nat ->
             exists a b, nth_error p j = Some a /\ nth_error p (n - 1 - j) = Some b /\
                         nth_error (createSeedPairings p) j = Some (Some a, Some b)).
  { intros j Hj. specialize (Hcount j Hj).
    destruct (nth_error p j) as [a|] eqn:Ea;
      [|apply nth_error_None in Ea; fold n in Ea; lia].
    destruct (nth_error p (n - 1 - j)) as [b|] eqn:Eb;
      [|apply nth_error_None in Eb; fold n in Eb; lia].
    exists a, b. split; [reflexivity|]. split; [reflexivity|].
    rewrite Hpairs, nth_error_map_seq by exact Hj. rewrite Ea, Eb. reflexivity. }
  assert (Hplen : List.length (createSeedPairings p) = count).
  { rewrite Hpairs, length_map, length_seq. reflexivity. }
  assert (Hsome : forall pr, In pr (createSeedPairings p) ->
                             exists a b, pr = (Some a, Some b)).
  { intros pr Hpr. apply In_nth_error in Hpr. destruct Hpr as [j Hj].
    assert (Hjc : (j < count)%nat).
    { rewrite <- Hplen. apply nth_error_Some. congruence. }
    destruct (Hpair j Hjc) as (a & b & _ & _ & E). rewrite E in Hj.
    injection Hj as <-. eauto. }
  assert (Hids : NoDup (map m_id firstRoundMatches)).
  { unfold firstRoundMatches, findRound. apply NoDup_ids_sorted. exact Hnd. }
  assert (Hfr : forall m, In m firstRoundMatches -> In m (MATCHES db1)).
  { intros m Hm. apply jsSort_In in Hm. unfold findRound in Hm.
    apply filter_In in Hm. tauto. }
  destruct (assignPairs_spec firstRoundMatches Hids (createSeedPairings p) 0%nat db1 Hsome)
    as (db' & Hrun' & Hts & Hps & Hrs & Hshape & Hmids & Hget & Hother).
  change (Z.of_nat 0) with 0 in Hrun'.
  unfold bind in Hrun. rewrite Hrun' in Hrun. unfold gets in Hrun.
  injection Hrun as _ <-.
  split; [exists t; split; [reflexivity|lia]|].
  repeat (split; [assumption|]).
  intros y Hy.
  assert (Hnd' : NoDup (map m_id (MATCHES db'))) by (rewrite Hmids; exact Hnd).
  pose proof (getById_NoDup m_id _ _ Hnd' Hy) as Hgy.
  assert (Hy0 : exists y0, In y0 (MATCHES db1) /\ m_id y0 = m_id y).
  { apply (in_map m_id) in Hy. rewrite Hmids in Hy. apply in_map_iff in Hy.
    destruct Hy as (y0 & E & Hy0). eauto. }
  destruct Hy0 as (y0 & Hy0 & Eid).
  pose proof (getById_NoDup m_id _ _ Hnd Hy0) as Hgy0. rewrite Eid in Hgy0.
  destruct (in_dec string_dec (m_id y) (map m_id (firstn count firstRoundMatches)))
    as [Hused|Hfree].
  - left. apply in_map_iff in Hused. destruct Hused as (m & Em & Hm).
    apply In_nth_error in Hm. destruct Hm as [j Hj].
    rewrite nth_error_firstn in Hj.
    destruct (j <? count)%nat eqn:Ej; [|discriminate]. apply Nat.ltb_lt in Ej.
    assert (m = y0).
    { apply (NoDup_position m_id (MATCHES db1)); try assumption.
      - apply Hfr. apply (nth_error_In _ _ Hj).
      - congruence. }
    subst m. destruct (Hpair j Ej) as (a & b & Ea & Eb & Epr).
    exists j, y0, a, b. split; [apply Hcount; exact Ej|].
    split; [exact Hj|]. split; [exact Ea|]. split; [exact Eb|].
    pose proof (Hget j y0 a b Epr Hj) as G. rewrite Eid in G.
    unfold getMatchById in G. rewrite Hgy, Hgy0 in G. simpl in G. congruence.
  - right.
    assert (Hsame : getMatchById db' (m_id y) = getMatchById db1 (m_id y)).
    { apply Hother. intros j m Hj Hm E. apply Hfree.
      apply in_map_iff. exists m. split; [exact E|].
      apply (nth_error_In _ j). rewrite nth_error_firstn.
      rewrite Hplen in Hj.
      replace (j <? count)%nat with true by (symmetry; apply Nat.ltb_lt; exact Hj).
      exact Hm. }
    unfold getMatchById in Hsame. rewrite Hgy, Hgy0 in Hsame.
    injection Hsame as ->. split; [exact Hy0|].
    intros j Hj E. apply Hfree. apply in_map. apply (nth_error_In _ j).
    rewrite nth_error_firstn.
    replace (j <? count)%nat with true by (symmetry; apply Nat.ltb_lt; exact Hj).
    exact E.
Qed.

Lemma filter_none {A} (f : A -> bool) (l : list A) :
  (forall x, In x l -> f x = false) -> filter f l = [].
Proof.
  induction l as [|x l IH]; simpl; intros H; [reflexivity|].
  rewrite (H x) by (left; reflexivity). apply IH. intros y Hy. apply H. right. exact Hy.
Qed.

Lemma slotId_setPair s ida idb m x :
  slotId s (setPair ida idb m) = Some x -> x = (if s then ida else idb).
Proof.
  unfold slotId. destruct s; cbn [setPair m_participant1Id m_participant2Id];
    intros H; apply truthyId_Some in H; destruct H as [H _]; congruence.
Qed.

Lemma slotId_placeholder tournamentId s m : placeholder tournamentId m -> slotId s m = None.
Proof.
  intros (_ & E1 & E2 & _). unfold slotId. destruct s; [rewrite E1|rewrite E2]; reflexivity.
Qed.

Lemma isCompleted_placeholder tournamentId m :
  placeholder tournamentId m -> isCompleted m = false.
Proof.
  intros (_ & _ & _ & _ & _ & _ & E). unfold isCompleted. rewrite E. reflexivity.
Qed.

Section Start.
Variable genId : nat -> Id.
Variables (db db1 db2 : DB) (tournamentId : Id) (tournament : Tournament) (k : Z).
Variables (created r : list Match).

Hypothesis Ht : getTournament db tournamentId = Some tournament.
Hypothesis Hk : 1 <= k.
Hypothesis Hpc : t_participantCount tournament = 2 ^ k.
Hypothesis Hnone : findMatches db tournamentId = [].
Hypothesis Hresults :
  forall res, In res (RESULTS db) -> r_tournamentId res <> tournamentId.
Hypothesis Hpids : NoDup (map p_id (PARTICIPANTS db)).
Hypothesis Hroster :
  forall p, In p (storedParticipants db tournamentId) ->
            p_id p <> "" /\ isEliminated p = false.
Hypothesis Hgen : generate genId tournamentId db = (Returned created, db1).
Hypothesis Hmids : NoDup (map m_id (MATCHES db1)).
Hypothesis Hassign : assignParticipants tournamentId db1 = (Returned r, db2).

Let p := jsSort bySeed (getByTournament db1 tournamentId).
Let n := List.length p.
Let firstRoundMatches := jsSort byMatchNumber (findRound db1 tournamentId 1).

Lemma start_generated :
  PARTICIPANTS db1 = PARTICIPANTS db /\ RESULTS db1 = RESULTS db /\
  getTournament db1 tournamentId = Some (setRegistration k tournament) /\
  findMatches db1 tournamentId = created /\
  map shape created = bracketShape tournamentId k /\
  (forall m, In m created -> placeholder tournamentId m).
Proof.
  destruct (generate_frame _ _ _ _ k _ _ Ht ltac:(lia) Hpc Hgen) as (Hp & Hr & _ & Hph).
  destruct (generate_shape _ _ _ _ k _ _ Ht ltac:(lia) Hpc Hnone Hgen) as (Ht1 & Hms & Hs).
  repeat (split; [assumption|]). intros m Hm. apply Hph. exact Hm.
Qed.

Lemma start_roster x :
  In x p ->
  In x (PARTICIPANTS db) /\ p_tournamentId x = tournamentId /\ isEliminated x = false.
Proof.
  intros Hx. destruct start_generated as (Hp & _).
  unfold p, getByTournament in Hx. apply jsSort_In, jsSort_In in Hx.
  rewrite Hp in Hx.
  destruct (Hroster x Hx) as [_ He].
  apply filter_In in Hx. destruct Hx as [Hin Htid]. apply String.eqb_eq in Htid. auto.
Qed.

Lemma start_roster_ids : NoDup (map p_id p).
Proof.
  destruct start_generated as (Hp & _).
  unfold p, getByTournament.
  apply (Permutation_NoDup (l := map p_id (jsSort (fun a b => seedOr999 a - seedOr999 b)
           (filter (fun x => String.eqb (p_tournamentId x) tournamentId)
                   (PARTICIPANTS db1))))).
  - apply Permutation_map. symmetry. apply jsSort_perm.
  - apply NoDup_ids_sorted. rewrite Hp. exact Hpids.
Qed.

Lemma start_even : Z.of_nat n = 2 * 2 ^ (k - 1).
Proof.
  destruct (assignParticipants_returned _ _ _ _ Hmids Hassign) as ((t1 & Ht1 & Hn) & _).
  destruct start_generated as (_ & _ & Ht1' & _).
  rewrite Ht1' in Ht1. injection Ht1 as <-. fold p n in Hn.
  cbn [setRegistration t_participantCount] in Hn. rewrite Hn, Hpc.
  rewrite <- pow2_double by lia. f_equal. lia.
Qed.

(** The matches of the tournament once seeded: a first-round match with
    its pair, or a placeholder. *)
Lemma start_matches y :
  In y (findMatches db2 tournamentId) ->
  (exists j y0 a b,
     (2 * j + 2 <= n)%nat /\
     nth_error firstRoundMatches j = Some y0 /\
     nth_error p j = Some a /\ nth_error p (n - 1 - j) = Some b /\
     y = setPair (p_id a) (p_id b) y0) \/
  placeholder tournamentId y.
Proof.
  intros Hy. unfold findMatches in Hy. apply filter_In in Hy. destruct Hy as [Hy Hyt].
  destruct (assignParticipants_returned _ _ _ _ Hmids Hassign)
    as (_ & _ & _ & _ & _ & _ & Hcases).
  fold p n firstRoundMatches in Hcases.
  destruct (Hcases y Hy) as [(j & y0 & a & b & Hj & Hy0 & Ha & Hb & E)|[Hin _]].
  - left. exists j, y0, a, b. split; [pose proof start_even; lia|].
    repeat (split; [assumption|]). assumption.
  - right. destruct start_generated as (_ & _ & _ & Hms & _ & Hph).
    apply Hph. rewrite <- Hms. unfold findMatches. apply filter_In. auto.
Qed.

Lemma start_slot y s x :
  In y (findMatches db2 tournamentId) -> slotId s y = Some x ->
  exists j a, (2 * j + 2 <= n)%nat /\
              (exists y0 b, nth_error firstRoundMatches j = Some y0 /\
                            nth_error p (if s then n - 1 - j else j)%nat = Some b /\
                            y = (if s then setPair (p_id a) (p_id b) y0
                                 else setPair (p_id b) (p_id a) y0)) /\
              nth_error p (if s then j else n - 1 - j)%nat = Some a /\ x = p_id a.
Proof.
  intros Hy Hs.
  destruct (start_matches y Hy) as [(j & y0 & a & b & Hj & Hy0 & Ha & Hb & ->)|Hph].
  - apply slotId_setPair in Hs. destruct s.
    + exists j, a. split; [exact Hj|]. split; [exists y0, b; auto|]. auto.
    + exists j, b. split; [exact Hj|]. split; [exists y0, a; auto|]. auto.
  - rewrite (slotId_placeholder _ _ _ Hph) in Hs. discriminate.
Qed.

Lemma sound_start : sound db2 tournamentId k.
Proof.
  destruct start_generated as (Hp1 & Hr1 & Ht1 & Hms1 & Hshape1 & Hph).
  destruct (assignParticipants_returned _ _ _ _ Hmids Hassign)
    as (_ & Hts & Hps & Hrs & Hshape & Hids & _).
  assert (Hshape2 : map shape (findMatches db2 tournamentId) = bracketShape tournamentId k).
  { rewrite (findMatches_shape db1 db2 tournamentId Hshape), Hms1. exact Hshape1. }
  constructor.
  - lia.
  - exists (setRegistration k tournament). unfold getTournament. rewrite Hts.
    split; [exact Ht1|]. split; [exact Hpc|reflexivity].
  - exact Hshape2.
  - rewrite Hids. exact Hmids.
  - rewrite Hps, Hp1. exact Hpids.
  - (* slots *)
    intros m1 m2 s1 s2 x Hin1 Hin2 _ _ Hs1 Hs2.
    destruct (start_slot m1 s1 x Hin1 Hs1)
      as (j1 & a1 & Hj1 & (y1 & b1 & Hy1 & Hb1 & E1) & Ha1 & Ex1).
    destruct (start_slot m2 s2 x Hin2 Hs2)
      as (j2 & a2 & Hj2 & (y2 & b2 & Hy2 & Hb2 & E2) & Ha2 & Ex2).
    assert (Epos : (if s1 then j1 else n - 1 - j1)%nat = (if s2 then j2 else n - 1 - j2)%nat).
    { apply (NoDup_ids_position p_id p _ _ a1 a2 start_roster_ids Ha1 Ha2). congruence. }
    assert (Hss : s1 = s2 /\ j1 = j2) by (destruct s1, s2; split; try reflexivity; lia).
    destruct Hss as [<- <-]. split; [|reflexivity].
    assert (y1 = y2) by congruence. subst y2.
    assert (a1 = a2) by congruence. subst a2.
    assert (b1 = b2) by congruence. subst b2.
    congruence.
  - (* alive *)
    intros m s x Hin _ Hs.
    destruct (start_slot m s x Hin Hs) as (j & a & _ & _ & Ha & ->).
    destruct (start_roster a (nth_error_In _ _ Ha)) as (Hain & Hat & Hae).
    exists a. split; [|auto]. unfold getParticipant. rewrite Hps, Hp1.
    apply getById_NoDup; assumption.
  - (* feeders *)
    intros m d Hm Hd [Hround _] _.
    destruct (wellBuilt_match db2 tournamentId k ltac:(lia) Hshape2 m Hm) as (_ & Hrm & _).
    destruct (start_matches d Hd) as [(j & y0 & a & b & _ & Hy0 & _ & _ & ->)|Hphd].
    + exfalso. apply nth_error_In in Hy0. unfold firstRoundMatches in Hy0.
      apply jsSort_In in Hy0. unfold findRound in Hy0. apply filter_In in Hy0.
      destruct Hy0 as [_ Hy0]. unfold inRound in Hy0. apply andb_true_iff in Hy0.
      destruct Hy0 as [_ Hy0]. apply Z.eqb_eq in Hy0.
      cbn [setPair m_round] in Hround. lia.
    + split; [apply (isCompleted_placeholder _ _ Hphd)|apply (slotId_placeholder _ _ _ Hphd)].
  - (* counts *)
    rewrite !filter_none; [reflexivity| |].
    + intros y Hy.
      destruct (start_matches y Hy) as [(j & y0 & a & b & _ & _ & _ & _ & ->)|Hphy].
      * reflexivity.
      * apply (isCompleted_placeholder _ _ Hphy).
    + intros x Hx. apply Hroster. unfold storedParticipants in *.
      rewrite Hps, Hp1 in Hx. exact Hx.
  - (* champions *)
    intros res Hres Hrt. exfalso. rewrite Hrs, Hr1 in Hres.
    apply (Hresults res Hres Hrt).
Qed.
End Start.

(** ** Elimination *)

Lemma update_split {A} (ident : A -> Id) items id upd x :
  getById ident items id = Some x ->
  exists before after,
    items = before ++ x :: after /\
    update ident items id upd = before ++ upd x :: after.
Proof.
  induction items as [|y l IH]; intros Hget; [discriminate|].
  unfold getById in Hget. simpl in *.
  destruct (String.eqb (ident y) id).
  - injection Hget as ->. exists [], l. auto.
  - destruct (IH Hget) as (before & after & -> & E).
    exists (y :: before), after. rewrite E. auto.
Qed.

Lemma advanceWinner_PARTICIPANTS mt winnerId db :
  PARTICIPANTS (snd (advanceWinner mt winnerId db)) = PARTICIPANTS db.
Proof.
  unfold advanceWinner.
  destruct (getTournament db (m_tournamentId mt)) as [t|]; [|reflexivity].
  destruct (m_round mt + 1 >? t_totalRounds t); [reflexivity|].
  destruct (getFirstMatchNumberOfRound db (m_tournamentId mt) (m_round mt)) as [first|];
    [|reflexivity].
  destruct (nextMatchOf db mt _) as [nextMatch|]; [|reflexivity].
  destruct (getMatchById db (m_id nextMatch)); reflexivity.
Qed.

Lemma finalizeTournament_PARTICIPANTS genId today tournamentId championId runnerUpId db :
  PARTICIPANTS (snd (finalizeTournament genId today tournamentId championId runnerUpId db))
  = PARTICIPANTS db.
Proof.
  unfold finalizeTournament. destruct (getTournament db tournamentId); reflexivity.
Qed.

Lemma updateCurrentRound_PARTICIPANTS tournamentId db :
  PARTICIPANTS (snd (updateCurrentRound tournamentId db)) = PARTICIPANTS db.
Proof.
  unfold updateCurrentRound.
  destruct (getTournament db tournamentId) as [t|]; [|reflexivity].
  destruct (firstIncompleteRound _ _ _) as [round|]; [|reflexivity].
  destruct (negb _); reflexivity.
Qed.

Section Elimination.
Variable genId : nat -> Id.
Variable today : string.

Lemma sound_status db tournamentId k status :
  sound db tournamentId k ->
  sound (updateTOURNAMENTS tournamentId (setStatus status) db) tournamentId k.
Proof.
  intros Hsound. constructor; try apply Hsound.
  destruct (sound_built _ _ _ Hsound) as (t & Ht & Hpc & Hr).
  exists (setStatus status t). split; [|split; assumption].
  unfold getTournament, updateTOURNAMENTS. cbn [TOURNAMENTS setTOURNAMENTS].
  rewrite getById_update_same by (intros x; reflexivity).
  unfold getTournament in Ht. rewrite Ht. reflexivity.
Qed.

Lemma played_sound tournamentId k db :
  played genId today tournamentId k db -> sound db tournamentId k.
Proof.
  induction 1.
  - eapply sound_start; eassumption.
  - apply sound_status. assumption.
  - eapply sound_score; eassumption.
Qed.

(** The participants after an accepted call: the loser's record alone is
    rewritten. *)
Lemma updateScore_PARTICIPANTS db matchId score1 score2 mt tournament p1 p2 :
  getMatchById db matchId = Some mt ->
  m_status mt <> "pending" ->
  truthyId (m_participant1Id mt) = Some p1 ->
  truthyId (m_participant2Id mt) = Some p2 ->
  0 <= score1 -> 0 <= score2 -> score1 <> score2 ->
  getTournament db (m_tournamentId mt) = Some tournament ->
  exists r db',
    updateScore genId today matchId score1 score2 db = (Returned r, db') /\
    PARTICIPANTS db'
    = update p_id (PARTICIPANTS db) (if score1 >? score2 then p2 else p1)
             (setEliminated (m_round mt)).
Proof.
  intros Hm Hs H1 H2 Hs1 Hs2 Hne Ht.
  pose proof (updateScore_run genId today db matchId score1 score2 mt tournament
                p1 p2 Hm Hs H1 H2 Hs1 Hs2 Hne Ht) as Hrun.
  cbv zeta in Hrun. rewrite Hrun. eexists. eexists. split; [reflexivity|].
  destruct (m_round mt =? t_totalRounds tournament).
  - rewrite finalizeTournament_PARTICIPANTS, advanceWinner_PARTICIPANTS. reflexivity.
  - rewrite updateCurrentRound_PARTICIPANTS, advanceWinner_PARTICIPANTS. reflexivity.
Qed.

(** C8, as the code has it. An accepted [updateScore] rewrites one
    participant record, the loser's, to 'eliminated' at the round of the
    match, and no other. While a tournament is played once through (its
    bracket generated, its roster assigned, and only matches that are not
    completed scored), as many of its participants are eliminated as it
    has completed matches, and the champion of its Result record is not
    eliminated. *)
Theorem updateScore_eliminates :
  (forall db matchId score1 score2 mt tournament p1 p2 loser,
     getMatchById db matchId = Some mt ->
     m_status mt <> "pending" ->
     truthyId (m_participant1Id mt) = Some p1 ->
     truthyId (m_participant2Id mt) = Some p2 ->
     0 <= score1 -> 0 <= score2 -> score1 <> score2 ->
     getTournament db (m_tournamentId mt) = Some tournament ->
     getParticipant db (if score1 >? score2 then p2 else p1) = Some loser ->
     exists r db' before after,
       updateScore genId today matchId score1 score2 db = (Returned r, db') /\
       PARTICIPANTS db = before ++ loser :: after /\
       PARTICIPANTS db'
       = before
         ++ mkParticipant (p_id loser) (p_tournamentId loser) (p_seed loser)
                          "eliminated" (Some (m_round mt))
         :: after) /\
  (forall tournamentId k db,
     played genId today tournamentId k db ->
     List.length (filter isEliminated (storedParticipants db tournamentId))
     = List.length (filter isCompleted (findMatches db tournamentId)) /\
     (forall res,
        In res (RESULTS db) -> r_tournamentId res = tournamentId ->
        exists champion,
          getParticipant db (r_championId res) = Some champion /\
          p_status champion <> "eliminated")).
Proof.
  split.
  - intros db matchId score1 score2 mt tournament p1 p2 loser
           Hm Hs H1 H2 Hs1 Hs2 Hne Ht Hl.
    destruct (updateScore_PARTICIPANTS db matchId score1 score2 mt tournament p1 p2
                Hm Hs H1 H2 Hs1 Hs2 Hne Ht) as (r & db' & Hrun & Hp).
    destruct (update_split p_id _ _ (setEliminated (m_round mt)) _ Hl)
      as (before & after & E1 & E2).
    exists r, db', before, after. split; [exact Hrun|]. split; [exact E1|].
    rewrite Hp. exact E2.
  - intros tournamentId k db Hplayed.
    pose proof (played_sound tournamentId k db Hplayed) as Hsound.
    split; [apply (sound_count _ _ _ Hsound)|].
    intros res Hres Hrt.
    destruct (sound_champions _ _ _ Hsound res Hres Hrt) as [(p & Hp & He) _].
    exists p. split; [exact Hp|]. unfold isEliminated in He.
    apply String.eqb_neq. exact He.
Qed.
End Elimination.

(** The tournament of four played through, and its final then scored
    again the other way round: the call is accepted, the champion of the
    first Result record is eliminated, and four participants are
    eliminated for three completed matches. *)
Lemma rescored_champion_eliminated :
  demoGenerated = snd (generate demoId "t1" demo0) /\
  demoAssigned = snd (assignParticipants "t1" demoGenerated) /\
  demoSemi1 = snd (updateScore demoId "2024-01-01" "m" 3 1 demoAssigned) /\
  demoSemi2 = snd (updateScore demoId "2024-01-01" "mx" 0 2 demoSemi1) /\
  demoFinal = snd (updateScore demoId "2024-01-01" "mxx" 2 1 demoSemi2) /\
  (exists r, updateScore demoId "2024-01-01" "mxx" 1 2 demoFinal
             = (Returned r, demoRescored)) /\
  (exists res champion,
     nth_error (RESULTS demoRescored) 0 = Some res /\
     r_tournamentId res = "t1" /\
     getParticipant demoRescored (r_championId res) = Some champion /\
     p_status champion = "eliminated") /\
  List.length (filter isEliminated (storedParticipants demoRescored "t1")) = 4%nat /\
  List.length (filter isCompleted (findMatches demoRescored "t1")) = 3%nat.
Proof.
  repeat (split; [reflexivity|]).
  split; [eexists; reflexivity|].
  split; [do 2 eexists; repeat split|]; split; reflexivity.
Qed.

Lemma demo_played : played demoId "2024-01-01" "t1" 2 demoFinal.
Proof.
  assert (Hstart : played demoId "2024-01-01" "t1" 2 demoAssigned).
  { apply (played_start _ _ _ _ demo0 (mkTournament "t1" "draft" 4 2 1 None)
             (MATCHES demoGenerated) demoGenerated
             (findRound demoAssigned "t1" 1)); try reflexivity.
    - lia.
    - intros res [].
    - vm_compute. repeat (constructor; [simpl; intuition discriminate|]). constructor.
    - intros p Hp. vm_compute in Hp.
      destruct Hp as [<-|[<-|[<-|[<-|[]]]]]; (split; [discriminate|reflexivity]).
    - vm_compute. repeat (constructor; [simpl; intuition discriminate|]). constructor. }
  assert (Hsemi1 : played demoId "2024-01-01" "t1" 2 demoSemi1).
  { apply (played_score _ _ _ _ demoAssigned "m" 3 1
             (mkMatch "m" "t1" 1 1 (Some "a") (Some "d") None None None "upcoming")
             (getMatchById demoSemi1 "m")); try reflexivity. exact Hstart. }
  assert (Hsemi2 : played demoId "2024-01-01" "t1" 2 demoSemi2).
  { apply (played_score _ _ _ _ demoSemi1 "mx" 0 2
             (mkMatch "mx" "t1" 1 2 (Some "b") (Some "c") None None None "upcoming")
             (getMatchById demoSemi2 "mx")); try reflexivity. exact Hsemi1. }
  apply (played_score _ _ _ _ demoSemi2 "mxx" 2 1
           (mkMatch "mxx" "t1" 2 3 (Some "a") (Some "c") None None None "upcoming")
           (getMatchById demoFinal "mxx")); try reflexivity. exact Hsemi2.
Defined.

(** The first semifinal of the tournament of four eliminates seed 4, and
    the tournament played through has three eliminated participants for
    its three completed matches, and a champion who is not eliminated. *)
Lemma updateScore_eliminates_witness :
  (exists r db' before after,
     updateScore demoId "2024-01-01" "m" 3 1 demoAssigned = (Returned r, db') /\
     PARTICIPANTS demoAssigned = before ++ demoParticipant "d" 4 :: after /\
     PARTICIPANTS db'
     = before ++ mkParticipant "d" "t1" (Some 4) "eliminated" (Some 1) :: after) /\
  List.length (filter isEliminated (storedParticipants demoFinal "t1")) = 3%nat /\
  (exists champion,
     getParticipant demoFinal "a" = Some champion /\ p_status champion <> "eliminated").
Proof.
  destruct (updateScore_eliminates demoId "2024-01-01") as [Hcall Hplayed].
  split.
  - apply (Hcall demoAssigned "m" 3 1
             (mkMatch "m" "t1" 1 1 (Some "a") (Some "d") None None None "upcoming")
             (mkTournament "t1" "registration" 4 2 1 None) "a" "d"
             (demoParticipant "d" 4));
      try reflexivity; try discriminate; try lia.
  - destruct (Hplayed "t1" 2 demoFinal demo_played) as [Hcount Hchamp].
    split; [rewrite Hcount; reflexivity|].
    apply (Hchamp (mkResult "mxxx" "t1" "a" "c" ["d"; "b"] 3 4)).
    + left. reflexivity.
    + reflexivity.
Defined.

(** * Beyond the bracket engine *)

(** ** The record store: insertion, update and deletion *)

Section StoreRoundTrips.
Context {A : Type} (ident : A -> Id).
Implicit Types (items : list A) (id : Id) (upd : A -> A).

Lemma getById_app items items' id :
  getById ident (items ++ items') id =
  match getById ident items id with
  | Some x => Some x
  | None => getById ident items' id
  end.
Proof.
  unfold getById. induction items as [|x r IH]; simpl; [reflexivity|].
  destruct (String.eqb (ident x) id); [reflexivity|exact IH].
Qed.

(** X1. A lookup after [DB.insert]: the new record is found under its id
    unless an older record has that id already (the older one is then
    still the one found); every other lookup is as before. *)
Theorem insert_getById items item id :
  getById ident (insert items item) id =
  match getById ident items id with
  | Some found => Some found
  | None => if String.eqb (ident item) id then Some item else None
  end.
Proof.
  unfold insert. rewrite getById_app.
  destruct (getById ident items id); [reflexivity|].
  unfold getById. simpl. destruct (String.eqb (ident item) id); reflexivity.
Qed.

Lemma update_missing items id upd :
  getById ident items id = None -> update ident items id upd = items.
Proof.
  unfold getById. induction items as [|x r IH]; simpl; [reflexivity|].
  destruct (String.eqb (ident x) id); [discriminate|].
  intros H. rewrite IH by exact H. reflexivity.
Qed.

(** X2. [DB.update] with an update that does not write the id: a lookup
    of the id gives the merged record, which is what the call returned;
    every other lookup, and the order of the ids, are as before; without
    a record of that id it returns [null] and the collection is left as
    it was. *)
Theorem update_getById items id upd :
  keepsId ident upd ->
  getById ident (update ident items id upd) id = updated ident items id upd /\
  (forall id', id <> id' ->
     getById ident (update ident items id upd) id' = getById ident items id') /\
  map ident (update ident items id upd) = map ident items /\
  (getById ident items id = None ->
     updated ident items id upd = None /\ update ident items id upd = items).
Proof.
  intros Hk. split; [|split; [|split]].
  - unfold updated. apply getById_update_same. exact Hk.
  - intros id' Hne. apply getById_update_other; assumption.
  - apply map_update. exact Hk.
  - intros Hnone. split.
    + unfold updated. rewrite Hnone. reflexivity.
    + apply update_missing. exact Hnone.
Qed.

Lemma filter_length_all (f : A -> bool) items :
  List.length (filter f items) = List.length items -> filter f items = items.
Proof.
  induction items as [|x r IH]; simpl; [reflexivity|].
  destruct (f x); simpl; intros H.
  - f_equal. apply IH. lia.
  - pose proof (filter_length_le f r). lia.
Qed.

Lemma getById_filter_other items id id' :
  id' <> id ->
  getById ident (filter (fun item => negb (String.eqb (ident item) id)) items) id'
  = getById ident items id'.
Proof.
  intros Hne. unfold getById. induction items as [|x r IH]; simpl; [reflexivity|].
  destruct (String.eqb (ident x) id) eqn:E; simpl.
  - apply String.eqb_eq in E.
    destruct (String.eqb (ident x) id') eqn:E'; [|exact IH].
    apply String.eqb_eq in E'. congruence.
  - destruct (String.eqb (ident x) id'); [reflexivity|exact IH].
Qed.

Lemma getById_filter_same items id :
  getById ident (filter (fun item => negb (String.eqb (ident item) id)) items) id
  = None.
Proof.
  unfold getById. induction items as [|x r IH]; simpl; [reflexivity|].
  destruct (String.eqb (ident x) id) eqn:E; simpl; [exact IH|].
  rewrite E. exact IH.
Qed.

Lemma getById_None_filter items id :
  getById ident items id = None ->
  filter (fun item => negb (String.eqb (ident item) id)) items = items.
Proof.
  unfold getById. induction items as [|x r IH]; simpl; [reflexivity|].
  destruct (String.eqb (ident x) id); simpl; [discriminate|].
  intros H. rewrite IH by exact H. reflexivity.
Qed.

Lemma delete_run items id :
  delete ident items id =
  (match getById ident items id with Some _ => true | None => false end,
   filter (fun item => negb (String.eqb (ident item) id)) items).
Proof.
  unfold delete.
  destruct (Nat.eqb _ _) eqn:E.
  - apply Nat.eqb_eq in E. apply filter_length_all in E.
    destruct (getById ident items id) as [x|] eqn:G.
    + exfalso. apply getById_In in G. destruct G as [Hin Hid].
      rewrite <- E in Hin. apply filter_In in Hin. destruct Hin as [_ Hf].
      rewrite Hid, String.eqb_refl in Hf. discriminate.
    + rewrite E. reflexivity.
  - apply Nat.eqb_neq in E.
    destruct (getById ident items id) as [x|] eqn:G; [reflexivity|].
    exfalso. apply E. rewrite getById_None_filter by exact G. reflexivity.
Qed.

(** X3. [DB.delete] answers [true] exactly when a record has the id; it
    removes every record with that id and no other, so that afterwards the
    id is not found and every other lookup is as before. *)
Theorem delete_spec items id :
  fst (delete ident items id)
  = match getById ident items id with Some _ => true | None => false end /\
  (forall x, In x (snd (delete ident items id)) <-> In x items /\ ident x <> id) /\
  getById ident (snd (delete ident items id)) id = None /\
  (forall id', id' <> id ->
     getById ident (snd (delete ident items id)) id' = getById ident items id').
Proof.
  rewrite delete_run. simpl. split; [reflexivity|]. split; [|split].
  - intros x. rewrite filter_In. split; intros [Hin H]; split; try exact Hin.
    + intros Heq. rewrite Heq, String.eqb_refl in H. discriminate.
    + destruct (String.eqb (ident x) id) eqn:E; [|reflexivity].
      apply String.eqb_eq in E. contradiction.
  - apply getById_filter_same.
  - intros id' Hne. apply getById_filter_other. exact Hne.
Qed.

(** X4. [DB.deleteWhere] returns the number of records that met the
    criteria; the records left are those that did not, so that a [find]
    with the same criteria finds nothing afterwards, and the records found
    before together with the records left are the collection. *)
Theorem deleteWhere_spec items (criteria : A -> bool) :
  deletedCount items criteria = Z.of_nat (List.length (filter criteria items)) /\
  filter criteria (deleteWhere items criteria) = [] /\
  (forall x, In x (deleteWhere items criteria) <-> In x items /\ criteria x = false) /\
  Permutation items (filter criteria items ++ deleteWhere items criteria).
Proof.
  unfold deletedCount, deleteWhere. split; [|split; [|split]].
  - induction items as [|x r IH]; [reflexivity|].
    cbn [filter List.length]. destruct (criteria x); cbn [negb List.length]; lia.
  - induction items as [|x r IH]; simpl; [reflexivity|].
    destruct (criteria x) eqn:E; simpl; [exact IH|]. rewrite E. exact IH.
  - intros x. rewrite filter_In. split; intros [Hin H]; split; try exact Hin.
    + destruct (criteria x); [discriminate|reflexivity].
    + rewrite H. reflexivity.
  - induction items as [|x r IH]; simpl; [constructor|].
    destruct (criteria x); simpl.
    + apply perm_skip. exact IH.
    + apply Permutation_cons_app. exact IH.
Qed.
End StoreRoundTrips.

Lemma update_getById_witness :
  getById m_id (update m_id (MATCHES demoAssigned) "mx" (setMatchStatus "live")) "mx"
  = Some (mkMatch "mx" "t1" 1 2 (Some "b") (Some "c") None None None "live").
Proof.
  rewrite (proj1 (update_getById m_id (MATCHES demoAssigned) "mx"
                                 (setMatchStatus "live") (fun m => eq_refl))).
  reflexivity.
Defined.

(** ** The guards of the engine *)

Lemma land_pred_pow2 n :
  0 < n -> Z.land n (n - 1) = 0 -> exists k, 0 <= k /\ n = 2 ^ k.
Proof.
  intros Hn Hland. exists (Z.log2 n).
  pose proof (Z.log2_nonneg n) as Hk. split; [exact Hk|].
  destruct (Z.log2_spec n Hn) as [Hlo Hhi].
  destruct (Z.eq_dec n (2 ^ Z.log2 n)) as [E|Hne]; [exact E|exfalso].
  assert (Hpred : Z.log2 (n - 1) = Z.log2 n).
  { apply Z.log2_unique; [exact Hk|]. lia. }
  assert (Hbit : Z.testbit (Z.land n (n - 1)) (Z.log2 n) = true).
  { assert (Hp : 0 < 2 ^ Z.log2 n) by (apply Z.pow_pos_nonneg; lia).
    rewrite Z.land_spec. rewrite (Z.bit_log2 n) by exact Hn.
    rewrite <- Hpred. rewrite Z.bit_log2 by lia. reflexivity. }
  rewrite Hland, Z.testbit_0_l in Hbit. discriminate.
Qed.

Lemma toInt32_period n : toInt32 (n + 2 ^ 32) = toInt32 n.
Proof.
  unfold toInt32. replace (n + 2 ^ 32 + 2 ^ 31) with (n + 2 ^ 31 + 1 * 2 ^ 32) by ring.
  rewrite Z.mod_add by (intros H; discriminate H). reflexivity.
Qed.

Lemma isPowerOfTwo_inv n :
  n < 2 ^ 31 -> isPowerOfTwo n = true -> exists k, 0 <= k /\ n = 2 ^ k.
Proof.
  intros Hn H. unfold isPowerOfTwo in H. apply andb_prop in H.
  destruct H as [Hpos Hland].
  apply Z.ltb_lt in Hpos. apply Z.eqb_eq in Hland.
  rewrite !toInt32_small in Hland by lia.
  apply land_pred_pow2; assumption.
Qed.

(** X5. [isPowerOfTwo] is exact below [2^31]: it holds of the powers of
    two and of nothing else (nor of zero or a negative number). Its
    bitwise test reads the low 32 bits only, so above that range, and as
    long as the numbers are integers that double precision holds exactly
    ([n + 2^32 <= 2^53]), it answers for [n + 2^32] what it answers for
    [n]. *)
Theorem isPowerOfTwo_exact n :
  (n < 2 ^ 31 -> (isPowerOfTwo n = true <-> exists k, 0 <= k /\ n = 2 ^ k)) /\
  (0 < n -> n + 2 ^ 32 <= 2 ^ 53 ->
   isPowerOfTwo (n + 2 ^ 32) = isPowerOfTwo n).
Proof.
  split.
  - intros Hn. split.
    + apply isPowerOfTwo_inv. exact Hn.
    + intros (k & Hk & ->). apply isPowerOfTwo_pow2. exact Hk.
  - intros Hn _. unfold isPowerOfTwo.
    replace (n + 2 ^ 32 - 1) with (n - 1 + 2 ^ 32) by ring.
    rewrite !toInt32_period.
    replace (0 <? n + 2 ^ 32) with true by (symmetry; apply Z.ltb_lt; lia).
    replace (0 <? n) with true by (symmetry; apply Z.ltb_lt; lia).
    reflexivity.
Qed.

(** 6 and [2^32 + 6] are refused; 64 is accepted, and so is [2^32 + 64],
    which is no power of two. *)
Lemma isPowerOfTwo_exact_witness :
  isPowerOfTwo 6 = false /\ isPowerOfTwo (6 + 2 ^ 32) = false /\
  (isPowerOfTwo 64 = true <-> exists k, 0 <= k /\ 64 = 2 ^ k) /\
  isPowerOfTwo (64 + 2 ^ 32) = true.
Proof.
  split; [reflexivity|]. split; [|split].
  - rewrite (proj2 (isPowerOfTwo_exact 6)) by lia. reflexivity.
  - apply (proj1 (isPowerOfTwo_exact 64)). reflexivity.
  - rewrite (proj2 (isPowerOfTwo_exact 64)) by lia. reflexivity.
Defined.

Section GenerateGuards.
Variable genId : nat -> Id.

Lemma generate_thrown db tournamentId e db' :
  generate genId tournamentId db = (Thrown e, db') ->
  db' = db /\ In e [NotFound; AlreadyGenerated; InvalidTopology].
Proof.
  unfold generate.
  destruct (getTournament db tournamentId) as [tournament|].
  - destruct (negb (String.eqb (t_status tournament) "draft")).
    + intros H. injection H as <- <-. split; [reflexivity|simpl; auto].
    + destruct (negb (isPowerOfTwo (t_participantCount tournament))).
      * intros H. injection H as <- <-. split; [reflexivity|simpl; auto].
      * destruct (generateRounds _ _ _ _ _ _) as [[db1 n] matches]. discriminate.
  - intros H. injection H as <- <-. split; [reflexivity|simpl; auto].
Qed.

(** X6. The rejections of [generate] besides the one for a tournament
    that is not a draft: a missing tournament is NotFound, a draft whose
    participant count (below [2^31]) is not a power of two is
    InvalidTopology; and whenever [generate] throws, it is one of its three
    errors and the store is as it was. *)
Theorem generate_rejections db tournamentId :
  (getTournament db tournamentId = None ->
   generate genId tournamentId db = (Thrown NotFound, db)) /\
  (forall tournament,
     getTournament db tournamentId = Some tournament ->
     t_status tournament = "draft" ->
     t_participantCount tournament < 2 ^ 31 ->
     (forall k, 0 <= k -> t_participantCount tournament <> 2 ^ k) ->
     generate genId tournamentId db = (Thrown InvalidTopology, db)) /\
  (forall e db',
     generate genId tournamentId db = (Thrown e, db') ->
     db' = db /\ In e [NotFound; AlreadyGenerated; InvalidTopology]).
Proof.
  split; [|split].
  - intros H. unfold generate. rewrite H. reflexivity.
  - intros tournament Ht Hdraft Hsmall Hnot. unfold generate. rewrite Ht, Hdraft.
    simpl. destruct (isPowerOfTwo (t_participantCount tournament)) eqn:E; [|reflexivity].
    exfalso. apply isPowerOfTwo_inv in E; [|exact Hsmall].
    destruct E as (k & Hk & E). exact (Hnot k Hk E).
  - apply generate_thrown.
Qed.
End GenerateGuards.

(** ** Pairing and assignment at the edges *)

Lemma nth_error_run {A} (f : nat -> A) count i :
  nth_error (map f (seq 0 count)) i = if (i <? count)%nat then Some (f i) else None.
Proof.
  rewrite nth_error_map, nth_error_seq.
  destruct (i <? count)%nat; reflexivity.
Qed.

Lemma createSeedPairings_nth participants i :
  nth_error (createSeedPairings participants) i =
  if (2 * i + 1 <=? List.length participants)%nat
  then Some (nth_error participants i,
             nth_error participants (List.length participants - 1 - i))
  else None.
Proof.
  rewrite createSeedPairings_spec. cbv zeta. rewrite nth_error_run.
  set (n := List.length participants).
  assert (E : (i <? Z.to_nat ((Z.of_nat n + 1) / 2))%nat = (2 * i + 1 <=? n)%nat).
  { destruct (2 * i + 1 <=? n)%nat eqn:E.
    - apply Nat.leb_le in E. apply Nat.ltb_lt.
      assert (Z.of_nat i < (Z.of_nat n + 1) / 2); [|lia].
      Z.div_mod_to_equations. lia.
    - apply Nat.leb_gt in E. apply Nat.ltb_ge.
      assert ((Z.of_nat n + 1) / 2 <= Z.of_nat i); [|lia].
      Z.div_mod_to_equations. lia. }
  rewrite E. reflexivity.
Qed.

Lemma createSeedPairings_defined participants pr :
  In pr (createSeedPairings participants) -> exists a b, pr = (Some a, Some b).
Proof.
  intros Hin. apply In_nth_error in Hin. destruct Hin as [i Hi].
  rewrite createSeedPairings_nth in Hi.
  destruct (2 * i + 1 <=? List.length participants)%nat eqn:E; [|discriminate].
  apply Nat.leb_le in E. injection Hi as <-.
  destruct (nth_error participants i) as [a|] eqn:Ea.
  - destruct (nth_error participants (List.length participants - 1 - i)) as [b|] eqn:Eb.
    + exists a, b. reflexivity.
    + apply nth_error_None in Eb. lia.
  - apply nth_error_None in Ea. lia.
Qed.

(** X7. [createSeedPairings] on [n] participants makes [ceil(n/2)] pairs,
    each of two participants of the list (never [undefined]); for an even
    [n] every participant is in exactly one pair: the first members in
    order, followed by the second members in reverse, are the list; for
    an odd [n] the participant in the middle is paired with itself. *)
Theorem createSeedPairings_pairs participants :
  let n := List.length participants in
  let pairs := createSeedPairings participants in
  Z.of_nat (List.length pairs) = (Z.of_nat n + 1) / 2 /\
  (forall pr, In pr pairs -> exists a b, pr = (Some a, Some b)) /\
  (Nat.even n = true ->
   map fst pairs ++ List.rev (map snd pairs) = map Some participants) /\
  (Nat.even n = false ->
   exists mid, nth_error participants (Nat.div2 n) = Some mid /\
               nth_error pairs (Nat.div2 n) = Some (Some mid, Some mid)).
Proof.
  cbv zeta. split; [|split; [|split]].
  - rewrite createSeedPairings_spec. cbv zeta. rewrite length_map, length_seq.
    rewrite Z2Nat.id; [reflexivity|]. apply Z.div_pos; lia.
  - apply createSeedPairings_defined.
  - intros Heven. apply Nat.even_spec in Heven. destruct Heven as [h Hh].
    assert (Hlen : List.length (createSeedPairings participants) = h).
    { rewrite createSeedPairings_spec. cbv zeta. rewrite length_map, length_seq, Hh.
      assert ((Z.of_nat (2 * h) + 1) / 2 = Z.of_nat h); [|lia].
      Z.div_mod_to_equations. lia. }
    apply nth_error_ext. intros i.
    rewrite nth_error_app, length_map, Hlen, (nth_error_map Some).
    destruct (i <? h)%nat eqn:Ei.
    + apply Nat.ltb_lt in Ei.
      rewrite nth_error_map, createSeedPairings_nth.
      replace (2 * i + 1 <=? List.length participants)%nat with true
        by (symmetry; apply Nat.leb_le; lia).
      simpl. destruct (nth_error participants i) as [a|] eqn:Ea; [reflexivity|].
      apply nth_error_None in Ea. lia.
    + apply Nat.ltb_ge in Ei.
      rewrite nth_error_rev, length_map, Hlen.
      destruct (i - h <? h)%nat eqn:Ej.
      * apply Nat.ltb_lt in Ej.
        rewrite nth_error_map, createSeedPairings_nth.
        replace (2 * (h - S (i - h)) + 1 <=? List.length participants)%nat with true
          by (symmetry; apply Nat.leb_le; lia).
        simpl. rewrite Hh.
        replace (2 * h - 1 - (h - S (i - h)))%nat with i by lia.
        destruct (nth_error participants i) as [a|] eqn:Ea; [reflexivity|].
        apply nth_error_None in Ea. lia.
      * apply Nat.ltb_ge in Ej.
        replace (nth_error participants i) with (@None Participant); [reflexivity|].
        symmetry. apply nth_error_None. lia.
  - intros Hodd.
    assert (Ho : Nat.odd (List.length participants) = true).
    { unfold Nat.odd. rewrite Hodd. reflexivity. }
    apply Nat.odd_spec in Ho. destruct Ho as [h Hh].
    assert (Hhalf : Nat.div2 (List.length participants) = h).
    { rewrite Hh. rewrite Nat.add_1_r. apply Nat.div2_succ_double. }
    rewrite Hhalf.
    destruct (nth_error participants h) as [mid|] eqn:Emid.
    + exists mid. split; [reflexivity|].
      rewrite createSeedPairings_nth.
      replace (2 * h + 1 <=? List.length participants)%nat with true
        by (symmetry; apply Nat.leb_le; lia).
      rewrite Hh. replace (2 * h + 1 - 1 - h)%nat with h by lia.
      rewrite Emid. reflexivity.
    + apply nth_error_None in Emid. lia.
Qed.

Lemma assignPairs_unmatched pairs : forall index db,
  assignPairs [] pairs index db = (Returned tt, db).
Proof.
  induction pairs as [|pr rest IH]; intros index db; simpl; [reflexivity|].
  unfold arrayGet. destruct (index <? 0); [apply IH|].
  destruct (Z.to_nat index); simpl; apply IH.
Qed.

Lemma assignPairs_returns firstRoundMatches pairs : forall index db,
  (forall pr, In pr pairs -> exists a b, pr = (Some a, Some b)) ->
  fst (assignPairs firstRoundMatches pairs index db) = Returned tt.
Proof.
  induction pairs as [|pr rest IH]; intros index db Hdef; [reflexivity|].
  cbn [assignPairs].
  assert (Hrest : forall pr', In pr' rest -> exists a b, pr' = (Some a, Some b)).
  { intros pr' Hin. apply Hdef. right. exact Hin. }
  destruct (arrayGet firstRoundMatches index) as [mt|].
  - destruct (Hdef pr (or_introl eq_refl)) as (a & b & ->).
    unfold bind, modify. apply IH. exact Hrest.
  - apply IH. exact Hrest.
Qed.

Lemma assignParticipants_incomplete db tournamentId tournament :
  getTournament db tournamentId = Some tournament ->
  Z.of_nat (List.length (storedParticipants db tournamentId))
  <> t_participantCount tournament ->
  assignParticipants tournamentId db = (Thrown IncompleteRoster, db).
Proof.
  intros Ht Hne. unfold assignParticipants. rewrite Ht.
  replace (List.length (getByTournament db tournamentId))
    with (List.length (storedParticipants db tournamentId))
    by (symmetry; apply jsSort_length).
  replace (Z.of_nat _ =? t_participantCount tournament) with false; [reflexivity|].
  symmetry. apply Z.eqb_neq. exact Hne.
Qed.

Lemma assignParticipants_thrown db tournamentId e db' :
  assignParticipants tournamentId db = (Thrown e, db') ->
  db' = db /\ (e = NotFound \/ e = IncompleteRoster).
Proof.
  unfold assignParticipants.
  destruct (getTournament db tournamentId) as [tournament|].
  - destruct (negb _).
    + intros H. injection H as <- <-. auto.
    + unfold bind.
      pose proof (assignPairs_returns
                    (jsSort byMatchNumber (findRound db tournamentId 1))
                    (createSeedPairings (jsSort bySeed (getByTournament db tournamentId)))
                    0 db (createSeedPairings_defined _)) as Hrun.
      destruct (assignPairs _ _ 0 db) as [[u|e'] db1]; [|discriminate].
      unfold gets. discriminate.
  - intros H. injection H as <- <-. auto.
Qed.

(** X8. [assignParticipants] outside its normal use: a missing tournament
    is NotFound and a roster that is not of [participantCount] is
    IncompleteRoster; these are the only errors it ends with, and the
    store is then as it was. With the full roster but no match of round 1
    in the store (the bracket was not generated) it assigns nobody and
    returns the empty list, without an error. *)
Theorem assignParticipants_edges db tournamentId :
  (getTournament db tournamentId = None ->
   assignParticipants tournamentId db = (Thrown NotFound, db)) /\
  (forall tournament,
     getTournament db tournamentId = Some tournament ->
     Z.of_nat (List.length (storedParticipants db tournamentId))
     <> t_participantCount tournament ->
     assignParticipants tournamentId db = (Thrown IncompleteRoster, db)) /\
  (forall e db',
     assignParticipants tournamentId db = (Thrown e, db') ->
     db' = db /\ (e = NotFound \/ e = IncompleteRoster)) /\
  (forall tournament,
     getTournament db tournamentId = Some tournament ->
     Z.of_nat (List.length (storedParticipants db tournamentId))
     = t_participantCount tournament ->
     findRound db tournamentId 1 = [] ->
     assignParticipants tournamentId db = (Returned [], db)).
Proof.
  split; [|split; [|split]].
  - intros H. unfold assignParticipants. rewrite H. reflexivity.
  - apply assignParticipants_incomplete.
  - apply assignParticipants_thrown.
  - intros tournament Ht Heq Hnone. unfold assignParticipants.
    replace (List.length (getByTournament db tournamentId))
      with (List.length (storedParticipants db tournamentId))
      by (symmetry; apply jsSort_length).
    rewrite Ht, Heq, Z.eqb_refl. cbn [negb]. rewrite Hnone.
    unfold bind. cbn [jsSort fold_right]. rewrite assignPairs_unmatched.
    unfold gets. rewrite Hnone. reflexivity.
Qed.

(** ** ParticipantService *)

Lemma Sorted_by_key {A} (key : A -> Z) (l : list A) :
  Sorted (fun a b => key a - key b <= 0) l ->
  StronglySorted (fun a b => key a <= key b) l.
Proof.
  intros H. apply Sorted_StronglySorted.
  - intros a b c. lia.
  - induction H as [|x r Hr IH Hhd]; constructor; [exact IH|].
    destruct Hhd; constructor. lia.
Qed.

(** X9. [ParticipantService.getByTournament] returns the participants of
    the tournament, each once, in ascending order of the seed, where a
    participant without a seed ([null] or 0) counts as seeded 999;
    participants that rank alike keep the order they are stored in. *)
Theorem getByTournament_spec db tournamentId :
  let result := getByTournament db tournamentId in
  Permutation result (storedParticipants db tournamentId) /\
  StronglySorted (fun a b => seedOr999 a <= seedOr999 b) result /\
  (forall rank,
     filter (fun p => seedOr999 p =? rank) result
     = filter (fun p => seedOr999 p =? rank) (storedParticipants db tournamentId)) /\
  (forall p, In p result ->
     seedOr999 p = match p_seed p with
                   | Some s => if s =? 0 then 999 else s
                   | None => 999
                   end).
Proof.
  cbv zeta. unfold getByTournament, storedParticipants. split; [|split; [|split]].
  - apply jsSort_perm.
  - apply Sorted_by_key.
    apply (jsSort_sorted (fun a b => seedOr999 a - seedOr999 b)).
    intros a b. lia.
  - intros rank. apply jsSort_filter_tied.
    intros x y Hx Hy. apply Z.eqb_eq in Hx, Hy. lia.
  - intros p _. unfold seedOr999, truthyNum.
    destruct (p_seed p) as [s|]; [|reflexivity].
    destruct (s =? 0); reflexivity.
Qed.

Lemma clearSlots_none m : clearSlots false false m = m.
Proof. destruct m. reflexivity. Qed.

Lemma removeFromMatches_spec id matches : forall db,
  NoDup (map m_id matches) ->
  NoDup (map m_id (MATCHES db)) ->
  ParticipantService.removeFromMatches id matches db
  = mkDB (TOURNAMENTS db) (PARTICIPANTS db)
         (map (cleared id matches) (MATCHES db)) (RESULTS db) (idSupply db).
Proof.
  induction matches as [|mt rest IH]; intros db Hfresh Hnd.
  - simpl. unfold cleared. simpl. rewrite map_id. destruct db. reflexivity.
  - cbn [ParticipantService.removeFromMatches].
    set (c1 := sameId (m_participant1Id mt) (Some id)).
    set (c2 := sameId (m_participant2Id mt) (Some id)).
    set (db2 := if c1 || c2 then updateMATCHES (m_id mt) (clearSlots c1 c2) db else db).
    assert (Hdb2 : db2 = setMATCHES (map (fun x => if String.eqb (m_id x) (m_id mt)
                                                   then clearSlots c1 c2 x else x)) db).
    { unfold db2. destruct (c1 || c2) eqn:E.
      - unfold updateMATCHES, setMATCHES. rewrite update_as_map by exact Hnd.
        reflexivity.
      - apply orb_false_elim in E. destruct E as [-> ->].
        unfold setMATCHES.
        replace (map _ (MATCHES db)) with (MATCHES db); [destruct db; reflexivity|].
        rewrite <- (map_id (MATCHES db)) at 1. apply map_ext. intros x.
        rewrite clearSlots_none. destruct (String.eqb _ _); reflexivity. }
    assert (Hids : map m_id (MATCHES db2) = map m_id (MATCHES db)).
    { rewrite Hdb2. unfold setMATCHES. cbn [MATCHES]. rewrite map_map.
      apply map_ext. intros x. destruct (String.eqb _ _); reflexivity. }
    cbn [map] in Hfresh. apply NoDup_cons_iff in Hfresh.
    destruct Hfresh as [Hmt Hfresh].
    rewrite IH by (try rewrite Hids; assumption).
    rewrite Hdb2. unfold setMATCHES. cbn [TOURNAMENTS PARTICIPANTS MATCHES RESULTS idSupply].
    f_equal. rewrite map_map. apply map_ext. intros x.
    unfold cleared, getById. cbn [find].
    destruct (String.eqb (m_id x) (m_id mt)) eqn:E.
    + apply String.eqb_eq in E.
      replace (m_id (clearSlots c1 c2 x)) with (m_id x) by reflexivity.
      rewrite E, String.eqb_refl.
      destruct (find (fun item => String.eqb (m_id item) (m_id mt)) rest) as [mt'|] eqn:F;
        [|reflexivity].
      exfalso. apply Hmt. apply find_some in F. destruct F as [Hin Heq].
      apply String.eqb_eq in Heq. rewrite <- Heq. apply in_map. exact Hin.
    + rewrite String.eqb_sym, E. reflexivity.
Qed.

Lemma cleared_snapshot id (items : list Match) tournamentId m :
  NoDup (map m_id items) -> In m items ->
  cleared id (filter (inTournament tournamentId) items) m
  = if inTournament tournamentId m
    then clearSlots (sameId (m_participant1Id m) (Some id))
                    (sameId (m_participant2Id m) (Some id)) m
    else m.
Proof.
  intros Hnd Hin. unfold cleared.
  destruct (inTournament tournamentId m) eqn:E.
  - rewrite (getById_NoDup m_id (filter (inTournament tournamentId) items) m).
    + reflexivity.
    + apply NoDup_map_filter. exact Hnd.
    + apply filter_In. split; assumption.
  - destruct (getById m_id (filter (inTournament tournamentId) items) (m_id m))
      as [mt|] eqn:G; [|reflexivity].
    exfalso. apply getById_In in G. destruct G as [Hmt Hid].
    apply filter_In in Hmt. destruct Hmt as [Hmt Ht].
    assert (mt = m) by (eapply NoDup_position; eauto).
    subst mt. congruence.
Qed.

(** X10. The rejections of [ParticipantService.delete]: an unknown
    participant; a participant whose tournament is gone (a TypeError); a
    tournament that is ongoing or completed. Whenever it throws, the
    store is as it was. *)
Theorem deleteParticipant_rejections db id :
  (getParticipant db id = None ->
   ParticipantService.delete id db = (Failed ParticipantNotFound, db)) /\
  (forall participant,
     getParticipant db id = Some participant ->
     getTournament db (p_tournamentId participant) = None ->
     ParticipantService.delete id db = (Failed (Raised TypeError), db)) /\
  (forall participant tournament,
     getParticipant db id = Some participant ->
     getTournament db (p_tournamentId participant) = Some tournament ->
     t_status tournament = "ongoing" \/ t_status tournament = "completed" ->
     ParticipantService.delete id db = (Failed TournamentRunning, db)) /\
  (forall f db', ParticipantService.delete id db = (Failed f, db') -> db' = db).
Proof.
  unfold ParticipantService.delete. split; [|split; [|split]].
  - intros ->. reflexivity.
  - intros participant -> ->. reflexivity.
  - intros participant tournament -> -> [-> | ->]; reflexivity.
  - intros f db'.
    destruct (getParticipant db id) as [participant|]; [|intros H; congruence].
    destruct (getTournament db (p_tournamentId participant)) as [tournament|];
      [|intros H; congruence].
    destruct (_ || _); [intros H; congruence|].
    destruct (delete p_id _ id). discriminate.
Qed.

(** X11. [ParticipantService.delete] of a participant of a tournament
    that is not running (in a store with distinct match ids): the
    participant is gone and every other participant is as before; in
    the matches of the tournament the slots that held the participant are
    emptied, and nothing else of any match changes: not the status (a
    match that was 'upcoming' stays so with a slot empty), nor a winner
    or a score already recorded. *)
Theorem deleteParticipant_spec db id participant tournament :
  getParticipant db id = Some participant ->
  getTournament db (p_tournamentId participant) = Some tournament ->
  t_status tournament <> "ongoing" -> t_status tournament <> "completed" ->
  NoDup (map m_id (MATCHES db)) ->
  exists db',
    ParticipantService.delete id db = (Done true, db') /\
    getParticipant db' id = None /\
    (forall id', id' <> id -> getParticipant db' id' = getParticipant db id') /\
    MATCHES db'
    = map (fun m => if inTournament (p_tournamentId participant) m
                    then clearSlots (sameId (m_participant1Id m) (Some id))
                                    (sameId (m_participant2Id m) (Some id)) m
                    else m)
          (MATCHES db) /\
    (forall m, In m (findMatches db' (p_tournamentId participant)) ->
               m_participant1Id m <> Some id /\ m_participant2Id m <> Some id) /\
    map (fun m => (m_id m, shape m, m_winnerId m, m_score1 m, m_score2 m, m_status m))
        (MATCHES db')
    = map (fun m => (m_id m, shape m, m_winnerId m, m_score1 m, m_score2 m, m_status m))
          (MATCHES db) /\
    TOURNAMENTS db' = TOURNAMENTS db /\ RESULTS db' = RESULTS db.
Proof.
  intros Hp Ht Hongoing Hcompleted Hnd.
  unfold ParticipantService.delete. rewrite Hp, Ht.
  replace (String.eqb (t_status tournament) "ongoing") with false
    by (symmetry; apply String.eqb_neq; exact Hongoing).
  replace (String.eqb (t_status tournament) "completed") with false
    by (symmetry; apply String.eqb_neq; exact Hcompleted).
  cbn [orb].
  rewrite removeFromMatches_spec by (try apply NoDup_map_filter; exact Hnd).
  cbn [PARTICIPANTS]. rewrite delete_run. unfold getParticipant in Hp. rewrite Hp.
  set (tid := p_tournamentId participant).
  assert (Hm : map (cleared id (findMatches db tid)) (MATCHES db)
               = map (fun m => if inTournament tid m
                               then clearSlots (sameId (m_participant1Id m) (Some id))
                                               (sameId (m_participant2Id m) (Some id)) m
                               else m) (MATCHES db)).
  { apply map_ext_in. intros m Hin. apply cleared_snapshot; assumption. }
  eexists. split; [reflexivity|]. rewrite Hm.
  unfold setPARTICIPANTS, getParticipant, findMatches.
  cbn [TOURNAMENTS PARTICIPANTS MATCHES RESULTS].
  split; [apply getById_filter_same|].
  split; [intros id' Hne; apply getById_filter_other; exact Hne|].
  split; [reflexivity|].
  split.
  - intros m Hin. apply filter_In in Hin.
    destruct Hin as [Hin Hin_t]. apply in_map_iff in Hin.
    destruct Hin as (m0 & <- & Hm0).
    destruct (inTournament tid m0) eqn:E.
    + unfold clearSlots. cbn [m_participant1Id m_participant2Id].
      split.
      * destruct (m_participant1Id m0) as [x|]; cbn [sameId]; [|discriminate].
        destruct (String.eqb x id) eqn:Ex; [discriminate|].
        apply String.eqb_neq in Ex. congruence.
      * destruct (m_participant2Id m0) as [x|]; cbn [sameId]; [|discriminate].
        destruct (String.eqb x id) eqn:Ex; [discriminate|].
        apply String.eqb_neq in Ex. congruence.
    + rewrite E in Hin_t. discriminate.
  - split; [|split; reflexivity].
    rewrite map_map. apply map_ext. intros m.
    destruct (inTournament tid m); reflexivity.
Qed.

(** ** TournamentService *)

Lemma filter_deleteWhere_other {A} (key : A -> Id) (id other : Id) (items : list A) :
  other <> id ->
  filter (fun x => String.eqb (key x) other)
         (deleteWhere items (fun x => String.eqb (key x) id))
  = filter (fun x => String.eqb (key x) other) items.
Proof.
  intros Hne. unfold deleteWhere. induction items as [|x r IH]; simpl; [reflexivity|].
  destruct (String.eqb (key x) id) eqn:E; simpl.
  - apply String.eqb_eq in E.
    destruct (String.eqb (key x) other) eqn:E'; [|exact IH].
    apply String.eqb_eq in E'. congruence.
  - destruct (String.eqb (key x) other); [f_equal|]; exact IH.
Qed.

Lemma filter_deleteWhere_same {A} (key : A -> Id) (id : Id) (items : list A) :
  filter (fun x => String.eqb (key x) id)
         (deleteWhere items (fun x => String.eqb (key x) id)) = [].
Proof.
  unfold deleteWhere. induction items as [|x r IH]; simpl; [reflexivity|].
  destruct (String.eqb (key x) id) eqn:E; simpl; [exact IH|].
  rewrite E. exact IH.
Qed.

(** X12. [TournamentService.delete] answers whether the tournament was
    there. Afterwards, and also when it was not there, no tournament,
    participant, match or result of that tournament id is in the store,
    and what belongs to the other tournaments is as before. *)
Theorem deleteTournament_spec db id :
  let db' := snd (TournamentService.delete id db) in
  fst (TournamentService.delete id db)
  = match getTournament db id with Some _ => true | None => false end /\
  (getTournament db' id = None /\ storedParticipants db' id = [] /\
   findMatches db' id = [] /\
   filter (fun r => String.eqb (r_tournamentId r) id) (RESULTS db') = []) /\
  (forall other, other <> id ->
     getTournament db' other = getTournament db other /\
     storedParticipants db' other = storedParticipants db other /\
     findMatches db' other = findMatches db other /\
     filter (fun r => String.eqb (r_tournamentId r) other) (RESULTS db')
     = filter (fun r => String.eqb (r_tournamentId r) other) (RESULTS db)).
Proof.
  cbv zeta. unfold TournamentService.delete.
  unfold setPARTICIPANTS, setMATCHES, setRESULTS, setTOURNAMENTS.
  cbn [TOURNAMENTS PARTICIPANTS MATCHES RESULTS idSupply].
  rewrite delete_run. cbn [fst snd].
  unfold getTournament, storedParticipants, findMatches, inTournament.
  cbn [TOURNAMENTS PARTICIPANTS MATCHES RESULTS].
  split; [reflexivity|]. split.
  - split; [apply getById_filter_same|].
    split; [apply (filter_deleteWhere_same p_tournamentId)|].
    split; [apply (filter_deleteWhere_same m_tournamentId)|].
    apply (filter_deleteWhere_same r_tournamentId).
  - intros other Hne.
    split; [apply getById_filter_other; exact Hne|].
    split; [apply (filter_deleteWhere_other p_tournamentId); exact Hne|].
    split; [apply (filter_deleteWhere_other m_tournamentId); exact Hne|].
    apply (filter_deleteWhere_other r_tournamentId); exact Hne.
Qed.

Lemma assignParticipants_accepts db tournamentId tournament :
  getTournament db tournamentId = Some tournament ->
  Z.of_nat (List.length (storedParticipants db tournamentId))
  = t_participantCount tournament ->
  exists matches, fst (assignParticipants tournamentId db) = Returned matches.
Proof.
  intros Ht Hlen. unfold assignParticipants. rewrite Ht.
  replace (List.length (getByTournament db tournamentId))
    with (List.length (storedParticipants db tournamentId))
    by (symmetry; apply jsSort_length).
  rewrite Hlen, Z.eqb_refl. cbn [negb]. unfold bind.
  pose proof (assignPairs_returns
                (jsSort byMatchNumber (findRound db tournamentId 1))
                (createSeedPairings (jsSort bySeed (getByTournament db tournamentId)))
                0 db (createSeedPairings_defined _)) as Hrun.
  destruct (assignPairs _ _ 0 db) as [[u|e'] db1]; [|discriminate].
  unfold gets. eexists. reflexivity.
Qed.

Lemma canStart_Ready db id :
  TournamentService.canStart db id = Ready <->
  exists tournament,
    getTournament db id = Some tournament /\
    t_status tournament = "registration" /\
    t_participantCount tournament
    <= Z.of_nat (List.length (storedParticipants db id)).
Proof.
  unfold TournamentService.canStart, TournamentService.getById, storedParticipants.
  destruct (getTournament db id) as [tournament|]; cbn [td_tournament td_participants].
  - destruct (String.eqb (t_status tournament) "registration") eqn:E; cbn [negb].
    + apply String.eqb_eq in E.
      destruct (_ <? _) eqn:L.
      * apply Z.ltb_lt in L. split; [discriminate|].
        intros (t & Ht & _ & Hle). injection Ht as <-. lia.
      * apply Z.ltb_ge in L. split; [|reflexivity].
        intros _. exists tournament. auto.
    + apply String.eqb_neq in E. split; [discriminate|].
      intros (t & Ht & Hs & _). injection Ht as <-. contradiction.
  - split; [discriminate|]. intros (t & Ht & _). discriminate.
Qed.

(** X13. [TournamentService.start] succeeds exactly for a tournament in
    status 'registration' whose roster has [participantCount] entries. It
    then leaves the store as [assignParticipants] does, with the
    tournament set to 'ongoing', and returns that tournament record. When
    it throws, also from within [assignParticipants], the store is as it
    was. *)
Theorem start_spec db id :
  ((exists r db', TournamentService.start id db = (Done r, db')) <->
   (exists tournament,
      getTournament db id = Some tournament /\
      t_status tournament = "registration" /\
      Z.of_nat (List.length (storedParticipants db id))
      = t_participantCount tournament)) /\
  (forall r db',
     TournamentService.start id db = (Done r, db') ->
     exists tournament,
       getTournament db id = Some tournament /\
       r = Some (setStatus "ongoing" tournament) /\
       getTournament db' id = Some (setStatus "ongoing" tournament) /\
       db' = updateTOURNAMENTS id (setStatus "ongoing")
                               (snd (assignParticipants id db))) /\
  (forall f db', TournamentService.start id db = (Failed f, db') -> db' = db).
Proof.
  assert (Hdone : forall r db',
            TournamentService.start id db = (Done r, db') ->
            exists tournament,
              getTournament db id = Some tournament /\
              t_status tournament = "registration" /\
              Z.of_nat (List.length (storedParticipants db id))
              = t_participantCount tournament /\
              r = Some (setStatus "ongoing" tournament) /\
              getTournament db' id = Some (setStatus "ongoing" tournament) /\
              db' = updateTOURNAMENTS id (setStatus "ongoing")
                                      (snd (assignParticipants id db))).
  { intros r db'. unfold TournamentService.start.
    destruct (TournamentService.canStart db id) eqn:C; [|discriminate].
    apply canStart_Ready in C. destruct C as (tournament & Ht & Hs & Hle).
    destruct (assignParticipants id db) as [[matches|e] db1] eqn:Ea; [|discriminate].
    intros H. injection H as <- <-.
    assert (Hkeep : TOURNAMENTS db1 = TOURNAMENTS db).
    { pose proof (assignParticipants_keeps id db) as [_ Hk].
      rewrite Ea in Hk. exact Hk. }
    exists tournament. split; [exact Ht|]. split; [exact Hs|].
    split.
    - destruct (Z.eq_dec (Z.of_nat (List.length (storedParticipants db id)))
                         (t_participantCount tournament)) as [E|Hne]; [exact E|].
      exfalso.
      pose proof (assignParticipants_incomplete db id tournament Ht Hne) as Hthrown.
      congruence.
    - unfold getTournament in Ht.
      split; [|split].
      + unfold updated. rewrite Hkeep, Ht. reflexivity.
      + unfold getTournament, updateTOURNAMENTS, setTOURNAMENTS. cbn [TOURNAMENTS].
        rewrite getById_update_same by (intros x; reflexivity).
        rewrite Hkeep, Ht. reflexivity.
      + reflexivity. }
  split; [|split].
  - split.
    + intros (r & db' & H). destruct (Hdone r db' H) as (t & Ht & Hs & Hlen & _).
      exists t. auto.
    + intros (tournament & Ht & Hs & Hlen).
      unfold TournamentService.start.
      replace (TournamentService.canStart db id) with Ready.
      * destruct (assignParticipants_accepts db id tournament Ht Hlen) as [matches Hm].
        destruct (assignParticipants id db) as [[matches'|e] db1]; [|discriminate].
        eexists. eexists. reflexivity.
      * symmetry. apply canStart_Ready. exists tournament.
        split; [exact Ht|]. split; [exact Hs|]. lia.
  - intros r db' H. destruct (Hdone r db' H) as (t & Ht & _ & _ & Hr & Hg & Hdb).
    exists t. auto.
  - intros f db'. unfold TournamentService.start.
    destruct (TournamentService.canStart db id); [|intros H; congruence].
    destruct (assignParticipants id db) as [[matches|e] db1] eqn:Ea; [discriminate|].
    apply assignParticipants_thrown in Ea. destruct Ea as [-> _].
    intros H. congruence.
Qed.

(** ** updateMatch, and updateScore beyond its bracket *)

Lemma update_identity {A} (ident : A -> Id) (items : list A) id :
  update ident items id (fun x => x) = items.
Proof.
  induction items as [|x r IH]; simpl; [reflexivity|].
  destruct (String.eqb (ident x) id); [reflexivity|]. rewrite IH. reflexivity.
Qed.

Lemma update_update {A} (ident : A -> Id) (items : list A) id f g :
  keepsId ident f ->
  update ident (update ident items id f) id g
  = update ident items id (fun x => g (f x)).
Proof.
  intros Hk. induction items as [|x r IH]; simpl; [reflexivity|].
  destruct (String.eqb (ident x) id) eqn:E; simpl.
  - rewrite Hk, E. reflexivity.
  - rewrite E, IH. reflexivity.
Qed.

Lemma update_ext {A} (ident : A -> Id) (items : list A) id f g :
  (forall x, f x = g x) -> update ident items id f = update ident items id g.
Proof.
  intros H. induction items as [|x r IH]; simpl; [reflexivity|].
  rewrite H, IH. reflexivity.
Qed.

Section UpdateMatch.
Variable genId : nat -> Id.
Variable today : string.

(** X14. [updateMatch] on an unknown match is NotFound, with the store as
    it was. On a known match it writes the status it is given, returns
    the record so merged, and changes nothing else: no participant,
    winner or score of any match, no other collection; without a status
    to write, the store stays as it is. *)
Theorem updateMatch_spec db matchId status :
  (getMatchById db matchId = None ->
   updateMatch matchId status db = (Thrown NotFound, db)) /\
  (forall mt,
     getMatchById db matchId = Some mt ->
     let merged := match status with Some s => setMatchStatus s mt | None => mt end in
     exists db',
       updateMatch matchId status db = (Returned (Some merged), db') /\
       getMatchById db' matchId = Some merged /\
       (forall id', matchId <> id' -> getMatchById db' id' = getMatchById db id') /\
       map (fun m => (m_id m, shape m, m_participant1Id m, m_participant2Id m,
                      m_winnerId m, m_score1 m, m_score2 m)) (MATCHES db')
       = map (fun m => (m_id m, shape m, m_participant1Id m, m_participant2Id m,
                        m_winnerId m, m_score1 m, m_score2 m)) (MATCHES db) /\
       TOURNAMENTS db' = TOURNAMENTS db /\ PARTICIPANTS db' = PARTICIPANTS db /\
       RESULTS db' = RESULTS db /\
       (status = None -> db' = db)).
Proof.
  split.
  - intros H. unfold updateMatch. rewrite H. reflexivity.
  - intros mt Hmt. cbv zeta. unfold updateMatch. rewrite Hmt.
    set (updates := match status with Some s => setMatchStatus s | None => fun m => m end).
    assert (Hk : keepsId m_id updates).
    { intros x. unfold updates. destruct status; reflexivity. }
    assert (Hmerged : updates mt
                      = match status with Some s => setMatchStatus s mt | None => mt end).
    { unfold updates. destruct status; reflexivity. }
    eexists. split.
    + unfold updated. unfold getMatchById in Hmt. rewrite Hmt. cbn [option_map].
      rewrite Hmerged. reflexivity.
    + unfold getMatchById, updateMATCHES, setMATCHES.
      cbn [MATCHES TOURNAMENTS PARTICIPANTS RESULTS].
      split.
      { rewrite getById_update_same by exact Hk.
        unfold getMatchById in Hmt. rewrite Hmt. cbn [option_map].
        rewrite Hmerged. reflexivity. }
      split.
      { intros id' Hne. apply getById_update_other; assumption. }
      split.
      { apply map_update. intros x. unfold updates. destruct status; reflexivity. }
      split; [reflexivity|]. split; [reflexivity|]. split; [reflexivity|].
      intros ->. unfold updates. rewrite update_identity. destruct db. reflexivity.
Qed.

(** X15. Marking a match before it is scored makes no difference to the
    scoring: for a match that is not 'pending' and a score that is
    accepted, [updateScore] after an [updateMatch] to any status but
    'pending' (say 'live') ends and leaves the store exactly as
    [updateScore] alone does. *)
Theorem updateScore_after_updateMatch db matchId status score1 score2 mt p1 p2 :
  getMatchById db matchId = Some mt ->
  m_status mt <> "pending" -> status <> "pending" ->
  truthyId (m_participant1Id mt) = Some p1 ->
  truthyId (m_participant2Id mt) = Some p2 ->
  0 <= score1 -> 0 <= score2 -> score1 <> score2 ->
  updateScore genId today matchId score1 score2
              (snd (updateMatch matchId (Some status) db))
  = updateScore genId today matchId score1 score2 db.
Proof.
  intros Hmt Hst Hs H1 H2 Hs1 Hs2 Hne.
  unfold updateMatch. rewrite Hmt. cbn [snd].
  unfold updateScore.
  assert (Hlive : getMatchById (updateMATCHES matchId (setMatchStatus status) db) matchId
                  = Some (setMatchStatus status mt)).
  { unfold getMatchById, updateMATCHES, setMATCHES. cbn [MATCHES].
    rewrite getById_update_same by (intros x; reflexivity).
    unfold getMatchById in Hmt. rewrite Hmt. reflexivity. }
  rewrite Hlive, Hmt.
  replace (String.eqb (m_status (setMatchStatus status mt)) "pending") with false
    by (symmetry; apply String.eqb_neq; exact Hs).
  replace (String.eqb (m_status mt) "pending") with false
    by (symmetry; apply String.eqb_neq; exact Hst).
  cbn [setMatchStatus m_participant1Id m_participant2Id m_round m_tournamentId].
  rewrite H1, H2.
  replace (score1 <? 0) with false by (symmetry; apply Z.ltb_ge; exact Hs1).
  replace (score2 <? 0) with false by (symmetry; apply Z.ltb_ge; exact Hs2).
  replace (score1 =? score2) with false by (symmetry; apply Z.eqb_neq; exact Hne).
  cbn [orb].
  unfold bind at 1. unfold bind at 6. unfold modify at 1. unfold modify at 3.
  assert (Hsame : forall w,
            updateMATCHES matchId (setScore score1 score2 w)
                          (updateMATCHES matchId (setMatchStatus status) db)
            = updateMATCHES matchId (setScore score1 score2 w) db).
  { intros w. unfold updateMATCHES, setMATCHES.
    cbn [MATCHES TOURNAMENTS PARTICIPANTS RESULTS idSupply].
    rewrite update_update by (intros x; reflexivity).
    f_equal. }
  rewrite Hsame. reflexivity.
Qed.

Lemma updateScore_without_tournament db matchId score1 score2 mt p1 p2 :
  getMatchById db matchId = Some mt ->
  m_status mt <> "pending" ->
  truthyId (m_participant1Id mt) = Some p1 ->
  truthyId (m_participant2Id mt) = Some p2 ->
  0 <= score1 -> 0 <= score2 -> score1 <> score2 ->
  getTournament db (m_tournamentId mt) = None ->
  let winnerId := if score1 >? score2 then p1 else p2 in
  let loserId := if score1 >? score2 then p2 else p1 in
  updateScore genId today matchId score1 score2 db
  = (Thrown TypeError,
     eliminate loserId (m_round mt)
               (updateMATCHES matchId (setScore score1 score2 winnerId) db)).
Proof.
  intros Hmt Hst H1 H2 Hs1 Hs2 Hne Ht. cbv zeta.
  unfold updateScore. rewrite Hmt, H1, H2.
  replace (String.eqb (m_status mt) "pending") with false
    by (symmetry; apply String.eqb_neq; exact Hst).
  replace (score1 <? 0) with false by (symmetry; apply Z.ltb_ge; exact Hs1).
  replace (score2 <? 0) with false by (symmetry; apply Z.ltb_ge; exact Hs2).
  replace (score1 =? score2) with false by (symmetry; apply Z.eqb_neq; exact Hne).
  cbn [orb]. unfold bind, modify, gets, advanceWinner.
  unfold getTournament, eliminate, updatePARTICIPANTS, updateMATCHES,
    setPARTICIPANTS, setMATCHES. cbn [TOURNAMENTS].
  unfold getTournament in Ht. rewrite Ht. reflexivity.
Qed.

(** X16. [updateScore] on a match whose tournament record is gone throws
    a TypeError, but only after its first writes: the match is stored as
    completed with its scores and winner, and the loser is eliminated. *)
Theorem updateScore_orphan db matchId score1 score2 mt p1 p2 :
  getMatchById db matchId = Some mt ->
  m_status mt <> "pending" ->
  truthyId (m_participant1Id mt) = Some p1 ->
  truthyId (m_participant2Id mt) = Some p2 ->
  0 <= score1 -> 0 <= score2 -> score1 <> score2 ->
  getTournament db (m_tournamentId mt) = None ->
  let winnerId := if score1 >? score2 then p1 else p2 in
  let loserId := if score1 >? score2 then p2 else p1 in
  exists db',
    updateScore genId today matchId score1 score2 db = (Thrown TypeError, db') /\
    getMatchById db' matchId = Some (setScore score1 score2 winnerId mt) /\
    PARTICIPANTS db'
    = update p_id (PARTICIPANTS db) loserId (setEliminated (m_round mt)).
Proof.
  intros Hmt Hst H1 H2 Hs1 Hs2 Hne Ht. cbv zeta.
  eexists. split.
  - exact (updateScore_without_tournament db matchId score1 score2 mt p1 p2
             Hmt Hst H1 H2 Hs1 Hs2 Hne Ht).
  - split; [|reflexivity].
    unfold getMatchById, eliminate, updatePARTICIPANTS, updateMATCHES,
      setPARTICIPANTS, setMATCHES. cbn [MATCHES].
    rewrite getById_update_same by (intros x; reflexivity).
    unfold getMatchById in Hmt. rewrite Hmt. reflexivity.
Qed.
End UpdateMatch.

(** ** What updateScore reads and reaches *)

Lemma blind_bind {A B} (m : M A) (k : A -> M B) :
  blind m -> (forall a, blind (k a)) -> blind (bind m k).
Proof.
  intros Hm Hk db db' H. unfold bind.
  destruct (Hm db db' H) as [Hout Hst].
  destruct (m db) as [[a|e] db1], (m db') as [[a'|e'] db1'];
    cbn [fst snd] in *; try discriminate.
  - injection Hout as <-. apply Hk. exact Hst.
  - injection Hout as <-. split; [reflexivity|exact Hst].
Qed.

Ltac same_fields :=
  match goal with
  | db : DB, db' : DB, H : sameBracket ?a ?b |- _ =>
      destruct a as [T P Ms R n], b as [T' P' Ms' R' n'];
      unfold sameBracket in H; cbn in H;
      destruct H as (HT & HM & HR & Hn); subst T' Ms' R' n'
  end.

Lemma advanceWinner_blind mt winnerId : blind (advanceWinner mt winnerId).
Proof.
  intros db db' H. same_fields.
  unfold advanceWinner, getFirstMatchNumberOfRound, getTournament, nextMatchOf,
    findRound, getMatchById, updateMATCHES, setMATCHES.
  cbn [TOURNAMENTS MATCHES PARTICIPANTS RESULTS idSupply].
  unfold sameBracket.
  destruct (getById t_id T (m_tournamentId mt)) as [tournament|];
    [|split; [reflexivity|cbn; auto]].
  destruct (_ >? _); [split; [reflexivity|cbn; auto]|].
  destruct (arrayGet _ _) as [nextMatch|]; [|split; [reflexivity|cbn; auto]].
  destruct (getById m_id Ms (m_id nextMatch)); split; try reflexivity; cbn; auto.
Qed.

Section Blind.
Variable genId : nat -> Id.
Variable today : string.

Lemma finalizeTournament_blind tournamentId championId runnerUpId :
  blind (finalizeTournament genId today tournamentId championId runnerUpId).
Proof.
  intros db db' H. same_fields.
  unfold finalizeTournament, getTournament, findMatches, insertResult,
    updateTOURNAMENTS, setTOURNAMENTS, setRESULTS, tickId.
  cbn [TOURNAMENTS MATCHES PARTICIPANTS RESULTS idSupply].
  unfold sameBracket.
  destruct (getById t_id T tournamentId) as [tournament|];
    split; try reflexivity; cbn; auto.
Qed.

Lemma updateCurrentRound_blind tournamentId : blind (updateCurrentRound tournamentId).
Proof.
  intros db db' H. same_fields.
  unfold updateCurrentRound, getTournament, findMatches,
    updateTOURNAMENTS, setTOURNAMENTS.
  cbn [TOURNAMENTS MATCHES PARTICIPANTS RESULTS idSupply].
  unfold sameBracket.
  destruct (getById t_id T tournamentId) as [tournament|];
    [|split; [reflexivity|cbn; auto]].
  destruct (firstIncompleteRound _ _ _) as [round|];
    [|split; [reflexivity|cbn; auto]].
  destruct (negb _); split; try reflexivity; cbn; auto.
Qed.

Lemma updateScore_blind matchId score1 score2 :
  blind (updateScore genId today matchId score1 score2).
Proof.
  intros db db' H. unfold updateScore.
  assert (Hm : getMatchById db matchId = getMatchById db' matchId).
  { unfold getMatchById. destruct H as (_ & -> & _). reflexivity. }
  rewrite <- Hm. destruct (getMatchById db matchId) as [mt|];
    [|split; [reflexivity|exact H]].
  destruct (String.eqb (m_status mt) "pending"); [split; [reflexivity|exact H]|].
  destruct (truthyId (m_participant1Id mt)) as [p1|]; [|split; [reflexivity|exact H]].
  destruct (truthyId (m_participant2Id mt)) as [p2|]; [|split; [reflexivity|exact H]].
  destruct ((score1 <? 0) || (score2 <? 0)); [split; [reflexivity|exact H]|].
  destruct (score1 =? score2); [split; [reflexivity|exact H]|].
  revert db db' H Hm.
  match goal with
  | |- forall db db', _ -> _ -> fst (?m db) = _ /\ _ =>
      intros db db' H _; assert (Hb : blind m); [|exact (Hb db db' H)]
  end.
  apply blind_bind.
  { intros d d' Hd. unfold modify. cbn [fst snd]. split; [reflexivity|].
    same_fields. unfold sameBracket. cbn. auto. }
  intros _. apply blind_bind.
  { intros d d' Hd. unfold gets, getTournament. cbn [fst snd].
    destruct Hd as (HT & rest). rewrite HT. split; [reflexivity|].
    unfold sameBracket. auto. }
  intros tournament. apply blind_bind.
  { intros d d' Hd. unfold modify. cbn [fst snd]. split; [reflexivity|].
    same_fields. unfold sameBracket. cbn. auto. }
  intros _. apply blind_bind; [apply advanceWinner_blind|].
  intros _. apply blind_bind.
  { destruct tournament as [tournament|].
    - destruct (_ =? _); [apply finalizeTournament_blind|apply updateCurrentRound_blind].
    - intros d d' Hd. unfold throw. cbn [fst snd]. split; [reflexivity|exact Hd]. }
  intros _ d d' Hd. unfold gets, getMatchById. cbn [fst snd].
  destruct Hd as (HT & HM & rest). rewrite HM. split; [reflexivity|].
  unfold sameBracket. auto.
Qed.

(** X17. The bracket does not depend on the participant records: whatever
    the participants collection holds (the players active, withdrawn,
    eliminated or deleted), [updateScore] ends the same way (the same
    error, or the same stored match returned) and leaves the same matches,
    tournaments and results. The participant records are read only by the
    [getMatch] that joins them to the returned match. *)
Theorem updateScore_ignores_participants db participants matchId score1 score2 :
  let db0 := setPARTICIPANTS (fun _ => participants) db in
  let run := updateScore genId today matchId score1 score2 in
  fst (run db0) = fst (run db) /\
  MATCHES (snd (run db0)) = MATCHES (snd (run db)) /\
  TOURNAMENTS (snd (run db0)) = TOURNAMENTS (snd (run db)) /\
  RESULTS (snd (run db0)) = RESULTS (snd (run db)).
Proof.
  cbv zeta.
  destruct (updateScore_blind matchId score1 score2
              (setPARTICIPANTS (fun _ => participants) db) db)
    as (Hout & HT & HM & HR & _).
  { unfold sameBracket, setPARTICIPANTS. cbn. auto. }
  auto.
Qed.
End Blind.

Section Reach.
Variable genId : nat -> Id.
Variable today : string.

Lemma advanceWinner_RESULTS mt winnerId db :
  RESULTS (snd (advanceWinner mt winnerId db)) = RESULTS db.
Proof.
  unfold advanceWinner.
  destruct (getTournament db (m_tournamentId mt)); [|reflexivity].
  destruct (_ >? _); [reflexivity|].
  destruct (getFirstMatchNumberOfRound _ _ _); [|reflexivity].
  destruct (nextMatchOf _ _ _); [|reflexivity].
  destruct (getMatchById _ _); reflexivity.
Qed.

(** What an accepted [updateScore] has written, collection by collection. *)
Lemma updateScore_effect db matchId score1 score2 mt r db' :
  getMatchById db matchId = Some mt ->
  updateScore genId today matchId score1 score2 db = (Returned r, db') ->
  exists tournament p1 p2,
    getTournament db (m_tournamentId mt) = Some tournament /\
    m_participant1Id mt = Some p1 /\ m_participant2Id mt = Some p2 /\
    let winnerId := if score1 >? score2 then p1 else p2 in
    let loserId := if score1 >? score2 then p2 else p1 in
    let scored := update m_id (MATCHES db) matchId (setScore score1 score2 winnerId) in
    PARTICIPANTS db'
    = update p_id (PARTICIPANTS db) loserId (setEliminated (m_round mt)) /\
    (MATCHES db' = scored \/
     exists nextMatch index,
       In nextMatch scored /\ m_tournamentId nextMatch = m_tournamentId mt /\
       m_round nextMatch = m_round mt + 1 /\
       MATCHES db' = update m_id scored (m_id nextMatch) (advanceInto index winnerId)) /\
    (TOURNAMENTS db' = TOURNAMENTS db \/
     exists upd, keepsId t_id upd /\
                 TOURNAMENTS db' = update t_id (TOURNAMENTS db) (m_tournamentId mt) upd) /\
    (RESULTS db' = RESULTS db \/
     exists res, r_tournamentId res = m_tournamentId mt /\
                 RESULTS db' = RESULTS db ++ [res]).
Proof.
  intros Hmt Hrun.
  destruct (updateScore_accepted genId today db matchId score1 score2 mt r db' Hmt Hrun)
    as (Hst & (p1 & p2 & H1 & H2) & Hs1 & Hs2 & Hne).
  destruct (getTournament db (m_tournamentId mt)) as [tournament|] eqn:Ht.
  2:{ rewrite (updateScore_without_tournament genId today db matchId score1 score2 mt p1 p2
                 Hmt Hst H1 H2 Hs1 Hs2 Hne Ht) in Hrun. discriminate. }
  exists tournament, p1, p2. split; [reflexivity|].
  split; [apply truthyId_Some in H1; tauto|].
  split; [apply truthyId_Some in H2; tauto|].
  cbv zeta.
  pose proof (updateScore_run genId today db matchId score1 score2 mt tournament
                p1 p2 Hmt Hst H1 H2 Hs1 Hs2 Hne Ht) as Hrun'.
  cbv zeta in Hrun'. rewrite Hrun in Hrun'. injection Hrun' as _ Hdb'.
  set (winnerId := if score1 >? score2 then p1 else p2) in *.
  set (loserId := if score1 >? score2 then p2 else p1) in *.
  set (db2 := eliminate loserId (m_round mt)
                (updateMATCHES matchId (setScore score1 score2 winnerId) db)) in *.
  assert (Ht2 : getTournament db2 (m_tournamentId mt) = Some tournament) by exact Ht.
  pose proof (advanceWinner_run db2 mt winnerId tournament Ht2) as Ha.
  cbv zeta in Ha.
  set (index := (inject_Z (m_matchNumber mt)
                 - firstMatchNumber (t_participantCount tournament) (m_round mt))%Q) in *.
  set (db3 := snd (advanceWinner mt winnerId db2)) in *.
  assert (Hp3 : PARTICIPANTS db3 = PARTICIPANTS db2) by apply advanceWinner_PARTICIPANTS.
  assert (Ht3 : TOURNAMENTS db3 = TOURNAMENTS db)
    by (unfold db3; rewrite advanceWinner_TOURNAMENTS; reflexivity).
  assert (Hr3 : RESULTS db3 = RESULTS db)
    by (unfold db3; rewrite advanceWinner_RESULTS; reflexivity).
  assert (Hm3 : MATCHES db3 = MATCHES db2 \/
                exists nextMatch,
                  In nextMatch (MATCHES db2) /\
                  m_tournamentId nextMatch = m_tournamentId mt /\
                  m_round nextMatch = m_round mt + 1 /\
                  MATCHES db3 = update m_id (MATCHES db2) (m_id nextMatch)
                                       (advanceInto index winnerId)).
  { unfold db3. rewrite Ha. cbn [snd].
    destruct (m_round mt + 1 >? t_totalRounds tournament); [left; reflexivity|].
    destruct (nextMatchOf db2 mt index) as [nextMatch|] eqn:En; [|left; reflexivity].
    right. exists nextMatch. apply nextMatchOf_In in En.
    destruct En as (Hin & Htid & Hround). auto. }
  assert (Hgt3 : getTournament db3 (m_tournamentId mt) = Some tournament).
  { unfold getTournament. rewrite Ht3. exact Ht. }
  assert (H4 : PARTICIPANTS db' = PARTICIPANTS db3 /\ MATCHES db' = MATCHES db3 /\
               (TOURNAMENTS db' = TOURNAMENTS db3 \/
                exists upd, keepsId t_id upd /\
                            TOURNAMENTS db'
                            = update t_id (TOURNAMENTS db3) (m_tournamentId mt) upd) /\
               (RESULTS db' = RESULTS db3 \/
                exists res, r_tournamentId res = m_tournamentId mt /\
                            RESULTS db' = RESULTS db3 ++ [res])).
  { rewrite Hdb'. destruct (m_round mt =? t_totalRounds tournament).
    - rewrite (finalizeTournament_run genId today db3 _ winnerId loserId tournament Hgt3).
      cbn [snd PARTICIPANTS MATCHES TOURNAMENTS RESULTS].
      split; [reflexivity|]. split; [reflexivity|]. split.
      + right. eexists. split; [|reflexivity]. intros x. reflexivity.
      + right. eexists. split; [|reflexivity]. reflexivity.
    - rewrite (updateCurrentRound_run db3 _ tournament Hgt3). cbn [snd].
      destruct (firstIncompleteRound _ _ _) as [round|]; [|auto].
      destruct (t_currentRound tournament =? round); [auto|].
      unfold updateTOURNAMENTS, setTOURNAMENTS.
      cbn [PARTICIPANTS MATCHES TOURNAMENTS RESULTS].
      split; [reflexivity|]. split; [reflexivity|]. split; [|auto].
      right. eexists. split; [|reflexivity]. intros x. reflexivity. }
  destruct H4 as (Hp4 & Hm4 & Ht4 & Hr4).
  split; [rewrite Hp4, Hp3; reflexivity|]. split; [|split].
  - rewrite Hm4. destruct Hm3 as [E|(nextMatch & Hin & Htid & Hround & E)].
    + left. rewrite E. reflexivity.
    + right. exists nextMatch, index. auto.
  - rewrite Ht3 in Ht4. exact Ht4.
  - rewrite Hr3 in Hr4. exact Hr4.
Qed.

(** X18. An accepted [updateScore] stays within the tournament of its
    match (in a store with distinct match ids): the matches, the
    tournament record and the results of every other tournament are as
    before, and so is every participant who is not one of the two of the
    match. *)
Theorem updateScore_isolated db matchId score1 score2 mt r db' :
  getMatchById db matchId = Some mt ->
  NoDup (map m_id (MATCHES db)) ->
  updateScore genId today matchId score1 score2 db = (Returned r, db') ->
  (forall other, other <> m_tournamentId mt ->
     findMatches db' other = findMatches db other /\
     getTournament db' other = getTournament db other /\
     filter (fun res => String.eqb (r_tournamentId res) other) (RESULTS db')
     = filter (fun res => String.eqb (r_tournamentId res) other) (RESULTS db)) /\
  (forall id, m_participant1Id mt <> Some id -> m_participant2Id mt <> Some id ->
     getParticipant db' id = getParticipant db id).
Proof.
  intros Hmt Hnd Hrun.
  destruct (updateScore_effect db matchId score1 score2 mt r db' Hmt Hrun)
    as (tournament & p1 & p2 & Ht & H1 & H2 & Heff).
  cbv zeta in Heff. destruct Heff as (Hp & Hm & Htn & Hres).
  set (winnerId := if score1 >? score2 then p1 else p2) in *.
  set (scored := update m_id (MATCHES db) matchId (setScore score1 score2 winnerId)) in *.
  split.
  - intros other Hother.
    assert (Hscored : filter (inTournament other) scored = findMatches db other).
    { unfold scored, findMatches. apply filter_update_out with (x := mt).
      - exact Hmt.
      - unfold inTournament. apply String.eqb_neq. auto.
      - unfold inTournament. apply String.eqb_neq. cbn. auto. }
    split; [|split].
    + unfold findMatches at 1.
      destruct Hm as [->|(nextMatch & index & Hin & Htid & _ & ->)]; [exact Hscored|].
      rewrite <- Hscored. apply filter_update_out with (x := nextMatch).
      * rewrite <- (getById_NoDup m_id scored nextMatch); [reflexivity| |exact Hin].
        unfold scored. rewrite map_update by (intros x; reflexivity). exact Hnd.
      * unfold inTournament. apply String.eqb_neq. congruence.
      * unfold inTournament. apply String.eqb_neq.
        pose proof (shape_advanceInto index winnerId nextMatch) as Hs.
        unfold shape in Hs. congruence.
    + unfold getTournament.
      destruct Htn as [->|(upd & Hk & ->)]; [reflexivity|].
      apply getById_update_other; auto.
    + destruct Hres as [->|(res & Hres & ->)]; [reflexivity|].
      rewrite filter_app. cbn [filter]. rewrite Hres.
      replace (String.eqb (m_tournamentId mt) other) with false
        by (symmetry; apply String.eqb_neq; auto).
      apply app_nil_r.
  - intros id Hn1 Hn2. unfold getParticipant. rewrite Hp.
    apply getById_update_other; [intros x; reflexivity|].
    destruct (score1 >? score2); congruence.
Qed.
End Reach.

(** ** Reading the bracket *)

Lemma numberToString_parses n :
  NilZero.int_of_string (numberToString n) = Some (Z.to_int n).
Proof.
  unfold numberToString. apply NilZero.isi.
  - destruct n as [|p|p]; simpl; try discriminate.
    intros H. injection H as H. exact (Unsigned.to_uint_nonnil p H).
  - destruct n as [|p|p]; simpl; try discriminate.
    intros H. injection H as H. exact (Unsigned.to_uint_nonnil p H).
Qed.

Lemma numberToString_inj a b : numberToString a = numberToString b -> a = b.
Proof.
  intros H. apply to_int_inj.
  pose proof (numberToString_parses a) as Ha. rewrite H, numberToString_parses in Ha.
  congruence.
Qed.

Lemma numberToString_not s n :
  NilZero.int_of_string s = None -> numberToString n <> s.
Proof.
  intros Hs H. rewrite <- H, numberToString_parses in Hs. discriminate.
Qed.

Lemma getRoundName_cases round totalRounds :
  (In (getRoundName round totalRounds)
      ["Final"; "Semi Final"; "Quarter Final"; "Round of 16"; "Round of 32";
       "Round of 64"] /\ 0 <= totalRounds - round <= 5) \/
  (getRoundName round totalRounds = String.append "Round " (numberToString round) /\
   ~ 0 <= totalRounds - round <= 5).
Proof.
  unfold getRoundName.
  repeat match goal with
         | |- context [if ?c =? ?d then _ else _] =>
             destruct (Z.eqb_spec c d);
               [left; split; [simpl; tauto|lia]|]
         end.
  right. split; [reflexivity|lia].
Qed.

(** X19. [getRoundName] names the last six rounds by their distance from
    the final ('Final', 'Semi Final', 'Quarter Final', 'Round of 16',
    'Round of 32', 'Round of 64') and every earlier round by its number,
    so that within a tournament two different rounds never get the same
    name. *)
Theorem getRoundName_distinct totalRounds round1 round2 :
  Z.abs round1 < 10 ^ 21 -> Z.abs round2 < 10 ^ 21 ->
  round1 <> round2 ->
  getRoundName round1 totalRounds <> getRoundName round2 totalRounds.
Proof.
  intros _ _ Hne Heq.
  assert (Hfixed : forall r s,
            In s ["Final"; "Semi Final"; "Quarter Final"; "Round of 16";
                  "Round of 32"; "Round of 64"] ->
            s <> String.append "Round " (numberToString r)).
  { intros r s Hin E. simpl in Hin.
    repeat (destruct Hin as [<-|Hin]; [try discriminate E|]); [| | |contradiction].
    all: simpl in E; injection E as E; symmetry in E;
      revert E; apply numberToString_not; reflexivity. }
  destruct (getRoundName_cases round1 totalRounds) as [[H1 R1]|[H1 R1]],
           (getRoundName_cases round2 totalRounds) as [[H2 R2]|[H2 R2]].
  - unfold getRoundName in Heq.
    repeat match type of Heq with
           | context [if ?c =? ?d then _ else _] => destruct (Z.eqb_spec c d)
           end; try discriminate Heq; lia.
  - rewrite H2 in Heq. rewrite Heq in H1. exact (Hfixed _ _ H1 eq_refl).
  - rewrite H1 in Heq. rewrite <- Heq in H2. exact (Hfixed _ _ H2 eq_refl).
  - rewrite H1, H2 in Heq. simpl in Heq. injection Heq as Heq.
    apply numberToString_inj in Heq. contradiction.
Qed.

Lemma getRoundName_distinct_witness :
  String.eqb (getRoundName 1 8) (getRoundName 2 8) = false /\
  getRoundName 1 8 = "Round 1" /\ getRoundName 3 8 = "Round of 64" /\
  getRoundName 8 8 = "Final".
Proof.
  split; [|repeat split; reflexivity].
  apply String.eqb_neq. apply getRoundName_distinct; lia.
Defined.

Lemma pushInto_perm round name data rounds :
  Permutation (flat_map rd_matches (pushInto round name data rounds))
              (flat_map rd_matches rounds ++ [data]).
Proof.
  induction rounds as [|rd rest IH]; simpl; [reflexivity|].
  destruct (rd_round rd =? round); simpl.
  - rewrite <- !app_assoc. apply Permutation_app_head. apply Permutation_app_comm.
  - rewrite IH. rewrite app_assoc. reflexivity.
Qed.

Lemma groupInto_perm db totalRounds matches : forall rounds,
  Permutation (flat_map rd_matches (groupInto db totalRounds matches rounds))
              (flat_map rd_matches rounds ++ map (matchData db) matches).
Proof.
  unfold groupInto. induction matches as [|m rest IH]; intros rounds; simpl.
  - rewrite app_nil_r. reflexivity.
  - rewrite IH, pushInto_perm, <- app_assoc. reflexivity.
Qed.

Lemma pushInto_keys round name data rounds :
  map rd_round (pushInto round name data rounds)
  = if existsb (fun rd => rd_round rd =? round) rounds
    then map rd_round rounds
    else map rd_round rounds ++ [round].
Proof.
  induction rounds as [|rd rest IH]; simpl; [reflexivity|].
  destruct (rd_round rd =? round); simpl; [reflexivity|].
  rewrite IH. destruct (existsb _ rest); reflexivity.
Qed.

Lemma pushInto_In round name data rounds rd' :
  In rd' (pushInto round name data rounds) ->
  (In rd' rounds /\ rd_round rd' <> round) \/
  (exists rd, In rd rounds /\ rd_round rd = round /\
              rd' = mkRoundData (rd_round rd) (rd_name rd) (rd_matches rd ++ [data])) \/
  (rd' = mkRoundData round name [data] /\
   forall rd, In rd rounds -> rd_round rd <> round) \/
  (In rd' rounds /\ ~ NoDup (map rd_round rounds)).
Proof.
  induction rounds as [|rd rest IH]; simpl.
  - intros [<-|[]]. right. right. left. split; [reflexivity|]. intros rd [].
  - destruct (Z.eqb_spec (rd_round rd) round) as [E|E]; simpl.
    + intros [<-|Hin].
      * right. left. exists rd. auto.
      * destruct (Z.eq_dec (rd_round rd') round) as [E'|E'].
        -- right. right. right. split; [auto|].
           intros Hnd. cbn [map] in Hnd. apply NoDup_cons_iff in Hnd.
           destruct Hnd as [Hnotin _].
           apply Hnotin. rewrite E, <- E'. apply in_map. exact Hin.
        -- left. auto.
    + intros [<-|Hin].
      * left. auto.
      * destruct (IH Hin) as [[H1 H2]|[(rd0 & H1 & H2 & H3)|[[H1 H2]|[H1 H2]]]].
        -- left. auto.
        -- right. left. exists rd0. auto.
        -- right. right. left. split; [exact H1|].
           intros rd0 [<-|H0]; [exact E|apply H2; exact H0].
        -- right. right. right. split; [auto|].
           intros Hnd. cbn [map] in Hnd. apply NoDup_cons_iff in Hnd.
           destruct Hnd as [_ Hnd]. contradiction.
Qed.

Lemma filter_snoc {A} (f : A -> bool) (l : list A) (x : A) :
  filter f (l ++ [x]) = filter f l ++ (if f x then [x] else []).
Proof. rewrite filter_app. reflexivity. Qed.

Lemma pushInto_groupsOf db totalRounds seen rounds m :
  groupsOf db totalRounds seen rounds ->
  groupsOf db totalRounds (seen ++ [m])
           (pushInto (m_round m) (getRoundName (m_round m) totalRounds)
                     (matchData db m) rounds).
Proof.
  intros (Hnd & Hcover & Hgroups).
  assert (Hkeys := pushInto_keys (m_round m) (getRoundName (m_round m) totalRounds)
                                 (matchData db m) rounds).
  split; [|split].
  - rewrite Hkeys. destruct (existsb _ rounds) eqn:E; [exact Hnd|].
    apply NoDup_app; [exact Hnd|repeat constructor; simpl; tauto|].
    intros r Hr [<-|[]].
    apply in_map_iff in Hr. destruct Hr as (rd & Hrd & Hin).
    assert (existsb (fun rd => rd_round rd =? m_round m) rounds = true); [|congruence].
    apply existsb_exists. exists rd. split; [exact Hin|]. apply Z.eqb_eq. exact Hrd.
  - intros m' Hin. rewrite Hkeys. apply in_app_or in Hin.
    destruct Hin as [Hin|[<-|[]]].
    + destruct (existsb _ rounds); [|apply in_or_app; left]; apply Hcover; exact Hin.
    + destruct (existsb _ rounds) eqn:E.
      * apply existsb_exists in E. destruct E as (rd & Hin & E).
        apply Z.eqb_eq in E. rewrite <- E. apply in_map. exact Hin.
      * apply in_or_app. right. left. reflexivity.
  - intros rd' Hin. apply pushInto_In in Hin.
    destruct Hin as [[H1 H2]|[(rd & H1 & H2 & ->)|[[-> H2]|[_ H2]]]].
    + destruct (Hgroups rd' H1) as (Hn & Hne & Hm).
      split; [exact Hn|]. split; [exact Hne|].
      rewrite filter_snoc.
      replace (m_round m =? rd_round rd') with false
        by (symmetry; apply Z.eqb_neq; auto).
      rewrite app_nil_r. exact Hm.
    + destruct (Hgroups rd H1) as (Hn & Hne & Hm). cbn [rd_round rd_name rd_matches].
      split; [exact Hn|]. split; [intros E; destruct (rd_matches rd); discriminate|].
      rewrite filter_snoc, H2, Z.eqb_refl, map_app, Hm, H2. reflexivity.
    + cbn [rd_round rd_name rd_matches].
      split; [reflexivity|]. split; [discriminate|].
      rewrite filter_snoc, Z.eqb_refl.
      replace (filter (fun m0 => m_round m0 =? m_round m) seen) with (@nil Match);
        [reflexivity|].
      symmetry. apply filter_none. intros m' Hm'. apply Z.eqb_neq.
      intros E. specialize (Hcover m' Hm'). apply in_map_iff in Hcover.
      destruct Hcover as (rd & Hrd & Hin). apply (H2 rd Hin). congruence.
    + contradiction.
Qed.

Lemma groupInto_groupsOf db totalRounds matches : forall seen rounds,
  groupsOf db totalRounds seen rounds ->
  groupsOf db totalRounds (seen ++ matches) (groupInto db totalRounds matches rounds).
Proof.
  unfold groupInto. induction matches as [|m rest IH]; intros seen rounds H; simpl.
  - rewrite app_nil_r. exact H.
  - replace (seen ++ m :: rest) with ((seen ++ [m]) ++ rest)
      by (rewrite <- app_assoc; reflexivity).
    apply IH. apply pushInto_groupsOf. exact H.
Qed.

Lemma filter_partition_perm {A} (f : A -> bool) (l : list A) :
  Permutation (filter f l ++ filter (fun x => negb (f x)) l) l.
Proof.
  induction l as [|x r IH]; simpl; [constructor|].
  destruct (f x); simpl.
  - apply perm_skip. exact IH.
  - symmetry. apply Permutation_cons_app. symmetry. exact IH.
Qed.

Lemma objectValues_perm rounds : Permutation (objectValues rounds) rounds.
Proof.
  unfold objectValues. rewrite jsSort_perm. apply filter_partition_perm.
Qed.

Lemma byRoundThenNumber_total a b :
  byRoundThenNumber a b <= 0 \/ byRoundThenNumber b a <= 0.
Proof.
  unfold byRoundThenNumber. rewrite (Z.eqb_sym (m_round b)).
  destruct (Z.eqb_spec (m_round a) (m_round b)); simpl; lia.
Qed.

Lemma byRoundThenNumber_sorted l :
  StronglySorted (fun a b => byRoundThenNumber a b <= 0)
                 (jsSort byRoundThenNumber l).
Proof.
  apply Sorted_StronglySorted.
  - intros a b c. unfold byRoundThenNumber.
    destruct (Z.eqb_spec (m_round a) (m_round b)), (Z.eqb_spec (m_round b) (m_round c)),
             (Z.eqb_spec (m_round a) (m_round c)); simpl; lia.
  - apply jsSort_sorted. apply byRoundThenNumber_total.
Qed.

Lemma StronglySorted_filter {A} (R : A -> A -> Prop) (f : A -> bool) (l : list A) :
  StronglySorted R l -> StronglySorted R (filter f l).
Proof.
  induction 1 as [|x l Hs IH Hall]; simpl; [constructor|].
  destruct (f x); [|exact IH]. constructor; [exact IH|].
  apply Forall_forall. intros y Hy. apply filter_In in Hy.
  rewrite Forall_forall in Hall. apply Hall. tauto.
Qed.

Lemma StronglySorted_map_in {A B} (R : A -> A -> Prop) (R' : B -> B -> Prop)
    (f : A -> B) (l : list A) :
  (forall a b, In a l -> In b l -> R a b -> R' (f a) (f b)) ->
  StronglySorted R l -> StronglySorted R' (map f l).
Proof.
  intros Hmono H. induction H as [|x l Hs IH Hall]; simpl; [constructor|].
  constructor.
  - apply IH. intros a b Ha Hb. apply Hmono; right; assumption.
  - apply Forall_forall. intros y Hy. apply in_map_iff in Hy.
    destruct Hy as (b & <- & Hb). rewrite Forall_forall in Hall.
    apply Hmono; [left; reflexivity|right; exact Hb|apply Hall; exact Hb].
Qed.

Lemma round_sorted_by_number l r :
  StronglySorted Z.le
    (map m_matchNumber
         (filter (fun m => m_round m =? r) (jsSort byRoundThenNumber l))).
Proof.
  apply StronglySorted_map_in with (R := fun a b => byRoundThenNumber a b <= 0).
  - intros a b Ha Hb. apply filter_In in Ha, Hb.
    destruct Ha as [_ Ha], Hb as [_ Hb]. apply Z.eqb_eq in Ha, Hb.
    unfold byRoundThenNumber. rewrite Ha, Hb, Z.eqb_refl. simpl. lia.
  - apply StronglySorted_filter. apply byRoundThenNumber_sorted.
Qed.

(** X20. [getBracket] is [null] exactly for an unknown tournament.
    Otherwise it shows every match of the tournament exactly once,
    grouped by round: one entry for each round that has a match, under
    the name [getRoundName] gives the round, holding the matches of that
    round by ascending match number, each joined with the records of its
    participants and winner. A champion is shown only for a tournament
    that is 'completed'. *)
Theorem getBracket_spec db tournamentId :
  (getBracket db tournamentId = None <-> getTournament db tournamentId = None) /\
  (forall b,
     getBracket db tournamentId = Some b ->
     getTournament db tournamentId = Some (b_tournament b) /\
     b_totalRounds b = t_totalRounds (b_tournament b) /\
     Permutation (flat_map rd_matches (b_rounds b))
                 (map (matchData db) (findMatches db tournamentId)) /\
     NoDup (map rd_round (b_rounds b)) /\
     (forall rd, In rd (b_rounds b) ->
        rd_name rd = getRoundName (rd_round rd) (b_totalRounds b) /\
        rd_matches rd <> [] /\
        rd_matches rd
        = map (matchData db)
              (filter (fun m => m_round m =? rd_round rd)
                      (jsSort byRoundThenNumber (findMatches db tournamentId))) /\
        StronglySorted Z.le
          (map (fun data => m_matchNumber (md_match data)) (rd_matches rd))) /\
     (b_champion b <> None -> t_status (b_tournament b) = "completed")).
Proof.
  unfold getBracket. split.
  - destruct (getTournament db tournamentId); split; intros H;
      try discriminate; reflexivity.
  - intros b. destruct (getTournament db tournamentId) as [tournament|]; [|discriminate].
    intros H. injection H as <-. cbn [b_tournament b_totalRounds b_rounds b_champion].
    set (sorted := jsSort byRoundThenNumber (findMatches db tournamentId)).
    change (fold_left _ sorted []) with (groupInto db (t_totalRounds tournament) sorted []).
    assert (Hg : groupsOf db (t_totalRounds tournament) sorted
                          (groupInto db (t_totalRounds tournament) sorted [])).
    { apply (groupInto_groupsOf db (t_totalRounds tournament) sorted [] []).
      split; [constructor|]. split; intros x []. }
    destruct Hg as (Hnd & _ & Hgroups).
    split; [reflexivity|]. split; [reflexivity|]. split; [|split; [|split]].
    + rewrite objectValues_perm, groupInto_perm. simpl.
      apply Permutation_map. apply jsSort_perm.
    + apply (Permutation_NoDup (l := map rd_round
                                       (groupInto db (t_totalRounds tournament) sorted [])));
        [|exact Hnd].
      apply Permutation_map. symmetry. apply objectValues_perm.
    + intros rd Hin. apply (Permutation_in _ (objectValues_perm _)) in Hin.
      destruct (Hgroups rd Hin) as (Hn & Hne & Hm).
      split; [exact Hn|]. split; [exact Hne|]. split; [exact Hm|].
      rewrite Hm, map_map. cbn [matchData md_match].
      apply round_sorted_by_number.
    + intros Hc. destruct (String.eqb_spec (t_status tournament) "completed");
        [assumption|contradiction].
Qed.

Lemma Permutation_filter {A} (f : A -> bool) (l l' : list A) :
  Permutation l l' -> Permutation (filter f l) (filter f l').
Proof.
  induction 1 as [|x l l' _ IH|x y l|l l1 l2 _ IH1 _ IH2]; simpl.
  - constructor.
  - destruct (f x); [apply perm_skip|]; exact IH.
  - destruct (f x), (f y); try reflexivity. apply perm_swap.
  - etransitivity; eassumption.
Qed.

Lemma jsSort_sorted_id {A} (cmp : A -> A -> Z) (l : list A) :
  Sorted (fun a b => cmp a b <= 0) l -> jsSort cmp l = l.
Proof.
  induction 1 as [|x l Hs IH Hhd]; simpl; [reflexivity|].
  rewrite IH. destruct Hhd as [|y l Hxy]; simpl; [reflexivity|].
  replace (cmp x y <=? 0) with true; [reflexivity|].
  symmetry. apply Z.leb_le. exact Hxy.
Qed.

Lemma StronglySorted_weaken {A} (R R' : A -> A -> Prop) (l : list A) :
  (forall a b, R a b -> R' a b) -> StronglySorted R l -> StronglySorted R' l.
Proof.
  intros Hsub H. induction H as [|x l Hs IH Hall]; constructor; [exact IH|].
  eapply Forall_impl; [|exact Hall]. intros b. apply Hsub.
Qed.

Lemma StronglySorted_snoc {A} (R : A -> A -> Prop) (l : list A) (x : A) :
  StronglySorted R l -> (forall y, In y l -> R y x) -> StronglySorted R (l ++ [x]).
Proof.
  intros Hs Hx. apply StronglySorted_app; [exact Hs|repeat constructor|].
  intros a b Ha [<-|[]]. apply Hx. exact Ha.
Qed.

(** Matches that come by ascending round are grouped under ascending
    rounds. *)
Lemma groupInto_ascending db totalRounds matches : forall rounds,
  StronglySorted Z.lt (map rd_round rounds) ->
  (forall key m, In key (map rd_round rounds) -> In m matches -> key <= m_round m) ->
  StronglySorted (fun a b => m_round a <= m_round b) matches ->
  StronglySorted Z.lt (map rd_round (groupInto db totalRounds matches rounds)).
Proof.
  unfold groupInto. induction matches as [|m rest IH]; intros rounds Hs Hle Hm;
    simpl; [exact Hs|].
  inversion Hm as [|? ? Hrest Hall]; subst.
  assert (Hkeys := pushInto_keys (m_round m) (getRoundName (m_round m) totalRounds)
                                 (matchData db m) rounds).
  apply IH; [| |exact Hrest].
  - rewrite Hkeys. destruct (existsb _ rounds) eqn:E; [exact Hs|].
    apply StronglySorted_snoc; [exact Hs|].
    intros key Hkey.
    assert (key <= m_round m) by (apply Hle; [exact Hkey|left; reflexivity]).
    assert (key <> m_round m); [|lia].
    intros ->. apply in_map_iff in Hkey. destruct Hkey as (rd & Hrd & Hin).
    assert (existsb (fun rd => rd_round rd =? m_round m) rounds = true); [|congruence].
    apply existsb_exists. exists rd. split; [exact Hin|]. apply Z.eqb_eq. exact Hrd.
  - intros key m' Hkey Hm'. rewrite Hkeys in Hkey.
    rewrite Forall_forall in Hall.
    destruct (existsb _ rounds).
    + apply Hle; [exact Hkey|right; exact Hm'].
    + apply in_app_or in Hkey. destruct Hkey as [Hkey|[<-|[]]].
      * apply Hle; [exact Hkey|right; exact Hm'].
      * apply Hall. exact Hm'.
Qed.

Lemma objectValues_ascending rounds :
  StronglySorted Z.lt (map rd_round rounds) ->
  (forall rd, In rd rounds -> 0 <= rd_round rd) ->
  objectValues rounds = rounds.
Proof.
  intros Hs Hpos. unfold objectValues.
  assert (Hsorted : Sorted (fun a b => rd_round a - rd_round b <= 0)
                           (filter (fun rd => isArrayIndex (rd_round rd)) rounds)).
  { apply StronglySorted_Sorted. apply StronglySorted_filter.
    clear Hpos. induction rounds as [|rd rest IH]; [constructor|].
    cbn [map] in Hs. inversion Hs as [|? ? Hrest Hall]; subst.
    constructor; [apply IH; exact Hrest|].
    apply Forall_forall. intros y Hy. rewrite Forall_forall in Hall.
    specialize (Hall (rd_round y) (in_map rd_round _ _ Hy)). lia. }
  rewrite (jsSort_sorted_id _ _ Hsorted). clear Hsorted.
  induction rounds as [|rd rest IH]; [reflexivity|].
  cbn [map] in Hs. inversion Hs as [|? ? Hrest Hall]; subst.
  assert (IH' := IH Hrest (fun x Hx => Hpos x (or_intror Hx))).
  cbn [filter]. destruct (isArrayIndex (rd_round rd)) eqn:E; cbn [negb].
  - simpl. rewrite IH'. reflexivity.
  - assert (Hnone : filter (fun rd0 => isArrayIndex (rd_round rd0)) rest = []).
    { apply filter_none. intros y Hy. rewrite Forall_forall in Hall.
      specialize (Hall (rd_round y) (in_map rd_round _ _ Hy)).
      specialize (Hpos rd (or_introl eq_refl)).
      unfold isArrayIndex in *. apply andb_false_iff in E. apply andb_false_iff.
      destruct E as [E|E]; [apply Z.leb_gt in E; lia|].
      right. apply Z.leb_gt in E. apply Z.leb_gt. lia. }
    rewrite Hnone in *. simpl in IH'. simpl. rewrite IH'. reflexivity.
Qed.

Lemma NoDup_of_nat (l : list nat) : NoDup l -> NoDup (map Z.of_nat l).
Proof.
  induction 1 as [|x l Hx _ IH]; simpl; constructor; [|exact IH].
  intros Hin. apply in_map_iff in Hin. destruct Hin as (y & Hy & Hin).
  apply Nat2Z.inj in Hy. subst y. contradiction.
Qed.

Lemma firstZ_next k r : 1 <= r <= k -> firstZ k r + 2 ^ (k - r) = firstZ k (r + 1).
Proof.
  intros Hr. unfold firstZ.
  replace (k - r + 1) with (Z.succ (k - r)) by lia.
  replace (k - (r + 1) + 1) with (k - r) by lia.
  rewrite Z.pow_succ_r by lia. lia.
Qed.

Lemma firstZ_mono k r r' : 1 <= r -> r <= r' -> r' <= k + 1 -> firstZ k r <= firstZ k r'.
Proof.
  intros H1 H2 H3. unfold firstZ.
  assert (2 ^ (k - r' + 1) <= 2 ^ (k - r + 1)) by (apply Z.pow_le_mono_r; lia).
  lia.
Qed.

Section BuiltBracket.
Variables (db : DB) (tournamentId : Id) (k : Z).
Hypothesis Hk : 0 <= k.
Hypothesis Hshape : map shape (findMatches db tournamentId) = bracketShape tournamentId k.

Lemma bracket_all_numbers :
  map m_matchNumber (findMatches db tournamentId)
  = map (fun i => 1 + Z.of_nat i) (seq 0 (Z.to_nat (2 ^ k - 1))).
Proof.
  rewrite (numbers_of_shape _ _ Hshape).
  pose proof (newRounds_numbers (fun _ => "") tournamentId (2 ^ k) (Z.to_nat k) 1 0 1) as H.
  cbv zeta in H. rewrite H.
  pose proof (newRounds_total (fun _ => "") tournamentId k (Z.to_nat k) 1 0%nat 1) as Ht.
  rewrite Z2Nat.id in Ht by exact Hk.
  specialize (Ht ltac:(lia) ltac:(lia)).
  f_equal. f_equal. lia.
Qed.

Lemma bracket_order a b :
  In a (findMatches db tournamentId) -> In b (findMatches db tournamentId) ->
  byRoundThenNumber a b <= 0 -> m_matchNumber a <= m_matchNumber b.
Proof.
  intros Ha Hb Hab.
  destruct (wellBuilt_match db tournamentId k Hk Hshape a Ha) as (_ & Hra & Hna).
  destruct (wellBuilt_match db tournamentId k Hk Hshape b Hb) as (_ & Hrb & Hnb).
  unfold byRoundThenNumber in Hab.
  destruct (Z.eqb_spec (m_round a) (m_round b)) as [E|E]; simpl in Hab; [lia|].
  rewrite firstZ_next in Hna by lia.
  assert (firstZ k (m_round a + 1) <= firstZ k (m_round b))
    by (apply firstZ_mono; lia).
  lia.
Qed.

Lemma bracket_listing :
  map m_matchNumber (jsSort byRoundThenNumber (findMatches db tournamentId))
  = map (fun i => 1 + Z.of_nat i) (seq 0 (Z.to_nat (2 ^ k - 1))).
Proof.
  apply sorted_perm_eq.
  - apply StronglySorted_map_in with (R := fun a b => byRoundThenNumber a b <= 0).
    + intros a b Ha Hb.
      apply bracket_order; apply (proj1 (jsSort_In byRoundThenNumber _ _)); assumption.
    + apply byRoundThenNumber_sorted.
  - apply run_sorted.
  - rewrite <- bracket_all_numbers. apply Permutation_map. apply jsSort_perm.
Qed.

Lemma bracket_round_listing r :
  1 <= r <= k ->
  map m_matchNumber
      (filter (fun m => m_round m =? r)
              (jsSort byRoundThenNumber (findMatches db tournamentId)))
  = map (fun i => firstZ k r + Z.of_nat i) (seq 0 (Z.to_nat (2 ^ (k - r)))).
Proof.
  intros Hr. rewrite <- (round_numbers db tournamentId k Hk Hshape r Hr).
  apply sorted_perm_eq.
  - apply round_sorted_by_number.
  - rewrite (round_numbers db tournamentId k Hk Hshape r Hr). apply run_sorted.
  - apply Permutation_map.
    transitivity (findRound db tournamentId r); [|symmetry; apply jsSort_perm].
    rewrite findRound_findMatches. apply Permutation_filter. apply jsSort_perm.
Qed.

Lemma bracket_round_inhabited r :
  1 <= r <= k -> exists m, In m (findMatches db tournamentId) /\ m_round m = r.
Proof.
  intros Hr.
  pose proof (wellBuilt_round_size db tournamentId k Hk Hshape r Hr) as Hsize.
  assert (0 < 2 ^ (k - r)) by (apply Z.pow_pos_nonneg; lia).
  destruct (findRound db tournamentId r) as [|m rest] eqn:E; [simpl in Hsize; lia|].
  exists m. assert (Hin : In m (findRound db tournamentId r)) by (rewrite E; left; reflexivity).
  rewrite findRound_findMatches in Hin. apply filter_In in Hin.
  destruct Hin as [Hin Hm]. apply Z.eqb_eq in Hm. auto.
Qed.

Lemma bracket_groups totalRounds :
  let rounds := groupInto db totalRounds
                          (jsSort byRoundThenNumber (findMatches db tournamentId)) [] in
  objectValues rounds = rounds /\
  map rd_round rounds = map Z.of_nat (seq 1 (Z.to_nat k)) /\
  (forall rd, In rd rounds ->
     1 <= rd_round rd <= k /\
     rd_name rd = getRoundName (rd_round rd) totalRounds /\
     rd_matches rd
     = map (matchData db)
           (filter (fun m => m_round m =? rd_round rd)
                   (jsSort byRoundThenNumber (findMatches db tournamentId)))).
Proof.
  cbv zeta.
  set (sorted := jsSort byRoundThenNumber (findMatches db tournamentId)).
  set (rounds := groupInto db totalRounds sorted []).
  assert (Hg : groupsOf db totalRounds sorted rounds).
  { apply (groupInto_groupsOf db totalRounds sorted [] []).
    split; [constructor|]. split; intros x []. }
  destruct Hg as (Hnd & Hcover & Hgroups).
  assert (Hrange : forall rd, In rd rounds -> 1 <= rd_round rd <= k).
  { intros rd Hin. destruct (Hgroups rd Hin) as (_ & Hne & Hm).
    destruct (filter (fun m => m_round m =? rd_round rd) sorted) as [|m rest] eqn:E;
      [rewrite Hm in Hne; contradiction|].
    assert (Hin_m : In m (filter (fun m => m_round m =? rd_round rd) sorted))
      by (rewrite E; left; reflexivity).
    apply filter_In in Hin_m. destruct Hin_m as [Hin_m Hr]. apply Z.eqb_eq in Hr.
    apply (proj1 (jsSort_In byRoundThenNumber _ _)) in Hin_m.
    destruct (wellBuilt_match db tournamentId k Hk Hshape m Hin_m) as (_ & H & _).
    lia. }
  assert (Hasc : StronglySorted Z.lt (map rd_round rounds)).
  { apply groupInto_ascending; [constructor|intros key m []|].
    apply StronglySorted_weaken with (R := fun a b => byRoundThenNumber a b <= 0);
      [|apply byRoundThenNumber_sorted].
    intros a b. unfold byRoundThenNumber.
    destruct (Z.eqb_spec (m_round a) (m_round b)); simpl; lia. }
  split; [|split].
  - apply objectValues_ascending; [exact Hasc|].
    intros rd Hin. specialize (Hrange rd Hin). lia.
  - apply sorted_perm_eq.
    + apply StronglySorted_weaken with (R := Z.lt); [intros a b; lia|exact Hasc].
    + apply seq_sorted.
    + apply NoDup_Permutation; [exact Hnd| |].
      * apply NoDup_of_nat. apply seq_NoDup.
      * intros r. split.
        -- intros Hin. apply in_map_iff in Hin. destruct Hin as (rd & <- & Hin).
           specialize (Hrange rd Hin). apply in_map_iff.
           exists (Z.to_nat (rd_round rd)). split; [lia|]. apply in_seq. lia.
        -- intros Hin. apply in_map_iff in Hin. destruct Hin as (i & <- & Hi).
           apply in_seq in Hi.
           destruct (bracket_round_inhabited (Z.of_nat i)) as (m & Hm & Hr); [lia|].
           rewrite <- Hr. apply Hcover.
           apply (proj2 (jsSort_In byRoundThenNumber _ _)). exact Hm.
  - intros rd Hin. destruct (Hgroups rd Hin) as (Hn & _ & Hm).
    split; [apply Hrange; exact Hin|]. split; assumption.
Qed.
End BuiltBracket.

(** X21. For a tournament whose matches are a bracket as [generate]
    builds it for its [2^k] participants ([wellBuilt]: whatever the status
    of the tournament and the slots, scores and statuses of its matches,
    so also while the tournament is played and after it), [getBracket]
    shows the rounds [1 .. k] in this order; round [r] is named by
    [getRoundName] and holds its [2^(k-r)] matches, those numbered from
    [1 + 2^k - 2^(k-r+1)] on, in this order. *)
Theorem getBracket_built db tournamentId :
  wellBuilt db tournamentId ->
  exists b k,
    getBracket db tournamentId = Some b /\
    0 <= k /\ t_participantCount (b_tournament b) = 2 ^ k /\ b_totalRounds b = k /\
    map rd_round (b_rounds b) = map Z.of_nat (seq 1 (Z.to_nat k)) /\
    (forall rd, In rd (b_rounds b) ->
       rd_name rd = getRoundName (rd_round rd) k /\
       map (fun data => m_matchNumber (md_match data)) (rd_matches rd)
       = map (fun i => firstZ k (rd_round rd) + Z.of_nat i)
             (seq 0 (Z.to_nat (2 ^ (k - rd_round rd))))).
Proof.
  intros Hbuilt.
  destruct Hbuilt as (tournament & k & Ht & Hk & Hcount & Hrounds & Hshape).
  unfold getBracket. rewrite Ht. eexists. exists k. split; [reflexivity|].
  cbn [b_tournament b_totalRounds b_rounds].
  change (fold_left _ (jsSort byRoundThenNumber (findMatches db tournamentId)) [])
    with (groupInto db (t_totalRounds tournament)
                    (jsSort byRoundThenNumber (findMatches db tournamentId)) []).
  destruct (bracket_groups db tournamentId k Hk Hshape (t_totalRounds tournament))
    as (Hvalues & Hkeys & Hgroups).
  rewrite Hvalues.
  split; [exact Hk|]. split; [exact Hcount|]. split; [exact Hrounds|].
  split; [exact Hkeys|].
  intros rd Hin. destruct (Hgroups rd Hin) as (Hr & Hn & Hm).
  split; [rewrite Hn, Hrounds; reflexivity|].
  rewrite Hm, map_map. cbn [matchData md_match].
  apply bracket_round_listing; assumption.
Qed.

(** X22. [TournamentService.getById] is [null] exactly for an unknown
    tournament; it joins the tournament with its participants as stored
    and with all its matches; where these are a bracket as [generate]
    builds it for the [2^k] participants of the tournament ([wellBuilt]:
    whatever the status of the tournament and the state of its matches
    and of the rest of the store), the matches come in the order of their
    match numbers [1 .. 2^k - 1]. *)
Theorem getById_built db tournamentId :
  (TournamentService.getById db tournamentId = None
   <-> getTournament db tournamentId = None) /\
  (forall data,
     TournamentService.getById db tournamentId = Some data ->
     getTournament db tournamentId = Some (td_tournament data) /\
     td_participants data = storedParticipants db tournamentId /\
     Permutation (td_matches data) (findMatches db tournamentId) /\
     (wellBuilt db tournamentId ->
      exists k, 0 <= k /\ t_participantCount (td_tournament data) = 2 ^ k /\
                map m_matchNumber (td_matches data)
                = map (fun i => 1 + Z.of_nat i) (seq 0 (Z.to_nat (2 ^ k - 1))))).
Proof.
  unfold TournamentService.getById. split.
  - destruct (getTournament db tournamentId); split; intros H;
      try discriminate; reflexivity.
  - intros data. destruct (getTournament db tournamentId) as [tournament|] eqn:Ht;
      [|discriminate].
    intros H. injection H as <-. cbn [td_tournament td_participants td_matches].
    split; [reflexivity|]. split; [reflexivity|]. split; [apply jsSort_perm|].
    intros Hbuilt.
    destruct Hbuilt as (tournament' & k & Ht' & Hk & Hcount & Hrounds & Hshape).
    rewrite Ht in Ht'. injection Ht' as <-.
    exists k. split; [exact Hk|]. split; [exact Hcount|].
    apply bracket_listing; assumption.
Qed.

(** ** autoSeed *)

Lemma seedOf_absent ordered : forall index id,
  ~ In id (map p_id ordered) -> seedOf ordered index id = None.
Proof.
  induction ordered as [|p rest IH]; intros index id Hnot; simpl; [reflexivity|].
  destruct (String.eqb_spec (p_id p) id) as [E|E].
  - exfalso. apply Hnot. left. exact E.
  - apply IH. intros Hin. apply Hnot. right. exact Hin.
Qed.

Lemma seedEach_spec ordered : forall index db,
  NoDup (map p_id ordered) ->
  NoDup (map p_id (PARTICIPANTS db)) ->
  ParticipantService.seedEach ordered index db
  = mkDB (TOURNAMENTS db) (map (reseeded ordered index) (PARTICIPANTS db))
         (MATCHES db) (RESULTS db) (idSupply db).
Proof.
  induction ordered as [|p rest IH]; intros index db Hfresh Hnd.
  - simpl. unfold reseeded. simpl. rewrite map_id. destruct db. reflexivity.
  - cbn [ParticipantService.seedEach map] in *.
    apply NoDup_cons_iff in Hfresh. destruct Hfresh as [Hp Hfresh].
    rewrite IH.
    + unfold updatePARTICIPANTS, setPARTICIPANTS.
      cbn [TOURNAMENTS PARTICIPANTS MATCHES RESULTS idSupply].
      rewrite update_as_map by exact Hnd. rewrite map_map. f_equal.
      apply map_ext. intros x. unfold reseeded. cbn [seedOf].
      destruct (String.eqb_spec (p_id x) (p_id p)) as [E|E].
      * cbn [setSeed p_id]. rewrite E, String.eqb_refl.
        rewrite seedOf_absent by exact Hp. reflexivity.
      * replace (String.eqb (p_id p) (p_id x)) with false
          by (symmetry; apply String.eqb_neq; auto).
        reflexivity.
    + exact Hfresh.
    + unfold updatePARTICIPANTS, setPARTICIPANTS. cbn [PARTICIPANTS].
      rewrite map_update by (intros x; reflexivity). exact Hnd.
Qed.

Lemma reseeded_ordered ordered : forall index,
  NoDup (map p_id ordered) ->
  map (reseeded ordered index) ordered = numbered ordered index.
Proof.
  induction ordered as [|p rest IH]; intros index Hnd; [reflexivity|].
  cbn [map numbered] in *. apply NoDup_cons_iff in Hnd. destruct Hnd as [Hp Hnd].
  f_equal.
  - unfold reseeded. cbn [seedOf]. rewrite String.eqb_refl. reflexivity.
  - rewrite <- IH by exact Hnd. apply map_ext_in. intros x Hx.
    unfold reseeded. cbn [seedOf].
    replace (String.eqb (p_id p) (p_id x)) with false; [reflexivity|].
    symmetry. apply String.eqb_neq. intros E. apply Hp. rewrite E.
    apply in_map. exact Hx.
Qed.

Lemma numbered_seeds ordered : forall index,
  map p_seed (numbered ordered index)
  = map (fun i => Some (index + Z.of_nat i)) (seq 1 (List.length ordered)).
Proof.
  induction ordered as [|p rest IH]; intros index; [reflexivity|].
  cbn [numbered map List.length seq]. apply f_equal2; [reflexivity|].
  rewrite IH. rewrite <- (seq_shift (List.length rest) 1), map_map.
  apply map_ext. intros i. f_equal. lia.
Qed.

Lemma numbered_ids ordered : forall index,
  map p_id (numbered ordered index) = map p_id ordered.
Proof.
  induction ordered as [|p rest IH]; intros index; [reflexivity|].
  cbn [numbered map]. rewrite IH. reflexivity.
Qed.

Lemma numbered_bounds ordered : forall index x,
  0 <= index -> In x (numbered ordered index) -> index < seedOr999 x.
Proof.
  induction ordered as [|p rest IH]; intros index x Hi Hin; [destruct Hin|].
  cbn [numbered] in Hin. destruct Hin as [<-|Hin].
  - unfold seedOr999, truthyNum. cbn [setSeed p_seed].
    destruct (Z.eqb_spec (index + 1) 0); lia.
  - apply IH in Hin; lia.
Qed.

Lemma numbered_ascending ordered : forall index,
  0 <= index ->
  StronglySorted (fun a b => seedOr999 a < seedOr999 b) (numbered ordered index).
Proof.
  induction ordered as [|p rest IH]; intros index Hi; [constructor|].
  cbn [numbered]. constructor; [apply IH; lia|].
  apply Forall_forall. intros x Hx. apply numbered_bounds in Hx; [|lia].
  unfold seedOr999 at 1, truthyNum. cbn [setSeed p_seed].
  destruct (Z.eqb_spec (index + 1) 0); lia.
Qed.

Lemma sorted_perm_unique {A} (key : A -> Z) (l1 l2 : list A) :
  StronglySorted (fun a b => key a <= key b) l1 ->
  StronglySorted (fun a b => key a < key b) l2 ->
  Permutation l1 l2 -> l1 = l2.
Proof.
  revert l2. induction l1 as [|y l1 IH]; intros l2 H1 H2 Hp.
  - apply Permutation_nil in Hp. subst. reflexivity.
  - destruct l2 as [|x l2]; [symmetry in Hp; apply Permutation_nil in Hp; discriminate|].
    inversion H1 as [|? ? H1' Hall1]; subst.
    inversion H2 as [|? ? H2' Hall2]; subst.
    rewrite Forall_forall in Hall1, Hall2.
    assert (y = x).
    { assert (Hy : In y (x :: l2)) by (apply (Permutation_in _ Hp); left; reflexivity).
      assert (Hx : In x (y :: l1))
        by (apply (Permutation_in _ (Permutation_sym Hp)); left; reflexivity).
      destruct Hy as [Hy|Hy]; [auto|].
      destruct Hx as [Hx|Hx]; [auto|].
      specialize (Hall1 x Hx). specialize (Hall2 y Hy). lia. }
    subst y. f_equal. apply IH; [assumption|assumption|].
    apply Permutation_cons_inv in Hp. exact Hp.
Qed.

Lemma filter_map_keeps {A} (key : A -> Id) (f : A -> A) (id : Id) (l : list A) :
  (forall x, key (f x) = key x) ->
  map f (filter (fun x => String.eqb (key x) id) l)
  = filter (fun x => String.eqb (key x) id) (map f l).
Proof.
  intros Hk. induction l as [|x r IH]; [reflexivity|].
  cbn [map filter]. rewrite Hk.
  destruct (String.eqb (key x) id); cbn [map]; rewrite IH; reflexivity.
Qed.

(** X23. [autoSeed], for a store with distinct participant ids and an
    arrangement that is a rearrangement of the list it is given: the
    participants of the tournament get the seeds [1 .. n], the one at
    position [i] of the arrangement the seed [i + 1], and the list
    returned is the arrangement with these seeds; nothing else of a
    participant changes, no participant of another tournament is
    touched, nor any other collection. *)
Theorem autoSeed_spec arrange db tournamentId :
  NoDup (map p_id (PARTICIPANTS db)) ->
  Permutation (arrange (getByTournament db tournamentId))
              (getByTournament db tournamentId) ->
  let orderedParticipants := arrange (getByTournament db tournamentId) in
  let result := fst (ParticipantService.autoSeed arrange tournamentId db) in
  let db' := snd (ParticipantService.autoSeed arrange tournamentId db) in
  result = numbered orderedParticipants 0 /\
  map p_seed result
  = map (fun i => Some (Z.of_nat i))
        (seq 1 (List.length (storedParticipants db tournamentId))) /\
  map p_id result = map p_id orderedParticipants /\
  map (fun p => (p_id p, p_tournamentId p, p_status p, p_eliminatedAtRound p))
      (PARTICIPANTS db')
  = map (fun p => (p_id p, p_tournamentId p, p_status p, p_eliminatedAtRound p))
        (PARTICIPANTS db) /\
  (forall other, other <> tournamentId ->
     storedParticipants db' other = storedParticipants db other) /\
  TOURNAMENTS db' = TOURNAMENTS db /\ MATCHES db' = MATCHES db /\
  RESULTS db' = RESULTS db.
Proof.
  intros Hnd Harr. cbv zeta. unfold ParticipantService.autoSeed. cbn [fst snd].
  set (ordered := arrange (getByTournament db tournamentId)) in *.
  assert (Hstored : Permutation ordered (storedParticipants db tournamentId)).
  { transitivity (getByTournament db tournamentId); [exact Harr|apply jsSort_perm]. }
  assert (Hfresh : NoDup (map p_id ordered)).
  { apply (Permutation_NoDup (l := map p_id (storedParticipants db tournamentId))).
    - apply Permutation_map. symmetry. exact Hstored.
    - apply NoDup_map_filter. exact Hnd. }
  rewrite seedEach_spec by assumption.
  assert (Hkeep : forall p, p_tournamentId (reseeded ordered 0 p) = p_tournamentId p).
  { intros p. unfold reseeded. destruct (seedOf ordered 0 (p_id p)); reflexivity. }
  assert (Hfilter : forall other,
            filter (fun p => String.eqb (p_tournamentId p) other)
                   (map (reseeded ordered 0) (PARTICIPANTS db))
            = map (reseeded ordered 0) (storedParticipants db other)).
  { intros other. unfold storedParticipants. symmetry. apply filter_map_keeps.
    exact Hkeep. }
  assert (Hresult : getByTournament
                      (mkDB (TOURNAMENTS db) (map (reseeded ordered 0) (PARTICIPANTS db))
                            (MATCHES db) (RESULTS db) (idSupply db)) tournamentId
                    = numbered ordered 0).
  { apply (sorted_perm_unique seedOr999).
    - unfold getByTournament. apply Sorted_by_key.
      apply (jsSort_sorted (fun a b => seedOr999 a - seedOr999 b)). intros a b. lia.
    - apply numbered_ascending. lia.
    - unfold getByTournament. cbn [PARTICIPANTS]. rewrite jsSort_perm, Hfilter.
      rewrite <- reseeded_ordered by exact Hfresh.
      apply Permutation_map. symmetry. exact Hstored. }
  rewrite Hresult. cbn [TOURNAMENTS PARTICIPANTS MATCHES RESULTS].
  split; [reflexivity|]. split; [|split; [|split; [|split]]].
  - rewrite numbered_seeds, (Permutation_length Hstored).
    apply map_ext. intros i. f_equal.
  - apply numbered_ids.
  - rewrite map_map. apply map_ext. intros p. unfold reseeded.
    destruct (seedOf ordered 0 (p_id p)); reflexivity.
  - intros other Hother. unfold storedParticipants at 1. cbn [PARTICIPANTS].
    rewrite Hfilter. rewrite <- (map_id (storedParticipants db other)) at 2.
    apply map_ext_in. intros p Hp. unfold reseeded.
    rewrite seedOf_absent; [reflexivity|].
    intros Hin. apply in_map_iff in Hin. destruct Hin as (q & Hq & Hin).
    apply (Permutation_in _ Hstored) in Hin.
    unfold storedParticipants in Hp, Hin. apply filter_In in Hp, Hin.
    destruct Hp as [Hp Hpt], Hin as [Hin Hqt].
    apply String.eqb_eq in Hpt, Hqt.
    assert (q = p) by (apply (NoDup_position p_id (PARTICIPANTS db)); assumption).
    subst q. congruence.
  - auto.
Qed.

(** ** From a draft to a running tournament *)

Lemma generate_returns genId db tournamentId tournament k :
  getTournament db tournamentId = Some tournament ->
  t_status tournament = "draft" ->
  0 <= k -> t_participantCount tournament = 2 ^ k ->
  exists created db1, generate genId tournamentId db = (Returned created, db1).
Proof.
  intros Ht Hdraft Hk Hpc. unfold generate. rewrite Ht, Hdraft, Hpc.
  rewrite isPowerOfTwo_pow2 by exact Hk. cbn [String.eqb negb].
  destruct (generateRounds _ _ _ _ _ _) as [[db1 n] matches].
  eexists. eexists. reflexivity.
Qed.

(** Pair [j] of the roster is written into the [j]-th match of round 1. *)
Lemma assignParticipants_seats tournamentId db1 r db2 :
  NoDup (map m_id (MATCHES db1)) ->
  assignParticipants tournamentId db1 = (Returned r, db2) ->
  let p := jsSort bySeed (getByTournament db1 tournamentId) in
  let n := List.length p in
  let firstRoundMatches := jsSort byMatchNumber (findRound db1 tournamentId 1) in
  forall j y0 a b,
    (2 * j + 1 <= n)%nat ->
    nth_error firstRoundMatches j = Some y0 ->
    nth_error p j = Some a -> nth_error p (n - 1 - j) = Some b ->
    In (setPair (p_id a) (p_id b) y0) (MATCHES db2).
Proof.
  intros Hnd Hrun p n firstRoundMatches j y0 a b Hj Hy0 Ha Hb.
  unfold assignParticipants in Hrun.
  destruct (getTournament db1 tournamentId) as [t|]; [|discriminate].
  destruct (negb _); [discriminate|].
  fold p firstRoundMatches in Hrun.
  assert (Hids : NoDup (map m_id firstRoundMatches)).
  { unfold firstRoundMatches, findRound. apply NoDup_ids_sorted. exact Hnd. }
  destruct (assignPairs_spec firstRoundMatches Hids (createSeedPairings p) 0%nat db1
              (createSeedPairings_defined p))
    as (db' & Hpairs & _ & _ & _ & _ & _ & Hset & _).
  cbn [Z.of_nat] in Hpairs. unfold bind in Hrun. rewrite Hpairs in Hrun.
  unfold gets in Hrun. injection Hrun as _ <-.
  assert (Hpair : nth_error (createSeedPairings p) j = Some (Some a, Some b)).
  { rewrite createSeedPairings_nth. fold n.
    replace (2 * j + 1 <=? n)%nat with true by (symmetry; apply Nat.leb_le; exact Hj).
    rewrite Ha, Hb. reflexivity. }
  specialize (Hset j y0 a b Hpair Hy0).
  assert (Hin0 : In y0 (MATCHES db1)).
  { apply nth_error_In in Hy0. unfold firstRoundMatches in Hy0.
    apply jsSort_In in Hy0. unfold findRound in Hy0. apply filter_In in Hy0. tauto. }
  unfold getMatchById in Hset. rewrite (getById_NoDup m_id _ _ Hnd Hin0) in Hset.
  cbn [option_map] in Hset. apply getById_In in Hset. tauto.
Qed.

Section Running.
Variable genId : nat -> Id.
Variable today : string.

(** X24. From a draft to a running tournament. For a draft tournament of
    [2^k >= 2] participants with its full roster (distinct non-empty ids,
    nobody eliminated) and neither matches nor results yet, where the ids
    [generate] hands out are fresh: [generate] and then
    [TournamentService.start] both succeed, the tournament is 'ongoing',
    and every participant of the roster sits in exactly one slot of the
    bracket, in a match of round 1 that is 'upcoming'. *)
Theorem generate_then_start db tournamentId tournament k :
  getTournament db tournamentId = Some tournament ->
  t_status tournament = "draft" ->
  1 <= k -> t_participantCount tournament = 2 ^ k ->
  findMatches db tournamentId = [] ->
  (forall res, In res (RESULTS db) -> r_tournamentId res <> tournamentId) ->
  NoDup (map p_id (PARTICIPANTS db)) ->
  (forall p, In p (storedParticipants db tournamentId) ->
             p_id p <> "" /\ isEliminated p = false) ->
  Z.of_nat (List.length (storedParticipants db tournamentId)) = 2 ^ k ->
  NoDup (map m_id (MATCHES (snd (generate genId tournamentId db)))) ->
  exists created db1 started db2,
    generate genId tournamentId db = (Returned created, db1) /\
    TournamentService.start tournamentId db1 = (Done (Some started), db2) /\
    getTournament db2 tournamentId = Some started /\
    t_status started = "ongoing" /\
    played genId today tournamentId k db2 /\
    (forall p, In p (storedParticipants db tournamentId) ->
       exists m s,
         In m (findRound db2 tournamentId 1) /\ m_status m = "upcoming" /\
         slotId s m = Some (p_id p) /\
         (forall m' s', In m' (findMatches db2 tournamentId) ->
                        slotId s' m' = Some (p_id p) -> m' = m /\ s' = s)).
Proof.
  intros Ht Hdraft Hk Hpc Hnone Hresults Hpids Hroster Hfull Hfresh.
  destruct (generate_returns genId db tournamentId tournament k Ht Hdraft ltac:(lia) Hpc)
    as (created & db1 & Hgen).
  rewrite Hgen in Hfresh. cbn [snd] in Hfresh.
  destruct (start_generated genId db db1 tournamentId tournament k created
              Ht Hk Hpc Hnone Hgen) as (Hp1 & Hr1 & Ht1 & Hms1 & Hshape1 & Hph).
  assert (Hstored1 : storedParticipants db1 tournamentId = storedParticipants db tournamentId).
  { unfold storedParticipants. rewrite Hp1. reflexivity. }
  assert (Hlen1 : Z.of_nat (List.length (storedParticipants db1 tournamentId))
                  = t_participantCount (setRegistration k tournament)).
  { rewrite Hstored1, Hfull. cbn. symmetry. exact Hpc. }
  destruct (assignParticipants_accepts db1 tournamentId _ Ht1 Hlen1) as [r Hr].
  destruct (assignParticipants tournamentId db1) as [out dba] eqn:Hassign.
  cbn [fst] in Hr. subst out.
  destruct (assignParticipants_returned tournamentId db1 r dba Hfresh Hassign)
    as (_ & Hts & Hps & Hrs & Hshape & Hids & _).
  set (started := setStatus "ongoing" (setRegistration k tournament)).
  set (db2 := updateTOURNAMENTS tournamentId (setStatus "ongoing") dba).
  assert (Hsound : sound dba tournamentId k).
  { apply (sound_start genId db db1 dba tournamentId tournament k created r); assumption. }
  exists created, db1, started, db2.
  split; [exact Hgen|]. split; [|split; [|split; [|split]]].
  - unfold TournamentService.start.
    replace (TournamentService.canStart db1 tournamentId) with Ready.
    + rewrite Hassign. unfold updated. rewrite Hts.
      unfold getTournament in Ht1. rewrite Ht1. reflexivity.
    + symmetry. apply canStart_Ready. exists (setRegistration k tournament).
      split; [exact Ht1|]. split; [reflexivity|]. rewrite Hlen1. lia.
  - unfold db2, getTournament, updateTOURNAMENTS, setTOURNAMENTS. cbn [TOURNAMENTS].
    rewrite getById_update_same by (intros x; reflexivity).
    rewrite Hts. unfold getTournament in Ht1. rewrite Ht1. reflexivity.
  - reflexivity.
  - apply played_status.
    apply (played_start genId today tournamentId k db tournament created db1 r dba);
      assumption.
  - intros x Hx.
    set (p := jsSort bySeed (getByTournament db1 tournamentId)).
    set (n := List.length p).
    set (firstRoundMatches := jsSort byMatchNumber (findRound db1 tournamentId 1)).
    assert (Hn : Z.of_nat n = 2 * 2 ^ (k - 1)).
    { apply (start_even genId db db1 dba tournamentId tournament k created r);
        assumption. }
    assert (Hfirst : Z.of_nat (List.length firstRoundMatches) = 2 ^ (k - 1)).
    { unfold firstRoundMatches. rewrite jsSort_length.
      apply (wellBuilt_round_size db1 tournamentId k); [lia| |lia].
      rewrite Hms1. exact Hshape1. }
    assert (Hxp : In x p).
    { unfold p, getByTournament. apply jsSort_In, jsSort_In.
      fold (storedParticipants db1 tournamentId). rewrite Hstored1. exact Hx. }
    apply In_nth_error in Hxp. destruct Hxp as [i Hi].
    assert (Hin : (i < n)%nat) by (apply nth_error_Some; congruence).
    assert (Hseat : exists j s a b y0,
               (2 * j + 1 <= n)%nat /\ nth_error firstRoundMatches j = Some y0 /\
               nth_error p j = Some a /\ nth_error p (n - 1 - j) = Some b /\
               (if s : bool then a else b) = x).
    { assert (Hhalf : 0 < 2 ^ (k - 1)) by (apply Z.pow_pos_nonneg; lia).
      destruct (Z.lt_ge_cases (Z.of_nat i) (2 ^ (k - 1))) as [Hlow|Hhigh].
      - destruct (nth_error firstRoundMatches i) as [y0|] eqn:Ey;
          [|apply nth_error_None in Ey; lia].
        destruct (nth_error p (n - 1 - i)) as [b|] eqn:Eb;
          [|apply nth_error_None in Eb; fold n in Eb; lia].
        exists i, true, x, b, y0. repeat split; try assumption. lia.
      - destruct (nth_error firstRoundMatches (n - 1 - i)) as [y0|] eqn:Ey;
          [|apply nth_error_None in Ey; lia].
        destruct (nth_error p (n - 1 - i)) as [a|] eqn:Ea;
          [|apply nth_error_None in Ea; fold n in Ea; lia].
        exists (n - 1 - i)%nat, false, a, x, y0.
        replace (n - 1 - (n - 1 - i))%nat with i by lia.
        repeat split; try assumption. lia. }
    destruct Hseat as (j & s & a & b & y0 & Hj & Hy0 & Ha & Hb & Hsx).
    pose proof (assignParticipants_seats tournamentId db1 r dba Hfresh Hassign
                  j y0 a b Hj Hy0 Ha Hb) as Hseated.
    set (m := setPair (p_id a) (p_id b) y0) in *.
    assert (Hround : inRound tournamentId 1 y0 = true).
    { apply nth_error_In in Hy0. unfold firstRoundMatches in Hy0.
      apply jsSort_In in Hy0. unfold findRound in Hy0. apply filter_In in Hy0. tauto. }
    assert (Hslot : slotId s m = Some (p_id x)).
    { destruct (Hroster x Hx) as [Hne _].
      assert (Htruthy : truthyId (Some (p_id x)) = Some (p_id x)).
      { unfold truthyId. destruct (String.eqb_spec (p_id x) ""); [contradiction|reflexivity]. }
      unfold slotId, m. cbn [setPair m_participant1Id m_participant2Id].
      destruct s; rewrite Hsx; exact Htruthy. }
    assert (Hm2 : In m (findMatches db2 tournamentId)).
    { unfold findMatches, db2. cbn [MATCHES updateTOURNAMENTS setTOURNAMENTS].
      apply filter_In. split; [exact Hseated|].
      unfold inRound in Hround. apply andb_true_iff in Hround. tauto. }
    exists m, s. split; [|split; [|split]].
    + unfold findRound, db2. cbn [MATCHES updateTOURNAMENTS setTOURNAMENTS].
      apply filter_In. split; [exact Hseated|exact Hround].
    + reflexivity.
    + exact Hslot.
    + intros m' s' Hm' Hs'.
      assert (Hlive : forall y, In y (findMatches dba tournamentId) -> isCompleted y = false).
      { intros y Hy.
        destruct (start_matches genId db db1 dba tournamentId tournament k created r
                    Ht Hk Hpc Hnone Hgen Hfresh Hassign y Hy)
          as [(j' & y1 & a' & b' & _ & _ & _ & _ & ->)|Hphy].
        - reflexivity.
        - apply (isCompleted_placeholder _ _ Hphy). }
      apply (sound_slots dba tournamentId k Hsound m' m s' s (p_id x));
        try assumption; apply Hlive; assumption.
Qed.
End Running.

(** ** A tournament played to its end *)

Section Played.
Variable genId : nat -> Id.
Variable today : string.

(** What an accepted score of a match still to be played writes, in the
    terms of the bracket. *)
Lemma score_facts db tournamentId k matchId score1 score2 mt r db' :
  sound db tournamentId k ->
  getMatchById db matchId = Some mt ->
  m_tournamentId mt = tournamentId ->
  isCompleted mt = false ->
  updateScore genId today matchId score1 score2 db = (Returned r, db') ->
  exists tournament p1 p2 index dest,
    getTournament db tournamentId = Some tournament /\
    t_participantCount tournament = 2 ^ k /\ t_totalRounds tournament = k /\
    truthyId (m_participant1Id mt) = Some p1 /\
    truthyId (m_participant2Id mt) = Some p2 /\
    let winnerId := if score1 >? score2 then p1 else p2 in
    let loserId := if score1 >? score2 then p2 else p1 in
    isEven index = Z.even (indexOf k mt) /\
    (forall d, dest = Some d -> In d (findMatches db tournamentId) /\ feeds k mt d) /\
    MATCHES db'
    = match dest with
      | Some d => update m_id (update m_id (MATCHES db) matchId
                                      (setScore score1 score2 winnerId))
                         (m_id d) (advanceInto index winnerId)
      | None => update m_id (MATCHES db) matchId (setScore score1 score2 winnerId)
      end /\
    PARTICIPANTS db'
    = update p_id (PARTICIPANTS db) loserId (setEliminated (m_round mt)) /\
    (m_round mt = k ->
     dest = None /\
     RESULTS db'
     = RESULTS db ++
       [mkResult (genId (idSupply db)) tournamentId winnerId loserId
                 (thirdPlaceOf (findMatches db tournamentId) k)
                 (Z.of_nat (List.length (findMatches db tournamentId))) (2 ^ k)] /\
     getTournament db' tournamentId = Some (setCompleted k today tournament)) /\
    (m_round mt <> k -> dest <> None /\ RESULTS db' = RESULTS db) /\
    map tshape (TOURNAMENTS db') = map tshape (TOURNAMENTS db).
Proof.
  intros Hsound Hm Htid Hlive Hrun.
  destruct (updateScore_accepted _ _ _ _ _ _ _ _ _ Hm Hrun)
    as (Hs & (p1 & p2 & H1 & H2) & Hs1 & Hs2 & Hne).
  destruct (sound_built _ _ _ Hsound) as (t & Ht & Hpc & Hr).
  pose proof (sound_rounds _ _ _ Hsound) as Hk.
  pose proof (sound_shape _ _ _ Hsound) as Hshape.
  assert (Hin : In mt (findMatches db tournamentId))
    by (apply (step_mt_in db tournamentId matchId mt); assumption).
  destruct (wellBuilt_match db tournamentId k Hk Hshape mt Hin) as (_ & Hround & _).
  assert (Ht' : getTournament db (m_tournamentId mt) = Some t) by (rewrite Htid; exact Ht).
  pose proof (updateScore_tshape genId today matchId score1 score2 db) as Htshape.
  rewrite Hrun in Htshape. cbn [snd] in Htshape.
  pose proof (wellBuilt_index db tournamentId t k Hk Hpc Hshape mt Hin) as Hindex.
  set (index := (inject_Z (m_matchNumber mt)
                 - firstMatchNumber (t_participantCount t) (m_round mt))%Q) in *.
  assert (Hpar : isEven index = Z.even (indexOf k mt)) by (apply isEven_index, Hindex).
  destruct (Z.eq_dec (m_round mt) k) as [Hfinal|Hbefore].
  - pose proof (updateScore_final_store genId today db matchId score1 score2 mt t p1 p2
                  Hm Hs H1 H2 Hs1 Hs2 Hne Ht' ltac:(congruence)) as Hstore.
    cbv zeta in Hstore. rewrite Hrun in Hstore. injection Hstore as _ ->.
    exists t, p1, p2, index, None. cbv zeta.
    cbn [MATCHES PARTICIPANTS RESULTS TOURNAMENTS].
    repeat (split; [assumption || reflexivity || discriminate|]).
    split; [|split; [intros; contradiction|exact Htshape]].
    intros _. split; [reflexivity|]. rewrite Htid, Hr, Hpc. split; [reflexivity|].
    unfold getTournament. cbn [TOURNAMENTS].
    rewrite getById_update_same by (intros x; reflexivity).
    unfold getTournament in Ht. rewrite Ht. reflexivity.
  - assert (Hlt : m_round mt < t_totalRounds t) by lia.
    destruct (updateScore_advance_MATCHES genId today db matchId score1 score2 mt t
                p1 p2 Hm Hs H1 H2 Hs1 Hs2 Hne Ht' Hlt)
      as (r0 & db0 & Hrun0 & Hparts & Hres & Hms).
    rewrite Hrun in Hrun0. injection Hrun0 as _ <-.
    fold index in Hms.
    destruct (wellBuilt_destination db tournamentId t k Hk Hpc Hshape mt Hin ltac:(lia))
      as [d Hd].
    fold index in Hd. rewrite Hd in Hms.
    destruct (nextMatchOf_feeds db tournamentId t k Hk Hpc Hshape mt d Hin ltac:(lia) Hd)
      as [Hdin Hfeeds].
    exists t, p1, p2, index, (Some d). cbv zeta.
    split; [exact Ht|]. split; [exact Hpc|]. split; [exact Hr|].
    split; [exact H1|]. split; [exact H2|]. split; [exact Hpar|].
    split; [intros d' E; injection E as <-; auto|].
    split; [exact Hms|]. split; [exact Hparts|].
    split; [intros; contradiction|]. split; [|exact Htshape].
    intros _. split; [discriminate|exact Hres].
Qed.

Lemma final_unique db tournamentId k m1 m2 :
  0 <= k ->
  map shape (findMatches db tournamentId) = bracketShape tournamentId k ->
  In m1 (findMatches db tournamentId) -> In m2 (findMatches db tournamentId) ->
  m_round m1 = k -> m_round m2 = k -> m1 = m2.
Proof.
  intros Hk Hshape H1 H2 R1 R2.
  apply (bracket_number_inj db tournamentId k Hshape); [assumption|assumption|].
  destruct (wellBuilt_match db tournamentId k Hk Hshape m1 H1) as (_ & _ & N1).
  destruct (wellBuilt_match db tournamentId k Hk Hshape m2 H2) as (_ & _ & N2).
  rewrite R1 in N1. rewrite R2 in N2. rewrite Z.sub_diag in N1, N2.
  change (2 ^ 0) with 1 in N1, N2. lia.
Qed.

Lemma settled_score db tournamentId k matchId score1 score2 mt r db' :
  sound db tournamentId k -> settled db tournamentId k ->
  getMatchById db matchId = Some mt ->
  m_tournamentId mt = tournamentId ->
  isCompleted mt = false ->
  updateScore genId today matchId score1 score2 db = (Returned r, db') ->
  settled db' tournamentId k.
Proof.
  intros Hsound Hsettled Hm Htid Hlive Hrun.
  destruct (score_facts db tournamentId k matchId score1 score2 mt r db'
              Hsound Hm Htid Hlive Hrun)
    as (t & p1 & p2 & index & dest & Ht & Hpc & Hr & H1 & H2 & Hfacts).
  cbv zeta in Hfacts.
  destruct Hfacts as (Hpar & Hdest & Hms & Hps & Hfinal & Hbefore & Htshape).
  set (winnerId := if score1 >? score2 then p1 else p2) in *.
  set (loserId := if score1 >? score2 then p2 else p1) in *.
  assert (Hwl : (winnerId = p1 /\ loserId = p2) \/ (winnerId = p2 /\ loserId = p1)).
  { unfold winnerId, loserId. destruct (score1 >? score2); auto. }
  assert (Hresults : forall res, In res (RESULTS db') ->
            In res (RESULTS db) \/
            (r_tournamentId res = tournamentId /\ r_championId res = winnerId /\
             dest = None)).
  { intros res Hres. destruct (Z.eq_dec (m_round mt) k) as [E|E].
    - destruct (Hfinal E) as (Hd & Hrs & _). rewrite Hrs in Hres.
      apply in_app_or in Hres. destruct Hres as [Hres|[<-|[]]]; [auto|].
      right. cbn. auto.
    - destruct (Hbefore E) as [_ Hrs]. rewrite Hrs in Hres. auto. }
  pose proof (step_distinct db tournamentId k matchId mt p1 p2 winnerId loserId
                Hsound Hm Htid Hlive H1 H2 Hwl) as Hdistinct.
  pose proof (step_mt_in db tournamentId matchId mt Hm Htid) as Hmt_in.
  destruct (getById_In m_id _ _ _ Hm) as [Hmt_stored Hmt_id].
  pose proof (sound_match_ids _ _ _ Hsound) as Hnd.
  assert (Hkept : forall y, In y (findMatches db tournamentId) -> y <> mt ->
                            dest <> Some y -> In y (findMatches db' tournamentId)).
  { intros y Hy Hne Hnd'. unfold findMatches in *. apply filter_In in Hy.
    destruct Hy as [Hy Hty]. apply filter_In. split; [|exact Hty].
    assert (Hy1 : In y (update m_id (MATCHES db) matchId
                               (setScore score1 score2 winnerId))).
    { rewrite update_as_map by exact Hnd. apply in_map_iff. exists y.
      split; [|exact Hy].
      destruct (String.eqb_spec (m_id y) matchId) as [E|E]; [|reflexivity].
      exfalso. apply Hne. apply (NoDup_position m_id (MATCHES db)); try assumption.
      congruence. }
    rewrite Hms. destruct dest as [d|]; [|exact Hy1].
    destruct (step_dest_facts db tournamentId k matchId mt p1 p2 winnerId loserId
                score1 score2 index (Some d) Hsound Hm Htid Hlive Hwl Hpar Hdest
                d eq_refl) as (Hdin & _ & _ & _ & _ & _ & _).
    rewrite update_as_map
      by (rewrite map_update by (intros x; reflexivity); exact Hnd).
    apply in_map_iff. exists y. split; [|exact Hy1].
    destruct (String.eqb_spec (m_id y) (m_id d)) as [E|E]; [|reflexivity].
    exfalso. apply Hnd'. f_equal. unfold findMatches in Hdin.
    apply filter_In in Hdin. destruct Hdin as [Hdin _].
    apply (NoDup_position m_id (MATCHES db));
      [exact Hnd|exact Hdin|exact Hy|symmetry; exact E]. }
  assert (Hscored : In (setScore score1 score2 winnerId mt)
                       (findMatches db' tournamentId)).
  { unfold findMatches. apply filter_In. split.
    2:{ unfold inTournament. cbn [setScore m_tournamentId]. rewrite Htid.
        apply String.eqb_refl. }
    assert (Hy1 : In (setScore score1 score2 winnerId mt)
                     (update m_id (MATCHES db) matchId
                             (setScore score1 score2 winnerId))).
    { rewrite update_as_map by exact Hnd. apply in_map_iff. exists mt.
      split; [|exact Hmt_stored]. rewrite Hmt_id, String.eqb_refl. reflexivity. }
    rewrite Hms. destruct dest as [d|]; [|exact Hy1].
    destruct (step_dest_facts db tournamentId k matchId mt p1 p2 winnerId loserId
                score1 score2 index (Some d) Hsound Hm Htid Hlive Hwl Hpar Hdest
                d eq_refl) as (_ & _ & _ & Hdid & _ & _ & _).
    rewrite update_as_map
      by (rewrite map_update by (intros x; reflexivity); exact Hnd).
    apply in_map_iff. exists (setScore score1 score2 winnerId mt).
    split; [|exact Hy1]. cbn [setScore m_id]. rewrite Hmt_id.
    replace (String.eqb matchId (m_id d)) with false; [reflexivity|].
    symmetry. apply String.eqb_neq. auto. }
  assert (Hloser : forall l p,
            getParticipant db l = Some p -> isEliminated p = true ->
            exists p', getParticipant db' l = Some p' /\ isEliminated p' = true).
  { intros l p Hl He. destruct (String.eqb_spec l loserId) as [E|E].
    - subst l. exists (setEliminated (m_round mt) p). split; [|reflexivity].
      unfold getParticipant. rewrite Hps.
      rewrite getById_update_same by (intros x; reflexivity).
      unfold getParticipant in Hl. rewrite Hl. reflexivity.
    - exists p. split; [|exact He].
      rewrite (step_participant db db' mt loserId Hps l E). exact Hl. }
  constructor.
  - intros y Hy Hdone.
    destruct (step_matches db db' tournamentId k matchId mt p1 p2 winnerId loserId
                score1 score2 index dest Hsound Hm Htid Hlive Hwl Hpar Hdest Hms
                Hresults y Hy) as [->|[(d & Hd & ->)|(Hold & Hne & Hnd')]].
    + apply truthyId_Some in H1, H2. destruct H1 as [E1 T1], H2 as [E2 T2].
      assert (N1 : p1 <> "").
      { intros ->. cbn in T1. discriminate. }
      assert (N2 : p2 <> "").
      { intros ->. cbn in T2. discriminate. }
      assert (Hrecord : exists p, getParticipant db' loserId = Some p /\
                                  isEliminated p = true).
      { assert (Hs : exists s, slotId s mt = Some loserId).
        { unfold slotId. destruct Hwl as [[_ ->]|[_ ->]];
            [exists false|exists true]; [rewrite E2|rewrite E1]; assumption. }
        destruct Hs as [s Hs].
        destruct (sound_alive _ _ _ Hsound mt s loserId Hmt_in Hlive Hs) as (p & Hp & _).
        exists (setEliminated (m_round mt) p). split; [|reflexivity].
        unfold getParticipant. rewrite Hps.
        rewrite getById_update_same by (intros x; reflexivity).
        unfold getParticipant in Hp. rewrite Hp. reflexivity. }
      exists winnerId, loserId. cbn [setScore m_participant1Id m_participant2Id m_winnerId].
      split; [destruct Hwl as [[-> ->]|[-> ->]]; auto|].
      split; [reflexivity|]. split; [exact Hdistinct|].
      split; [destruct Hwl as [[-> _]|[-> _]]; assumption|].
      split; [destruct Hwl as [[_ ->]|[_ ->]]; assumption|].
      exact Hrecord.
    + exfalso.
      destruct (step_dest_facts db tournamentId k matchId mt p1 p2 winnerId loserId
                  score1 score2 index dest Hsound Hm Htid Hlive Hwl Hpar Hdest
                  d Hd) as (_ & _ & _ & _ & Hdlive & _ & _).
      rewrite (isCompleted_advanceInto index winnerId d Hdlive) in Hdone. discriminate.
    + destruct (settled_matches _ _ _ Hsettled y Hold Hdone)
        as (w & l & Hslots & Hw & Hwl' & Nw & Nl & p & Hp & He).
      exists w, l. repeat (split; [assumption|]).
      apply (Hloser l p); assumption.
  - intros res Hres Hrt.
    destruct (Hresults res Hres) as [Hold|(_ & _ & Hnone)].
    + destruct (settled_results _ _ _ Hsettled res Hold Hrt) as (m & Hmin & Hmr & Hmd).
      exists m. split; [|auto]. apply Hkept; [exact Hmin| |].
      * intros ->. congruence.
      * intros E.
        destruct (step_dest_facts db tournamentId k matchId mt p1 p2 winnerId loserId
                    score1 score2 index dest Hsound Hm Htid Hlive Hwl Hpar Hdest
                    m E) as (_ & _ & _ & _ & Hdlive & _ & _).
        congruence.
    + exists (setScore score1 score2 winnerId mt).
      split; [exact Hscored|]. split; [|reflexivity].
      cbn [setScore m_round].
      destruct (Z.eq_dec (m_round mt) k) as [E|E]; [exact E|].
      destruct (Hbefore E) as [Hd _]. contradiction.
Qed.

Lemma played_settled tournamentId k db :
  played genId today tournamentId k db -> settled db tournamentId k.
Proof.
  induction 1 as [db t created db1 r db2 Ht Hk Hpc Hnone Hres Hpids Hroster Hgen
                    Hmids Hassign
                 |db status Hplayed IH
                 |db matchId score1 score2 mt r db' Hplayed IH Hm Htid Hlive Hrun].
  - constructor.
    + intros m Hm Hdone. exfalso.
      destruct (start_matches genId db db1 db2 tournamentId t k created r
                  Ht Hk Hpc Hnone Hgen Hmids Hassign m Hm)
        as [(j & y0 & a & b & _ & _ & _ & _ & ->)|Hph].
      * discriminate.
      * rewrite (isCompleted_placeholder _ _ Hph) in Hdone. discriminate.
    + intros res Hin Hrt. exfalso.
      destruct (assignParticipants_returned tournamentId db1 r db2 Hmids Hassign)
        as (_ & _ & _ & Hrs & _).
      destruct (generate_frame genId db tournamentId t k created db1
                  Ht ltac:(lia) Hpc Hgen) as (_ & Hr1 & _).
      rewrite Hrs, Hr1 in Hin. exact (Hres res Hin Hrt).
  - destruct IH as [IHm IHr]. constructor.
    + intros m Hm Hdone. exact (IHm m Hm Hdone).
    + intros res Hin Hrt. exact (IHr res Hin Hrt).
  - apply (settled_score db tournamentId k matchId score1 score2 mt r db');
      try assumption.
    apply played_sound with (genId := genId) (today := today). exact Hplayed.
Qed.
End Played.

Section Final.
Variable genId : nat -> Id.
Variable today : string.

(** Once the final has both its participants, every other match of the
    bracket is completed. *)
Lemma played_out db tournamentId k mt :
  sound db tournamentId k ->
  In mt (findMatches db tournamentId) -> m_round mt = k ->
  (forall s, slotId s mt <> None) ->
  forall n m, In m (findMatches db tournamentId) ->
              m_round m = k - Z.of_nat n -> m <> mt -> isCompleted m = true.
Proof.
  intros Hsound Hmt Hfinal Hfull.
  destruct (sound_built _ _ _ Hsound) as (t & Ht & Hpc & Hr).
  pose proof (sound_rounds _ _ _ Hsound) as Hk.
  pose proof (sound_shape _ _ _ Hsound) as Hshape.
  induction n as [|n IH]; intros m Hm Hround Hne.
  - exfalso. apply Hne.
    apply (final_unique db tournamentId k); try assumption. simpl in Hround. lia.
  - destruct (isCompleted m) eqn:Hdone; [reflexivity|exfalso].
    assert (Hlt : m_round m < k) by lia.
    destruct (wellBuilt_destination db tournamentId t k Hk Hpc Hshape m Hm Hlt) as [d Hd].
    destruct (nextMatchOf_feeds db tournamentId t k Hk Hpc Hshape m d Hm Hlt Hd)
      as [Hdin Hfeeds].
    destruct (sound_feeders _ _ _ Hsound m d Hm Hdin Hfeeds Hdone) as [Hdlive Hslot].
    destruct (Z.eq_dec (m_matchNumber d) (m_matchNumber mt)) as [E|E].
    + assert (d = mt)
        by (apply (bracket_number_inj db tournamentId k Hshape); assumption).
      subst d. exact (Hfull _ Hslot).
    + rewrite (IH d Hdin) in Hdlive; [discriminate| |congruence].
      destruct Hfeeds as [Hrd _]. lia.
Qed.

(** The third places of matches that are scored well: the loser of each. *)
Lemma thirdPlace_of_scored db (semis : list Match) :
  (forall m, In m semis -> scoredWell db m) ->
  let ids := truthyIds (map loserOf (filter (fun m => match truthyId (m_winnerId m) with
                                                      | Some _ => true | None => false end)
                                            semis)) in
  List.length ids = List.length semis /\
  (forall id, In id ids ->
     exists p, getParticipant db id = Some p /\ isEliminated p = true).
Proof.
  cbv zeta. induction semis as [|m rest IH]; intros Hall.
  - split; [reflexivity|]. intros id [].
  - destruct (IH (fun x Hx => Hall x (or_intror Hx))) as [IHlen IHin].
    destruct (Hall m (or_introl eq_refl))
      as (w & l & Hslots & Hw & Hwl & Nw & Nl & p & Hp & He).
    assert (Tw : truthyId (Some w) = Some w).
    { unfold truthyId. destruct (String.eqb_spec w ""); [contradiction|reflexivity]. }
    assert (Tl : truthyId (Some l) = Some l).
    { unfold truthyId. destruct (String.eqb_spec l ""); [contradiction|reflexivity]. }
    assert (Hloser : loserOf m = Some l).
    { unfold loserOf. rewrite Hw. destruct Hslots as [[E1 E2]|[E1 E2]]; rewrite E1.
      - cbn [sameId]. rewrite String.eqb_refl. exact E2.
      - cbn [sameId]. replace (String.eqb l w) with false; [reflexivity|].
        symmetry. apply String.eqb_neq. auto. }
    cbn [filter]. rewrite Hw, Tw. cbn [map truthyIds]. rewrite Hloser, Tl.
    cbn [List.length]. split; [rewrite IHlen; reflexivity|].
    intros id [<-|Hid]; [exists p; auto|apply IHin; exact Hid].
Qed.

(** X25. The end of a tournament played once through. When the final of
    a bracket of [2^k] is scored, in a run of generating the bracket,
    assigning the full roster and scoring matches that are not yet
    completed: every match of the tournament is completed and [2^k - 1]
    participants are eliminated; the tournament has exactly one result,
    with the winner of the final as champion, its loser as runner-up,
    [2^k - 1] matches and [2^k] participants, and as third places the two
    losers of the semifinals (none in a bracket of two), who are
    eliminated participants other than the finalists; and [getBracket]
    shows the tournament 'completed' with the champion's record, which is
    not eliminated. *)
Theorem played_to_the_end db tournamentId k matchId score1 score2 mt r db' :
  played genId today tournamentId k db ->
  getMatchById db matchId = Some mt ->
  m_tournamentId mt = tournamentId ->
  isCompleted mt = false ->
  m_round mt = k ->
  updateScore genId today matchId score1 score2 db = (Returned r, db') ->
  exists p1 p2 result b champion,
    m_participant1Id mt = Some p1 /\ m_participant2Id mt = Some p2 /\
    let winnerId := if score1 >? score2 then p1 else p2 in
    let loserId := if score1 >? score2 then p2 else p1 in
    (forall m, In m (findMatches db' tournamentId) -> isCompleted m = true) /\
    Z.of_nat (List.length (filter isEliminated (storedParticipants db' tournamentId)))
    = 2 ^ k - 1 /\
    filter (fun res => String.eqb (r_tournamentId res) tournamentId) (RESULTS db')
    = [result] /\
    r_championId result = winnerId /\ r_runnerUpId result = loserId /\
    r_totalMatches result = 2 ^ k - 1 /\ r_totalParticipants result = 2 ^ k /\
    Z.of_nat (List.length (r_thirdPlaceIds result)) = (if k =? 1 then 0 else 2) /\
    (forall id, In id (r_thirdPlaceIds result) ->
       id <> winnerId /\ id <> loserId /\
       exists p, getParticipant db' id = Some p /\ isEliminated p = true) /\
    getBracket db' tournamentId = Some b /\
    t_status (b_tournament b) = "completed" /\
    b_champion b = Some champion /\ p_id champion = winnerId /\
    isEliminated champion = false.
Proof.
  intros Hplayed Hm Htid Hlive Hfinal Hrun.
  pose proof (played_sound genId today tournamentId k db Hplayed) as Hsound.
  pose proof (played_settled genId today tournamentId k db Hplayed) as Hsettled.
  assert (Hplayed' : played genId today tournamentId k db')
    by (eapply played_score; eassumption).
  pose proof (played_sound genId today tournamentId k db' Hplayed') as Hsound'.
  destruct (score_facts genId today db tournamentId k matchId score1 score2 mt r db'
              Hsound Hm Htid Hlive Hrun)
    as (t & p1 & p2 & index & dest & Ht & Hpc & Hr & H1 & H2 & Hfacts).
  cbv zeta in Hfacts.
  destruct Hfacts as (Hpar & Hdest & Hms & Hps & Hfin & _ & Htshape).
  destruct (Hfin Hfinal) as (-> & Hrs & Ht').
  set (winnerId := if score1 >? score2 then p1 else p2) in *.
  set (loserId := if score1 >? score2 then p2 else p1) in *.
  assert (Hwl : (winnerId = p1 /\ loserId = p2) \/ (winnerId = p2 /\ loserId = p1)).
  { unfold winnerId, loserId. destruct (score1 >? score2); auto. }
  pose proof (sound_rounds _ _ _ Hsound) as Hk.
  pose proof (sound_shape _ _ _ Hsound) as Hshape.
  pose proof (step_mt_in db tournamentId matchId mt Hm Htid) as Hmt_in.
  destruct (wellBuilt_match db tournamentId k Hk Hshape mt Hmt_in) as (_ & Hk1 & _).
  destruct (truthyId_Some _ _ H1) as [E1 T1]. destruct (truthyId_Some _ _ H2) as [E2 T2].
  assert (Hfull : forall s, slotId s mt <> None).
  { intros [|]; unfold slotId; [rewrite H1|rewrite H2]; discriminate. }
  assert (Hothers : forall m, In m (findMatches db tournamentId) -> m <> mt ->
                              isCompleted m = true).
  { intros m Hin Hne.
    destruct (wellBuilt_match db tournamentId k Hk Hshape m Hin) as (_ & Hrm & _).
    apply (played_out db tournamentId k mt Hsound Hmt_in Hfinal Hfull
                      (Z.to_nat (k - m_round m)) m Hin); [lia|exact Hne]. }
  assert (Hresults : forall res, In res (RESULTS db') ->
            In res (RESULTS db) \/
            (r_tournamentId res = tournamentId /\ r_championId res = winnerId /\
             @None Match = None)).
  { intros res Hres. rewrite Hrs in Hres. apply in_app_or in Hres.
    destruct Hres as [Hres|[<-|[]]]; [auto|]. right. cbn. auto. }
  assert (Hnone : filter (fun res => String.eqb (r_tournamentId res) tournamentId)
                         (RESULTS db) = []).
  { apply filter_none. intros res Hres. apply String.eqb_neq. intros Hrt.
    destruct (settled_results _ _ _ Hsettled res Hres Hrt) as (m & Hin & Hrm & Hdone).
    assert (m = mt) by (apply (final_unique db tournamentId k); assumption).
    subst m. congruence. }
  assert (Halive : forall x, x = winnerId \/ x = loserId ->
                             exists p, getParticipant db x = Some p /\
                                       isEliminated p = false).
  { intros x Hx.
    assert (Hs : exists s, slotId s mt = Some x).
    { unfold slotId.
      destruct Hx as [->| ->], Hwl as [[-> ->]|[-> ->]];
        ((exists true; rewrite E1; assumption) || (exists false; rewrite E2; assumption)). }
    destruct Hs as [s Hs].
    destruct (sound_alive _ _ _ Hsound mt s x Hmt_in Hlive Hs) as (p & Hp & _ & He).
    exists p. auto. }
  pose proof (step_distinct db tournamentId k matchId mt p1 p2 winnerId loserId
                Hsound Hm Htid Hlive H1 H2 Hwl) as Hdistinct.
  set (result := mkResult (genId (idSupply db)) tournamentId winnerId loserId
                          (thirdPlaceOf (findMatches db tournamentId) k)
                          (Z.of_nat (List.length (findMatches db tournamentId)))
                          (2 ^ k)) in *.
  assert (Hall : forall m, In m (findMatches db' tournamentId) -> isCompleted m = true).
  { intros y Hy.
    destruct (step_matches db db' tournamentId k matchId mt p1 p2 winnerId loserId
                score1 score2 index None Hsound Hm Htid Hlive Hwl Hpar Hdest Hms
                Hresults y Hy) as [->|[(d & Hd & _)|(Hold & Hne & _)]].
    - reflexivity.
    - discriminate.
    - apply Hothers; assumption. }
  pose proof (sound_shape _ _ _ Hsound') as Hshape'.
  assert (Hcount : forall d, map shape (findMatches d tournamentId)
                             = bracketShape tournamentId k ->
                             Z.of_nat (List.length (findMatches d tournamentId)) = 2 ^ k - 1).
  { intros d Hd.
    pose proof (bracket_all_numbers d tournamentId k Hk Hd) as Hn.
    apply (f_equal (@List.length Z)) in Hn. rewrite !length_map, length_seq in Hn.
    assert (0 < 2 ^ k) by (apply Z.pow_pos_nonneg; lia). lia. }
  assert (Hthird : Z.of_nat (List.length (thirdPlaceOf (findMatches db tournamentId) k))
                   = (if k =? 1 then 0 else 2) /\
                   forall id, In id (thirdPlaceOf (findMatches db tournamentId) k) ->
                     exists p, getParticipant db id = Some p /\ isEliminated p = true).
  { unfold thirdPlaceOf.
    set (semis := filter (fun m => m_round m =? k - 1) (findMatches db tournamentId)).
    assert (Hsemis : forall m, In m semis -> scoredWell db m).
    { intros m Hin. unfold semis in Hin. apply filter_In in Hin.
      destruct Hin as [Hin Hrm]. apply Z.eqb_eq in Hrm.
      apply (settled_matches _ _ _ Hsettled m Hin).
      apply Hothers; [exact Hin|]. intros ->. lia. }
    destruct (thirdPlace_of_scored db semis Hsemis) as [Hlen Hids].
    cbv zeta in Hlen, Hids. split; [|exact Hids].
    rewrite Hlen. unfold semis. rewrite <- findRound_findMatches.
    destruct (Z.eqb_spec k 1) as [->|Hk2].
    - replace (findRound db tournamentId (1 - 1)) with (@nil Match); [reflexivity|].
      symmetry. rewrite findRound_findMatches. apply filter_none.
      intros m Hmin. apply Z.eqb_neq.
      destruct (wellBuilt_match db tournamentId 1 Hk Hshape m Hmin) as (_ & Hrm & _). lia.
    - rewrite (wellBuilt_round_size db tournamentId k Hk Hshape (k - 1)) by lia.
      replace (k - (k - 1)) with 1 by lia. reflexivity. }
  destruct Hthird as [Hthird_len Hthird_in].
  destruct (sound_champions _ _ _ Hsound' result) as [(champion & Hchampion & Hce) _].
  { rewrite Hrs. apply in_or_app. right. left. reflexivity. }
  { reflexivity. }
  cbn [r_championId result] in Hchampion.
  exists p1, p2, result.
  eexists. exists champion.
  split; [exact E1|]. split; [exact E2|]. cbv zeta.
  split; [exact Hall|]. split.
  { rewrite (sound_count _ _ _ Hsound'), (filter_all isCompleted _ Hall).
    apply Hcount. exact Hshape'. }
  split.
  { rewrite Hrs, filter_app, Hnone. cbn [app filter r_tournamentId result].
    rewrite String.eqb_refl. reflexivity. }
  split; [reflexivity|]. split; [reflexivity|].
  split; [cbn [r_totalMatches result]; apply Hcount; exact Hshape|].
  split; [reflexivity|]. split; [exact Hthird_len|]. split.
  { intros id Hid. cbn [r_thirdPlaceIds result] in Hid.
    destruct (Hthird_in id Hid) as (p & Hp & He).
    assert (Nw : id <> winnerId).
    { intros ->. destruct (Halive winnerId (or_introl eq_refl)) as (q & Hq & Hqe).
      congruence. }
    assert (Nl : id <> loserId).
    { intros ->. destruct (Halive loserId (or_intror eq_refl)) as (q & Hq & Hqe).
      congruence. }
    split; [exact Nw|]. split; [exact Nl|].
    exists p. split; [|exact He].
    rewrite (step_participant db db' mt loserId Hps id Nl). exact Hp. }
  split.
  { unfold getBracket. rewrite Ht'. reflexivity. }
  cbn [b_tournament b_champion setCompleted t_status].
  split; [reflexivity|].
  cbn [String.eqb Ascii.eqb Bool.eqb].
  rewrite Hrs, filter_app, Hnone. cbn [app filter r_tournamentId result].
  rewrite String.eqb_refl. cbn [r_championId].
  split; [exact Hchampion|]. split; [|exact Hce].
  unfold getParticipant in Hchampion. apply getById_In in Hchampion. tauto.
Qed.
End Final.

(** ** Resetting, re-opening and reading back *)

Lemma resetParticipants_keeps participants : forall db,
  TOURNAMENTS (resetParticipants participants db) = TOURNAMENTS db /\
  MATCHES (resetParticipants participants db) = MATCHES db /\
  RESULTS (resetParticipants participants db) = RESULTS db.
Proof.
  induction participants as [|p rest IH]; intros db; [auto|].
  cbn [resetParticipants].
  destruct (IH (updatePARTICIPANTS (p_id p) setActive db)) as (-> & -> & ->). auto.
Qed.

Lemma findMatches_deleteWhere_other db id other :
  other <> id ->
  filter (inTournament other) (deleteWhere (MATCHES db) (inTournament id))
  = findMatches db other.
Proof.
  intros Hne. apply (filter_deleteWhere_other m_tournamentId). exact Hne.
Qed.

Lemma generate_count genId db tournamentId tournament k created db1 :
  getTournament db tournamentId = Some tournament ->
  0 <= k -> t_participantCount tournament = 2 ^ k ->
  generate genId tournamentId db = (Returned created, db1) ->
  Z.of_nat (List.length created) = 2 ^ k - 1.
Proof.
  intros Ht Hk Hpc Hgen.
  unfold generate in Hgen. rewrite Ht in Hgen.
  destruct (negb (String.eqb (t_status tournament) "draft")); [discriminate|].
  rewrite Hpc, isPowerOfTwo_pow2 in Hgen by exact Hk. cbn [negb] in Hgen.
  rewrite Z.log2_pow2 in Hgen by exact Hk.
  pose proof (generateRounds_spec genId tournamentId (2 ^ k) (Z.to_nat k) 1 db 1 [])
    as Hrounds.
  cbv zeta in Hrounds. rewrite Hrounds in Hgen. clear Hrounds.
  injection Hgen as <- _. cbn [app].
  pose proof (newRounds_total genId tournamentId k (Z.to_nat k) 1 (idSupply db) 1) as Htot.
  rewrite Z2Nat.id in Htot by exact Hk.
  apply Htot; lia.
Qed.

Section Reopening.
Variable genId : nat -> Id.
Variable today : string.

(** X26. [reset] on an unknown tournament is NotFound, with the store as
    it was. After the [reset] of a tournament of [2^k] participants that
    is not completed, [generate] succeeds again and builds a fresh
    bracket: the matches of the tournament are then the placeholders of
    the new bracket and nothing else, and the matches of the other
    tournaments are as before. *)
Theorem reset_then_generate db tournamentId :
  (getTournament db tournamentId = None ->
   reset tournamentId db = (Thrown NotFound, db)) /\
  (forall tournament k,
     getTournament db tournamentId = Some tournament ->
     t_status tournament <> "completed" ->
     0 <= k -> t_participantCount tournament = 2 ^ k ->
     exists db1 created db2,
       reset tournamentId db = (Returned tt, db1) /\
       generate genId tournamentId db1 = (Returned created, db2) /\
       findMatches db2 tournamentId = created /\
       map shape created = bracketShape tournamentId k /\
       (forall m, In m created -> placeholder tournamentId m) /\
       getTournament db2 tournamentId = Some (setRegistration k (setDraft tournament)) /\
       (forall other, other <> tournamentId ->
          findMatches db2 other = findMatches db other)).
Proof.
  split.
  - intros H. unfold reset. rewrite H. reflexivity.
  - intros tournament k Ht Hstatus Hk Hpc.
    unfold reset. rewrite Ht.
    replace (String.eqb (t_status tournament) "completed") with false
      by (symmetry; apply String.eqb_neq; exact Hstatus).
    set (dbm := setMATCHES (fun items => deleteWhere items (inTournament tournamentId)) db).
    set (dbr := setRESULTS (fun items =>
                  deleteWhere items (fun r => String.eqb (r_tournamentId r) tournamentId))
                  dbm).
    set (dbp := resetParticipants (getByTournament dbr tournamentId) dbr).
    set (db1 := updateTOURNAMENTS tournamentId setDraft dbp).
    destruct (resetParticipants_keeps (getByTournament dbr tournamentId) dbr)
      as (Hts & Hms & _).
    fold dbp in Hts, Hms.
    assert (Ht1 : getTournament db1 tournamentId = Some (setDraft tournament)).
    { unfold db1, getTournament, updateTOURNAMENTS, setTOURNAMENTS. cbn [TOURNAMENTS].
      rewrite getById_update_same by (intros x; reflexivity).
      rewrite Hts. unfold getTournament in Ht. cbn [dbr dbm TOURNAMENTS setRESULTS setMATCHES].
      rewrite Ht. reflexivity. }
    assert (Hm1 : MATCHES db1 = deleteWhere (MATCHES db) (inTournament tournamentId)).
    { unfold db1. cbn [MATCHES updateTOURNAMENTS setTOURNAMENTS]. rewrite Hms. reflexivity. }
    assert (Hnone : findMatches db1 tournamentId = []).
    { unfold findMatches. rewrite Hm1.
      apply (filter_deleteWhere_same m_tournamentId). }
    destruct (generate_returns genId db1 tournamentId (setDraft tournament) k
                Ht1 eq_refl Hk Hpc) as (created & db2 & Hgen).
    destruct (generate_shape genId db1 tournamentId _ k created db2 Ht1 Hk Hpc Hnone Hgen)
      as (Ht2 & Hfind & Hshape).
    destruct (generate_frame genId db1 tournamentId _ k created db2 Ht1 Hk Hpc Hgen)
      as (_ & _ & Hm2 & Hph).
    exists db1, created, db2.
    split; [reflexivity|]. split; [exact Hgen|]. split; [exact Hfind|].
    split; [exact Hshape|]. split; [intros m Hm; apply Hph; exact Hm|].
    split; [exact Ht2|].
    intros other Hother. unfold findMatches at 1. rewrite Hm2, filter_app, Hm1.
    rewrite findMatches_deleteWhere_other by exact Hother.
    replace (filter (inTournament other) created) with (@nil Match);
      [apply app_nil_r|].
    symmetry. apply filter_none. intros m Hm. destruct (Hph m Hm) as [(Htid & _) _].
    unfold inTournament. rewrite Htid. apply String.eqb_neq. auto.
Qed.

(** X27. [TournamentService.updateStatus] with one of the four statuses
    of the table never throws: it writes the status of the tournament and
    nothing else, and for an unknown tournament it returns [null] with the
    store as it was (no NotFound); when it throws, the store is as it was.
    It also re-opens [generate]: once the status of a tournament whose
    matches are a bracket of [2^k] ([wellBuilt]: in any status, so also
    'ongoing' or 'completed', and whatever the state of its matches) is
    set back to 'draft', [generate] succeeds again and appends a second
    bracket to the first, so that the tournament has [2 * (2^k - 1)]
    matches. *)
Theorem updateStatus_spec inherited db id status :
  (In status ["draft"; "registration"; "ongoing"; "completed"] ->
   exists db',
     TournamentService.updateStatus inherited id status db
     = (Done (option_map (setStatus status) (getTournament db id)), db') /\
     getTournament db' id = option_map (setStatus status) (getTournament db id) /\
     map (fun t => (tshape t, t_currentRound t, t_endDate t)) (TOURNAMENTS db')
     = map (fun t => (tshape t, t_currentRound t, t_endDate t)) (TOURNAMENTS db) /\
     (forall other, other <> id -> getTournament db' other = getTournament db other) /\
     PARTICIPANTS db' = PARTICIPANTS db /\ MATCHES db' = MATCHES db /\
     RESULTS db' = RESULTS db /\
     (getTournament db id = None -> db' = db)) /\
  (forall f db',
     TournamentService.updateStatus inherited id status db = (Failed f, db') ->
     f = InvalidStatus /\ db' = db) /\
  (forall tournament k,
     wellBuilt db id ->
     getTournament db id = Some tournament ->
     t_participantCount tournament = 2 ^ k -> 0 <= k ->
     exists created db2,
       generate genId id (snd (TournamentService.updateStatus inherited id "draft" db))
       = (Returned created, db2) /\
       findMatches db2 id = findMatches db id ++ created /\
       Z.of_nat (List.length (findMatches db2 id)) = 2 * (2 ^ k - 1)).
Proof.
  split; [|split].
  - intros Hin. unfold TournamentService.updateStatus.
    assert (Hvalid : String.eqb status "draft" || String.eqb status "registration"
                     || String.eqb status "ongoing" || String.eqb status "completed"
                     || inherited status = true).
    { simpl in Hin.
      destruct Hin as [<-|[<-|[<-|[<-|[]]]]]; simpl; reflexivity. }
    rewrite Hvalid. cbn [negb]. eexists. split; [reflexivity|].
    unfold getTournament, updateTOURNAMENTS, setTOURNAMENTS.
    cbn [TOURNAMENTS PARTICIPANTS MATCHES RESULTS].
    split; [apply getById_update_same; intros x; reflexivity|].
    split; [apply map_update; intros x; reflexivity|].
    split; [intros other Hne; apply getById_update_other;
            [intros x; reflexivity|auto]|].
    split; [reflexivity|]. split; [reflexivity|]. split; [reflexivity|].
    intros Hnone. rewrite update_missing by exact Hnone. destruct db. reflexivity.
  - intros f db'. unfold TournamentService.updateStatus.
    destruct (negb _); intros H; [|discriminate].
    injection H as <- <-. auto.
  - intros tournament k Hbuilt Ht Hpc Hk.
    unfold TournamentService.updateStatus. cbn [String.eqb Ascii.eqb Bool.eqb orb negb snd].
    set (db0 := updateTOURNAMENTS id (setStatus "draft") db).
    assert (Ht0 : getTournament db0 id = Some (setStatus "draft" tournament)).
    { unfold db0, getTournament, updateTOURNAMENTS, setTOURNAMENTS. cbn [TOURNAMENTS].
      rewrite getById_update_same by (intros x; reflexivity).
      unfold getTournament in Ht. rewrite Ht. reflexivity. }
    destruct (generate_returns genId db0 id _ k Ht0 eq_refl Hk Hpc)
      as (created & db2 & Hgen).
    destruct (generate_frame genId db0 id _ k created db2 Ht0 Hk Hpc Hgen)
      as (_ & _ & Hm2 & Hph).
    exists created, db2. split; [exact Hgen|].
    assert (Hall : filter (inTournament id) created = created).
    { apply filter_all. intros m Hm. destruct (Hph m Hm) as [(Htid & _) _].
      unfold inTournament. rewrite Htid. apply String.eqb_refl. }
    assert (Hfind2 : findMatches db2 id = findMatches db id ++ created).
    { unfold findMatches at 1. rewrite Hm2, filter_app, Hall. reflexivity. }
    split; [exact Hfind2|].
    rewrite Hfind2, length_app, Nat2Z.inj_add.
    destruct Hbuilt as (t' & k' & Ht' & Hk' & Hpc' & _ & Hshape).
    rewrite Ht in Ht'. injection Ht' as <-.
    assert (k' = k).
    { rewrite Hpc in Hpc'. apply (Z.pow_inj_r 2); lia. }
    subst k'.
    assert (Hlen0 : Z.of_nat (List.length (findMatches db id)) = 2 ^ k - 1).
    { pose proof (bracket_all_numbers db id k Hk Hshape) as Hn.
      apply (f_equal (@List.length Z)) in Hn. rewrite !length_map, length_seq in Hn.
      assert (0 < 2 ^ k) by (apply Z.pow_pos_nonneg; lia). lia. }
    rewrite (generate_count genId db0 id _ k created db2 Ht0 Hk Hpc Hgen). lia.
Qed.

(** X28. What [updateScore] returns. An accepted call (in a store with
    distinct match ids) returns what [getMatch] reads back afterwards,
    without a TypeError: the match as stored, completed, with the scores
    and the winner, under its round name and joined with the records of
    its participants as the call has left them. *)
Theorem updateScore_returns db matchId score1 score2 mt r db' :
  getMatchById db matchId = Some mt ->
  NoDup (map m_id (MATCHES db)) ->
  updateScore genId today matchId score1 score2 db = (Returned r, db') ->
  exists p1 p2 tournament' view,
    m_participant1Id mt = Some p1 /\ m_participant2Id mt = Some p2 /\
    let winnerId := if score1 >? score2 then p1 else p2 in
    r = Some (setScore score1 score2 winnerId mt) /\
    getMatchById db' matchId = r /\
    getTournament db' (m_tournamentId mt) = Some tournament' /\
    getMatch db' matchId = Returned (Some view) /\
    md_match (mv_data view) = setScore score1 score2 winnerId mt /\
    mv_roundName view = getRoundName (m_round mt) (t_totalRounds tournament') /\
    mv_tournament view = tournament' /\
    md_participant1 (mv_data view) = getParticipant db' p1 /\
    md_participant2 (mv_data view) = getParticipant db' p2 /\
    md_winner (mv_data view) = getParticipant db' winnerId.
Proof.
  intros Hm Hnd Hrun.
  destruct (updateScore_effect genId today db matchId score1 score2 mt r db' Hm Hrun)
    as (t & p1 & p2 & Ht & E1 & E2 & Heff).
  cbv zeta in Heff. destruct Heff as (_ & Hms & _ & _).
  destruct (updateScore_accepted genId today db matchId score1 score2 mt r db' Hm Hrun)
    as (Hs & (q1 & q2 & H1 & H2) & Hs1 & Hs2 & Hne).
  destruct (truthyId_Some _ _ H1) as [F1 T1]. destruct (truthyId_Some _ _ H2) as [F2 T2].
  assert (q1 = p1) by congruence. assert (q2 = p2) by congruence. subst q1 q2.
  pose proof (updateScore_run genId today db matchId score1 score2 mt t p1 p2
                Hm Hs H1 H2 Hs1 Hs2 Hne Ht) as Hrun'.
  cbv zeta in Hrun'. rewrite Hrun in Hrun'. injection Hrun' as Hr Hdb'.
  rewrite <- Hdb' in Hr.
  set (winnerId := if score1 >? score2 then p1 else p2) in *.
  set (scored := update m_id (MATCHES db) matchId (setScore score1 score2 winnerId)) in *.
  assert (Hscored : getById m_id scored matchId = Some (setScore score1 score2 winnerId mt)).
  { unfold scored. rewrite getById_update_same by (intros x; reflexivity).
    unfold getMatchById in Hm. rewrite Hm. reflexivity. }
  assert (Hstored : getMatchById db' matchId = Some (setScore score1 score2 winnerId mt)).
  { unfold getMatchById.
    destruct Hms as [->|(nextMatch & index & Hin & _ & Hround & ->)]; [exact Hscored|].
    rewrite getById_update_other; [exact Hscored|apply id_advanceInto|].
    intros E.
    assert (Hnd' : NoDup (map m_id scored)).
    { unfold scored. rewrite map_update by (intros x; reflexivity). exact Hnd. }
    rewrite <- E in Hscored.
    rewrite (getById_NoDup m_id scored nextMatch Hnd' Hin) in Hscored.
    injection Hscored as Hscored. rewrite Hscored in Hround.
    cbn [setScore m_round] in Hround. lia. }
  pose proof (updateScore_tshape genId today matchId score1 score2 db) as Htshape.
  rewrite Hrun in Htshape. cbn [snd] in Htshape.
  destruct (getById_tshape (TOURNAMENTS db) (TOURNAMENTS db') (m_tournamentId mt) t
              Htshape Ht) as (t' & Ht' & _).
  exists p1, p2, t'. eexists.
  split; [exact E1|]. split; [exact E2|]. cbv zeta.
  split; [rewrite Hr; exact Hstored|]. split; [rewrite Hr; reflexivity|].
  split; [exact Ht'|].
  unfold getMatch. rewrite Hstored. cbn [setScore m_tournamentId].
  unfold getTournament in Ht'. unfold getTournament. rewrite Ht'.
  split; [reflexivity|].
  cbn [mv_data mv_roundName mv_tournament matchData md_match md_participant1
       md_participant2 md_winner m_round m_participant1Id m_participant2Id m_winnerId].
  split; [reflexivity|]. split; [reflexivity|]. split; [reflexivity|].
  cbn [setScore m_participant1Id m_participant2Id m_winnerId].
  unfold participantOf. rewrite E1, E2, T1, T2.
  split; [reflexivity|]. split; [reflexivity|].
  unfold winnerId. destruct (score1 >? score2); [rewrite T1|rewrite T2]; reflexivity.
Qed.
End Reopening.

(** ** Withdrawing a participant *)

Lemma update_sameSeat items id upd :
  (forall p, sameSeat p (upd p)) ->
  Forall2 sameSeat items (update p_id items id upd).
Proof.
  intros Hupd. induction items as [|x r IH]; simpl; [constructor|].
  assert (Hrefl : forall l, Forall2 sameSeat l l).
  { induction l; constructor; [repeat split|assumption]. }
  destruct (String.eqb (p_id x) id).
  - constructor; [apply Hupd|apply Hrefl].
  - constructor; [repeat split|exact IH].
Qed.

Lemma filter_sameSeat (P : Participant -> bool) l l' :
  (forall a b, sameSeat a b -> P a = P b) ->
  Forall2 sameSeat l l' -> Forall2 sameSeat (filter P l) (filter P l').
Proof.
  intros HP H. induction H as [|a b l l' Hab _ IH]; simpl; [constructor|].
  rewrite (HP a b Hab). destruct (P b); [constructor; assumption|exact IH].
Qed.

Lemma insertBy_sameSeat cmp x x' l l' :
  (forall a a' b b', sameSeat a a' -> sameSeat b b' -> cmp a b = cmp a' b') ->
  sameSeat x x' -> Forall2 sameSeat l l' ->
  Forall2 sameSeat (insertBy cmp x l) (insertBy cmp x' l').
Proof.
  intros Hcmp Hx H. induction H as [|a b l l' Hab Hl IH]; simpl.
  - constructor; [exact Hx|constructor].
  - rewrite (Hcmp x x' a b Hx Hab). destruct (cmp x' b <=? 0).
    + constructor; [exact Hx|]. constructor; assumption.
    + constructor; [exact Hab|exact IH].
Qed.

Lemma jsSort_sameSeat cmp l l' :
  (forall a a' b b', sameSeat a a' -> sameSeat b b' -> cmp a b = cmp a' b') ->
  Forall2 sameSeat l l' -> Forall2 sameSeat (jsSort cmp l) (jsSort cmp l').
Proof.
  intros Hcmp H. unfold jsSort.
  induction H as [|a b l l' Hab _ IH]; simpl; [constructor|].
  apply insertBy_sameSeat; assumption.
Qed.

Lemma getByTournament_sameSeat db db' tournamentId :
  Forall2 sameSeat (PARTICIPANTS db) (PARTICIPANTS db') ->
  Forall2 sameSeat (getByTournament db tournamentId) (getByTournament db' tournamentId).
Proof.
  intros H. unfold getByTournament. apply jsSort_sameSeat.
  - intros a a' b b' (_ & _ & Ea) (_ & _ & Eb). unfold seedOr999. rewrite Ea, Eb.
    reflexivity.
  - apply filter_sameSeat; [|exact H].
    intros a b (_ & E & _). rewrite E. reflexivity.
Qed.

Lemma cons_eq_cons_inv {A} (x y : A) l l' : x :: l = y :: l' -> x = y /\ l = l'.
Proof. intros E. injection E as -> ->. split; reflexivity. Qed.

Lemma nth_error_sameSeat l l' i :
  Forall2 sameSeat l l' ->
  option_map p_id (nth_error l i) = option_map p_id (nth_error l' i).
Proof.
  intros H. revert i. induction H as [|a b l l' (E & _) _ IH]; intros [|i]; simpl;
    try reflexivity; [rewrite E; reflexivity|apply IH].
Qed.

Lemma createSeedPairings_sameSeat l l' :
  Forall2 sameSeat l l' ->
  map pairIds (createSeedPairings l) = map pairIds (createSeedPairings l').
Proof.
  intros H. rewrite !createSeedPairings_spec. cbv zeta.
  rewrite <- (Forall2_length H). rewrite !map_map. apply map_ext. intros j.
  unfold pairIds. cbn [fst snd].
  rewrite (nth_error_sameSeat l l' j H).
  rewrite (nth_error_sameSeat l l' (List.length l - 1 - j) H). reflexivity.
Qed.

Lemma assignPairs_sameSeat firstRoundMatches pairs pairs' :
  map pairIds pairs = map pairIds pairs' ->
  forall index db db', sameBracket db db' ->
    fst (assignPairs firstRoundMatches pairs index db)
    = fst (assignPairs firstRoundMatches pairs' index db') /\
    sameBracket (snd (assignPairs firstRoundMatches pairs index db))
                (snd (assignPairs firstRoundMatches pairs' index db')).
Proof.
  revert pairs'. induction pairs as [|pr rest IH]; intros [|pr' rest'] E;
    try discriminate; intros index db db' Hdb.
  - split; [reflexivity|exact Hdb].
  - cbn [map] in E. apply cons_eq_cons_inv in E. destruct E as [Epr Erest].
    cbn [assignPairs]. destruct (arrayGet firstRoundMatches index) as [mt|];
      [|apply IH; assumption].
    unfold pairIds in Epr. destruct pr as [[a|] [b|]], pr' as [[a'|] [b'|]];
      cbn [fst snd option_map] in Epr; try discriminate;
      try (unfold throw; cbn [fst snd]; split; [reflexivity|exact Hdb]).
    injection Epr as Ea Eb. rewrite Ea, Eb.
    unfold bind, modify. apply IH; [exact Erest|].
    destruct Hdb as (HT & HM & HR & HI).
    unfold sameBracket, updateMATCHES, setMATCHES. cbn [TOURNAMENTS MATCHES RESULTS idSupply].
    rewrite HM. auto.
Qed.

Lemma assignParticipants_sameSeat tournamentId db db' :
  Forall2 sameSeat (PARTICIPANTS db) (PARTICIPANTS db') ->
  sameBracket db db' ->
  fst (assignParticipants tournamentId db) = fst (assignParticipants tournamentId db') /\
  sameBracket (snd (assignParticipants tournamentId db))
              (snd (assignParticipants tournamentId db')).
Proof.
  intros Hp Hdb. unfold assignParticipants.
  assert (Ht : getTournament db tournamentId = getTournament db' tournamentId).
  { unfold getTournament. destruct Hdb as (-> & _). reflexivity. }
  assert (Hr : findRound db tournamentId 1 = findRound db' tournamentId 1).
  { unfold findRound. destruct Hdb as (_ & -> & _). reflexivity. }
  rewrite <- Ht, <- Hr.
  destruct (getTournament db tournamentId) as [tournament|];
    [|cbn [fst snd]; split; [reflexivity|exact Hdb]].
  pose proof (getByTournament_sameSeat db db' tournamentId Hp) as Hroster.
  rewrite <- (Forall2_length Hroster).
  destruct (negb _); [cbn [fst snd]; split; [reflexivity|exact Hdb]|].
  assert (Hsorted : Forall2 sameSeat (jsSort bySeed (getByTournament db tournamentId))
                                     (jsSort bySeed (getByTournament db' tournamentId))).
  { apply jsSort_sameSeat; [|exact Hroster].
    intros a a' b b' (_ & _ & Ea) (_ & _ & Eb). unfold bySeed. rewrite Ea, Eb.
    reflexivity. }
  pose proof (assignPairs_sameSeat
                (jsSort byMatchNumber (findRound db tournamentId 1)) _ _
                (createSeedPairings_sameSeat _ _ Hsorted) 0 db db' Hdb) as [Hout Hst].
  unfold bind, gets.
  destruct (assignPairs _ (createSeedPairings (jsSort bySeed (getByTournament db _))) 0 db)
    as [[u|e] db1];
    destruct (assignPairs _ (createSeedPairings (jsSort bySeed (getByTournament db' _))) 0 db')
    as [[u'|e'] db1'];
    cbn [fst snd] in *; try discriminate.
  - split; [|exact Hst]. unfold findRound. destruct Hst as (_ & -> & _). reflexivity.
  - injection Hout as <-. split; [reflexivity|exact Hst].
Qed.

Section Withdrawn.
Variable genId : nat -> Id.
Variable today : string.

(** X29. [ParticipantService.withdraw] writes the status 'withdrawn' of the
    participant and returns the record ([null] for an unknown id), and it
    frees no seat: the tournament can start exactly as before, and
    [TournamentService.start], [assignParticipants] and [updateScore] end
    as they would without the withdrawal and leave the same matches,
    tournaments and results, so that a withdrawn participant is seated,
    advanced and recorded like any other. *)
Theorem withdraw_keeps_seat db id tournamentId :
  let db0 := snd (ParticipantService.withdraw id db) in
  (fst (ParticipantService.withdraw id db)
   = option_map setWithdrawn (getParticipant db id) /\
   getParticipant db0 id = option_map setWithdrawn (getParticipant db id) /\
   (forall other, other <> id -> getParticipant db0 other = getParticipant db other) /\
   sameBracket db0 db) /\
  TournamentService.canStart db0 tournamentId
  = TournamentService.canStart db tournamentId /\
  (fst (assignParticipants tournamentId db0) = fst (assignParticipants tournamentId db) /\
   sameBracket (snd (assignParticipants tournamentId db0))
               (snd (assignParticipants tournamentId db))) /\
  (fst (TournamentService.start tournamentId db0)
   = fst (TournamentService.start tournamentId db) /\
   sameBracket (snd (TournamentService.start tournamentId db0))
               (snd (TournamentService.start tournamentId db))) /\
  (forall matchId score1 score2,
     fst (updateScore genId today matchId score1 score2 db0)
     = fst (updateScore genId today matchId score1 score2 db) /\
     sameBracket (snd (updateScore genId today matchId score1 score2 db0))
                 (snd (updateScore genId today matchId score1 score2 db))).
Proof.
  cbv zeta. unfold ParticipantService.withdraw. cbn [fst snd].
  set (db0 := updatePARTICIPANTS id setWithdrawn db).
  assert (Hdb : sameBracket db0 db) by (repeat split).
  assert (Hseats : Forall2 sameSeat (PARTICIPANTS db0) (PARTICIPANTS db)).
  { apply Forall2_flip. unfold db0, updatePARTICIPANTS, setPARTICIPANTS.
    cbn [PARTICIPANTS].
    eapply Forall2_impl; [|apply (update_sameSeat _ id setWithdrawn)].
    - intros a b (E1 & E2 & E3). repeat split; symmetry; assumption.
    - intros p. repeat split. }
  assert (Hcan : TournamentService.canStart db0 tournamentId
                 = TournamentService.canStart db tournamentId).
  { unfold TournamentService.canStart, TournamentService.getById.
    assert (Ht : getTournament db0 tournamentId = getTournament db tournamentId)
      by reflexivity.
    rewrite Ht. destruct (getTournament db tournamentId) as [tournament|];
      [|reflexivity].
    cbn [td_tournament td_participants].
    rewrite (Forall2_length
               (filter_sameSeat
                  (fun p => String.eqb (p_tournamentId p) tournamentId) _ _
                  ltac:(intros a b (_ & E & _); rewrite E; reflexivity) Hseats)).
    reflexivity. }
  pose proof (assignParticipants_sameSeat tournamentId db0 db Hseats Hdb) as Hassign.
  split; [|split; [exact Hcan|split; [exact Hassign|split]]].
  - split; [reflexivity|]. split; [|split; [|exact Hdb]].
    + unfold getParticipant, db0, updatePARTICIPANTS, setPARTICIPANTS.
      cbn [PARTICIPANTS]. apply getById_update_same. intros x. reflexivity.
    + intros other Hother. unfold getParticipant, db0, updatePARTICIPANTS, setPARTICIPANTS.
      cbn [PARTICIPANTS]. apply getById_update_other; [intros x; reflexivity|].
      intros E. apply Hother. symmetry. exact E.
  - unfold TournamentService.start. rewrite Hcan.
    destruct (TournamentService.canStart db tournamentId);
      [|cbn [fst snd]; split; [reflexivity|exact Hdb]].
    destruct Hassign as [Hout Hst].
    destruct (assignParticipants tournamentId db0) as [[u|e] db1];
      destruct (assignParticipants tournamentId db) as [[u'|e'] db1'];
      cbn [fst snd] in *; try discriminate.
    + destruct Hst as (HT & HM & HR & HI).
      split.
      * unfold updated. rewrite HT. reflexivity.
      * unfold sameBracket, updateTOURNAMENTS, setTOURNAMENTS.
        cbn [TOURNAMENTS MATCHES RESULTS idSupply]. rewrite HT. auto.
    + injection Hout as <-. split; [reflexivity|exact Hst].
  - intros matchId score1 score2.
    apply (updateScore_blind genId today matchId score1 score2 db0 db Hdb).
Qed.
End Withdrawn.

(** ** Statistics *)

Lemma tally_spec l goals best total :
  let result := fold_left tally l (goals, (best, total)) in
  fst result = goals + fold_right Z.add 0 (map matchTotal l) /\
  total <= snd (snd result) /\
  (forall m, In m l -> matchTotal m <= snd (snd result)) /\
  (snd result = (best, total) \/
   exists m, In m l /\ snd result = (Some m, matchTotal m) /\ total < matchTotal m).
Proof.
  cbv zeta. revert goals best total.
  induction l as [|x r IH]; intros goals best total; cbn [fold_left map fold_right].
  - cbn [fst snd]. repeat split; [lia|lia|intros m []|left; reflexivity].
  - change (tally (goals, (best, total)) x)
      with (goals + matchTotal x,
            if matchTotal x >? total then (Some x, matchTotal x) else (best, total)).
    destruct (matchTotal x >? total) eqn:E.
    + apply Z.gtb_lt in E.
      destruct (IH (goals + matchTotal x) (Some x) (matchTotal x))
        as (Hg & Hle & Hmax & Hbest).
      split; [rewrite Hg; lia|]. split; [lia|]. split.
      * intros m [<-|Hm]; [exact Hle|apply Hmax; exact Hm].
      * right. destruct Hbest as [Hsame|(m & Hm & Hres & Hlt)].
        -- exists x. split; [left; reflexivity|]. split; [exact Hsame|exact E].
        -- exists m. split; [right; exact Hm|]. split; [exact Hres|lia].
    + assert (Hx : matchTotal x <= total).
      { destruct (Z.gtb_spec (matchTotal x) total); [discriminate|lia]. }
      destruct (IH (goals + matchTotal x) best total) as (Hg & Hle & Hmax & Hbest).
      split; [rewrite Hg; lia|]. split; [exact Hle|]. split.
      * intros m [<-|Hm]; [lia|apply Hmax; exact Hm].
      * destruct Hbest as [Hsame|(m & Hm & Hres & Hlt)]; [left; exact Hsame|].
        right. exists m. split; [right; exact Hm|]. split; [exact Hres|exact Hlt].
Qed.

Section Statistics.
Variable genId : nat -> Id.
Variable today : string.

(** X30. [TournamentService.getStats] is [null] exactly for an unknown
    tournament. Otherwise it counts the participants and the matches of
    the tournament, completed and pending; [totalGoals] is the sum of the
    scores of the completed matches (a missing score counting 0); and
    [highestScoreMatch] is a completed match of the tournament with the
    greatest number of goals, provided some completed match has a goal,
    and [null] otherwise. While a bracket of [2^k] is played once through
    there are [2^k - 1] matches, and as many are completed as participants
    are eliminated. *)
Theorem getStats_spec db id :
  (getStats db id = None <-> getTournament db id = None) /\
  (forall stats,
     getStats db id = Some stats ->
     let completed := filter isCompleted (findMatches db id) in
     st_totalParticipants stats = Z.of_nat (List.length (storedParticipants db id)) /\
     st_totalMatches stats = Z.of_nat (List.length (findMatches db id)) /\
     st_completedMatches stats = Z.of_nat (List.length completed) /\
     st_pendingMatches stats
     = Z.of_nat (List.length (filter (fun m => negb (isCompleted m))
                                     (findMatches db id))) /\
     (exists tournament,
        getTournament db id = Some tournament /\
        st_currentRound stats = t_currentRound tournament /\
        st_totalRounds stats = t_totalRounds tournament) /\
     st_totalGoals stats = fold_right Z.add 0 (map matchTotal completed) /\
     (forall m, st_highestScoreMatch stats = Some m ->
        In m completed /\ 0 < matchTotal m /\
        forall m', In m' completed -> matchTotal m' <= matchTotal m) /\
     (st_highestScoreMatch stats = None ->
        forall m', In m' completed -> matchTotal m' <= 0) /\
     (forall k, played genId today id k db ->
        st_totalMatches stats = 2 ^ k - 1 /\
        st_completedMatches stats
        = Z.of_nat (List.length (filter isEliminated (storedParticipants db id))))).
Proof.
  unfold getStats, TournamentService.getById.
  destruct (getTournament db id) as [tournament|] eqn:Ht;
    [|split; [split; reflexivity|intros stats H; discriminate]].
  cbn [td_matches td_participants td_tournament].
  set (sorted := jsSort byRoundThenNumber (findMatches db id)).
  assert (Hperm : Permutation sorted (findMatches db id)) by apply jsSort_perm.
  assert (Hcperm : Permutation (filter isCompleted sorted)
                               (filter isCompleted (findMatches db id))).
  { apply Permutation_filter. exact Hperm. }
  change (filter (fun m => String.eqb (m_status m) "completed") sorted)
    with (filter isCompleted sorted).
  pose proof (tally_spec (filter isCompleted sorted) 0 None 0) as Htally.
  cbv zeta in Htally.
  destruct (fold_left tally (filter isCompleted sorted) (0, (None, 0)))
    as [totalGoals [best total]].
  cbn [fst snd] in Htally. destruct Htally as (Hgoals & Hnonneg & Hmax & Hbest).
  split; [split; intros H; discriminate|].
  intros stats Hstats. injection Hstats as <-. cbv zeta.
  cbn [st_totalParticipants st_totalMatches st_completedMatches st_pendingMatches
       st_currentRound st_totalRounds st_totalGoals st_highestScoreMatch fst].
  assert (Hlen : List.length sorted = List.length (findMatches db id))
    by (apply Permutation_length; exact Hperm).
  assert (Hclen : List.length (filter isCompleted sorted)
                  = List.length (filter isCompleted (findMatches db id)))
    by (apply Permutation_length; exact Hcperm).
  assert (Hmax' : forall m', In m' (filter isCompleted (findMatches db id)) ->
                             matchTotal m' <= total).
  { intros m' Hm'. apply Hmax. apply (Permutation_in _ (Permutation_sym Hcperm)).
    exact Hm'. }
  split; [reflexivity|]. split; [rewrite Hlen; reflexivity|].
  split; [rewrite Hclen; reflexivity|]. split.
  { rewrite Hlen, Hclen.
    pose proof (filter_length isCompleted (findMatches db id)) as Hsplit. lia. }
  split; [exists tournament; repeat split|]. split.
  { rewrite Hgoals. cbn [Z.add].
    clear - Hcperm. induction Hcperm; cbn [map fold_right]; lia. }
  split; [|split].
  - intros m Hm. subst best.
    destruct Hbest as [Hsame|(m0 & Hm0 & Hres & Hlt)]; [discriminate|].
    injection Hres as <- ->.
    split; [apply (Permutation_in _ Hcperm); exact Hm0|]. split; [exact Hlt|exact Hmax'].
  - intros Hnone. subst best.
    destruct Hbest as [Hsame|(m0 & _ & Hres & _)]; [|discriminate].
    injection Hsame as ->. exact Hmax'.
  - intros k Hplayed. apply played_sound in Hplayed.
    rewrite Hlen, Hclen. split.
    + pose proof (bracket_all_numbers db id k (sound_rounds _ _ _ Hplayed)
                    (sound_shape _ _ _ Hplayed)) as Hn.
      apply (f_equal (@List.length Z)) in Hn. rewrite !length_map, length_seq in Hn.
      assert (0 < 2 ^ k) by (apply Z.pow_pos_nonneg; [lia|exact (sound_rounds _ _ _ Hplayed)]).
      lia.
    + rewrite (sound_count _ _ _ Hplayed). reflexivity.
Qed.
End Statistics.

(** ** Worked instances on the tournament of four *)

Lemma demo_semifinals_played : played demoId "2024-01-01" "t1" 2 demoSemi2.
Proof.
  assert (Hstart : played demoId "2024-01-01" "t1" 2 demoAssigned).
  { apply (played_start _ _ _ _ demo0 (mkTournament "t1" "draft" 4 2 1 None)
             (MATCHES demoGenerated) demoGenerated
             (findRound demoAssigned "t1" 1)); try reflexivity.
    - lia.
    - intros res [].
    - vm_compute. repeat (constructor; [simpl; intuition discriminate|]). constructor.
    - intros p Hp. vm_compute in Hp.
      destruct Hp as [<-|[<-|[<-|[<-|[]]]]]; (split; [discriminate|reflexivity]).
    - vm_compute. repeat (constructor; [simpl; intuition discriminate|]). constructor. }
  assert (Hsemi1 : played demoId "2024-01-01" "t1" 2 demoSemi1).
  { apply (played_score _ _ _ _ demoAssigned "m" 3 1
             (mkMatch "m" "t1" 1 1 (Some "a") (Some "d") None None None "upcoming")
             (getMatchById demoSemi1 "m")); try reflexivity. exact Hstart. }
  apply (played_score _ _ _ _ demoSemi1 "mx" 0 2
           (mkMatch "mx" "t1" 1 2 (Some "b") (Some "c") None None None "upcoming")
           (getMatchById demoSemi2 "mx")); try reflexivity. exact Hsemi1.
Defined.

Lemma demo_match_ids : NoDup (map m_id (MATCHES demoAssigned)).
Proof.
  vm_compute. repeat (constructor; [simpl; intuition discriminate|]). constructor.
Defined.

(** A tournament of six is refused by [generate], and a missing one is
    NotFound, the store untouched. *)
Lemma generate_rejections_witness :
  generate demoId "t6" demoSix = (Thrown InvalidTopology, demoSix) /\
  generate demoId "t1" demoSix = (Thrown NotFound, demoSix).
Proof.
  destruct (generate_rejections demoId demoSix "t6") as (_ & Hsix & _).
  destruct (generate_rejections demoId demoSix "t1") as (Hnone & _).
  split; [|apply Hnone; reflexivity].
  apply (Hsix (mkTournament "t6" "draft" 6 0 1 None)); try reflexivity.
  cbn [t_participantCount]. intros k Hk E.
  destruct (Z.le_gt_cases k 2) as [Hle|Hgt].
  - assert (2 ^ k <= 2 ^ 2) by (apply Z.pow_le_mono_r; lia). lia.
  - assert (2 ^ 3 <= 2 ^ k) by (apply Z.pow_le_mono_r; lia). lia.
Defined.

(** Before its bracket is generated, the full roster of the tournament of
    four is assigned to nothing; after [ParticipantService.delete] of a
    participant the roster is incomplete. *)
Lemma assignParticipants_edges_witness :
  assignParticipants "t1" demo0 = (Returned [], demo0) /\
  assignParticipants "t1"
    (snd (ParticipantService.delete "a" demoGenerated))
  = (Thrown IncompleteRoster, snd (ParticipantService.delete "a" demoGenerated)).
Proof.
  destruct (assignParticipants_edges demo0 "t1") as (_ & _ & _ & Hnone).
  destruct (assignParticipants_edges
              (snd (ParticipantService.delete "a" demoGenerated)) "t1")
    as (_ & Hshort & _).
  split.
  - apply (Hnone (mkTournament "t1" "draft" 4 2 1 None)); reflexivity.
  - apply (Hshort (mkTournament "t1" "registration" 4 2 1 None));
      [reflexivity|vm_compute; discriminate].
Defined.

(** In the tournament of four: an unknown participant, a participant of a
    running tournament, and a participant whose tournament is gone. *)
Lemma deleteParticipant_rejections_witness :
  ParticipantService.delete "z" demoAssigned = (Failed ParticipantNotFound, demoAssigned) /\
  ParticipantService.delete "a" demoStarted = (Failed TournamentRunning, demoStarted) /\
  ParticipantService.delete "a" demoOrphan = (Failed (Raised TypeError), demoOrphan).
Proof.
  destruct (deleteParticipant_rejections demoAssigned "z") as (Hnone & _).
  destruct (deleteParticipant_rejections demoStarted "a") as (_ & _ & Hrun & _).
  destruct (deleteParticipant_rejections demoOrphan "a") as (_ & Hgone & _).
  split; [apply Hnone; reflexivity|]. split.
  - apply (Hrun (demoParticipant "a" 1) (mkTournament "t1" "ongoing" 4 2 1 None));
      [reflexivity|reflexivity|left; reflexivity].
  - apply (Hgone (demoParticipant "a" 1)); reflexivity.
Defined.

(** Seed 1 deleted from the seeded tournament of four: the participant is
    gone and the first slot of match 1 is empty again. *)
Lemma deleteParticipant_spec_witness :
  exists db',
    ParticipantService.delete "a" demoAssigned = (Done true, db') /\
    getParticipant db' "a" = None /\
    getMatchById db' "m"
    = Some (mkMatch "m" "t1" 1 1 None (Some "d") None None None "upcoming").
Proof.
  destruct (deleteParticipant_spec demoAssigned "a" (demoParticipant "a" 1)
              (mkTournament "t1" "registration" 4 2 1 None))
    as (db' & Hrun & Hgone & _ & Hmatches & _);
    [reflexivity|reflexivity|discriminate|discriminate|exact demo_match_ids|].
  exists db'. split; [exact Hrun|]. split; [exact Hgone|].
  unfold getMatchById. rewrite Hmatches. reflexivity.
Defined.

(** The generated tournament of four starts; the draft does not. *)
Lemma start_spec_witness :
  (exists r db', TournamentService.start "t1" demoGenerated = (Done r, db')) /\
  TournamentService.start "t1" demoGenerated
  = (Done (Some (mkTournament "t1" "ongoing" 4 2 1 None)), demoStarted) /\
  snd (TournamentService.start "t1" demo0) = demo0.
Proof.
  destruct (start_spec demoGenerated "t1") as (Hiff & Hdone & _).
  destruct (start_spec demo0 "t1") as (_ & _ & Hfail).
  assert (Hex : exists r db', TournamentService.start "t1" demoGenerated = (Done r, db')).
  { apply Hiff. exists (mkTournament "t1" "registration" 4 2 1 None).
    repeat split; reflexivity. }
  split; [exact Hex|]. split; [reflexivity|].
  apply (Hfail (StartRefused BracketNotGenerated)). reflexivity.
Defined.

(** Match 1 of the tournament of four marked 'live', and an unknown
    match. *)
Lemma updateMatch_spec_witness :
  updateMatch "zz" (Some "live") demoAssigned = (Thrown NotFound, demoAssigned) /\
  exists db',
    updateMatch "m" (Some "live") demoAssigned
    = (Returned (Some (mkMatch "m" "t1" 1 1 (Some "a") (Some "d")
                               None None None "live")), db') /\
    getMatchById db' "mx" = getMatchById demoAssigned "mx".
Proof.
  destruct (updateMatch_spec demoAssigned "zz" (Some "live")) as (Hnone & _).
  destruct (updateMatch_spec demoAssigned "m" (Some "live")) as (_ & Hsome).
  split; [apply Hnone; reflexivity|].
  destruct (Hsome (mkMatch "m" "t1" 1 1 (Some "a") (Some "d") None None None "upcoming")
                  eq_refl) as (db' & Hrun & _ & Hother & _).
  exists db'. split; [exact Hrun|]. apply Hother. discriminate.
Defined.

(** Match 1 of the tournament of four scored 3-1, marked 'live' before or
    not. *)
Lemma updateScore_after_updateMatch_witness :
  updateScore demoId "2024-01-01" "m" 3 1
              (snd (updateMatch "m" (Some "live") demoAssigned))
  = updateScore demoId "2024-01-01" "m" 3 1 demoAssigned.
Proof.
  apply (updateScore_after_updateMatch demoId "2024-01-01" demoAssigned "m" "live" 3 1
           (mkMatch "m" "t1" 1 1 (Some "a") (Some "d") None None None "upcoming")
           "a" "d");
    try reflexivity; try discriminate; lia.
Defined.

(** Match 1 scored 3-1 after the tournament record is gone: a TypeError,
    with the score stored and seed 4 eliminated. *)
Lemma updateScore_orphan_witness :
  exists db',
    updateScore demoId "2024-01-01" "m" 3 1 demoOrphan = (Thrown TypeError, db') /\
    getMatchById db' "m"
    = Some (mkMatch "m" "t1" 1 1 (Some "a") (Some "d") (Some "a") (Some 3) (Some 1)
                    "completed") /\
    getParticipant db' "d"
    = Some (mkParticipant "d" "t1" (Some 4) "eliminated" (Some 1)).
Proof.
  destruct (updateScore_orphan demoId "2024-01-01" demoOrphan "m" 3 1
              (mkMatch "m" "t1" 1 1 (Some "a") (Some "d") None None None "upcoming")
              "a" "d")
    as (db' & Hrun & Hm & Hp);
    try reflexivity; try discriminate; try lia.
  exists db'. split; [exact Hrun|]. split; [exact Hm|].
  unfold getParticipant. rewrite Hp. reflexivity.
Defined.

(** Match 1 of the tournament of four (seed 1 against seed 4) scored: seed
    2 and another tournament are as before. *)
Lemma updateScore_isolated_witness :
  getParticipant demoSemi1 "b" = getParticipant demoAssigned "b" /\
  findMatches demoSemi1 "t2" = findMatches demoAssigned "t2".
Proof.
  destruct (updateScore_isolated demoId "2024-01-01" demoAssigned "m" 3 1
              (mkMatch "m" "t1" 1 1 (Some "a") (Some "d") None None None "upcoming")
              (getMatchById demoSemi1 "m") demoSemi1)
    as (Hother & Hparticipant);
    [reflexivity|exact demo_match_ids|reflexivity|].
  split.
  - apply Hparticipant; discriminate.
  - apply (Hother "t2"). discriminate.
Defined.

(** The started tournament of four with its first semifinal scored has
    the bracket [generate] built. *)
Lemma demo_ongoing_wellBuilt : wellBuilt demoOngoing "t1".
Proof.
  exists (mkTournament "t1" "ongoing" 4 2 1 None), 2.
  split; [reflexivity|]. split; [lia|]. repeat split; reflexivity.
Defined.

(** The bracket of the tournament of four while it is played ('ongoing',
    one semifinal scored): two rounds, the semifinals 1 and 2, and the
    final 3. *)
Lemma getBracket_built_witness :
  exists b,
    getBracket demoOngoing "t1" = Some b /\
    t_status (b_tournament b) = "ongoing" /\ b_totalRounds b = 2 /\
    map rd_round (b_rounds b) = [1; 2] /\
    map rd_name (b_rounds b) = ["Semi Final"; "Final"] /\
    map (fun rd => map (fun data => m_matchNumber (md_match data)) (rd_matches rd))
        (b_rounds b)
    = [[1; 2]; [3]].
Proof.
  destruct (getBracket_built demoOngoing "t1" demo_ongoing_wellBuilt)
    as (b & k & Hb & _).
  exists b. split; [exact Hb|].
  vm_compute in Hb. injection Hb as <-. repeat split; reflexivity.
Defined.

(** The same tournament read by [TournamentService.getById]: its matches
    1, 2, 3 in this order. *)
Lemma getById_built_witness :
  exists data,
    TournamentService.getById demoOngoing "t1" = Some data /\
    t_status (td_tournament data) = "ongoing" /\
    map m_matchNumber (td_matches data) = [1; 2; 3] /\
    TournamentService.getById demoOngoing "t9" = None.
Proof.
  destruct (getById_built demoOngoing "t1") as (_ & Hsome).
  destruct (getById_built demoOngoing "t9") as (Hnone & _).
  destruct (TournamentService.getById demoOngoing "t1") as [data|] eqn:E;
    [|discriminate].
  destruct (Hsome data eq_refl) as (_ & _ & _ & Horder).
  destruct (Horder demo_ongoing_wellBuilt) as (k & Hk & Hcount & Hnumbers).
  exists data. split; [reflexivity|].
  vm_compute in E. injection E as <-.
  split; [reflexivity|].
  change (4 = 2 ^ k) in Hcount.
  assert (Hk2 : k = 2) by (apply (Z.pow_inj_r 2); lia).
  split; [rewrite Hnumbers, Hk2; reflexivity|].
  apply Hnone. reflexivity.
Defined.

(** The tournament of four seeded anew in the reverse of its order: the
    seeds 1 to 4 go to d, c, b, a. *)
Lemma autoSeed_spec_witness :
  map (fun p => (p_id p, p_seed p))
      (fst (ParticipantService.autoSeed (@List.rev Participant) "t1" demo0))
  = [("d", Some 1); ("c", Some 2); ("b", Some 3); ("a", Some 4)] /\
  map p_seed (fst (ParticipantService.autoSeed (@List.rev Participant) "t1" demo0))
  = map (fun i => Some (Z.of_nat i))
        (seq 1 (List.length (storedParticipants demo0 "t1"))).
Proof.
  destruct (autoSeed_spec (@List.rev Participant) demo0 "t1") as (_ & Hseeds & _).
  - vm_compute. repeat (constructor; [simpl; intuition discriminate|]). constructor.
  - apply Permutation_sym, Permutation_rev.
  - split; [reflexivity|exact Hseeds].
Defined.

(** The draft tournament of four, generated and started. *)
Lemma generate_then_start_witness :
  exists created db1 started db2,
    generate demoId "t1" demo0 = (Returned created, db1) /\
    TournamentService.start "t1" db1 = (Done (Some started), db2) /\
    t_status started = "ongoing" /\
    played demoId "2024-01-01" "t1" 2 db2.
Proof.
  destruct (generate_then_start demoId "2024-01-01" demo0 "t1"
              (mkTournament "t1" "draft" 4 2 1 None) 2)
    as (created & db1 & started & db2 & Hgen & Hstart & _ & Hstatus & Hplayed & _);
    try reflexivity.
  - lia.
  - intros res [].
  - vm_compute. repeat (constructor; [simpl; intuition discriminate|]). constructor.
  - intros p Hp. vm_compute in Hp.
    destruct Hp as [<-|[<-|[<-|[<-|[]]]]]; (split; [discriminate|reflexivity]).
  - vm_compute. repeat (constructor; [simpl; intuition discriminate|]). constructor.
  - exists created, db1, started, db2. repeat split; assumption.
Defined.

(** The final of the tournament of four scored 2-1 after the two
    semifinals: seed 1 is champion, seed 3 runner-up, and the losers of
    the semifinals are the third places. *)
Lemma played_to_the_end_witness :
  exists result,
    filter (fun res => String.eqb (r_tournamentId res) "t1") (RESULTS demoFinal)
    = [result] /\
    r_championId result = "a" /\ r_runnerUpId result = "c" /\
    r_totalMatches result = 3 /\ r_totalParticipants result = 4 /\
    List.length (r_thirdPlaceIds result) = 2%nat.
Proof.
  destruct (played_to_the_end demoId "2024-01-01" demoSemi2 "t1" 2 "mxx" 2 1
              (mkMatch "mxx" "t1" 2 3 (Some "a") (Some "c") None None None "upcoming")
              (getMatchById demoFinal "mxx") demoFinal)
    as (p1 & p2 & result & b & champion & E1 & E2 & Hend);
    [exact demo_semifinals_played|reflexivity|reflexivity|reflexivity|reflexivity
    |reflexivity|].
  cbv zeta in Hend.
  destruct Hend as (_ & _ & Hres & Hchamp & Hrunner & Hmatches & Hparts & Hthird & _).
  injection E1 as <-. injection E2 as <-.
  exists result. split; [exact Hres|]. split; [exact Hchamp|]. split; [exact Hrunner|].
  split; [exact Hmatches|]. split; [exact Hparts|].
  apply Nat2Z.inj. rewrite Hthird. reflexivity.
Defined.

(** The tournament of four reset after its semifinals and generated
    again: three placeholders; and a reset of a tournament that is not
    there. *)
Lemma reset_then_generate_witness :
  reset "t9" demoSemi2 = (Thrown NotFound, demoSemi2) /\
  exists db1 created db2,
    reset "t1" demoSemi2 = (Returned tt, db1) /\
    generate demoId "t1" db1 = (Returned created, db2) /\
    findMatches db2 "t1" = created /\ List.length created = 3%nat.
Proof.
  destruct (reset_then_generate demoId demoSemi2 "t9") as (Hnone & _).
  destruct (reset_then_generate demoId demoSemi2 "t1") as (_ & Hsome).
  split; [apply Hnone; reflexivity|].
  destruct (Hsome (mkTournament "t1" "registration" 4 2 2 None) 2)
    as (db1 & created & db2 & Hreset & Hgen & Hfind & Hshape & _);
    [reflexivity|discriminate|lia|reflexivity|].
  exists db1, created, db2. repeat (split; [assumption|]).
  rewrite <- (length_map shape), Hshape. reflexivity.
Defined.

(** The status of the started ('ongoing') tournament of four set back to
    'draft': [generate] runs again and the tournament has six matches;
    'paused' is no status. *)
Lemma updateStatus_spec_witness :
  TournamentService.updateStatus (fun _ => false) "t1" "paused" demoStarted
  = (Failed InvalidStatus, demoStarted) /\
  (exists db',
     TournamentService.updateStatus (fun _ => false) "t1" "draft" demoStarted
     = (Done (Some (mkTournament "t1" "draft" 4 2 1 None)), db')) /\
  getTournament demoStarted "t1" = Some (mkTournament "t1" "ongoing" 4 2 1 None) /\
  exists created db2,
    generate demoId "t1"
             (snd (TournamentService.updateStatus (fun _ => false) "t1" "draft"
                                                  demoStarted))
    = (Returned created, db2) /\
    Z.of_nat (List.length (findMatches db2 "t1")) = 6.
Proof.
  destruct (updateStatus_spec demoId (fun _ => false) demoStarted "t1" "paused")
    as (_ & Hfail & _).
  destruct (updateStatus_spec demoId (fun _ => false) demoStarted "t1" "draft")
    as (Hdone & _ & Hagain).
  split; [|split; [|split; [reflexivity|]]].
  - destruct (TournamentService.updateStatus (fun _ => false) "t1" "paused" demoStarted)
      as [[r|f] db'] eqn:E; [discriminate|].
    destruct (Hfail f db' eq_refl) as [-> ->]. reflexivity.
  - destruct Hdone as (db' & Hrun & _); [left; reflexivity|].
    exists db'. exact Hrun.
  - destruct (Hagain (mkTournament "t1" "ongoing" 4 2 1 None) 2)
      as (created & db2 & Hgen & _ & Hlen); [|reflexivity|reflexivity|lia|].
    + exists (mkTournament "t1" "ongoing" 4 2 1 None), 2.
      split; [reflexivity|]. split; [lia|]. repeat split; reflexivity.
    + exists created, db2. split; [exact Hgen|exact Hlen].
Defined.

(** Match 1 of the tournament of four scored 3-1: the call returns the
    completed match, a semifinal won by seed 1. *)
Lemma updateScore_returns_witness :
  exists view,
    getMatch demoSemi1 "m" = Returned (Some view) /\
    fst (updateScore demoId "2024-01-01" "m" 3 1 demoAssigned)
    = Returned (Some (md_match (mv_data view))) /\
    mv_roundName view = "Semi Final" /\
    md_winner (mv_data view) = Some (demoParticipant "a" 1).
Proof.
  destruct (updateScore_returns demoId "2024-01-01" demoAssigned "m" 3 1
              (mkMatch "m" "t1" 1 1 (Some "a") (Some "d") None None None "upcoming")
              (getMatchById demoSemi1 "m") demoSemi1)
    as (p1 & p2 & t' & view & E1 & E2 & Hret);
    [reflexivity|exact demo_match_ids|reflexivity|].
  cbv zeta in Hret. destruct Hret as (_ & _ & _ & Hview & _).
  exists view. split; [exact Hview|].
  vm_compute in Hview. injection Hview as <-. repeat split; reflexivity.
Defined.

(** Seed 1 withdrawn before the tournament of four starts: the start is
    the same, and seed 1 sits in match 1. *)
Lemma withdraw_keeps_seat_witness :
  fst (TournamentService.start "t1" (snd (ParticipantService.withdraw "a" demoGenerated)))
  = Done (Some (mkTournament "t1" "ongoing" 4 2 1 None)) /\
  getMatchById
    (snd (TournamentService.start "t1"
            (snd (ParticipantService.withdraw "a" demoGenerated)))) "m"
  = Some (mkMatch "m" "t1" 1 1 (Some "a") (Some "d") None None None "upcoming").
Proof.
  destruct (withdraw_keeps_seat demoId "2024-01-01" demoGenerated "a" "t1")
    as (_ & _ & _ & (Hout & _ & Hmatches & _) & _).
  split.
  - rewrite Hout. reflexivity.
  - unfold getMatchById. rewrite Hmatches. reflexivity.
Defined.

(** The statistics of the tournament of four played through: three
    matches, all completed, nine goals, and the first semifinal (3-1) the
    match with the most goals. *)
Lemma getStats_spec_witness :
  exists stats,
    getStats demoFinal "t1" = Some stats /\
    st_totalMatches stats = 3 /\ st_completedMatches stats = 3 /\
    st_pendingMatches stats = 0 /\ st_totalGoals stats = 9 /\
    option_map m_id (st_highestScoreMatch stats) = Some "m".
Proof.
  destruct (getStats_spec demoId "2024-01-01" demoFinal "t1") as (_ & Hstats).
  destruct (getStats demoFinal "t1") as [stats|] eqn:E; [|discriminate].
  destruct (Hstats stats eq_refl) as (_ & Hall & Hdone & Hpending & _ & Hgoals & _).
  exists stats. split; [reflexivity|].
  split; [exact Hall|]. split; [exact Hdone|]. split; [exact Hpending|].
  split; [exact Hgoals|].
  vm_compute in E. injection E as <-. reflexivity.
Defined.
